(** * Blog-Document-to-HTML: the rule-based conversion core

    A shallow embedding of the heading/section classification and
    HTML-assembly engine (DocumentParser, SectionDetector, the id generator
    of TemplateSystem, the statistics of AIDocumentParser and the rule-based
    fallbacks of the serverless function and of the Express server), and the
    properties stated about it.

    JavaScript strings are sequences of UTF-16 code units; a code unit is a
    number in [N].  Regular expressions are embedded as syntax trees run by a
    backtracking matcher with the priorities of the ECMAScript semantics
    (leftmost alternative first, greedy and lazy repetition, capture groups). *)

From Stdlib Require Import String Ascii DecimalString NArith Arith Bool Lia List.
Import ListNotations.

Set Implicit Arguments.

(** ** JavaScript strings *)

Module JS.

Definition jsstring := list N.

(** Literals of the source.  The literals of this file write [~] for the
    double quote (code unit 34); no literal of the source contains a [~]. *)
Definition unquote (c : N) : N := if N.eqb c 126 then 34%N else c.

Definition ch (a : ascii) : N := unquote (N_of_ascii a).

Definition js (s : string) : jsstring := map ch (list_ascii_of_string s).

Definition nl : jsstring := [10%N].

(** Lines of a template literal, joined by the line feeds between them. *)
Fixpoint unlines (ls : list jsstring) : jsstring :=
  match ls with
  | [] => []
  | [l] => l
  | l :: rest => l ++ nl ++ unlines rest
  end.

Definition str_eqb (a b : jsstring) : bool :=
  if list_eq_dec N.eq_dec a b then true else false.

Local Open Scope N_scope.

(** WhiteSpace and LineTerminator code units: the class [\s] and what
    [String.prototype.trim] strips. *)
Definition is_space (c : N) : bool :=
  ((9 <=? c) && (c <=? 13)) || (c =? 32) || (c =? 160) || (c =? 5760)
  || ((8192 <=? c) && (c <=? 8202)) || (c =? 8232) || (c =? 8233)
  || (c =? 8239) || (c =? 8287) || (c =? 12288) || (c =? 65279).

Definition is_digit (c : N) : bool := (48 <=? c) && (c <=? 57).
Definition is_upper (c : N) : bool := (65 <=? c) && (c <=? 90).
Definition is_lower (c : N) : bool := (97 <=? c) && (c <=? 122).
Definition is_word (c : N) : bool :=
  is_upper c || is_lower c || is_digit c || (c =? 95).
Definition is_line_terminator (c : N) : bool :=
  (c =? 10) || (c =? 13) || (c =? 8232) || (c =? 8233).

(** ASCII case mapping of one code unit. *)
Definition upper1 (c : N) : N := if is_lower c then c - 32 else c.
Definition lower1 (c : N) : N := if is_upper c then c + 32 else c.

Local Close Scope N_scope.

Fixpoint trimStart (s : jsstring) : jsstring :=
  match s with
  | c :: s' => if is_space c then trimStart s' else s
  | [] => []
  end.

Definition trimEnd (s : jsstring) : jsstring := rev (trimStart (rev s)).

Definition trim (s : jsstring) : jsstring := trimEnd (trimStart s).

Fixpoint startsWith (s p : jsstring) : bool :=
  match p, s with
  | [], _ => true
  | a :: p', b :: s' => N.eqb a b && startsWith s' p'
  | _ :: _, [] => false
  end.

Definition endsWith (s p : jsstring) : bool := startsWith (rev s) (rev p).

Fixpoint includes (s p : jsstring) : bool :=
  startsWith s p ||
  match s with
  | [] => false
  | _ :: s' => includes s' p
  end.

(** [s.substring(0, n)] *)
Definition substring0 (n : nat) (s : jsstring) : jsstring := firstn n s.

(** [s.split(sep)] for a non-empty separator string. *)
Fixpoint split_go (sep s : jsstring) (skip : nat) (acc : jsstring)
  : list jsstring :=
  match s with
  | [] => [rev acc]
  | x :: s' =>
      match skip with
      | S n => split_go sep s' n acc
      | O =>
          if startsWith s sep
          then rev acc :: split_go sep s' (length sep - 1) []
          else split_go sep s' 0 (x :: acc)
      end
  end.

Definition split (sep s : jsstring) : list jsstring := split_go sep s 0 [].

(** [a.join(sep)] *)
Fixpoint join (sep : jsstring) (ls : list jsstring) : jsstring :=
  match ls with
  | [] => []
  | [l] => l
  | l :: rest => l ++ sep ++ join sep rest
  end.

(** A number inside a template literal: its decimal digits. *)
Definition of_nat (n : nat) : jsstring :=
  map N_of_ascii (list_ascii_of_string (NilEmpty.string_of_uint (Nat.to_uint n))).

(** GetSubstitution for a replacement string used with a string pattern:
    [$$], [$&], [$`] and [$'] are expanded, every other [$] stays as it is
    (there are no capture groups). *)
Fixpoint getSubstitution (matched before after repl : jsstring) : jsstring :=
  match repl with
  | 36%N :: 36%N :: r' => 36%N :: getSubstitution matched before after r'
  | 36%N :: 38%N :: r' => matched ++ getSubstitution matched before after r'
  | 36%N :: 96%N :: r' => before ++ getSubstitution matched before after r'
  | 36%N :: 39%N :: r' => after ++ getSubstitution matched before after r'
  | c :: rest => c :: getSubstitution matched before after rest
  | [] => []
  end.

(** [s.replace(pat, repl)] for a string pattern: the first occurrence only. *)
Fixpoint replace_str_go (pat repl s : jsstring) (acc : jsstring)
  : jsstring :=
  if startsWith s pat
  then rev acc
       ++ getSubstitution pat (rev acc) (skipn (length pat) s) repl
       ++ skipn (length pat) s
  else match s with
       | [] => rev acc
       | x :: s' => replace_str_go pat repl s' (x :: acc)
       end.

Definition replace_str (pat repl s : jsstring) : jsstring :=
  replace_str_go pat repl s [].

(** [toUpperCase] and [toLowerCase] follow the Unicode tables of the host.
    The model takes them as an interface; what is proved for every string
    holds for every instance of it. *)
Class CaseMap := {
  toUpperCase : jsstring -> jsstring;
  toLowerCase : jsstring -> jsstring
}.

(** The case mapping of the host on strings of ASCII letters; it leaves
    every other code unit as it is. *)
Definition ascii_case : CaseMap :=
  {| toUpperCase := map upper1; toLowerCase := map lower1 |}.

(** What a call returns: a value, or a thrown TypeError. *)
Inductive result (A : Type) : Type :=
| Ok (a : A)
| TypeError.
Arguments TypeError {A}.

Definition bind (A B : Type) (m : result A) (f : A -> result B) : result B :=
  match m with
  | Ok a => f a
  | TypeError => TypeError
  end.

(** [s.lastIndexOf(p)], with [None] for -1. *)
Fixpoint lastIndexOf_go (p s : jsstring) (i : nat) (last : option nat)
  : option nat :=
  let last := if startsWith s p then Some i else last in
  match s with
  | [] => last
  | _ :: s' => lastIndexOf_go p s' (S i) last
  end.

Definition lastIndexOf (s p : jsstring) : option nat :=
  lastIndexOf_go p s 0 None.

(** [s.substring(start)] for a start that is an index or -1: a negative
    start counts as 0, a start beyond the end as the length. *)
Definition substring_from (start : option nat) (s : jsstring) : jsstring :=
  match start with
  | Some k => skipn k s
  | None => s
  end.

End JS.

Notation "x <- m ;; f" := (JS.bind m (fun x => f))
  (at level 61, m at next level, right associativity).

(** ** Regular expressions *)

Module Regex.
Import JS.

(** The pattern syntax the source uses.  [Chr p] is any atom that consumes
    one code unit (a literal, [.], a class escape or a bracket class), given
    by its membership test. *)
Inductive regex : Type :=
| Eps
| Chr (p : N -> bool)
| Seq (r1 r2 : regex)
| Alt (r1 r2 : regex)
| Star (greedy : bool) (r : regex)
| Grp (n : nat) (r : regex)
| Bol
| Eol
| WordB
| NotBehind (p : N -> bool)
| NotAhead (p : N -> bool).

Definition caps := list (nat * jsstring).

(** A continuation receives the code unit before the position, the rest of
    the input and the captures so far. *)
Definition cont (A : Type) := option N -> jsstring -> caps -> option A.

Definition at_word (o : option N) : bool :=
  match o with Some c => is_word c | None => false end.

(** The loop of a repetition [r*] or [r*?]: [step] matches the body once.
    An iteration that consumes nothing is rejected, as RepeatMatcher does, so
    the length of the input bounds the number of iterations. *)
Fixpoint star_loop (A : Type)
  (step : option N -> jsstring -> caps -> cont A -> option A)
  (greedy : bool) (k : cont A) (fuel : nat) (prev : option N) (s : jsstring)
  (c : caps) {struct fuel} : option A :=
  match fuel with
  | O => k prev s c
  | S fuel' =>
      let iter :=
        step prev s c
          (fun p' s' c' =>
             if length s' <? length s
             then star_loop step greedy k fuel' p' s' c'
             else None) in
      if greedy
      then match iter with Some a => Some a | None => k prev s c end
      else match k prev s c with Some a => Some a | None => iter end
  end.

(** The backtracking matcher, in continuation-passing style. *)
Fixpoint rmatch (A : Type) (r : regex) (prev : option N) (s : jsstring)
  (c : caps) (k : cont A) {struct r} : option A :=
  match r with
  | Eps => k prev s c
  | Chr p =>
      match s with
      | x :: s' => if p x then k (Some x) s' c else None
      | [] => None
      end
  | Seq r1 r2 => rmatch r1 prev s c (fun p' s' c' => rmatch r2 p' s' c' k)
  | Alt r1 r2 =>
      match rmatch r1 prev s c k with
      | Some a => Some a
      | None => rmatch r2 prev s c k
      end
  | Star g r1 => star_loop (rmatch r1) g k (length s) prev s c
  | Grp n r1 =>
      rmatch r1 prev s c
        (fun p' s' c' => k p' s' ((n, firstn (length s - length s') s) :: c'))
  | Bol => match prev with None => k prev s c | Some _ => None end
  | Eol => match s with [] => k prev s c | _ :: _ => None end
  | WordB =>
      if xorb (at_word prev) (at_word (hd_error s)) then k prev s c else None
  | NotBehind p =>
      match prev with
      | Some x => if p x then None else k prev s c
      | None => k prev s c
      end
  | NotAhead p =>
      match s with
      | x :: _ => if p x then None else k prev s c
      | [] => k prev s c
      end
  end.

(** A match at the current position: what follows it, and the captures. *)
Definition match_here (r : regex) (prev : option N) (s : jsstring)
  : option (jsstring * caps) :=
  rmatch r prev s [] (fun _ s' c' => Some (s', c')).

(** One match: the matched text and its captures. *)
Definition found := (jsstring * caps)%type.

Fixpoint cap (n : nat) (c : caps) : jsstring :=
  match c with
  | [] => []
  | (m, v) :: c' => if Nat.eqb m n then v else cap n c'
  end.

(** All matches of a global pattern, left to right, each with the text
    between the previous match and itself, and the text after the last one.
    After an empty match the scan moves on by one code unit. *)
Fixpoint scan (r : regex) (prev : option N) (s : jsstring) (skip : nat)
  (acc : jsstring) {struct s} : list (jsstring * found) * jsstring :=
  match skip with
  | S n =>
      match s with
      | [] => ([], rev acc)
      | x :: s' => scan r (Some x) s' n acc
      end
  | O =>
      match match_here r prev s with
      | Some (rest, c) =>
          let len := length s - length rest in
          let m := (firstn len s, c) in
          match s with
          | [] => ([(rev acc, m)], [])
          | x :: s' =>
              let '(ms, tl) :=
                match len with
                | O => scan r (Some x) s' 0 [x]
                | S n => scan r (Some x) s' n []
                end in
              ((rev acc, m) :: ms, tl)
          end
      | None =>
          match s with
          | [] => ([], rev acc)
          | x :: s' => scan r (Some x) s' 0 (x :: acc)
          end
      end
  end.

Definition matches (r : regex) (s : jsstring) : list (jsstring * found) * jsstring :=
  scan r None s 0 [].

(** [s.match(/r/g)]: the matched texts ([null] is the empty list here; the
    source only asks for the length and the elements). *)
Definition match_all (r : regex) (s : jsstring) : list jsstring :=
  map (fun pm => fst (snd pm)) (fst (matches r s)).

(** [s.replace(/r/g, f)] with the replacement computed from each match. *)
Definition replace_all (r : regex) (f : found -> jsstring) (s : jsstring)
  : jsstring :=
  let '(ms, tl) := matches r s in
  concat (map (fun pm => fst pm ++ f (snd pm)) ms) ++ tl.

(** The first match of a pattern without the [g] flag, searched from the
    start: the text before it, the match, and the text after it. *)
Fixpoint search (r : regex) (prev : option N) (s : jsstring) (acc : jsstring)
  : option (jsstring * found * jsstring) :=
  match match_here r prev s with
  | Some (rest, c) => Some (rev acc, (firstn (length s - length rest) s, c), rest)
  | None =>
      match s with
      | [] => None
      | x :: s' => search r (Some x) s' (x :: acc)
      end
  end.

(** [/r/.test(s)] *)
Definition test (r : regex) (s : jsstring) : bool :=
  match search r None s [] with Some _ => true | None => false end.

(** [s.replace(/r/, f)] without the [g] flag. *)
Definition replace_first (r : regex) (f : found -> jsstring) (s : jsstring)
  : jsstring :=
  match search r None s [] with
  | Some (pre, m, post) => pre ++ f m ++ post
  | None => s
  end.

(** [s.split(/r/)] for a pattern without groups: a match that ends where the
    current piece starts is skipped. *)
Fixpoint split_re_go (r : regex) (prev : option N) (s : jsstring) (skip : nat)
  (acc : jsstring) (fresh : bool) {struct s} : list jsstring :=
  match s with
  | [] => [rev acc]
  | x :: s' =>
      match skip with
      | S n => split_re_go r (Some x) s' n acc fresh
      | O =>
          match match_here r prev s with
          | Some (rest, _) =>
              match length s - length rest with
              | O =>
                  if fresh then split_re_go r (Some x) s' 0 (x :: acc) false
                  else rev acc :: split_re_go r (Some x) s' 0 [x] false
              | S n => rev acc :: split_re_go r (Some x) s' n [] true
              end
          | None => split_re_go r (Some x) s' 0 (x :: acc) false
          end
      end
  end.

Definition split_re (r : regex) (s : jsstring) : list jsstring :=
  match s with
  | [] => match match_here r None [] with Some _ => [] | None => [[]] end
  | _ :: _ => split_re_go r None s 0 [] true
  end.

(** *** Pattern atoms *)

Definition any : regex := Chr (fun _ => true).               (* [\s\S] *)
Definition dot : regex := Chr (fun c => negb (is_line_terminator c)).
Definition space : regex := Chr is_space.                     (* \s *)
Definition digit : regex := Chr is_digit.                     (* \d *)
Definition c1 (a : ascii) : regex := Chr (N.eqb (ch a)).
Definition not1 (a : ascii) : regex := Chr (fun c => negb (N.eqb (ch a) c)).
(** a literal code unit under the [i] flag *)
Definition ci (a : ascii) : regex :=
  Chr (fun c => N.eqb (upper1 (ch a)) (upper1 c)).

Fixpoint seqs (rs : list regex) : regex :=
  match rs with
  | [] => Eps
  | [r] => r
  | r :: rest => Seq r (seqs rest)
  end.

Definition lit (s : string) : regex := seqs (map c1 (list_ascii_of_string s)).
Definition lit_i (s : string) : regex := seqs (map ci (list_ascii_of_string s)).

Definition star (r : regex) : regex := Star true r.           (* r* *)
Definition lazy (r : regex) : regex := Star false r.          (* r*? *)
Definition plus (r : regex) : regex := Seq r (Star true r).   (* r+ *)
Definition opt (r : regex) : regex := Alt r Eps.              (* r? *)
Fixpoint at_least (n : nat) (r : regex) : regex :=            (* r{n,} *)
  match n with
  | O => Star true r
  | S n' => Seq r (at_least n' r)
  end.

End Regex.

(** ** SectionDetector *)

Module SectionDetector.
Import JS Regex.

(** An element of an [items] array: a string, or a heading object
    [{ text, id, level }] as collected for the table of contents. *)
Inductive item : Type :=
| IStr (s : jsstring)
| IObj (text id : jsstring) (level : nat).

(** An item inside a template literal. *)
Definition interp (it : item) : jsstring :=
  match it with
  | IStr s => s
  | IObj _ _ _ => js "[object Object]"
  end.

Definition truthy (s : jsstring) : bool :=
  match s with [] => false | _ :: _ => true end.

(** Receivers of a string method: a heading object has none and the call
    throws. *)
Fixpoint strings_of (items : list item) : result (list jsstring) :=
  match items with
  | [] => Ok []
  | IStr s :: rest => ss <- strings_of rest ;; Ok (s :: ss)
  | IObj _ _ _ :: _ => TypeError
  end.

(** [this.sectionMappings], in the order of the object literal (the order
    [Object.entries] yields). *)
Definition sectionMappings : list (jsstring * jsstring) :=
  [ (js "TABLE OF CONTENTS", js "toc");
    (js "TOC", js "toc");
    (js "CONTENTS", js "toc");
    (js "INDEX", js "toc");
    (js "<TABLE-OF-CONTENTS>", js "toc");
    (js "<TOC>", js "toc");
    (js "KEY TAKEAWAYS", js "key-takeaways");
    (js "KEY POINTS", js "key-takeaways");
    (js "MAIN POINTS", js "key-takeaways");
    (js "SUMMARY POINTS", js "key-takeaways");
    (js "HIGHLIGHTS", js "key-takeaways");
    (js "IMPORTANT POINTS", js "key-takeaways");
    (js "<KEY-TAKEAWAYS>", js "key-takeaways");
    (js "<KEY-POINTS>", js "key-takeaways");
    (js "CALL TO ACTION", js "cta");
    (js "CTA", js "cta");
    (js "CTA 1", js "cta1");
    (js "CTA 2", js "cta2");
    (js "GET STARTED", js "cta");
    (js "CONTACT US", js "cta");
    (js "READY TO START", js "cta");
    (js "WANT TO BUILD", js "cta");
    (js "NEED HELP", js "cta");
    (js "GET IN TOUCH", js "cta");
    (js "<CALL-TO-ACTION>", js "cta");
    (js "<CTA>", js "cta");
    (js "FAQ", js "faq");
    (js "FREQUENTLY ASKED QUESTIONS", js "faq");
    (js "COMMON QUESTIONS", js "faq");
    (js "Q&A", js "faq");
    (js "QUESTIONS", js "faq");
    (js "<FAQ>", js "faq");
    (js "STEPS", js "steps");
    (js "STEP BY STEP", js "steps");
    (js "PROCESS", js "steps");
    (js "HOW TO", js "steps");
    (js "TUTORIAL", js "steps");
    (js "GUIDE", js "steps");
    (js "<STEPS>", js "steps");
    (js "<PROCESS>", js "steps");
    (js "COMPARISON", js "comparison");
    (js "VS", js "comparison");
    (js "PROS AND CONS", js "pros-cons");
    (js "ADVANTAGES AND DISADVANTAGES", js "pros-cons");
    (js "BENEFITS AND DRAWBACKS", js "pros-cons");
    (js "<COMPARISON>", js "comparison");
    (js "<PROS-AND-CONS>", js "pros-cons");
    (js "BENEFITS", js "bullet-list");
    (js "FEATURES", js "bullet-list");
    (js "ADVANTAGES", js "bullet-list");
    (js "REQUIREMENTS", js "bullet-list");
    (js "SPECIFICATIONS", js "bullet-list");
    (js "<BENEFITS>", js "bullet-list");
    (js "<FEATURES>", js "bullet-list");
    (js "<IGNORE>", js "ignore");
    (js "TABLE", js "table");
    (js "[TABLE START]", js "table");
    (js "<TABLE>", js "table");
    (js "DATA TABLE", js "table");
    (js "COMPARISON TABLE", js "table") ].

(** The keys an object literal lists, as a finite map.  A property read
    [obj[key]] finds these first and the properties of [Object.prototype]
    after them.  [sectionMappings] is read with text in upper case, which
    names no inherited property; the read of [sectionTemplates] takes a
    section type as it comes, and [processSectionContent] below adds the
    inherited properties. *)
Fixpoint lookup (A : Type) (key : jsstring) (obj : list (jsstring * A))
  : option A :=
  match obj with
  | [] => None
  | (k, v) :: rest => if str_eqb key k then Some v else lookup key rest
  end.

Definition isStartTag (text : jsstring) : bool :=
  startsWith text (js "<") && endsWith text (js ">")
  && negb (includes text (js "END>")).

Definition isEndTag (text : jsstring) : bool :=
  (startsWith text (js "<") && includes text (js "END>"))
  || includes text (js "[TABLE END]")
  || includes text (js "</TABLE>").

Definition getSectionTypeFromTag (tag : jsstring) : option jsstring :=
  lookup tag sectionMappings.

Definition getTagFromEndTag (endTag : jsstring) : jsstring :=
  replace_str (js " END>") (js ">") endTag.

(** The test of the loop of [detectSectionType] on one entry. *)
Definition near_match (normalizedText keyword : jsstring) : bool :=
  str_eqb normalizedText keyword
  || str_eqb normalizedText (keyword ++ js ":")
  || str_eqb normalizedText (keyword ++ js ".")
  || ((length normalizedText <=? length keyword + 5)
      && includes normalizedText keyword).

Fixpoint first_near_match (normalizedText : jsstring)
  (entries : list (jsstring * jsstring)) : option jsstring :=
  match entries with
  | [] => None
  | (keyword, sectionType) :: rest =>
      if near_match normalizedText keyword then Some sectionType
      else first_near_match normalizedText rest
  end.

Section WithCase.
Context {CM : CaseMap}.

Definition detectSectionType (headingText : jsstring) : option jsstring :=
  let normalizedText := trim (toUpperCase headingText) in
  if isStartTag normalizedText then getSectionTypeFromTag normalizedText
  else
    match lookup normalizedText sectionMappings with
    | Some sectionType => Some sectionType
    | None => first_near_match normalizedText sectionMappings
    end.

Definition generateId (text : jsstring) : jsstring :=
  substring0 50
    (replace_all (plus space) (fun _ => js "-")
       (replace_all
          (Chr (fun c => negb (is_lower c || is_digit c || is_space c
                               || N.eqb c (ch "-"))))
          (fun _ => [])
          (toLowerCase text))).

Definition processRegularContent (content : jsstring) : jsstring :=
  js "<p>" ++ content ++ js "</p>".

Definition questionWords : list jsstring :=
  map js [ "how"; "what"; "when"; "where"; "why"; "who"; "which"; "can";
           "will"; "should"; "is"; "are"; "do"; "does" ]%string.

Definition isLikelyQuestion (text : jsstring) : bool :=
  let firstWord := hd [] (split (js " ") (toLowerCase text)) in
  existsb (str_eqb firstWord) questionWords && (10 <? length text).

(** One question with its answer paragraphs, as [processFAQItems] appends
    it. *)
Definition faq_pair (currentQuestion : jsstring)
  (answerParagraphs : list jsstring) : jsstring :=
  js "    <h3 id=~" ++ generateId currentQuestion ++ js "~>"
  ++ currentQuestion ++ js "</h3>" ++ nl
  ++ concat (map (fun paragraph => js "    <p>" ++ paragraph ++ js "</p>" ++ nl)
               answerParagraphs).

(** The state of the loop of [processFAQItems]. *)
Record faq_state : Type := {
  faqHtml : jsstring;
  currentQuestion : jsstring;
  answerParagraphs : list jsstring
}.

Definition faq_step (st : faq_state) (raw : jsstring) : faq_state :=
  let item := trim raw in
  if negb (truthy item) then st
  else if endsWith item (js "?") || isLikelyQuestion item then
    {| faqHtml :=
         if truthy (currentQuestion st)
            && (0 <? length (answerParagraphs st))
         then faqHtml st
              ++ faq_pair (currentQuestion st) (answerParagraphs st) ++ nl
         else faqHtml st;
       currentQuestion := item;
       answerParagraphs := [] |}
  else if truthy (currentQuestion st) then
    {| faqHtml := faqHtml st;
       currentQuestion := currentQuestion st;
       answerParagraphs := answerParagraphs st ++ [item] |}
  else if 20 <? length item then
    {| faqHtml := faqHtml st;
       currentQuestion := currentQuestion st;
       answerParagraphs := answerParagraphs st ++ [item] |}
  else st.

Definition faq_finish (st : faq_state) : jsstring :=
  if truthy (currentQuestion st) && (0 <? length (answerParagraphs st))
  then faqHtml st ++ faq_pair (currentQuestion st) (answerParagraphs st)
  else if negb (truthy (currentQuestion st))
          && (0 <? length (answerParagraphs st))
  then faqHtml st
       ++ concat (map (fun paragraph =>
                         js "    <p>" ++ paragraph ++ js "</p>" ++ nl)
                    (answerParagraphs st))
  else faqHtml st.

Definition processFAQItems (items : list jsstring) : jsstring :=
  faq_finish
    (fold_left faq_step items
       {| faqHtml := []; currentQuestion := []; answerParagraphs := [] |}).

(** [items[n] || fallback] inside a template literal. *)
Definition item_or (n : nat) (items : list item) (fallback : jsstring)
  : jsstring :=
  match nth_error items n with
  | Some (IStr s) => if truthy s then s else fallback
  | Some it => interp it
  | None => fallback
  end.

Fixpoint map_index (A B : Type) (f : A -> nat -> B) (index : nat)
  (l : list A) : list B :=
  match l with
  | [] => []
  | a :: rest => f a index :: map_index f (S index) rest
  end.

Definition toc_item (it : item) : jsstring :=
  match it with
  | IObj text id _ =>
      if truthy text && truthy id
      then js "        <li><a href=~#" ++ id ++ js "~>" ++ text ++ js "</a></li>"
      else js "        <li>" ++ interp it ++ js "</li>"
  | IStr s =>
      js "        <li><a href=~#" ++ generateId s ++ js "~>" ++ s
      ++ js "</a></li>"
  end.

Definition template_toc (content : jsstring) (items : list item)
  : result jsstring :=
  if length items =? 0 then Ok []
  else Ok (unlines
    [ js "";
      js "<div class=~blog_index_cover~>";
      js "    <p class=~blog_index_toggle_btn fonts-16 w-700~>Table Of Contents</p>";
      js "    <ol class=~blog_index~ style=~display: none;~>";
      join nl (map toc_item items);
      js "    </ol>";
      js "</div>" ]).

Definition template_key_takeaways (content : jsstring) (items : list item)
  : result jsstring :=
  Ok (unlines
    [ js "";
      js "<ul class=~kta-list~>";
      js "    <p>Key Takeaways</p>";
      join nl (map (fun item => js "    <li>" ++ interp item ++ js "</li>") items);
      js "</ul>" ]).

Definition template_cta (content : jsstring) (items : list item)
  : result jsstring :=
  let heading := item_or 0 items (js "Ready to Get Started?") in
  let description := item_or 1 items
    (js "Get in touch with our experienced team for a free consultation.") in
  let buttonText := item_or 2 items (js "Schedule Free Consultation") in
  let imageUrl := item_or 3 items
    (js "https://www.spaceotechnologies.com/wp-content/uploads/2023/04/cta-img.png") in
  Ok (unlines
    [ js "";
      js "<div class=~callout_newbox~>";
      js "    <div class=~left-part~>";
      js "        <p class=~call_heading~>" ++ heading ++ js "</p>";
      js "        <p>" ++ description ++ js "</p>";
      js "        <div class=~sec-btn~>";
      js "            <button class=~btn mb0 mt15 open-qouteform~ type=~button~ data-medium=~B_1~>";
      js "                " ++ buttonText ++ js " <strong class=~aero_icon~></strong>";
      js "            </button>";
      js "        </div>";
      js "    </div>";
      js "    <div class=~right-part~>";
      js "        <img src=~" ++ imageUrl ++ js "~ alt=~CTA Image~ width=~278~ height=~337~ class=~alignnone size-full wp-image-194985~ />";
      js "    </div>";
      js "</div>" ]).

Definition template_cta1 (content : jsstring) (items : list item)
  : result jsstring :=
  let heading := item_or 0 items (js "Want To Create An Android Application?") in
  let description := item_or 1 items
    (js "Looking to Create An Android app? Get in touch with our experienced Android app developers for a free consultation.") in
  let buttonText := item_or 2 items (js "Schedule Free Consultation") in
  let imageUrl := item_or 3 items
    (js "https://www.spaceotechnologies.com/wp-content/uploads/2023/04/cta-img.png") in
  Ok (unlines
    [ js "";
      js "<div class=~callout_newbox~ style=~display: flex; align-items: center; background: #f8f9fa; padding: 30px; border-radius: 10px; margin: 20px 0; max-width: 100%; overflow: hidden;~>";
      js "    <div class=~left-part~ style=~flex: 1; padding-right: 30px; min-width: 0;~>";
      js "        <h3 class=~call_heading~ style=~font-size: 24px; font-weight: bold; margin: 0 0 15px 0; color: #333; line-height: 1.3;~>" ++ heading ++ js "</h3>";
      js "        <p style=~font-size: 16px; line-height: 1.6; color: #666; margin: 0 0 20px 0;~>" ++ description ++ js "</p>";
      js "        <div class=~sec-btn~>";
      js "            <button class=~btn mb0 mt15 open-qouteform~ type=~button~ data-medium=~B_1~ style=~background: #e74c3c; color: white; padding: 12px 25px; border: none; border-radius: 5px; font-weight: bold; cursor: pointer; font-size: 14px;~>";
      js "                " ++ buttonText ++ js " <strong class=~aero_icon~ style=~margin-left: 5px;~>" ++ [8594%N] ++ js "</strong>";
      js "            </button>";
      js "        </div>";
      js "    </div>";
      js "    <div class=~right-part~ style=~flex: 0 0 280px; max-width: 280px;~>";
      js "        <img src=~" ++ imageUrl ++ js "~ alt=~Cta Image~ style=~width: 100%; height: auto; border-radius: 10px; display: block;~ />";
      js "    </div>";
      js "</div>";
      js "<style>";
      js "@media (max-width: 768px) {";
      js "    .callout_newbox {";
      js "        flex-direction: column !important;";
      js "        text-align: center !important;";
      js "    }";
      js "    .callout_newbox .left-part {";
      js "        padding-right: 0 !important;";
      js "        margin-bottom: 20px !important;";
      js "    }";
      js "    .callout_newbox .right-part {";
      js "        flex: none !important;";
      js "        max-width: 250px !important;";
      js "        margin: 0 auto !important;";
      js "    }";
      js "}";
      js "</style>" ]).

Definition template_cta2 (content : jsstring) (items : list item)
  : result jsstring :=
  let heading := item_or 0 items
    (js "Get a Free Mobile App Development Strategy Session") in
  let description := item_or 1 items
    (js "Discover the best approach to building a custom mobile app tailored to your business. Get expert insights with no obligation.") in
  let buttonText := item_or 2 items (js "Claim My Free Strategy Session") in
  Ok (unlines
    [ js "";
      js "<div class=~callout_box~>";
      js "    <p class=~call_heading~>" ++ heading ++ js "</p>";
      js "    <p>" ++ description ++ js "</p>";
      js "    <div class=~sec-btn~>";
      js "        <button class=~btn mb0 mt15 newsletter-green~ type=~button~ data-toggle=~modal~ data-target=~#popform~>";
      js "            " ++ buttonText ++ js " <strong class=~aero_icon~></strong>";
      js "        </button>";
      js "    </div>";
      js "</div>" ]).

Definition template_faq (content : jsstring) (items : list item)
  : result jsstring :=
  ss <- strings_of items ;;
  let faqItems := processFAQItems ss in
  Ok (unlines
    [ js "";
      js "<div class=~faq_blog~>";
      js "    <h2 id=~frequently-asked-questions~>Frequently Asked Questions</h2>";
      faqItems;
      js "</div>" ]).

(** The callback of the [steps] template on one item. *)
Definition steps_item (item : jsstring) (index : nat) : jsstring :=
  let parts := split (js ":") item in
  let title :=
    if truthy (hd [] parts) then hd [] parts
    else js "Step " ++ of_nat (index + 1) in
  let description :=
    if truthy (trim (join (js ":") (tl parts)))
    then trim (join (js ":") (tl parts))
    else item in
  unlines
    [ js "    <li>";
      js "        <h3>" ++ title ++ js "</h3>";
      js "        <p>" ++ description ++ js "</p>";
      js "    </li>" ].

Definition template_steps (content : jsstring) (items : list item)
  : result jsstring :=
  ss <- strings_of items ;;
  Ok (unlines
    [ js "";
      js "<ol class=~listing-bx~>";
      join nl (map_index steps_item 0 ss);
      js "</ol>" ]).

Definition pros_cons_item (it : item) : jsstring :=
  js "                        <li><span style=~font-weight: 400;~>"
  ++ interp it ++ js "</span></li>".

Definition template_pros_cons (content : jsstring) (items : list item)
  : result jsstring :=
  let midPoint := Nat.div (length items + 1) 2 in
  let pros := firstn midPoint items in
  let cons := skipn midPoint items in
  Ok (unlines
    [ js "";
      js "<div class=~table-responsive expense_track~>";
      js "    <table class=~table table-bordered table-striped~ dir=~ltr~ border=~1~ cellspacing=~0~ cellpadding=~0~>";
      js "        <tbody>";
      js "            <tr>";
      js "                <th style=~text-align: center; background: green; color: #fff; width: 50%;~><strong>Pros</strong></th>";
      js "                <th style=~text-align: center; background: red; color: #fff; width: 50%;~>Cons</th>";
      js "            </tr>";
      js "            <tr>";
      js "                <td>";
      js "                    <ul class=~pros~ style=~padding: 0; margin: 0;~>";
      join nl (map pros_cons_item pros);
      js "                    </ul>";
      js "                </td>";
      js "                <td>";
      js "                    <ul class=~cons~ style=~padding: 0; margin: 0;~>";
      join nl (map pros_cons_item cons);
      js "                    </ul>";
      js "                </td>";
      js "            </tr>";
      js "        </tbody>";
      js "    </table>";
      js "</div>" ]).

Definition template_bullet_list (content : jsstring) (items : list item)
  : result jsstring :=
  Ok (unlines
    [ js "";
      js "<ul class=~bullet-new-box~>";
      join nl (map (fun item => js "    <li>" ++ interp item ++ js "</li>") items);
      js "</ul>" ]).

Definition comparison_item (item : jsstring) : jsstring :=
  let parts := map trim (split (js "|") item) in
  if 3 <=? length parts then
    unlines
      [ js "        <tr>";
        js "            <td>" ++ nth 0 parts [] ++ js "</td>";
        js "            <td>" ++ nth 1 parts [] ++ js "</td>";
        js "            <td>" ++ nth 2 parts [] ++ js "</td>";
        js "        </tr>" ]
  else js "        <tr><td colspan=~3~>" ++ item ++ js "</td></tr>".

Definition template_comparison (content : jsstring) (items : list item)
  : result jsstring :=
  ss <- strings_of items ;;
  Ok (unlines
    [ js "";
      js "<table class=~comparison-table table table-bordered~>";
      js "    <thead>";
      js "        <tr class=~table-header~>";
      js "            <th>Feature</th>";
      js "            <th>Option 1</th>";
      js "            <th>Option 2</th>";
      js "        </tr>";
      js "    </thead>";
      js "    <tbody>";
      join nl (map comparison_item ss);
      js "    </tbody>";
      js "</table>" ]).

Definition template_ignore (content : jsstring) (items : list item)
  : result jsstring :=
  Ok [].

Definition tab : jsstring := [9%N].

(** The columns of one row: [split(..).map(col => col.trim()).filter(col => col)]. *)
Definition columns_of (pieces : list jsstring) : list jsstring :=
  filter truthy (map trim pieces).

(** The loop of [processTableItems] over the items from index [i] on. *)
Fixpoint table_rows (items : list jsstring) (i : nat)
  (headers : list jsstring) (tableData : list (list jsstring))
  : list jsstring * list (list jsstring) :=
  match items with
  | [] => (headers, tableData)
  | raw :: rest =>
      let item := trim raw in
      if negb (truthy item) then table_rows rest (S i) headers tableData
      else
        let columns :=
          if includes item (js "|") then columns_of (split (js "|") item)
          else if includes item tab || test (at_least 3 space) item
          then columns_of (split_re (Alt (Chr (N.eqb 9)) (at_least 3 space)) item)
          else [item] in
        if i =? 0 then table_rows rest (S i) columns tableData
        else table_rows rest (S i) headers (tableData ++ [columns])
  end.

Definition table_row_html (headers row : list jsstring) : jsstring :=
  nl ++ js "            <tr>" ++ nl
  ++ concat (map (fun cell => js "                <td>" ++ cell ++ js "</td>" ++ nl)
               (row ++ repeat [] (length headers - length row)))
  ++ js "            </tr>".

Definition processTableItems (items : list jsstring) : jsstring :=
  if length items =? 0 then []
  else
    let '(headers, tableData) := table_rows items 0 [] [] in
    unlines
      [ js "";
        js "<div class=~table-responsive travel_table v-middle~>";
        js "    <table class=~table table-bordered~ dir=~ltr~ border=~1~ cellspacing=~0~ cellpadding=~0~>";
        js "        <tbody>" ]
    ++ (if 0 <? length headers
        then
          let colWidth := Nat.div 100 (length headers) in
          nl ++ js "            <tr>" ++ nl
          ++ concat (map (fun header =>
                            js "                <th style=~width: "
                            ++ of_nat colWidth ++ js "%;~>" ++ header
                            ++ js "</th>" ++ nl) headers)
          ++ js "            </tr>"
        else [])
    ++ concat (map (table_row_html headers) tableData)
    ++ unlines
      [ js "";
        js "        </tbody>";
        js "    </table>";
        js "</div>" ].

Definition template_table (content : jsstring) (items : list item)
  : result jsstring :=
  if length items =? 0 then Ok []
  else ss <- strings_of items ;; Ok (processTableItems ss).

(** [this.sectionTemplates] *)
Definition sectionTemplates
  : list (jsstring * (jsstring -> list item -> result jsstring)) :=
  [ (js "toc", template_toc);
    (js "key-takeaways", template_key_takeaways);
    (js "cta", template_cta);
    (js "cta1", template_cta1);
    (js "cta2", template_cta2);
    (js "faq", template_faq);
    (js "steps", template_steps);
    (js "pros-cons", template_pros_cons);
    (js "bullet-list", template_bullet_list);
    (js "comparison", template_comparison);
    (js "ignore", template_ignore);
    (js "table", template_table) ].

(** What a call [template(content, items)] can return: the string of a
    template, or the value of a function that the object literal inherits
    from [Object.prototype]. *)
Inductive value : Type :=
| VString (s : jsstring)
| VBoolean (b : bool)
| VStringObject (s : jsstring).

(** The string that [html += v] appends and that [html.replace(p, v)] puts
    in: [true] and [false] for a boolean, the wrapped string for a [String]
    object. *)
Definition to_string (v : value) : jsstring :=
  match v with
  | VString s => s
  | VBoolean true => js "true"
  | VBoolean false => js "false"
  | VStringObject s => s
  end.

(** The properties of [Object.prototype].  [sectionTemplates] is an object
    literal, so [this.sectionTemplates[sectionType]] finds them where the
    literal has no key of that name; none of them is falsy. *)
Inductive inherited : Type :=
| Constructor
| DefineGetter
| DefineSetter
| HasOwnProperty
| LookupGetter
| LookupSetter
| IsPrototypeOf
| PropertyIsEnumerable
| ToString
| ValueOf
| Proto
| ToLocaleString.

Definition object_prototype : list (jsstring * inherited) :=
  [ (js "constructor", Constructor);
    (js "__defineGetter__", DefineGetter);
    (js "__defineSetter__", DefineSetter);
    (js "hasOwnProperty", HasOwnProperty);
    (js "__lookupGetter__", LookupGetter);
    (js "__lookupSetter__", LookupSetter);
    (js "isPrototypeOf", IsPrototypeOf);
    (js "propertyIsEnumerable", PropertyIsEnumerable);
    (js "toString", ToString);
    (js "valueOf", ValueOf);
    (js "__proto__", Proto);
    (js "toLocaleString", ToLocaleString) ].

(** [template(content, items)] where [template] is an inherited property.
    The call has no receiver ([this] is [undefined]) and [content] is a
    string: [Object(content)] wraps the string in a [String] object;
    [isPrototypeOf] answers [false] for an argument that is no object,
    before it looks at its receiver; [toString] names the receiver; the
    other functions turn their receiver into an object first, which throws
    for [undefined]; [__proto__] is the prototype object, no function, and
    calling it throws. *)
Definition call_inherited (f : inherited) (content : jsstring)
  : result value :=
  match f with
  | Constructor => Ok (VStringObject content)
  | IsPrototypeOf => Ok (VBoolean false)
  | ToString => Ok (VString (js "[object Undefined]"))
  | DefineGetter | DefineSetter | HasOwnProperty | LookupGetter
  | LookupSetter | PropertyIsEnumerable | ValueOf | Proto
  | ToLocaleString => TypeError
  end.

(** [const template = this.sectionTemplates[sectionType];
    if (!template) return this.processRegularContent(content);
    return template(content, items);] *)
Definition processSectionContent (sectionType content : jsstring)
  (items : list item) : result value :=
  match lookup sectionType sectionTemplates with
  | Some template => r <- template content items ;; Ok (VString r)
  | None =>
      match lookup sectionType object_prototype with
      | Some f => call_inherited f content
      | None => Ok (VString (processRegularContent content))
      end
  end.

End WithCase.

End SectionDetector.


(** ** DocumentParser *)

Module DocumentParser.
Import JS Regex.

Inductive list_type : Type := ordered | unordered.

(** A heading collected for the table of contents. *)
Definition heading_obj (text id : jsstring) (level : nat) : SectionDetector.item :=
  SectionDetector.IObj text id level.

Definition truthy := SectionDetector.truthy.

(** *** The patterns of the classifier *)

(** [/\*\*(.*?)\*\*/] *)
Definition re_bold : regex :=
  seqs [lit "**"; Grp 1 (lazy dot); lit "**"].
(** [/<strong>(.*?)<\/strong>/i] *)
Definition re_strong : regex :=
  seqs [lit_i "<strong>"; Grp 1 (lazy dot); lit_i "</strong>"].
(** [/\*\*.*?\*\*|<strong>.*?<\/strong>/gi] *)
Definition re_bold_or_strong : regex :=
  Alt (seqs [lit "**"; lazy dot; lit "**"])
      (seqs [lit_i "<strong>"; lazy dot; lit_i "</strong>"]).
(** [/^[A-Z\s\-:]+$/] *)
Definition re_caps_line : regex :=
  seqs [Bol;
        plus (Chr (fun c => is_upper c || is_space c || N.eqb c (ch "-")
                            || N.eqb c (ch ":")));
        Eol].
(** [/^\d+\.\s+[A-Z]/] *)
Definition re_numbered_title : regex :=
  seqs [Bol; plus digit; c1 "."; plus space; Chr is_upper].
(** [/^[A-Z]/] *)
Definition re_initial_cap : regex := Seq Bol (Chr is_upper).
(** [/^\d+\.\s+/] *)
Definition re_num1 : regex := seqs [Bol; plus digit; c1 "."; plus space].
(** [/^\d+\.\d+\.\s+/] *)
Definition re_num2 : regex :=
  seqs [Bol; plus digit; c1 "."; plus digit; c1 "."; plus space].
(** [/^\d+\.\d+\.\d+\.\s+/] *)
Definition re_num3 : regex :=
  seqs [Bol; plus digit; c1 "."; plus digit; c1 "."; plus digit; c1 ".";
        plus space].
(** [/\*\*|\<\/?strong\>/gi] *)
Definition re_bold_marks : regex :=
  Alt (lit "**") (seqs [c1 "<"; opt (c1 "/"); lit_i "strong"; c1 ">"]).
(** [/^\d+(\.\d+)*\.\s+/] *)
Definition re_number_prefix : regex :=
  seqs [Bol; plus digit; star (Grp 1 (Seq (c1 ".") (plus digit))); c1 ".";
        plus space].
(** [/_{2,}/g] *)
Definition re_underscores : regex := at_least 2 (c1 "_").
(** [/:$/] *)
Definition re_final_colon : regex := Seq (c1 ":") Eol.
(** [/^[-•*]\s+/] *)
Definition re_bullet : regex :=
  seqs [Bol;
        Chr (fun c => N.eqb c (ch "-") || N.eqb c 8226 || N.eqb c (ch "*"));
        plus space].
(** [/^\d+\./] *)
Definition re_ordered : regex := seqs [Bol; plus digit; c1 "."].
(** [/^[-•*\d+.]\s+/] *)
Definition re_list_marker : regex :=
  seqs [Bol;
        Chr (fun c => N.eqb c (ch "-") || N.eqb c 8226 || N.eqb c (ch "*")
                      || is_digit c || N.eqb c (ch "+") || N.eqb c (ch "."));
        plus space].
(** [/\s{3,}/] *)
Definition re_spaces3 : regex := at_least 3 space.

Definition strong_of (m : found) : jsstring :=
  js "<strong>" ++ cap 1 (snd m) ++ js "</strong>".

Section WithCase.
Context {CM : CaseMap}.

(** The Title Case test shared by [isHeading] and [getHeadingLevel]:
    [titleCaseWords.length >= words.length * 0.6], which on the doubles of
    two to ten words is [3 * words <= 5 * titleCaseWords]. *)
Definition titleCaseWords (words : list jsstring) : list jsstring :=
  filter (fun word => (0 <? length word) && test re_initial_cap word
                      && (2 <? length word)) words.

Definition mostly_title_case (words : list jsstring) : bool :=
  3 * length words <=? 5 * length (titleCaseWords words).

Definition isHeading (line : jsstring) : bool :=
  let text := trim line in
  if 150 <? length text then false
  else
    let hasBoldFormatting := test re_bold text || test re_strong text in
    if hasBoldFormatting && (5 <? length text) && (length text <? 100) then
      let beforeAfterContext :=
        trim (replace_all re_bold_or_strong (fun _ => []) text) in
      if 10 <? length beforeAfterContext then false else true
    else if (5 <? length text) && str_eqb text (toUpperCase text)
            && test re_caps_line text
            && (length (split_re (plus space) text) <=? 8) then true
    else if test re_numbered_title text then true
    else if endsWith text (js "?") && (10 <? length text)
            && (length text <? 80) then true
    else
      let words := split_re (plus space) text in
      if (2 <=? length words) && (length words <=? 10)
         && mostly_title_case words then true
      else if includes text (js "_") && test re_initial_cap text then true
      else if endsWith text (js ":") && (5 <? length text)
              && (length text <? 80) && test re_initial_cap text then true
      else false.

(** The level by the number of words: short 2, medium 3, long 4. *)
Definition level_by_words (words : list jsstring) : nat :=
  if length words <=? 3 then 2
  else if length words <=? 6 then 3
  else 4.

Definition getHeadingLevel (line : jsstring) : nat :=
  let text := trim line in
  if test re_num1 text then 2
  else if test re_num2 text then 3
  else if test re_num3 text then 4
  else
    let hasBoldFormatting := test re_bold text || test re_strong text in
    if hasBoldFormatting
       && (length (trim (replace_all re_bold_or_strong (fun _ => []) text))
           <=? 5)
    then
      let cleanText := replace_all re_bold_marks (fun _ => []) text in
      level_by_words (split_re (plus space) cleanText)
    else if endsWith text (js "?") then 3
    else if str_eqb text (toUpperCase text) && test re_caps_line text then
      level_by_words (split_re (plus space) text)
    else
      let words := split_re (plus space) text in
      if (2 <=? length words) && (length words <=? 10)
         && mostly_title_case words
      then level_by_words words
      else if endsWith text (js ":") then 3
      else if includes text (js "_") then 3
      else 2.

Definition cleanHeadingText (line : jsstring) : jsstring :=
  let cleanText := trim line in
  let cleanText := replace_first re_number_prefix (fun _ => []) cleanText in
  let cleanText := replace_all re_bold strong_of cleanText in
  let cleanText := replace_all re_strong strong_of cleanText in
  let cleanText := replace_all re_underscores (fun _ => []) cleanText in
  let cleanText := replace_first re_final_colon (fun _ => []) cleanText in
  trim cleanText.

Definition isListItem (line : jsstring) : bool :=
  test re_bullet line || test re_num1 line.

Definition getListType (line : jsstring) : list_type :=
  if test re_ordered line then ordered else unordered.

Definition cleanListItem (line : jsstring) : jsstring :=
  trim (replace_first re_list_marker (fun _ => []) line).

Definition is_ordered (type : option list_type) : bool :=
  match type with Some ordered => true | _ => false end.

Definition openList (type : option list_type) : jsstring :=
  let className := if is_ordered type then js "listing-bx"
                   else js "bullet-new-box" in
  let tag := if is_ordered type then js "ol" else js "ul" in
  js "<" ++ tag ++ js " class=~" ++ className ++ js "~>" ++ nl.

Definition closeList (type : option list_type) : jsstring :=
  let tag := if is_ordered type then js "ol" else js "ul" in
  js "</" ++ tag ++ js ">" ++ nl.

Definition generateId (text : jsstring) : jsstring :=
  substring0 50
    (replace_all (plus space) (fun _ => js "-")
       (replace_all
          (Chr (fun c => negb (is_lower c || is_digit c || is_space c
                               || N.eqb c (ch "-"))))
          (fun _ => [])
          (toLowerCase text))).

(** *** formatRichText *)

(** [/__(.*?)__/g] *)
Definition re_bold_underscore : regex :=
  seqs [lit "__"; Grp 1 (lazy dot); lit "__"].
(** [/(?<!\x2a)\x2a([^\x2a]+)\x2a(?!\x2a)/g], writing [\x2a] for the
    asterisk *)
Definition re_italic_star : regex :=
  seqs [NotBehind (N.eqb (ch "*")); c1 "*"; Grp 1 (plus (not1 "*")); c1 "*";
        NotAhead (N.eqb (ch "*"))].
(** [/(?<!_)_([^_]+)_(?!_)/g] *)
Definition re_italic_underscore : regex :=
  seqs [NotBehind (N.eqb (ch "_")); c1 "_"; Grp 1 (plus (not1 "_")); c1 "_";
        NotAhead (N.eqb (ch "_"))].
(** [/\[([^\]]+)\]\(([^)]+)\)/g] *)
Definition re_link : regex :=
  seqs [c1 "["; Grp 1 (plus (not1 "]")); c1 "]"; c1 "(";
        Grp 2 (plus (not1 ")")); c1 ")"].

Definition em_of (m : found) : jsstring :=
  js "<em>" ++ cap 1 (snd m) ++ js "</em>".

Definition link_of (m : found) : jsstring :=
  js "<a href=~" ++ cap 2 (snd m) ++ js "~>" ++ cap 1 (snd m) ++ js "</a>".

Definition formatRichText (text : jsstring) : jsstring :=
  let formatted := replace_all re_bold strong_of text in
  let formatted := replace_all re_bold_underscore strong_of formatted in
  let formatted := replace_all re_italic_star em_of formatted in
  let formatted := replace_all re_italic_underscore em_of formatted in
  replace_all re_link link_of formatted.

(** *** Table rows *)

Definition isTableRow (line : jsstring) : bool :=
  if includes line (js "|") && (2 <=? length (split (js "|") line)) then true
  else if includes line SectionDetector.tab
          && (2 <=? length (split SectionDetector.tab line)) then true
  else if test re_spaces3 line
          && (2 <=? length (split_re re_spaces3 line)) then true
  else false.

(** The look-ahead of [collectTableRows] at an empty line: the first line
    after the run of empty lines is a table row. *)
Fixpoint next_is_table_row (rest : list jsstring) : bool :=
  match rest with
  | [] => false
  | l :: rest' =>
      if negb (truthy (trim l)) then next_is_table_row rest'
      else isTableRow l
  end.

(** [collectTableRows(lines, startIndex)] on the lines from [startIndex]
    on. *)
Fixpoint collectTableRows_from (lines : list jsstring)
  (tableRows : list jsstring) : list jsstring :=
  match lines with
  | [] => tableRows
  | l :: rest =>
      let line := trim l in
      if negb (truthy line) then
        if 0 <? length tableRows then
          if next_is_table_row rest then collectTableRows_from rest tableRows
          else tableRows
        else collectTableRows_from rest tableRows
      else if isTableRow line then
        collectTableRows_from rest (tableRows ++ [line])
      else tableRows
  end.

Definition collectTableRows (lines : list jsstring) : list jsstring :=
  collectTableRows_from lines [].

(** *** enhanceTOCWithH2Links *)

Definition is_quote (c : N) : bool := N.eqb c 34 || N.eqb c 39.
Definition digit_between (lo hi : N) (c : N) : bool :=
  N.leb lo c && N.leb c hi.

(** [/<h([2-4])([^>]*?)>(.*?)<\/h[2-4]>/gi] *)
Definition re_h2_4 : regex :=
  seqs [c1 "<"; ci "h"; Grp 1 (Chr (digit_between 50 52));
        Grp 2 (lazy (not1 ">")); c1 ">"; Grp 3 (lazy dot);
        lit_i "</h"; Chr (digit_between 50 52); c1 ">"].
(** [/<[^>]*>/g] *)
Definition re_tag : regex := seqs [c1 "<"; star (not1 ">"); c1 ">"].
(** [/id\s*=\s*[~']([^~']+)[~']/i], writing [~] for the double quote *)
Definition re_id_attr : regex :=
  seqs [lit_i "id"; star space; c1 "="; star space; Chr is_quote;
        Grp 1 (plus (Chr (fun c => negb (is_quote c)))); Chr is_quote].
(** [/<div class=~blog_index_cover~[\s\S]*?<ol class=~blog_index~[^>]*?>([\s\S]*?)<\/ol>[\s\S]*?<\/div>/i] *)
Definition re_toc_section : regex :=
  seqs [lit_i "<div class=~blog_index_cover~"; lazy any;
        lit_i "<ol class=~blog_index~"; lazy (not1 ">"); c1 ">";
        Grp 1 (lazy any); lit_i "</ol>"; lazy any; lit_i "</div>"].

(** The digit of a level as a number. *)
Definition parseInt1 (s : jsstring) : nat :=
  match s with
  | c :: _ => N.to_nat (c - 48)
  | [] => 0
  end.

Record toc_heading : Type := {
  h_level : nat;
  h_id : jsstring;
  h_text : jsstring
}.

(** One turn of the [exec] loop: the heading of a match, and the html with
    an id added to it when it had none. *)
Definition enhance_step (acc : jsstring * list toc_heading) (m : found)
  : jsstring * list toc_heading :=
  let '(modifiedHtml, allHeadings) := acc in
  let level := parseInt1 (cap 1 (snd m)) in
  let attributes := cap 2 (snd m) in
  let headingText := trim (cap 3 (snd m)) in
  let cleanText := replace_all re_tag (fun _ => []) headingText in
  match search re_id_attr None attributes [] with
  | Some (_, idMatch, _) =>
      (modifiedHtml,
       allHeadings ++ [ {| h_level := level; h_id := cap 1 (snd idMatch);
                           h_text := cleanText |} ])
  | None =>
      let headingId := generateId cleanText in
      let originalHeading := fst m in
      let newHeading :=
        js "<h" ++ of_nat level ++ js " id=~" ++ headingId ++ js "~"
        ++ attributes ++ js ">" ++ headingText ++ js "</h" ++ of_nat level
        ++ js ">" in
      (replace_str originalHeading newHeading modifiedHtml,
       allHeadings ++ [ {| h_level := level; h_id := headingId;
                           h_text := cleanText |} ])
  end.

Definition toc_link (heading : toc_heading) : jsstring :=
  let indent := concat (repeat (js "    ") (h_level heading - 1)) in
  let linkClass := if h_level heading =? 2 then []
                   else js " class=~sub-heading~" in
  indent ++ js "<li><a href=~#" ++ h_id heading ++ js "~" ++ linkClass
  ++ js ">" ++ h_text heading ++ js "</a></li>" ++ nl.

Definition enhanceTOCWithH2Links (html : jsstring) : jsstring :=
  let '(modifiedHtml, allHeadings) :=
    fold_left enhance_step (map snd (fst (matches re_h2_4 html))) (html, []) in
  if length allHeadings =? 0 then modifiedHtml
  else
    match search re_toc_section None modifiedHtml [] with
    | Some (_, tocMatch, _) =>
        let newTocItems := concat (map toc_link allHeadings) in
        let newTocSection :=
          unlines
            [ js "<div class=~blog_index_cover~>";
              js "    <p class=~blog_index_toggle_btn fonts-16 w-700~>Table Of Contents</p>";
              js "    <ol class=~blog_index~>";
              newTocItems ++ js "    </ol>";
              js "</div>" ] in
        replace_str (fst tocMatch) newTocSection modifiedHtml
    | None => modifiedHtml
    end.

(** *** cleanupHTML *)

(** [/<div class=~blog_index_cover~[\s\S]*?<\/div>/gi] *)
Definition re_toc_block : regex :=
  seqs [lit_i "<div class=~blog_index_cover~"; lazy any; lit_i "</div>"].
(** [/<h([1-6])([^>]*?)>(.*?)<\/h[1-6]>/gi] *)
Definition re_h1_6 : regex :=
  seqs [c1 "<"; ci "h"; Grp 1 (Chr (digit_between 49 54));
        Grp 2 (lazy (not1 ">")); c1 ">"; Grp 3 (lazy dot);
        lit_i "</h"; Chr (digit_between 49 54); c1 ">"].
(** [/<div class=~faq_blog~[\s\S]*?<\/div>/gi] *)
Definition re_faq_block : regex :=
  seqs [lit_i "<div class=~faq_blog~"; lazy any; lit_i "</div>"].
(** [/<p>\s*<\/p>/gi] *)
Definition re_empty_p : regex := seqs [lit_i "<p>"; star space; lit_i "</p>"].
(** [/<p>\s+<\/p>/gi] *)
Definition re_blank_p : regex := seqs [lit_i "<p>"; plus space; lit_i "</p>"].
(** [/\n\s*\n\s*\n/g] *)
Definition re_blank_lines : regex :=
  seqs [Chr (N.eqb 10); star space; Chr (N.eqb 10); star space; Chr (N.eqb 10)].
(** [/\n{3,}/g] *)
Definition re_newlines3 : regex := at_least 3 (Chr (N.eqb 10)).
(** [/<ul[^>]*?>\s*<\/ul>/gi] and [/<ol[^>]*?>\s*<\/ol>/gi] *)
Definition re_empty_list (tag : string) : regex :=
  seqs [c1 "<"; lit_i tag; lazy (not1 ">"); c1 ">"; star space; lit_i "</";
        lit_i tag; c1 ">"].
(** [/<ul[^>]*?>\s*\n\s*<\/ul>/gi] and [/<ol[^>]*?>\s*\n\s*<\/ol>/gi] *)
Definition re_empty_list_nl (tag : string) : regex :=
  seqs [c1 "<"; lit_i tag; lazy (not1 ">"); c1 ">"; star space;
        Chr (N.eqb 10); star space; lit_i "</"; lit_i tag; c1 ">"].
(** [/<li>\s*<\/li>/gi] *)
Definition re_empty_li : regex :=
  seqs [lit_i "<li>"; star space; lit_i "</li>"].
(** [/\s{2,}/g] *)
Definition re_spaces2 : regex := at_least 2 space.
(** [/(<br\s*\/?>){2,}/gi] *)
Definition re_br2 : regex :=
  at_least 2 (Grp 1 (seqs [lit_i "<br"; star space; opt (c1 "/"); c1 ">"])).
(** [/(&nbsp;){2,}/gi] *)
Definition re_nbsp2 : regex := at_least 2 (Grp 1 (lit_i "&nbsp;")).

(** Steps 1 and 3: every match after the first is cut where it first occurs
    in the html. *)
Definition keep_first_block (r : regex) (cleanedHtml : jsstring) : jsstring :=
  let sections := match_all r cleanedHtml in
  if 1 <? length sections
  then fold_left (fun h sec => replace_str sec [] h) (tl sections) cleanedHtml
  else cleanedHtml.

(** Step 2: the callback of the heading replacement, with the set of the
    headings seen. *)
Definition heading_key (m : found) : jsstring :=
  js "h" ++ cap 1 (snd m) ++ js ":" ++ trim (cap 3 (snd m)).

Fixpoint dedupe_headings (ms : list (jsstring * found))
  (seenHeadings : list jsstring) : jsstring :=
  match ms with
  | [] => []
  | (pre, m) :: rest =>
      if existsb (str_eqb (heading_key m)) seenHeadings
      then pre ++ dedupe_headings rest seenHeadings
      else pre ++ fst m ++ dedupe_headings rest (heading_key m :: seenHeadings)
  end.

Definition remove_duplicate_headings (cleanedHtml : jsstring) : jsstring :=
  let '(ms, tl) := matches re_h1_6 cleanedHtml in
  dedupe_headings ms [] ++ tl.

Definition remove (r : regex) (s : jsstring) : jsstring :=
  replace_all r (fun _ => []) s.

Definition cleanupHTML (html : jsstring) : jsstring :=
  let cleanedHtml := keep_first_block re_toc_block html in
  let cleanedHtml := remove_duplicate_headings cleanedHtml in
  let cleanedHtml := keep_first_block re_faq_block cleanedHtml in
  let cleanedHtml := remove re_empty_p cleanedHtml in
  let cleanedHtml := remove re_blank_p cleanedHtml in
  let cleanedHtml :=
    replace_all re_blank_lines (fun _ => nl ++ nl) cleanedHtml in
  let cleanedHtml := replace_all re_newlines3 (fun _ => nl ++ nl) cleanedHtml in
  let cleanedHtml := remove (re_empty_list "ul") cleanedHtml in
  let cleanedHtml := remove (re_empty_list "ol") cleanedHtml in
  let cleanedHtml := remove (re_empty_list_nl "ul") cleanedHtml in
  let cleanedHtml := remove (re_empty_list_nl "ol") cleanedHtml in
  let cleanedHtml := remove re_empty_li cleanedHtml in
  let cleanedHtml := replace_all re_spaces2 (fun _ => js " ") cleanedHtml in
  let cleanedHtml := replace_all re_br2 (fun _ => js "<br>") cleanedHtml in
  let cleanedHtml := replace_all re_nbsp2 (fun _ => js "&nbsp;") cleanedHtml in
  trim cleanedHtml.

(** *** convertTextToHTML *)

(** The variables of the loop.  [currentSection] is [None] for [null]; a
    section type is never the empty string. *)
Record state : Type := {
  html : jsstring;
  inList : bool;
  currentListType : option list_type;
  currentSection : option jsstring;
  sectionItems : list jsstring;
  tocItems : list SectionDetector.item
}.

Definition initial : state :=
  {| html := []; inList := false; currentListType := None;
     currentSection := None; sectionItems := []; tocItems := [] |}.

Definition set_html (st : state) (h : jsstring) : state :=
  {| html := h; inList := inList st; currentListType := currentListType st;
     currentSection := currentSection st; sectionItems := sectionItems st;
     tocItems := tocItems st |}.

Definition set_section (st : state) (sec : option jsstring) : state :=
  {| html := html st; inList := inList st;
     currentListType := currentListType st;
     currentSection := sec; sectionItems := sectionItems st;
     tocItems := tocItems st |}.

Definition set_items (st : state) (items : list jsstring) : state :=
  {| html := html st; inList := inList st;
     currentListType := currentListType st;
     currentSection := currentSection st; sectionItems := items;
     tocItems := tocItems st |}.

Definition push_item (st : state) (it : jsstring) : state :=
  set_items st (sectionItems st ++ [it]).

Definition is_section (st : state) (name : string) : bool :=
  match currentSection st with
  | Some t => str_eqb t (js name)
  | None => false
  end.

Definition in_section (st : state) : bool :=
  match currentSection st with Some _ => true | None => false end.

(** [if (inList) { html += closeList(currentListType); inList = false;
    currentListType = null; }] *)
Definition close_open_list (st : state) : state :=
  if inList st then
    {| html := html st ++ closeList (currentListType st); inList := false;
       currentListType := None; currentSection := currentSection st;
       sectionItems := sectionItems st; tocItems := tocItems st |}
  else st.

(** What [html += this.sectionDetector.processSectionContent(currentSection,
    '', sectionItems)] appends to the html. *)
Definition render_section (st : state) : result jsstring :=
  match currentSection st with
  | Some t =>
      v <- SectionDetector.processSectionContent t []
             (map SectionDetector.IStr (sectionItems st)) ;;
      Ok (SectionDetector.to_string v)
  | None => Ok []
  end.

Definition TOC_PLACEHOLDER : jsstring := js "<!-- TOC_PLACEHOLDER -->".

(** The end-tag branch: render and close the current section. *)
Definition end_tag (st : state) : result state :=
  if in_section st && (0 <? length (sectionItems st)) then
    if negb (is_section st "ignore") then
      r <- render_section st ;;
      Ok (set_section (set_items (set_html st (html st ++ r)) []) None)
    else Ok (set_section (set_items st []) None)
  else Ok (set_section st None).

(** [Process previous section if any] *)
Definition flush_section (st : state) : result state :=
  if in_section st && (0 <? length (sectionItems st)) then
    if is_section st "toc" then
      Ok (set_items (set_html st (html st ++ TOC_PLACEHOLDER)) [])
    else if negb (is_section st "ignore") then
      r <- render_section st ;;
      Ok (set_items (set_html st (html st ++ r)) [])
    else Ok (set_items st [])
  else Ok st.

(** [html += `<h${level} id="${id}">${text}</h${level}>\n`;
    tocItems.push({ text: text, id: id, level: level });] *)
Definition emit_heading (st : state) (level : nat) (text id : jsstring)
  : state :=
  {| html := html st ++ js "<h" ++ of_nat level ++ js " id=~" ++ id ++ js "~>"
             ++ text ++ js "</h" ++ of_nat level ++ js ">" ++ nl;
     inList := inList st; currentListType := currentListType st;
     currentSection := currentSection st; sectionItems := sectionItems st;
     tocItems := tocItems st ++ [heading_obj text id level] |}.

(** [Regular heading processing] *)
Definition heading_line (line normalizedLine : jsstring) (st : state)
  : state :=
  let level := getHeadingLevel line in
  let text := cleanHeadingText line in
  let id := generateId text in
  match SectionDetector.detectSectionType text with
  | Some sectionType =>
      if negb (SectionDetector.isStartTag normalizedLine) then
        let st' := set_section st (Some sectionType) in
        if negb (str_eqb sectionType (js "toc"))
           && negb (str_eqb sectionType (js "faq"))
        then emit_heading st' level text id
        else st'
      else if negb (in_section st) then emit_heading st level text id
      else if negb (is_section st "ignore") && negb (is_section st "faq")
              && negb (is_section st "toc")
      then emit_heading st level text id
      else if is_section st "faq" then push_item st text
      else if is_section st "toc" then push_item st text
      else st
  | None =>
      if negb (in_section st) then emit_heading st level text id
      else if negb (is_section st "ignore") && negb (is_section st "faq")
              && negb (is_section st "toc")
      then emit_heading st level text id
      else if is_section st "faq" then push_item st text
      else if is_section st "toc" then push_item st text
      else st
  end.

(** The lines after a [<TABLE>] line up to the line that holds
    [<TABLE END>]. *)
Fixpoint table_block (rest : list jsstring) : list jsstring :=
  match rest with
  | [] => []
  | l :: rest' =>
      if includes l (js "<TABLE END>") then []
      else l :: table_block rest'
  end.

Definition tableContent_of (block : list jsstring) : list jsstring :=
  filter (fun tableLine => truthy tableLine
                           && negb (startsWith tableLine (js "<"))
                           && negb (endsWith tableLine (js ">")))
         (map trim block).

(** The body of the loop on the line [lines[i]], with the lines after it.
    It returns the number of following lines the loop jumps over, and the
    new values of the variables. *)
Definition body (l : jsstring) (rest : list jsstring) (st : state)
  : result (nat * state) :=
  let line := trim l in
  if negb (truthy line) then Ok (0, close_open_list st)
  else if includes line (js "<TABLE>") then
    let block := table_block rest in
    let tableContent := tableContent_of block in
    if 0 <? length tableContent then
      let st' := close_open_list st in
      Ok (length block + 1,
          set_html st'
            (html st' ++ SectionDetector.processTableItems tableContent ++ nl))
    else Ok (length block + 1, st)
  else if includes line (js "<TABLE END>") || includes line (js "TABLE END")
  then Ok (0, st)
  else if isHeading line
          || SectionDetector.isStartTag (toUpperCase line)
          || SectionDetector.isEndTag (toUpperCase line) then
    let normalizedLine := trim (toUpperCase line) in
    if SectionDetector.isEndTag normalizedLine then
      st' <- end_tag st ;; Ok (0, st')
    else
      st1 <- flush_section st ;;
      let st2 := close_open_list st1 in
      match (if SectionDetector.isStartTag normalizedLine
             then SectionDetector.getSectionTypeFromTag normalizedLine
             else None) with
      | Some sectionType => Ok (0, set_section st2 (Some sectionType))
      | None =>
          if isHeading line then Ok (0, heading_line line normalizedLine st2)
          else Ok (0, st2)
      end
  else if isTableRow line then
    if in_section st then Ok (0, push_item st line)
    else
      let st' := close_open_list st in
      let tableRows := collectTableRows (l :: rest) in
      if 1 <? length tableRows then
        Ok (length tableRows - 1,
            set_html st'
              (html st' ++ SectionDetector.processTableItems tableRows))
      else Ok (0, set_html st' (html st' ++ js "<p>" ++ line ++ js "</p>" ++ nl))
  else if isListItem line then
    let itemText := cleanListItem line in
    if in_section st then Ok (0, push_item st itemText)
    else
      let listType := getListType line in
      let st' :=
        if negb (inList st)
           || negb (match currentListType st with
                    | Some t => Bool.eqb (is_ordered (Some t))
                                         (is_ordered (Some listType))
                    | None => false
                    end)
        then
          {| html := (if inList st
                      then html st ++ closeList (currentListType st)
                      else html st) ++ openList (Some listType);
             inList := true; currentListType := Some listType;
             currentSection := currentSection st;
             sectionItems := sectionItems st; tocItems := tocItems st |}
        else st in
      Ok (0, set_html st' (html st' ++ js "  <li>" ++ itemText ++ js "</li>" ++ nl))
  else
    if in_section st then Ok (0, push_item st line)
    else
      let st' := close_open_list st in
      Ok (0, set_html st'
               (html st' ++ js "<p>" ++ formatRichText line ++ js "</p>" ++ nl)).

(** The [for] loop over the lines still to come; [skip] lines are jumped
    over first. *)
Fixpoint loop (lines : list jsstring) (skip : nat) (st : state)
  : result state :=
  match lines with
  | [] => Ok st
  | l :: rest =>
      match skip with
      | S n => loop rest n st
      | O => r <- body l rest st ;; loop rest (fst r) (snd r)
      end
  end.

(** What follows the loop. *)
Definition finish (st : state) : result jsstring :=
  h1 <- (if in_section st && (0 <? length (sectionItems st)) then
           if is_section st "toc" then Ok (html st ++ TOC_PLACEHOLDER)
           else if negb (is_section st "ignore") then
             r <- render_section st ;; Ok (html st ++ r)
           else Ok (html st)
         else Ok (html st)) ;;
  let h2 := if inList st then h1 ++ closeList (currentListType st) else h1 in
  h3 <- (if includes h2 TOC_PLACEHOLDER && (0 <? length (tocItems st)) then
           tocHtml <- SectionDetector.processSectionContent (js "toc") []
                        (tocItems st) ;;
           Ok (replace_str TOC_PLACEHOLDER
                 (SectionDetector.to_string tocHtml) h2)
         else Ok h2) ;;
  let h4 := if includes h3 (js "blog_index_cover")
            then enhanceTOCWithH2Links h3 else h3 in
  Ok (cleanupHTML h4).

(** [analyzeTextStructure(content)] is computed first and its value is not
    used. *)
Definition convertTextToHTML (content : jsstring) : result jsstring :=
  st <- loop (split nl content) 0 initial ;;
  finish st.

(** *** optimizeHTMLForSpaceO *)

(** [html.replace(/<ul>/g, ...).replace(/<ol>/g, ...)] *)
Definition optimizeHTMLForSpaceO (html : jsstring) : jsstring :=
  replace_all (lit "<ol>") (fun _ => js "<ol class=~listing-bx~>")
    (replace_all (lit "<ul>") (fun _ => js "<ul class=~bullet-new-box~>")
       html).

(** *** analyzeTextStructure *)

(** The objects pushed to [structure.headings], [structure.lists] and
    [structure.paragraphs]; [section] is [None] for [null]. *)
Record heading : Type := {
  headings_level : nat;
  headings_text : jsstring;
  headings_line : nat
}.

Record list_block : Type := {
  lists_type : list_type;
  lists_items : list jsstring;
  lists_startLine : nat;
  lists_endLine : nat
}.

Record paragraph : Type := {
  paragraphs_text : jsstring;
  paragraphs_line : nat;
  paragraphs_section : option jsstring
}.

(** The object [analyzeTextStructure] returns.  Nothing is ever pushed to
    [tables] and [sections]. *)
Record structure : Type := {
  headings : list heading;
  paragraphs : list paragraph;
  lists : list list_block;
  tables : list jsstring;
  sections : list jsstring
}.

Definition list_type_eqb (a b : list_type) : bool :=
  match a, b with
  | ordered, ordered | unordered, unordered => true
  | _, _ => false
  end.

(** [Math.abs(a - b)] on two indices. *)
Definition abs_diff (a b : nat) : nat := if a <=? b then b - a else a - b.

(** [list => Math.abs(list.startLine - i) < 5 && list.type === listType] *)
Definition near_list (i : nat) (listType : list_type) (list : list_block)
  : bool :=
  (abs_diff (lists_startLine list) i <? 5)
  && list_type_eqb (lists_type list) listType.

(** The update of the list that [find] returned, in its place in the
    array: [existingList.items.push(item); existingList.endLine = i]. *)
Fixpoint extend_found (i : nat) (listType : list_type) (item : jsstring)
  (ls : list list_block) : list list_block :=
  match ls with
  | [] => []
  | list :: rest =>
      if near_list i listType list
      then {| lists_type := lists_type list;
              lists_items := lists_items list ++ [item];
              lists_startLine := lists_startLine list;
              lists_endLine := i |} :: rest
      else list :: extend_found i listType item rest
  end.

Definition add_list_item (i : nat) (line : jsstring) (ls : list list_block)
  : list list_block :=
  let listType := getListType line in
  match find (near_list i listType) ls with
  | Some _ => extend_found i listType (cleanListItem line) ls
  | None =>
      ls ++ [{| lists_type := listType;
                lists_items := [cleanListItem line];
                lists_startLine := i;
                lists_endLine := i |}]
  end.

(** One turn of the loop over [lines], at index [i]. *)
Definition analyze_line (i : nat) (raw : jsstring)
  (acc : structure * option jsstring) : structure * option jsstring :=
  let '(structure, currentSection) := acc in
  let line := trim raw in
  if negb (truthy line) then acc
  else if isHeading line then
    let heading := {| headings_level := getHeadingLevel line;
                      headings_text := cleanHeadingText line;
                      headings_line := i |} in
    ({| headings := headings structure ++ [heading];
        paragraphs := paragraphs structure;
        lists := lists structure;
        tables := tables structure;
        sections := sections structure |},
     if headings_level heading <=? 2 then Some (headings_text heading)
     else currentSection)
  else if isListItem line then
    ({| headings := headings structure;
        paragraphs := paragraphs structure;
        lists := add_list_item i line (lists structure);
        tables := tables structure;
        sections := sections structure |},
     currentSection)
  else
    ({| headings := headings structure;
        paragraphs :=
          paragraphs structure
          ++ [{| paragraphs_text := line;
                 paragraphs_line := i;
                 paragraphs_section := currentSection |}];
        lists := lists structure;
        tables := tables structure;
        sections := sections structure |},
     currentSection).

Fixpoint analyze_lines (lines : list jsstring) (i : nat)
  (acc : structure * option jsstring) : structure * option jsstring :=
  match lines with
  | [] => acc
  | raw :: rest => analyze_lines rest (S i) (analyze_line i raw acc)
  end.

Definition analyzeTextStructure (content : jsstring) : structure :=
  let lines := filter (fun line => truthy (trim line)) (split nl content) in
  fst (analyze_lines lines 0
         ({| headings := []; paragraphs := []; lists := [];
             tables := []; sections := [] |}, None)).


(** *** isValidFormat *)

Definition supportedFormats : list jsstring :=
  [js ".docx"; js ".txt"; js ".md"; js ".html"].

Definition getFileExtension (filename : jsstring) : jsstring :=
  substring_from (lastIndexOf filename (js ".")) (toLowerCase filename).

(** [file] is read for its [name] only. *)
Definition isValidFormat (name : jsstring) : bool :=
  let extension := getFileExtension name in
  existsb (str_eqb extension) supportedFormats.


(** *** extractTextFromDocx *)

(** [[^\x20-\x7E\n\r]] *)
Definition unreadable (c : N) : bool :=
  negb (((32 <=? c)%N && (c <=? 126)%N) || N.eqb c 10 || N.eqb c 13).

(** [text.replace(/[^\x20-\x7E\n\r]/g, ' ').replace(/\s+/g, ' ').trim()],
    where [text] is what [new TextDecoder().decode(arrayBuffer)] returns. *)
Definition extractTextFromDocx (text : jsstring) : jsstring :=
  trim (replace_all (plus space) (fun _ => js " ")
          (replace_all (Chr unreadable) (fun _ => js " ") text)).

(** *** analyzeMarkdownStructure *)

(** [/^#+/] *)
Definition re_hashes : regex := Seq Bol (plus (c1 "#")).
(** [/^#+\s*/] *)
Definition re_hashes_spaces : regex := seqs [Bol; plus (c1 "#"); star space].
(** [/^[-*+]\s+/] *)
Definition re_md_bullet : regex :=
  seqs [Bol;
        Chr (fun c => N.eqb c (ch "-") || N.eqb c (ch "*") || N.eqb c (ch "+"));
        plus space].
(** [/^[-*+\d+.]\s+/] *)
Definition re_md_marker : regex :=
  seqs [Bol;
        Chr (fun c => N.eqb c (ch "-") || N.eqb c (ch "*") || N.eqb c (ch "+")
                      || is_digit c || N.eqb c (ch "."));
        plus space].

(** The objects pushed to the [lists], [tables] and [paragraphs] of the
    structure of a markdown text; its headings are as those of a text. *)
Record md_list : Type := {
  md_lists_type : list_type;
  md_lists_text : jsstring;
  md_lists_line : nat
}.

Record md_table : Type := {
  md_tables_content : jsstring;
  md_tables_line : nat
}.

Record md_paragraph : Type := {
  md_paragraphs_text : jsstring;
  md_paragraphs_line : nat
}.

(** The object [analyzeMarkdownStructure] returns.  Nothing is ever pushed
    to [codeBlocks], [links] and [images]. *)
Record md_structure : Type := {
  md_headings : list heading;
  md_paragraphs : list md_paragraph;
  md_lists : list md_list;
  md_tables : list md_table;
  md_codeBlocks : list jsstring;
  md_links : list jsstring;
  md_images : list jsstring
}.

(** [(line.match(/^#+/) || [''])[0].length] *)
Definition hashes_length (line : jsstring) : nat :=
  match search re_hashes None line [] with
  | Some (_, m, _) => length (fst m)
  | None => 0
  end.

(** One turn of the loop over [lines], at index [i]. *)
Definition md_line (i : nat) (raw : jsstring) (structure : md_structure)
  : md_structure :=
  let line := trim raw in
  if negb (truthy line) then structure
  else if startsWith line (js "#") then
    let level := hashes_length line in
    let level := if level =? 1 then 2 else level in
    {| md_headings :=
         md_headings structure
         ++ [{| headings_level := level;
                headings_text := replace_first re_hashes_spaces (fun _ => []) line;
                headings_line := i |}];
       md_paragraphs := md_paragraphs structure;
       md_lists := md_lists structure;
       md_tables := md_tables structure;
       md_codeBlocks := md_codeBlocks structure;
       md_links := md_links structure;
       md_images := md_images structure |}
  else if test re_md_bullet line || test re_num1 line then
    let listType := if test re_ordered line then ordered else unordered in
    {| md_headings := md_headings structure;
       md_paragraphs := md_paragraphs structure;
       md_lists :=
         md_lists structure
         ++ [{| md_lists_type := listType;
                md_lists_text := replace_first re_md_marker (fun _ => []) line;
                md_lists_line := i |}];
       md_tables := md_tables structure;
       md_codeBlocks := md_codeBlocks structure;
       md_links := md_links structure;
       md_images := md_images structure |}
  else if includes line (js "|") then
    {| md_headings := md_headings structure;
       md_paragraphs := md_paragraphs structure;
       md_lists := md_lists structure;
       md_tables :=
         md_tables structure
         ++ [{| md_tables_content := line; md_tables_line := i |}];
       md_codeBlocks := md_codeBlocks structure;
       md_links := md_links structure;
       md_images := md_images structure |}
  else
    {| md_headings := md_headings structure;
       md_paragraphs :=
         md_paragraphs structure
         ++ [{| md_paragraphs_text := line; md_paragraphs_line := i |}];
       md_lists := md_lists structure;
       md_tables := md_tables structure;
       md_codeBlocks := md_codeBlocks structure;
       md_links := md_links structure;
       md_images := md_images structure |}.

Fixpoint md_lines (lines : list jsstring) (i : nat) (structure : md_structure)
  : md_structure :=
  match lines with
  | [] => structure
  | raw :: rest => md_lines rest (S i) (md_line i raw structure)
  end.

Definition analyzeMarkdownStructure (content : jsstring) : md_structure :=
  md_lines (split nl content) 0
    {| md_headings := []; md_paragraphs := []; md_lists := [];
       md_tables := []; md_codeBlocks := []; md_links := [];
       md_images := [] |}.

End WithCase.

End DocumentParser.


(** ** TemplateSystem *)

Module TemplateSystem.
Import JS Regex.

Section WithCase.
Context {CM : CaseMap}.

Definition generateId (text : jsstring) : jsstring :=
  substring0 50
    (replace_all (plus space) (fun _ => js "-")
       (replace_all
          (Chr (fun c => negb (is_lower c || is_digit c || is_space c
                               || N.eqb c (ch "-"))))
          (fun _ => [])
          (toLowerCase text))).

End WithCase.

End TemplateSystem.

(** ** The rule-based fallback of the serverless parse function *)

Module Serverless.
Import JS Regex.

(** [/^[A-Z\s]+$/] *)
Definition re_caps_only : regex :=
  seqs [Bol; plus (Chr (fun c => is_upper c || is_space c)); Eol].
(** [/^[A-Z][a-z]+(\s+[A-Z][a-z]+)*[\?:]?$/] *)
Definition re_title_words : regex :=
  seqs [Bol; Chr is_upper; plus (Chr is_lower);
        star (Grp 1 (seqs [plus space; Chr is_upper; plus (Chr is_lower)]));
        opt (Chr (fun c => N.eqb c (ch "?") || N.eqb c (ch ":"))); Eol].
(** [/\*([^*]+)\*/g] *)
Definition re_star_pair : regex :=
  seqs [c1 "*"; Grp 1 (plus (not1 "*")); c1 "*"].
(** [/\b_([^_]+)_\b/g] *)
Definition re_underscore_pair : regex :=
  seqs [WordB; c1 "_"; Grp 1 (plus (not1 "_")); c1 "_"; WordB].

Record heading : Type := {
  level : nat;
  text : jsstring;
  id : jsstring
}.

Section WithCase.
Context {CM : CaseMap}.

Definition isHeading (line : jsstring) : bool :=
  ((5 <? length line) && str_eqb line (toUpperCase line)
   && test re_caps_only line)
  || test DocumentParser.re_numbered_title line
  || (endsWith line (js "?") && (10 <? length line)).

Definition getHeadingLevel (line : jsstring) : nat :=
  if test DocumentParser.re_num1 line then 2
  else if endsWith line (js "?") then 3
  else 1.

Definition cleanHeadingText (line : jsstring) : jsstring :=
  trim (replace_first DocumentParser.re_num1 (fun _ => []) line).

Definition generateId (text : jsstring) : jsstring :=
  substring0 50
    (replace_all (plus space) (fun _ => js "-")
       (replace_all
          (Chr (fun c => negb (is_lower c || is_digit c || is_space c
                               || N.eqb c (ch "-"))))
          (fun _ => [])
          (toLowerCase text))).

Definition generateTableOfContents (headings : list heading) : jsstring :=
  unlines
    [ js "<div class=~blog_index_cover~>";
      js "    <p class=~blog_index_toggle_btn fonts-16 w-700~>Table Of Contents</p>";
      js "    <ol class=~blog_index~>" ]
  ++ concat (map (fun h => js "        <li><a href=~#" ++ id h ++ js "~>"
                           ++ text h ++ js "</a></li>" ++ nl) headings)
  ++ unlines [ js "    </ol>"; js "</div>" ].

Definition isLikelyHeading (text : jsstring) : bool :=
  let cleanText := trim text in
  if (length cleanText <? 100)
     && (str_eqb cleanText (toUpperCase cleanText)
         || test re_title_words cleanText) then true
  else if test DocumentParser.re_numbered_title cleanText then true
  else if endsWith cleanText (js "?") && (length cleanText <? 80) then true
  else false.

Definition formatRichText (text : jsstring) : jsstring :=
  let formatted :=
    if (20 <? length text) && negb (isLikelyHeading text)
    then replace_all DocumentParser.re_bold_underscore DocumentParser.strong_of
           (replace_all DocumentParser.re_bold DocumentParser.strong_of text)
    else text in
  let formatted := replace_all re_star_pair DocumentParser.em_of formatted in
  let formatted :=
    replace_all re_underscore_pair DocumentParser.em_of formatted in
  replace_all DocumentParser.re_link DocumentParser.link_of formatted.

(** The variables of the loop of [parseContentWithRules]. *)
Record state : Type := {
  html : jsstring;
  inList : bool;
  currentListType : option DocumentParser.list_type;
  headings : list heading
}.

Definition close_if_open (st : state) : jsstring :=
  if inList st then html st ++ DocumentParser.closeList (currentListType st)
  else html st.

Definition step (st : state) (l : jsstring) : state :=
  let line := trim l in
  if negb (DocumentParser.truthy line) then st
  else if isHeading line then
    let level := getHeadingLevel line in
    let text := cleanHeadingText line in
    let id := generateId text in
    {| html := close_if_open st ++ js "<h" ++ of_nat level ++ js " id=~" ++ id
               ++ js "~>" ++ text ++ js "</h" ++ of_nat level ++ js ">" ++ nl;
       inList := false; currentListType := currentListType st;
       headings := headings st
                   ++ [ {| level := level; text := text; id := id |} ] |}
  else if DocumentParser.isListItem line then
    let listType := DocumentParser.getListType line in
    let itemText := DocumentParser.cleanListItem line in
    if negb (inList st)
       || negb (match currentListType st with
                | Some t => Bool.eqb (DocumentParser.is_ordered (Some t))
                                     (DocumentParser.is_ordered (Some listType))
                | None => false
                end)
    then
      {| html := close_if_open st ++ DocumentParser.openList (Some listType)
                 ++ js "  <li>" ++ itemText ++ js "</li>" ++ nl;
         inList := true; currentListType := Some listType;
         headings := headings st |}
    else
      {| html := html st ++ js "  <li>" ++ itemText ++ js "</li>" ++ nl;
         inList := inList st; currentListType := currentListType st;
         headings := headings st |}
  else
    {| html := close_if_open st ++ js "<p>" ++ formatRichText line
               ++ js "</p>" ++ nl;
       inList := false; currentListType := currentListType st;
       headings := headings st |}.

(** The [html] field of what [parseContentWithRules] returns. *)
Definition parseContentWithRules (content : jsstring) : jsstring :=
  let lines := filter (fun line => DocumentParser.truthy (trim line))
                      (split nl content) in
  let st := fold_left step lines
              {| html := []; inList := false; currentListType := None;
                 headings := [] |} in
  let html := close_if_open st in
  if 0 <? length (headings st)
  then generateTableOfContents (headings st) ++ nl ++ html
  else html.

End WithCase.

End Serverless.

(** ** The rule-based fallback of the Express server *)

Module Server.
Import JS Regex.

Section WithCase.
Context {CM : CaseMap}.

(** [/^\d+\.\d+/] *)
Definition re_sub_number : regex :=
  seqs [Bol; plus digit; c1 "."; plus digit].

Definition getHeadingLevel (line : jsstring) : nat :=
  if test DocumentParser.re_num1 line then 2
  else if test re_sub_number line then 3
  else if (20 <? length line) && str_eqb line (toUpperCase line) then 1
  else if endsWith line (js "?") then 3
  else if endsWith line (js ":") then 2
  else 2.

Definition generateId (text : jsstring) : jsstring :=
  let s := trim (toLowerCase text) in
  let s := replace_all
             (Chr (fun c => negb (is_word c || is_space c || N.eqb c (ch "-"))))
             (fun _ => []) s in
  let s := replace_all (plus space) (fun _ => js "-") s in
  let s := replace_all (plus (c1 "-")) (fun _ => js "-") s in
  let s := replace_all (Alt (Seq Bol (plus (c1 "-"))) (Seq (plus (c1 "-")) Eol))
             (fun _ => []) s in
  let s := substring0 50 s in
  replace_first (Seq (c1 "-") Eol) (fun _ => []) s.

End WithCase.

End Server.


(** ** AIDocumentParser *)

Module AIDocumentParser.
Import JS Regex.

(** *** calculateSEOScore *)

(** The properties of [structure] that the scoring reads.  A property that
    the object lacks is [None]; of the two flags only the truthiness is
    read, which is [false] for a property that the object lacks. *)
Record structure (H L P : Type) : Type := {
  headings : option (list H);
  lists : option (list L);
  paragraphs : option (list P);
  hasTableOfContents : bool;
  hasKeyTakeaways : bool
}.

(** [xs?.length], with [None] for [undefined]. *)
Definition opt_length (A : Type) (xs : option (list A)) : option nat :=
  option_map (@length A) xs.

(** [n > 0] and [n || 0] for a length that may be [undefined]. *)
Definition opt_gt (n : option nat) (k : nat) : bool :=
  match n with Some n => k <? n | None => false end.

Definition or_zero (n : option nat) : nat :=
  match n with Some n => n | None => 0 end.

Section Scoring.
Variables H L P : Type.
Variable level : H -> nat.

Definition calculateSEOScore (s : structure H L P) : nat :=
  let score := 0 in
  let score :=
    if opt_gt (opt_length (headings s)) 0 then score + 20 else score in
  let score :=
    match headings s with
    | Some hs =>
        if existsb (fun h => level h =? 1) hs then score + 15 else score
    | None => score
    end in
  let score :=
    if opt_gt (opt_length (lists s)) 0 then score + 10 else score in
  let score := if hasTableOfContents s then score + 25 else score in
  let score := if hasKeyTakeaways s then score + 15 else score in
  let paragraphs := or_zero (opt_length (paragraphs s)) in
  let score := if 5 <? paragraphs then score + 15 else score in
  Nat.min score 100.

End Scoring.
(** *** countWords and estimateReadingTime *)

(** [content.trim().split(/\s+/).length] *)
Definition countWords (content : jsstring) : nat :=
  length (split_re (plus space) (trim content)).

(** [Math.ceil(words / 200)], the quotient rounded up. *)
Definition estimateReadingTime (content : jsstring) : nat :=
  let words := countWords content in
  (words + 199) / 200.

End AIDocumentParser.

(** ** Notions for reasoning about matches *)

Module RegexFacts.
Import JS Regex.

(** A necessary condition for a match to start before the code unit [x]
    ([None] at the end of the input). *)
Fixpoint can_start (r : regex) (x : option N) : bool :=
  match r with
  | Chr p => match x with Some c => p c | None => false end
  | Seq r1 _ => can_start r1 x
  | Alt r1 r2 => can_start r1 x || can_start r2 x
  | Grp _ r1 => can_start r1 x
  | _ => true
  end.

(** The continuation of a whole match. *)
Definition accept : cont (jsstring * caps) := fun _ s' c' => Some (s', c').

(** The text a global replacement builds from the result of the scan. *)
Definition emit (f : found -> jsstring)
  (res : list (jsstring * found) * jsstring) : jsstring :=
  concat (map (fun pm => fst pm ++ f (snd pm)) (fst res)) ++ snd res.

(** No two white space code units side by side. *)
Definition tidy (s : jsstring) : Prop :=
  forall a x y b, s = a ++ x :: y :: b ->
                  is_space x = true -> is_space y = true -> False.

(** No white space at either end. *)
Definition trimmed (s : jsstring) : Prop := trim s = s.

(** A code unit that starts neither a tag nor an entity. *)
Definition plain_char (c : N) : bool :=
  negb (N.eqb c (ch "<")) && negb (N.eqb c (ch "&")).

(** Text without markup. *)
Definition plain (s : jsstring) : bool := forallb plain_char s.

(** A pattern whose matches start with [<] or with [&]. *)
Definition starts_markup (r : regex) : Prop :=
  (forall x, plain_char x = true -> can_start r (Some x) = false)
  /\ can_start r None = false.

(** What the first replacement of [generateId] keeps: [a-z0-9\s-]. *)
Definition kept_char (c : N) : bool :=
  is_lower c || is_digit c || is_space c || N.eqb c (ch "-").

(** The code units of a slug: [a-z0-9-]. *)
Definition slug_char (c : N) : bool :=
  is_lower c || is_digit c || N.eqb c (ch "-").

(** A pattern whose matches are never empty. *)
Definition consuming (r : regex) : Prop :=
  forall prev s rest c,
    match_here r prev s = Some (rest, c) -> length rest < length s.

(** The text after the longest run of [p] at the start. *)
Fixpoint skip_while (p : N -> bool) (s : jsstring) : jsstring :=
  match s with
  | c :: s' => if p c then skip_while p s' else s
  | [] => []
  end.

(** Every run of [p] replaced by [w]; [inrun] tells that the code unit
    before belongs to a run. *)
Fixpoint squeeze (p : N -> bool) (w : jsstring) (inrun : bool) (s : jsstring)
  : jsstring :=
  match s with
  | [] => []
  | x :: t =>
      if p x then
        if inrun then squeeze p w true t else w ++ squeeze p w true t
      else x :: squeeze p w false t
  end.

(** The text without its last code unit when that is in [p]. *)
Fixpoint chop (p : N -> bool) (s : jsstring) : jsstring :=
  match s with
  | [] => []
  | x :: t =>
      match t with
      | [] => if p x then [] else [x]
      | _ :: _ => x :: chop p t
      end
  end.

(** No two code units of [p] side by side. *)
Fixpoint sparse (p : N -> bool) (s : jsstring) : bool :=
  match s with
  | [] => true
  | x :: t =>
      match t with
      | y :: _ => negb (p x && p y)
      | [] => true
      end && sparse p t
  end.

(** The first, and the last, code unit is not in [p]. *)
Definition head_ok (p : N -> bool) (s : jsstring) : bool :=
  match s with x :: _ => negb (p x) | [] => true end.

Fixpoint last_ok (p : N -> bool) (s : jsstring) : bool :=
  match s with
  | [] => true
  | x :: t =>
      match t with
      | [] => negb (p x)
      | _ :: _ => last_ok p t
      end
  end.

(** The code units of an id of the Express server: [\w] and the hyphen. *)
Definition id_char (c : N) : bool := is_word c || N.eqb c (ch "-").

Definition is_hyphen : N -> bool := N.eqb (ch "-").

(** [-] and [/^-+|-+$/] *)
Definition hyphen : regex := Chr is_hyphen.
Definition hyphen_ends : regex := Alt (Seq Bol (plus hyphen)) (Seq (plus hyphen) Eol).


(** Every occurrence of the text [pat] replaced by [repl], from left to
    right; [skip] code units of a replaced occurrence are still to pass. *)
Fixpoint subst_lit (pat repl : jsstring) (s : jsstring) (skip : nat)
  : jsstring :=
  match s with
  | [] => []
  | x :: t =>
      match skip with
      | S n => subst_lit pat repl t n
      | O =>
          if startsWith s pat
          then repl ++ subst_lit pat repl t (length pat - 1)
          else x :: subst_lit pat repl t 0
      end
  end.

(** A pattern that matches the text [pat] and nothing else. *)
Definition literal (r : regex) (pat : jsstring) : Prop :=
  forall prev s,
    match_here r prev s
    = if startsWith s pat then Some (skipn (length pat) s, []) else None.

(** The least number of code units a match of the pattern takes. *)
Fixpoint min_len (r : regex) : nat :=
  match r with
  | Chr _ => 1
  | Seq r1 r2 => min_len r1 + min_len r2
  | Alt r1 r2 => Nat.min (min_len r1) (min_len r2)
  | Grp _ r1 => min_len r1
  | _ => 0
  end.

(** [f] never makes a text longer, and a text whose length it keeps it
    leaves as it is; such a text satisfies [cond]. *)
Definition shrinks (f : jsstring -> jsstring) (cond : jsstring -> Prop)
  : Prop :=
  forall s,
    length (f s) <= length s
    /\ (length (f s) = length s -> cond s /\ f s = s).

End RegexFacts.

(** ** The notions the statements use *)

Module Claims.
Import JS Regex.

Section WithCase.
Context {CM : CaseMap}.

(** *** FAQ groups *)

(** The test of [processFAQItems] for a question line. *)
Definition isQuestion (item : jsstring) : bool :=
  endsWith item (js "?") || SectionDetector.isLikelyQuestion item.

(** A buffered line: trimmed and not empty. *)
Definition buffered (item : jsstring) : Prop :=
  trim item = item /\ item <> [].

Definition question (item : jsstring) : Prop :=
  buffered item /\ isQuestion item = true.

Definition answer (item : jsstring) : Prop :=
  buffered item /\ isQuestion item = false.

(** A question with the lines that follow it up to the next question. *)
Definition faq_group : Type := (jsstring * list jsstring)%type.

Definition well_formed (g : faq_group) : Prop :=
  question (fst g) /\ Forall answer (snd g).

Fixpoint flatten_groups (groups : list faq_group) : list jsstring :=
  match groups with
  | [] => []
  | (q, answers) :: rest => q :: answers ++ flatten_groups rest
  end.

(** The groups in order, each question heading followed by its answer
    paragraphs; an empty line separates a group from the next one, and a
    question without answers is left out. *)
Fixpoint render_groups (groups : list faq_group) : jsstring :=
  match groups with
  | [] => []
  | (q, answers) :: rest =>
      match rest with
      | [] =>
          if 0 <? length answers then SectionDetector.faq_pair q answers
          else []
      | _ :: _ =>
          (if 0 <? length answers
           then SectionDetector.faq_pair q answers ++ nl
           else [])
          ++ render_groups rest
      end
  end.

(** *** The question test, in the words of the specification *)

(** The closed set of interrogative words. *)
Definition interrogative_words : list jsstring :=
  map js [ "how"; "what"; "when"; "where"; "why"; "who"; "which"; "can";
           "will"; "should"; "is"; "are"; "do"; "does" ]%string.

(** The line starts with the word [w], the case of its letters aside: put
    in lower case it is [w], or [w], a space and more text. *)
Definition starts_with_word (w item : jsstring) : Prop :=
  toLowerCase item = w \/ exists rest, toLowerCase item = w ++ js " " ++ rest.

(** A line is a question if it ends in a question mark, or if it starts
    with an interrogative word and has more than ten code units.  This
    definition is written from the specification and names no function of
    the renderer. *)
Definition asks (item : jsstring) : Prop :=
  (exists text, item = text ++ js "?")
  \/ ((exists w, In w interrogative_words /\ starts_with_word w item)
      /\ 10 < length item).

(** A question line and an answer line of a buffer, and a question with the
    answer lines that follow it. *)
Definition asked (item : jsstring) : Prop := buffered item /\ asks item.

Definition told (item : jsstring) : Prop := buffered item /\ ~ asks item.

Definition paired (g : faq_group) : Prop :=
  asked (fst g) /\ Forall told (snd g).

(** *** The scan of convertTextToHTML *)

(** The buffer belongs to the one section that is open: without an open
    section no line is buffered. *)
Definition buffer_owned (st : DocumentParser.state) : Prop :=
  DocumentParser.currentSection st = None ->
  DocumentParser.sectionItems st = [].

(** The open section is one of the renderer: its type is a key of
    [sectionTemplates]. *)
Definition has_template (sectionType : jsstring) : bool :=
  existsb (str_eqb sectionType) (map fst SectionDetector.sectionTemplates).

Definition templated (st : DocumentParser.state) : bool :=
  match DocumentParser.currentSection st with
  | Some sectionType => has_template sectionType
  | None => true
  end.

(** The values of the variables of the loop at every point of its run over
    [lines]: before each line, the lines it jumps over included, and when it
    ends.  The run follows [DocumentParser.loop] step by step. *)
Fixpoint scan_states (lines : list jsstring) (skip : nat)
  (st : DocumentParser.state) : list DocumentParser.state :=
  st :: match lines with
        | [] => []
        | l :: rest =>
            match skip with
            | S n => scan_states rest n st
            | O =>
                match DocumentParser.body l rest st with
                | Ok r => scan_states rest (fst r) (snd r)
                | TypeError => []
                end
            end
        end.

(** The points of the scan that [convertTextToHTML] makes of a text. *)
Definition during_scan (content : jsstring) : list DocumentParser.state :=
  scan_states (split nl content) 0 DocumentParser.initial.

(** The html of [st'] is the html of [st] with text appended. *)
Definition extends (st st' : DocumentParser.state) : Prop :=
  exists out, DocumentParser.html st' = DocumentParser.html st ++ out.

(** The test of the branch with the section logic. *)
Definition section_logic (line : jsstring) : bool :=
  DocumentParser.isHeading line
  || SectionDetector.isStartTag (toUpperCase line)
  || SectionDetector.isEndTag (toUpperCase line).

(** The section type a line opens: the type of its start tag, or the type
    detected from its heading text when the line is no start tag. *)
Definition trigger_of (line : jsstring) : option jsstring :=
  let normalizedLine := trim (toUpperCase line) in
  if SectionDetector.isStartTag normalizedLine
  then SectionDetector.getSectionTypeFromTag normalizedLine
  else if DocumentParser.isHeading line
       then SectionDetector.detectSectionType
              (DocumentParser.cleanHeadingText line)
       else None.

(** A line that reaches the section logic and is no end tag. *)
Definition reaches_section_logic (l : jsstring) : bool :=
  let line := trim l in
  DocumentParser.truthy line
  && negb (includes line (js "<TABLE>"))
  && negb (includes line (js "<TABLE END>") || includes line (js "TABLE END"))
  && section_logic line
  && negb (SectionDetector.isEndTag (trim (toUpperCase line))).

(** What closing the current section appends to the html. *)
Definition closing_output (st : DocumentParser.state) : result jsstring :=
  if 0 <? length (DocumentParser.sectionItems st) then
    if DocumentParser.is_section st "toc" then Ok DocumentParser.TOC_PLACEHOLDER
    else if DocumentParser.is_section st "ignore" then Ok []
    else DocumentParser.render_section st
  else Ok [].

(** *** Ignore regions *)

(** A line the loop only buffers or skips while a section is open: an empty
    line, a line with [TABLE END], a heading or unknown tag that opens no
    section, a table row, a list item or prose; no [<TABLE>] line, no end
    tag and no trigger. *)
Definition inert (l : jsstring) : bool :=
  let line := trim l in
  negb (DocumentParser.truthy line)
  || (negb (includes line (js "<TABLE>"))
      && (includes line (js "<TABLE END>") || includes line (js "TABLE END")
          || negb (section_logic line)
          || (negb (SectionDetector.isEndTag (trim (toUpperCase line)))
              && match trigger_of line with
                 | None => true
                 | Some _ => false
                 end))).

(** A line that opens an ignore section. *)
Definition opens_ignore (l : jsstring) : bool :=
  reaches_section_logic l
  && match trigger_of (trim l) with
     | Some sectionType => str_eqb sectionType (js "ignore")
     | None => false
     end.

(** A line that the loop takes as an end tag. *)
Definition closes_section (l : jsstring) : bool :=
  let line := trim l in
  DocumentParser.truthy line
  && negb (includes line (js "<TABLE>"))
  && negb (includes line (js "<TABLE END>") || includes line (js "TABLE END"))
  && section_logic line
  && SectionDetector.isEndTag (trim (toUpperCase line)).

(** *** The white space steps of cleanupHTML *)

(** Steps 4c and 4d: runs of empty lines. *)
Definition blank_lines (s : jsstring) : jsstring :=
  replace_all DocumentParser.re_newlines3 (fun _ => nl ++ nl)
    (replace_all DocumentParser.re_blank_lines (fun _ => nl ++ nl) s).

(** Step 7: runs of white space. *)
Definition collapse (s : jsstring) : jsstring :=
  replace_all DocumentParser.re_spaces2 (fun _ => js " ") s.

(** *** What the removal steps of cleanupHTML look for *)

(** No text occurs twice in the list. *)
Fixpoint distinct (keys : list jsstring) : bool :=
  match keys with
  | [] => true
  | k :: rest => negb (existsb (str_eqb k) rest) && distinct rest
  end.

(** The headings of a text in order, each as its level and its trimmed
    text. *)
Definition heading_keys (c : jsstring) : list jsstring :=
  map (fun pm => DocumentParser.heading_key (snd pm))
      (fst (matches DocumentParser.re_h1_6 c)).

(** Nothing is left for the removal steps: the text has at most one TOC
    block and at most one FAQ block, no heading twice with the same level
    and text, no empty paragraph, list or list item, and no run of [<br>]
    tags or of [&nbsp;] entities. *)
Definition settled (c : jsstring) : bool :=
  (length (match_all DocumentParser.re_toc_block c) <=? 1)
  && distinct (heading_keys c)
  && (length (match_all DocumentParser.re_faq_block c) <=? 1)
  && negb (test DocumentParser.re_empty_p c)
  && negb (test DocumentParser.re_blank_p c)
  && negb (test (DocumentParser.re_empty_list "ul") c)
  && negb (test (DocumentParser.re_empty_list "ol") c)
  && negb (test (DocumentParser.re_empty_list_nl "ul") c)
  && negb (test (DocumentParser.re_empty_list_nl "ol") c)
  && negb (test DocumentParser.re_empty_li c)
  && negb (test DocumentParser.re_br2 c)
  && negb (test DocumentParser.re_nbsp2 c).

(** A template returns a value on every array of strings. *)
Definition returns_on_strings
  (template : jsstring -> list SectionDetector.item -> result jsstring)
  : Prop :=
  forall content items,
    exists r, template content (map SectionDetector.IStr items) = Ok r.

End WithCase.

End Claims.

(** ** Further notions the statements use *)

Module Behaviour.
Import JS Regex.

(** The bullets of an unordered list item: [-], the bullet sign and the
    asterisk. *)
Definition is_bullet (c : N) : bool :=
  N.eqb c (ch "-") || N.eqb c 8226 || N.eqb c (ch "*").

(** A code unit that starts no inline markup of [formatRichText]. *)
Definition unmarked_char (c : N) : bool :=
  negb (N.eqb c (ch "*")) && negb (N.eqb c (ch "_"))
  && negb (N.eqb c (ch "[")).

Definition unmarked (s : jsstring) : bool := forallb unmarked_char s.

(** One step of the [steps] template. *)
Definition step_html (title description : jsstring) : jsstring :=
  unlines
    [ js "    <li>";
      js "        <h3>" ++ title ++ js "</h3>";
      js "        <p>" ++ description ++ js "</p>";
      js "    </li>" ].

(** The words of a text: its maximal runs of code units that are no white
    space.  [in_word] tells that the code unit before was part of a word. *)
Fixpoint words_from (in_word : bool) (s : jsstring) : nat :=
  match s with
  | [] => 0
  | c :: t =>
      if is_space c then words_from false t
      else (if in_word then 0 else 1) + words_from true t
  end.

Definition words (s : jsstring) : nat := words_from false s.

(** The maximal runs of white space of a text. *)
Fixpoint space_runs (after_space : bool) (s : jsstring) : nat :=
  match s with
  | [] => 0
  | c :: t =>
      if is_space c then (if after_space then 0 else 1) + space_runs true t
      else space_runs false t
  end.

(** Whether a text ends inside a word. *)
Fixpoint ends_in_word (in_word : bool) (s : jsstring) : bool :=
  match s with
  | [] => in_word
  | c :: t => ends_in_word (negb (is_space c)) t
  end.

(** Text without a full stop. *)
Definition is_dot (c : N) : bool := N.eqb (ch ".") c.
Definition dot_free (s : jsstring) : bool :=
  forallb (fun c => negb (is_dot c)) s.

(** The ASCII letters. *)
Definition is_letter (c : N) : bool := is_upper c || is_lower c.
Definition letters (s : jsstring) : bool := forallb is_letter s.

(** The printable ASCII code units, [\x20] to [\x7E]. *)
Definition printable (c : N) : bool := (32 <=? c)%N && (c <=? 126)%N.

(** Text without an asterisk. *)
Definition starless (s : jsstring) : bool :=
  forallb (fun c => negb (N.eqb (ch "*") c)) s.

(** Text without an underscore and without an opening bracket. *)
Definition linkless (s : jsstring) : bool :=
  forallb (fun c => negb (N.eqb (ch "_") c) && negb (N.eqb (ch "[") c)) s.

Section Analysis.
Import RegexFacts DocumentParser.

(** The number of list items in the lists of a structure. *)
Definition item_count (ls : list list_block) : nat :=
  list_sum (map (fun list => length (lists_items list)) ls).

(** A list of the structure as the loop keeps it before line [i]: it
    starts and ends before [i], spans fewer than five lines and holds at
    least one item and at most one per line of its span. *)
Definition list_within (i : nat) (list : list_block) : Prop :=
  1 <= length (lists_items list)
  /\ length (lists_items list) <= lists_endLine list - lists_startLine list + 1
  /\ lists_startLine list <= lists_endLine list
  /\ lists_endLine list < lists_startLine list + 5
  /\ lists_endLine list < i.

(** The structure that [analyzeTextStructure] returns, as the argument of
    the scoring functions: its arrays are present, and it has neither a
    [hasTableOfContents] nor a [hasKeyTakeaways] property. *)
Definition scored (s : DocumentParser.structure)
  : AIDocumentParser.structure heading list_block paragraph :=
  {| AIDocumentParser.headings := Some (headings s);
     AIDocumentParser.lists := Some (lists s);
     AIDocumentParser.paragraphs := Some (paragraphs s);
     AIDocumentParser.hasTableOfContents := false;
     AIDocumentParser.hasKeyTakeaways := false |}.

(** The lines that the structure accounts for. *)
Definition accounted (s : structure) : nat :=
  length (headings s) + item_count (lists s) + length (paragraphs s).

(** The lines that a markdown structure accounts for. *)
Definition md_accounted (s : md_structure) : nat :=
  length (md_headings s) + length (md_lists s) + length (md_tables s)
  + length (md_paragraphs s).

(** The number of [#] a line starts with. *)
Definition is_hash : N -> bool := N.eqb (ch "#").
Definition leading_hashes (line : jsstring) : nat :=
  length line - length (skip_while is_hash line).

(** What the loop keeps: the levels are at least 2 and nothing is pushed to
    the three arrays it does not fill. *)
Definition md_kept (s : md_structure) : Prop :=
  Forall (fun h => 2 <= headings_level h) (md_headings s)
  /\ md_codeBlocks s = [] /\ md_links s = [] /\ md_images s = [].

End Analysis.

Section WithCase.
Context {CM : CaseMap}.

(** The block the [faq] template writes for the buffered lines. *)
Definition faq_block (items : list jsstring) : jsstring :=
  unlines
    [ js "";
      js "<div class=~faq_blog~>";
      js "    <h2 id=~frequently-asked-questions~>Frequently Asked Questions</h2>";
      SectionDetector.processFAQItems items;
      js "</div>" ].

(** A line of an automatically detected table: a trimmed, non-empty table
    row that is no heading and no tag. *)
Definition table_line (r : jsstring) : bool :=
  DocumentParser.truthy r && str_eqb (trim r) r
  && negb (includes r (js "<TABLE>"))
  && negb (includes r (js "<TABLE END>") || includes r (js "TABLE END"))
  && negb (Claims.section_logic r)
  && DocumentParser.isTableRow r.

End WithCase.

End Behaviour.

(** ** The inputs of the evaluations *)

Module Examples.
Import JS.

(** A sentence of prose that holds the trigger [FAQ]. *)
Definition faq_prose : jsstring :=
  js "Please read our FAQ page before contacting the support team".

(** A question heading, which [isHeading] accepts and [cleanHeadingText]
    leaves as it is. *)
Definition cpp_question : jsstring := js "What is C++ ?".

Definition nested_empty_p : jsstring := js "<p><p></p></p>".

(** HTML with headings, paragraphs and a list, and with an empty paragraph
    and runs of white space for the cleanup to remove. *)
Definition marked_up : jsstring :=
  unlines
    [ js "<h2 id=~intro~>Intro</h2>";
      js "<p>hello   world</p>";
      js "<p>  </p>";
      js "";
      js "";
      js "<ul>";
      js "  <li>one</li>";
      js "  <li>two</li>";
      js "</ul>";
      js "<h3 id=~more~>More</h3>";
      js "<p>bye</p>  " ].

Definition spaced_text : jsstring :=
  js "  Hello    world " ++ nl ++ nl ++ js "  " ++ nl ++ nl ++ js " bye  ".

Definition ignore_with_trigger : jsstring :=
  unlines [ js "<IGNORE>"; js "KEY TAKEAWAYS"; js "foo"; js "<IGNORE END>" ].

Definition ignore_empty : jsstring :=
  unlines [ js "<IGNORE>"; js "<IGNORE END>" ].

(** Lines of an ignore region that open no section. *)
Definition inert_region : list jsstring :=
  [ js "secret stuff here."; js "- item"; js ""; js "Some Title Here";
    js "a | b" ].

Definition faq_example : list jsstring :=
  [ js "What is X?"; js "X is Y."; js "Why use X?"; js "Because Z." ].

Definition faq_example_groups : list Claims.faq_group :=
  [ (js "What is X?", [js "X is Y."]); (js "Why use X?", [js "Because Z."]) ].

(** The lines after a [<TABLE>] line: two rows, the end of the block, and
    what follows it. *)
Definition table_block_lines : list jsstring :=
  [ js "a | b"; js "1 | 2"; js "<TABLE END>"; js "Why use X?";
    js "Because Z." ].

(** A text with a table block inside an FAQ section. *)
Definition faq_with_table : jsstring :=
  unlines ([ js "intro"; js "<FAQ>"; js "What is X?"; js "X is Y.";
             js "<TABLE>" ] ++ table_block_lines).

(** The loop inside an FAQ section with two buffered lines. *)
Definition in_faq : DocumentParser.state :=
  {| DocumentParser.html := js "<p>intro</p>" ++ nl;
     DocumentParser.inList := false;
     DocumentParser.currentListType := None;
     DocumentParser.currentSection := Some (js "faq");
     DocumentParser.sectionItems := [js "What is X?"; js "X is Y."];
     DocumentParser.tocItems := [] |}.

End Examples.

(** * Properties *)

Import JS Regex.

Unset Implicit Arguments.

(** ** Strings *)

Lemma str_eqb_eq (a b : jsstring) : str_eqb a b = true <-> a = b.
Proof.
  unfold str_eqb. destruct (list_eq_dec N.eq_dec a b); split; congruence.
Qed.

Lemma str_eqb_neq (a b : jsstring) : a <> b -> str_eqb a b = false.
Proof.
  unfold str_eqb. destruct (list_eq_dec N.eq_dec a b); congruence.
Qed.

Lemma str_eqb_refl (a : jsstring) : str_eqb a a = true.
Proof. apply str_eqb_eq. reflexivity. Qed.

Section Universal.
Context {CM : CaseMap}.

(** ** The id generators *)

(** C10: the id generators of DocumentParser, SectionDetector and
    TemplateSystem return the same slug on every string. *)
Theorem generateId_three_agree (text : jsstring) :
  DocumentParser.generateId text = SectionDetector.generateId text
  /\ SectionDetector.generateId text = TemplateSystem.generateId text.
Proof. split; reflexivity. Qed.

(** ** The section renderer *)

Lemma lookup_in (A : Type) (key : jsstring) (obj : list (jsstring * A))
  (v : A) :
  SectionDetector.lookup key obj = Some v -> In (key, v) obj.
Proof.
  induction obj as [|[k w] obj IH]; simpl; [discriminate|].
  destruct (str_eqb key k) eqn:Hk.
  - intros [= ->]. apply str_eqb_eq in Hk. subst. left. reflexivity.
  - intros H. right. apply IH. exact H.
Qed.

(** No template has the name of a property of [Object.prototype]. *)
Lemma inherited_name_is_no_key (sectionType : jsstring)
  (f : SectionDetector.inherited) :
  SectionDetector.lookup sectionType SectionDetector.object_prototype = Some f ->
  SectionDetector.lookup sectionType SectionDetector.sectionTemplates = None.
Proof.
  intros H. apply lookup_in in H.
  unfold SectionDetector.object_prototype in H.
  repeat (destruct H as [H|H]; [injection H as <- _; reflexivity|]).
  destruct H.
Qed.

(** C9: [processSectionContent] misses the names that the template table
    inherits.  The section types [__proto__] and [toString] are no keys of
    the table, and the call throws a TypeError for the first and returns
    the text [[object Undefined]] for the second, where the claim promises
    the default paragraph.  For every section type that is neither a key
    of the table nor the name of a property of [Object.prototype] the call
    returns, and its value is the default paragraph wrapping of the
    content; for the name of an inherited property it never is. *)
Theorem processSectionContent_unknown_tag :
  (SectionDetector.lookup (js "__proto__") SectionDetector.sectionTemplates
   = None
   /\ SectionDetector.processSectionContent (js "__proto__") (js "Some text") []
      = TypeError)
  /\ (SectionDetector.lookup (js "toString") SectionDetector.sectionTemplates
      = None
      /\ SectionDetector.processSectionContent (js "toString")
           (js "Some text") []
         = Ok (SectionDetector.VString (js "[object Undefined]")))
  /\ (forall (sectionType content : jsstring)
             (items : list SectionDetector.item),
         SectionDetector.lookup sectionType SectionDetector.sectionTemplates
         = None ->
         SectionDetector.lookup sectionType SectionDetector.object_prototype
         = None ->
         SectionDetector.processSectionContent sectionType content items
         = Ok (SectionDetector.VString (js "<p>" ++ content ++ js "</p>")))
  /\ (forall (sectionType : jsstring) (f : SectionDetector.inherited)
             (content : jsstring) (items : list SectionDetector.item),
         SectionDetector.lookup sectionType SectionDetector.object_prototype
         = Some f ->
         SectionDetector.lookup sectionType SectionDetector.sectionTemplates
         = None
         /\ SectionDetector.processSectionContent sectionType content items
            <> Ok (SectionDetector.VString
                     (js "<p>" ++ content ++ js "</p>"))).
Proof.
  split; [split; reflexivity|]. split; [split; reflexivity|]. split.
  - intros sectionType content items Hown Hinh.
    unfold SectionDetector.processSectionContent.
    rewrite Hown, Hinh. reflexivity.
  - intros sectionType f content items Hinh.
    pose proof (inherited_name_is_no_key sectionType f Hinh) as Hown.
    split; [exact Hown|].
    unfold SectionDetector.processSectionContent.
    rewrite Hown, Hinh. destruct f; simpl; discriminate.
Qed.

(** ** Trigger matching *)

Lemma lookup_none_of_neq (A : Type) (key : jsstring)
  (obj : list (jsstring * A)) :
  (forall k v, In (k, v) obj -> key <> k) ->
  SectionDetector.lookup key obj = None.
Proof.
  induction obj as [|[k v] obj IH]; intros Hne; simpl.
  - reflexivity.
  - rewrite (str_eqb_neq _ _ (Hne k v (or_introl eq_refl))).
    apply IH. intros k' v' Hin. apply (Hne k' v'). right. exact Hin.
Qed.

Lemma near_match_too_long (n keyword : jsstring) :
  length keyword + 5 < length n ->
  SectionDetector.near_match n keyword = false.
Proof.
  intros Hlen. unfold SectionDetector.near_match.
  rewrite !str_eqb_neq.
  - simpl. replace (length n <=? length keyword + 5) with false; [reflexivity|].
    symmetry. apply Nat.leb_gt. exact Hlen.
  - intros ->. rewrite length_app in Hlen. simpl in Hlen. lia.
  - intros ->. rewrite length_app in Hlen. simpl in Hlen. lia.
  - intros ->. lia.
Qed.

Lemma first_near_match_none (n : jsstring)
  (entries : list (jsstring * jsstring)) :
  (forall k v, In (k, v) entries -> length k + 5 < length n) ->
  SectionDetector.first_near_match n entries = None.
Proof.
  induction entries as [|[k v] entries IH]; intros Hlen; simpl.
  - reflexivity.
  - rewrite (near_match_too_long _ _ (Hlen k v (or_introl eq_refl))).
    apply IH. intros k' v' Hin. apply (Hlen k' v'). right. exact Hin.
Qed.

(** C7: a line whose normalized text is no bracket tag and is longer than
    every trigger phrase by more than the margin of five (so it equals no
    phrase, with or without a final colon or full stop) is no trigger. *)
Theorem detectSectionType_long_line (headingText : jsstring) :
  SectionDetector.isStartTag (trim (toUpperCase headingText)) = false ->
  (forall keyword sectionType,
      In (keyword, sectionType) SectionDetector.sectionMappings ->
      length keyword + 5 < length (trim (toUpperCase headingText))) ->
  SectionDetector.detectSectionType headingText = None.
Proof.
  intros Htag Hlen. unfold SectionDetector.detectSectionType. cbv zeta.
  rewrite Htag.
  rewrite lookup_none_of_neq.
  - apply first_near_match_none. exact Hlen.
  - intros k v Hin Heq. specialize (Hlen k v Hin). rewrite Heq in Hlen. lia.
Qed.

End Universal.


(** ** Heading levels of DocumentParser *)

Section HeadingLevels.
Context {CM : CaseMap}.

Lemma level_by_words_range (words : list jsstring) :
  In (DocumentParser.level_by_words words) [2; 3; 4].
Proof.
  unfold DocumentParser.level_by_words.
  destruct (length words <=? 3); [simpl; auto|].
  destruct (length words <=? 6); simpl; auto.
Qed.

(** X1: the level [DocumentParser.getHeadingLevel] assigns is 2, 3 or 4 on
    every line; level 1 is never returned. *)
Lemma getHeadingLevel_range (line : jsstring) :
  In (DocumentParser.getHeadingLevel line) [2; 3; 4].
Proof.
  unfold DocumentParser.getHeadingLevel. cbv zeta.
  repeat match goal with
         | |- In (if ?b then _ else _) _ => destruct b
         end;
    try apply level_by_words_range; simpl; auto.
Qed.

End HeadingLevels.

(** ** The FAQ renderer *)

Section Faq.
Context {CM : CaseMap}.
Import SectionDetector Claims.

Lemma truthy_buffered (item : jsstring) : buffered item -> truthy item = true.
Proof. intros [_ Hne]. destruct item; [congruence | reflexivity]. Qed.

Lemma faq_step_question (st : faq_state) (q : jsstring) :
  question q ->
  faq_step st q
  = {| faqHtml :=
         if truthy (currentQuestion st) && (0 <? length (answerParagraphs st))
         then faqHtml st
              ++ faq_pair (currentQuestion st) (answerParagraphs st) ++ nl
         else faqHtml st;
       currentQuestion := q;
       answerParagraphs := [] |}.
Proof.
  intros [Hb Hq]. unfold faq_step. cbv zeta.
  destruct Hb as [Htrim Hne]. rewrite Htrim.
  rewrite (truthy_buffered q (conj Htrim Hne)). simpl negb. cbv iota.
  unfold isQuestion in Hq. rewrite Hq. reflexivity.
Qed.

Lemma faq_step_answer (st : faq_state) (a : jsstring) :
  answer a -> truthy (currentQuestion st) = true ->
  faq_step st a
  = {| faqHtml := faqHtml st;
       currentQuestion := currentQuestion st;
       answerParagraphs := answerParagraphs st ++ [a] |}.
Proof.
  intros [Hb Hq] Hcur. unfold faq_step. cbv zeta.
  destruct Hb as [Htrim Hne]. rewrite Htrim.
  rewrite (truthy_buffered a (conj Htrim Hne)). simpl negb. cbv iota.
  unfold isQuestion in Hq. rewrite Hq, Hcur. reflexivity.
Qed.

Lemma faq_step_orphan (st : faq_state) (a : jsstring) :
  answer a -> currentQuestion st = [] ->
  currentQuestion (faq_step st a) = [] /\ faqHtml (faq_step st a) = faqHtml st.
Proof.
  intros [Hb Hq] Hcur. unfold faq_step. cbv zeta.
  destruct Hb as [Htrim Hne]. rewrite Htrim.
  rewrite (truthy_buffered a (conj Htrim Hne)). simpl negb. cbv iota.
  unfold isQuestion in Hq. rewrite Hq, Hcur. simpl truthy. cbv iota.
  destruct (20 <? length a); simpl; rewrite ?Hcur; auto.
Qed.

Lemma faq_fold_answers (answers : list jsstring) (st : faq_state) :
  Forall answer answers -> truthy (currentQuestion st) = true ->
  fold_left faq_step answers st
  = {| faqHtml := faqHtml st;
       currentQuestion := currentQuestion st;
       answerParagraphs := answerParagraphs st ++ answers |}.
Proof.
  revert st. induction answers as [|a answers IH]; intros st Hall Hcur.
  - simpl. rewrite app_nil_r. destruct st; reflexivity.
  - inversion Hall as [|? ? Ha Hrest]; subst. simpl.
    rewrite (faq_step_answer st a Ha Hcur).
    rewrite IH; [|exact Hrest|exact Hcur]. simpl.
    rewrite <- app_assoc. reflexivity.
Qed.

Lemma faq_fold_orphans (orphans : list jsstring) (st : faq_state) :
  Forall answer orphans -> currentQuestion st = [] ->
  currentQuestion (fold_left faq_step orphans st) = []
  /\ faqHtml (fold_left faq_step orphans st) = faqHtml st.
Proof.
  revert st. induction orphans as [|a orphans IH]; intros st Hall Hcur.
  - simpl. auto.
  - inversion Hall as [|? ? Ha Hrest]; subst. simpl.
    destruct (faq_step_orphan st a Ha Hcur) as [Hq Hh].
    destruct (IH (faq_step st a) Hrest Hq) as [Hq' Hh'].
    split; congruence.
Qed.

(** From a state that holds the question [q] and its answers so far, the
    rest of the loop renders the group of [q] and the groups that follow. *)
Lemma faq_fold_groups (groups : list faq_group) (h q : jsstring)
  (answers : list jsstring) :
  truthy q = true ->
  Forall well_formed groups ->
  faq_finish
    (fold_left faq_step (flatten_groups groups)
       {| faqHtml := h; currentQuestion := q; answerParagraphs := answers |})
  = h ++ render_groups ((q, answers) :: groups).
Proof.
  revert h q answers.
  induction groups as [|[q1 a1] groups IH]; intros h q answers Hq Hall.
  - simpl. unfold faq_finish. simpl. rewrite Hq. simpl.
    destruct (0 <? length answers); [reflexivity|].
    rewrite app_nil_r. reflexivity.
  - inversion Hall as [|? ? [Hq1 Ha1] Hrest]; subst. simpl in Hq1, Ha1.
    change (flatten_groups ((q1, a1) :: groups))
      with (q1 :: a1 ++ flatten_groups groups).
    simpl fold_left. rewrite fold_left_app.
    rewrite (faq_step_question _ q1 Hq1). simpl.
    assert (Hq1t : truthy q1 = true) by (apply truthy_buffered; apply Hq1).
    rewrite (faq_fold_answers a1); [|exact Ha1|exact Hq1t]. simpl.
    rewrite IH; [|exact Hq1t|exact Hrest].
    rewrite Hq. simpl.
    destruct (0 <? length answers).
    + rewrite <- !app_assoc. reflexivity.
    + reflexivity.
Qed.

(** A buffer that is a run of lines before the first question followed by
    groups of a question line and its answer lines is rendered group by
    group. *)
Lemma faq_groups_in_order (orphans : list jsstring)
  (groups : list faq_group) :
  Forall answer orphans ->
  Forall well_formed groups ->
  groups <> [] ->
  processFAQItems (orphans ++ flatten_groups groups) = render_groups groups.
Proof.
  intros Horph Hall Hne.
  destruct groups as [|[q a] groups]; [congruence|].
  inversion Hall as [|? ? [Hq Ha] Hrest]; subst. simpl in Hq, Ha.
  unfold processFAQItems. rewrite fold_left_app.
  set (st0 := {| faqHtml := []; currentQuestion := [];
                 answerParagraphs := [] |}).
  destruct (faq_fold_orphans orphans st0 Horph eq_refl) as [Hcur Hhtml].
  change (flatten_groups ((q, a) :: groups))
    with (q :: a ++ flatten_groups groups).
  simpl fold_left. rewrite fold_left_app.
  rewrite (faq_step_question _ q Hq). rewrite Hcur, Hhtml. simpl.
  assert (Hqt : truthy q = true) by (apply truthy_buffered; apply Hq).
  rewrite (faq_fold_answers a); [|exact Ha|exact Hqt]. simpl.
  rewrite faq_fold_groups; [|exact Hqt|exact Hrest]. reflexivity.
Qed.

End Faq.

(** ** The scan of convertTextToHTML *)

#[local] Arguments js : simpl never.
#[local] Arguments unlines : simpl never.
#[local] Arguments of_nat : simpl never.

Section Scan.
Context {CM : CaseMap}.
Import DocumentParser Claims.

(** *** Rendering buffered lines returns *)

Lemma strings_of_IStr (items : list jsstring) :
  SectionDetector.strings_of (map SectionDetector.IStr items) = Ok items.
Proof.
  induction items as [|s items IH]; simpl.
  - reflexivity.
  - rewrite IH. reflexivity.
Qed.

Lemma lookup_key (A : Type) (key : jsstring) (obj : list (jsstring * A)) :
  existsb (str_eqb key) (map fst obj) = true ->
  exists v, SectionDetector.lookup key obj = Some v.
Proof.
  induction obj as [|[k v] obj IH]; simpl; [discriminate|].
  destruct (str_eqb key k); [eauto|]. exact IH.
Qed.

Lemma first_near_match_in (n : jsstring) (entries : list (jsstring * jsstring))
  (t : jsstring) :
  SectionDetector.first_near_match n entries = Some t ->
  exists k, In (k, t) entries.
Proof.
  induction entries as [|[k v] entries IH]; simpl; [discriminate|].
  destruct (SectionDetector.near_match n k).
  - intros [= ->]. exists k. left. reflexivity.
  - intros H. destruct (IH H) as [k' Hk']. exists k'. right. exact Hk'.
Qed.

Lemma mapped_types_have_templates (k t : jsstring) :
  In (k, t) SectionDetector.sectionMappings ->
  existsb (str_eqb t) (map fst SectionDetector.sectionTemplates) = true.
Proof.
  assert (H : forallb (fun e => existsb (str_eqb (snd e))
                                  (map fst SectionDetector.sectionTemplates))
                SectionDetector.sectionMappings = true)
    by (vm_compute; reflexivity).
  rewrite forallb_forall in H. intros Hin. exact (H _ Hin).
Qed.

Lemma templates_return_on_strings :
  Forall (fun e => returns_on_strings (snd e))
    SectionDetector.sectionTemplates.
Proof.
  unfold SectionDetector.sectionTemplates.
  repeat (constructor;
          [ intros content items; cbn [snd];
            first
              [ unfold SectionDetector.template_toc;
                destruct (length (map SectionDetector.IStr items) =? 0);
                eexists; reflexivity
              | unfold SectionDetector.template_table;
                destruct (length (map SectionDetector.IStr items) =? 0);
                rewrite ?strings_of_IStr; eexists; reflexivity
              | unfold SectionDetector.template_faq,
                  SectionDetector.template_steps,
                  SectionDetector.template_comparison;
                rewrite strings_of_IStr; eexists; reflexivity
              | eexists; reflexivity ]
          | ]).
  constructor.
Qed.

Lemma has_template_lookup (sectionType : jsstring) :
  has_template sectionType = true ->
  exists template,
    SectionDetector.lookup sectionType SectionDetector.sectionTemplates
    = Some template.
Proof. apply lookup_key. Qed.

(** The type of a start tag and the type detected from a heading text are
    keys of the template table. *)
Lemma tag_has_template (tag sectionType : jsstring) :
  SectionDetector.getSectionTypeFromTag tag = Some sectionType ->
  has_template sectionType = true.
Proof.
  unfold SectionDetector.getSectionTypeFromTag. intros H.
  apply lookup_in in H. exact (mapped_types_have_templates _ _ H).
Qed.

Lemma detected_has_template (headingText sectionType : jsstring) :
  SectionDetector.detectSectionType headingText = Some sectionType ->
  has_template sectionType = true.
Proof.
  unfold SectionDetector.detectSectionType. cbv zeta. intros H.
  destruct (SectionDetector.isStartTag (trim (toUpperCase headingText))).
  - exact (tag_has_template _ _ H).
  - destruct (SectionDetector.lookup (trim (toUpperCase headingText))
                SectionDetector.sectionMappings) as [t|] eqn:Hl.
    + injection H as ->. apply lookup_in in Hl.
      exact (mapped_types_have_templates _ _ Hl).
    + apply first_near_match_in in H as [k Hk].
      exact (mapped_types_have_templates _ _ Hk).
Qed.

(** A template of the table returns a string on an array of strings. *)
Lemma processSectionContent_returns (sectionType content : jsstring)
  (items : list jsstring) :
  has_template sectionType = true ->
  exists r,
    SectionDetector.processSectionContent sectionType content
      (map SectionDetector.IStr items) = Ok (SectionDetector.VString r).
Proof.
  intros Hkey. unfold SectionDetector.processSectionContent.
  destruct (has_template_lookup sectionType Hkey) as [template Hl].
  rewrite Hl. apply lookup_in in Hl.
  pose proof templates_return_on_strings as Hall.
  rewrite Forall_forall in Hall.
  destruct (Hall _ Hl content items) as [r Hr]. cbn [snd] in Hr.
  rewrite Hr. exists r. reflexivity.
Qed.

Lemma render_section_returns (st : state) :
  templated st = true -> exists r, render_section st = Ok r.
Proof.
  unfold templated, render_section. destruct (currentSection st) as [t|].
  - intros Hkey.
    destruct (processSectionContent_returns t [] (sectionItems st) Hkey)
      as [r ->].
    exists r. reflexivity.
  - eexists. reflexivity.
Qed.

(** *** The steps of the body *)

Lemma close_open_list_section (st : state) :
  currentSection (close_open_list st) = currentSection st
  /\ sectionItems (close_open_list st) = sectionItems st.
Proof. unfold close_open_list. destruct (inList st); split; reflexivity. Qed.

Lemma buffer_owned_close (st : state) :
  buffer_owned st -> buffer_owned (close_open_list st).
Proof.
  unfold buffer_owned. destruct (close_open_list_section st) as [-> ->].
  auto.
Qed.

Lemma buffer_owned_html (st : state) (h : jsstring) :
  buffer_owned st -> buffer_owned (set_html st h).
Proof. unfold buffer_owned. simpl. auto. Qed.

Lemma buffer_owned_push (st : state) (it : jsstring) :
  in_section st = true -> buffer_owned (push_item st it).
Proof.
  unfold buffer_owned, in_section. simpl.
  destruct (currentSection st); [discriminate|]. discriminate.
Qed.

Lemma is_section_in (st : state) (name : string) :
  is_section st name = true -> in_section st = true.
Proof.
  unfold is_section, in_section. destruct (currentSection st); auto.
Qed.

Lemma end_tag_closes (st : state) :
  buffer_owned st ->
  templated st = true ->
  exists st', end_tag st = Ok st'
              /\ currentSection st' = None /\ sectionItems st' = [].
Proof.
  intros Hown Htpl. unfold end_tag.
  destruct (in_section st) eqn:Hin; simpl.
  - destruct (sectionItems st) as [|it items] eqn:Hitems; simpl.
    + eexists. split; [reflexivity|]. simpl. auto.
    + destruct (negb (is_section st "ignore")).
      * destruct (render_section_returns st Htpl) as [r ->]. simpl.
        eexists. split; [reflexivity|]. simpl. auto.
      * eexists. split; [reflexivity|]. simpl. auto.
  - eexists. split; [reflexivity|]. simpl. split; [reflexivity|].
    apply Hown. unfold in_section in Hin.
    destruct (currentSection st); [discriminate | reflexivity].
Qed.

(** Closing the current section appends [closing_output] and empties the
    buffer; the section slot is left as it is. *)
Lemma flush_section_spec (st : state) :
  in_section st = true ->
  templated st = true ->
  exists out,
    closing_output st = Ok out
    /\ flush_section st = Ok (set_items (set_html st (html st ++ out)) []).
Proof.
  intros Hin Htpl. unfold flush_section, closing_output. rewrite Hin. simpl.
  destruct (sectionItems st) as [|it items] eqn:Hitems; simpl.
  - exists []. split; [reflexivity|]. rewrite app_nil_r.
    destruct st; simpl in *. subst. reflexivity.
  - destruct (is_section st "toc").
    + eexists. split; reflexivity.
    + destruct (is_section st "ignore"); simpl.
      * exists []. split; [reflexivity|]. rewrite app_nil_r.
        destruct st; reflexivity.
      * destruct (render_section_returns st Htpl) as [r Hr]. rewrite Hr.
        simpl. exists r. split; reflexivity.
Qed.

Lemma flush_section_idle (st : state) :
  in_section st = false -> flush_section st = Ok st.
Proof. intros Hin. unfold flush_section. rewrite Hin. reflexivity. Qed.

Lemma flush_section_owned (st : state) :
  buffer_owned st ->
  templated st = true ->
  exists st', flush_section st = Ok st'
              /\ buffer_owned st'
              /\ currentSection st' = currentSection st
              /\ inList st' = inList st.
Proof.
  intros Hown Htpl. destruct (in_section st) eqn:Hin.
  - destruct (flush_section_spec st Hin Htpl) as [out [_ ->]].
    eexists. split; [reflexivity|]. unfold buffer_owned. simpl. auto.
  - rewrite (flush_section_idle st Hin). eauto.
Qed.

Lemma buffer_owned_emit (st : state) (level : nat) (text id : jsstring) :
  buffer_owned st -> buffer_owned (emit_heading st level text id).
Proof. unfold buffer_owned. simpl. auto. Qed.

Lemma buffer_owned_open (st : state) (sec : jsstring) :
  buffer_owned (set_section st (Some sec)).
Proof. unfold buffer_owned. simpl. discriminate. Qed.

Lemma buffer_owned_heading_line (line normalizedLine : jsstring)
  (st : state) :
  buffer_owned st -> buffer_owned (heading_line line normalizedLine st).
Proof.
  intros Hown. unfold heading_line. cbv zeta.
  repeat match goal with
         | |- buffer_owned (match ?o with Some _ => _ | None => _ end) =>
             destruct o
         | |- buffer_owned (if ?b then _ else _) => destruct b eqn:?
         end;
    try exact Hown;
    try (apply buffer_owned_emit; first [exact Hown | apply buffer_owned_open]);
    try apply buffer_owned_open;
    try (apply buffer_owned_push; eapply is_section_in; eassumption).
Qed.

Ltac owned :=
  do 2 eexists; split;
  [ reflexivity
  | eauto using buffer_owned_close, buffer_owned_html, buffer_owned_push,
      buffer_owned_open, buffer_owned_heading_line ].

(** *** The open section has a template *)

Lemma templated_same (st st' : state) :
  currentSection st' = currentSection st ->
  templated st = true -> templated st' = true.
Proof. unfold templated. intros ->. auto. Qed.

Lemma templated_open (st : state) (sectionType : jsstring) :
  has_template sectionType = true ->
  templated (set_section st (Some sectionType)) = true.
Proof. intros H. exact H. Qed.

Lemma current_close (st : state) :
  currentSection (close_open_list st) = currentSection st.
Proof. exact (proj1 (close_open_list_section st)). Qed.

Lemma current_flush (st st' : state) :
  flush_section st = Ok st' -> currentSection st' = currentSection st.
Proof.
  unfold flush_section.
  destruct (in_section st && (0 <? length (sectionItems st)));
    [|intros [= <-]; reflexivity].
  destruct (is_section st "toc"); [intros [= <-]; reflexivity|].
  destruct (negb (is_section st "ignore")).
  - destruct (render_section st) as [r|]; simpl; [|discriminate].
    intros [= <-]. reflexivity.
  - intros [= <-]. reflexivity.
Qed.

Lemma current_end_tag (st st' : state) :
  end_tag st = Ok st' -> currentSection st' = None.
Proof.
  unfold end_tag.
  destruct (in_section st && (0 <? length (sectionItems st)));
    [|intros [= <-]; reflexivity].
  destruct (negb (is_section st "ignore")).
  - destruct (render_section st) as [r|]; simpl; [|discriminate].
    intros [= <-]. reflexivity.
  - intros [= <-]. reflexivity.
Qed.

Lemma templated_heading_line (line normalizedLine : jsstring) (st : state) :
  templated st = true ->
  templated (heading_line line normalizedLine st) = true.
Proof.
  intros Htpl. unfold heading_line. cbv zeta.
  destruct (SectionDetector.detectSectionType (cleanHeadingText line))
    as [sectionType|] eqn:Hdet.
  - apply detected_has_template in Hdet.
    repeat match goal with
           | |- templated (if ?b then _ else _) = true => destruct b
           end;
      first [exact Hdet | exact Htpl].
  - repeat match goal with
           | |- templated (if ?b then _ else _) = true => destruct b
           end;
      exact Htpl.
Qed.

Ltac keeps Htpl :=
  intros [= _ <-];
  first [ exact Htpl
        | apply (fun st' Heq => templated_same _ st' Heq Htpl);
          simpl; rewrite ?current_close; reflexivity ].

(** A step of the loop opens sections of the renderer only. *)
Lemma body_templated (l : jsstring) (rest : list jsstring) (st st' : state)
  (n : nat) :
  templated st = true ->
  body l rest st = Ok (n, st') -> templated st' = true.
Proof.
  intros Htpl. unfold body. cbv zeta.
  destruct (negb (truthy (trim l))); [keeps Htpl|].
  destruct (includes (trim l) (js "<TABLE>")).
  { destruct (0 <? length (tableContent_of (table_block rest)));
      keeps Htpl. }
  destruct (includes (trim l) (js "<TABLE END>")
            || includes (trim l) (js "TABLE END")); [keeps Htpl|].
  destruct (isHeading (trim l)
            || SectionDetector.isStartTag (toUpperCase (trim l))
            || SectionDetector.isEndTag (toUpperCase (trim l))).
  { destruct (SectionDetector.isEndTag (trim (toUpperCase (trim l)))).
    - destruct (end_tag st) as [st1|] eqn:Hend; simpl; [|discriminate].
      intros [= _ <-]. unfold templated.
      rewrite (current_end_tag st st1 Hend). reflexivity.
    - destruct (flush_section st) as [st1|] eqn:Hfl; simpl; [|discriminate].
      assert (H1 : templated (close_open_list st1) = true).
      { apply (templated_same st); [|exact Htpl].
        rewrite current_close. exact (current_flush st st1 Hfl). }
      destruct (if SectionDetector.isStartTag (trim (toUpperCase (trim l)))
                then SectionDetector.getSectionTypeFromTag
                       (trim (toUpperCase (trim l)))
                else None) as [sectionType|] eqn:Htag.
      + intros [= _ <-]. apply templated_open.
        destruct (SectionDetector.isStartTag (trim (toUpperCase (trim l))));
          [|discriminate].
        exact (tag_has_template _ _ Htag).
      + destruct (isHeading (trim l)); intros [= _ <-];
          [apply templated_heading_line|]; exact H1. }
  destruct (isTableRow (trim l)).
  { destruct (in_section st); [keeps Htpl|].
    destruct (1 <? length (collectTableRows (l :: rest))); keeps Htpl. }
  destruct (isListItem (trim l)).
  { destruct (in_section st); [keeps Htpl|].
    intros [= _ <-].
    match goal with
    | |- templated (set_html (if ?b then _ else _) _) = true => destruct b
    end; exact Htpl. }
  destruct (in_section st); keeps Htpl.
Qed.

(** The body of the loop returns, and keeps the buffer with its section. *)
Lemma body_owned (l : jsstring) (rest : list jsstring) (st : state) :
  buffer_owned st ->
  templated st = true ->
  exists n st', body l rest st = Ok (n, st') /\ buffer_owned st'.
Proof.
  intros Hown Htpl. unfold body. cbv zeta.
  destruct (negb (truthy (trim l))); [owned|].
  destruct (includes (trim l) (js "<TABLE>")).
  { destruct (0 <? length (tableContent_of (table_block rest))); owned. }
  destruct (includes (trim l) (js "<TABLE END>")
            || includes (trim l) (js "TABLE END")); [owned|].
  destruct (isHeading (trim l)
            || SectionDetector.isStartTag (toUpperCase (trim l))
            || SectionDetector.isEndTag (toUpperCase (trim l))).
  { destruct (SectionDetector.isEndTag (trim (toUpperCase (trim l)))).
    - destruct (end_tag_closes st Hown Htpl) as [st' [-> [Hs Hi]]]. simpl.
      do 2 eexists. split; [reflexivity|]. intros _. exact Hi.
    - destruct (flush_section_owned st Hown Htpl) as [st1 [-> [Hown1 _]]].
      simpl.
      destruct (if SectionDetector.isStartTag (trim (toUpperCase (trim l)))
                then SectionDetector.getSectionTypeFromTag
                       (trim (toUpperCase (trim l)))
                else None); [owned|].
      destruct (isHeading (trim l)); owned. }
  destruct (isTableRow (trim l)).
  { destruct (in_section st) eqn:Hin; [owned|].
    destruct (1 <? length (collectTableRows (l :: rest))); owned. }
  destruct (isListItem (trim l)).
  { destruct (in_section st) eqn:Hin; [owned|].
    do 2 eexists. split; [reflexivity|].
    apply buffer_owned_html.
    match goal with
    | |- buffer_owned (if ?b then _ else _) => destruct b
    end; [|exact Hown].
    unfold buffer_owned. simpl. exact Hown. }
  destruct (in_section st) eqn:Hin; owned.
Qed.

(** The loop returns, and at every point of its run the buffer belongs to
    the open section, which is a section of the renderer. *)
Lemma loop_owned (lines : list jsstring) (skip : nat) (st : state) :
  buffer_owned st ->
  templated st = true ->
  exists st', loop lines skip st = Ok st'
              /\ buffer_owned st' /\ templated st' = true.
Proof.
  revert skip st. induction lines as [|l rest IH]; intros skip st Hown Htpl.
  - simpl. eauto.
  - destruct skip as [|n]; simpl.
    + destruct (body_owned l rest st Hown Htpl) as [n [st' [Hb Hown']]].
      pose proof (body_templated l rest st st' n Htpl Hb) as Htpl'.
      rewrite Hb. simpl. apply IH; assumption.
    + apply IH; assumption.
Qed.

Lemma scan_states_owned (lines : list jsstring) (skip : nat) (st : state) :
  buffer_owned st ->
  templated st = true ->
  Forall (fun st' => buffer_owned st' /\ templated st' = true)
    (scan_states lines skip st).
Proof.
  revert skip st. induction lines as [|l rest IH]; intros skip st Hown Htpl.
  - simpl. constructor; [auto|constructor].
  - cbn [scan_states]. constructor; [auto|].
    destruct skip as [|n].
    + destruct (body_owned l rest st Hown Htpl) as [n [st' [Hb Hown']]].
      pose proof (body_templated l rest st st' n Htpl Hb) as Htpl'.
      rewrite Hb. simpl. apply IH; assumption.
    + apply IH; assumption.
Qed.

(** The state in which the loop ends is one of the states of its run. *)
Lemma loop_in_scan_states (lines : list jsstring) (skip : nat)
  (st st' : state) :
  loop lines skip st = Ok st' -> In st' (scan_states lines skip st).
Proof.
  revert skip st. induction lines as [|l rest IH]; intros skip st.
  - simpl. intros [= <-]. left. reflexivity.
  - cbn [scan_states loop]. destruct skip as [|n].
    + destruct (body l rest st) as [[m st1]|] eqn:Hb; [|discriminate].
      cbn [bind fst snd]. intros Hl. right. exact (IH m st1 Hl).
    + intros Hl. right. exact (IH n st Hl).
Qed.

(** *** The html only grows *)

Lemma extends_refl (st : state) : extends st st.
Proof. exists []. rewrite app_nil_r. reflexivity. Qed.

Lemma extends_trans (st1 st2 st3 : state) :
  extends st1 st2 -> extends st2 st3 -> extends st1 st3.
Proof.
  intros [o1 H1] [o2 H2]. exists (o1 ++ o2).
  rewrite H2, H1, app_assoc. reflexivity.
Qed.

Lemma extends_same (st st' : state) : html st' = html st -> extends st st'.
Proof. intros H. exists []. rewrite app_nil_r. exact H. Qed.

Lemma extends_append (st : state) (out : jsstring) :
  extends st (set_html st (html st ++ out)).
Proof. exists out. reflexivity. Qed.

Lemma extends_close (st : state) : extends st (close_open_list st).
Proof.
  unfold close_open_list. destruct (inList st).
  - eexists. reflexivity.
  - apply extends_refl.
Qed.

Lemma extends_emit (st : state) (level : nat) (text id : jsstring) :
  extends st (emit_heading st level text id).
Proof. eexists. simpl. reflexivity. Qed.

Lemma extends_heading_line (line normalizedLine : jsstring) (st : state) :
  extends st (heading_line line normalizedLine st).
Proof.
  unfold heading_line. cbv zeta.
  repeat match goal with
         | |- extends _ (match ?o with Some _ => _ | None => _ end) =>
             destruct o
         | |- extends _ (if ?b then _ else _) => destruct b
         end;
    first [ apply extends_refl
          | apply extends_emit
          | apply extends_same; reflexivity
          | eexists; simpl; reflexivity ].
Qed.

Lemma extends_flush (st st' : state) :
  flush_section st = Ok st' -> extends st st'.
Proof.
  unfold flush_section.
  destruct (in_section st && (0 <? length (sectionItems st)));
    [|intros [= <-]; apply extends_refl].
  destruct (is_section st "toc"); [intros [= <-]; eexists; reflexivity|].
  destruct (negb (is_section st "ignore")).
  - destruct (render_section st) as [r|]; simpl; [|discriminate].
    intros [= <-]. eexists. reflexivity.
  - intros [= <-]. apply extends_same. reflexivity.
Qed.

Lemma extends_end_tag (st st' : state) :
  end_tag st = Ok st' -> extends st st'.
Proof.
  unfold end_tag.
  destruct (in_section st && (0 <? length (sectionItems st)));
    [|intros [= <-]; apply extends_same; reflexivity].
  destruct (negb (is_section st "ignore")).
  - destruct (render_section st) as [r|]; simpl; [|discriminate].
    intros [= <-]. eexists. reflexivity.
  - intros [= <-]. apply extends_same. reflexivity.
Qed.

Ltac grows :=
  intros [= _ <-];
  first [ apply extends_refl
        | apply extends_close
        | apply extends_same; reflexivity
        | eapply extends_trans; [apply extends_close|];
          first [ apply extends_append
                | apply extends_heading_line
                | apply extends_same; reflexivity ] ].

(** A step of the loop only appends to the html. *)
Lemma body_appends (l : jsstring) (rest : list jsstring) (st st' : state)
  (n : nat) :
  body l rest st = Ok (n, st') -> extends st st'.
Proof.
  unfold body. cbv zeta.
  destruct (negb (truthy (trim l))); [grows|].
  destruct (includes (trim l) (js "<TABLE>")).
  { destruct (0 <? length (tableContent_of (table_block rest))); grows. }
  destruct (includes (trim l) (js "<TABLE END>")
            || includes (trim l) (js "TABLE END")); [grows|].
  destruct (isHeading (trim l)
            || SectionDetector.isStartTag (toUpperCase (trim l))
            || SectionDetector.isEndTag (toUpperCase (trim l))).
  { destruct (SectionDetector.isEndTag (trim (toUpperCase (trim l)))).
    - destruct (end_tag st) as [st1|] eqn:Hend; simpl; [|discriminate].
      intros [= _ <-]. exact (extends_end_tag st st1 Hend).
    - destruct (flush_section st) as [st1|] eqn:Hfl; simpl; [|discriminate].
      pose proof (extends_flush st st1 Hfl) as H1.
      destruct (if SectionDetector.isStartTag (trim (toUpperCase (trim l)))
                then SectionDetector.getSectionTypeFromTag
                       (trim (toUpperCase (trim l)))
                else None).
      + intros [= _ <-]. apply (extends_trans st st1 _ H1).
        apply (extends_trans st1 (close_open_list st1) _
                 (extends_close st1)).
        apply extends_same. reflexivity.
      + destruct (isHeading (trim l)); intros [= _ <-];
          apply (extends_trans st st1 _ H1);
          [ apply (extends_trans st1 (close_open_list st1) _
                     (extends_close st1)); apply extends_heading_line
          | apply extends_close ]. }
  destruct (isTableRow (trim l)).
  { destruct (in_section st); [grows|].
    destruct (1 <? length (collectTableRows (l :: rest))); grows. }
  destruct (isListItem (trim l)).
  { destruct (in_section st); [grows|].
    intros [= _ <-].
    match goal with
    | |- extends _ (set_html ?x _) =>
        apply (extends_trans st x); [|apply extends_append]
    end.
    match goal with
    | |- extends _ (if ?b then _ else _) => destruct b
    end; [|apply extends_refl].
    destruct (inList st); eexists; simpl; rewrite <- ?app_assoc;
      reflexivity. }
  destruct (in_section st); grows.
Qed.

(** A trigger line closes the current section and opens its own. *)
Lemma body_trigger (l : jsstring) (rest : list jsstring) (st : state)
  (sectionType : jsstring) :
  in_section st = true ->
  templated st = true ->
  reaches_section_logic l = true ->
  trigger_of (trim l) = Some sectionType ->
  exists out tail st',
    closing_output st = Ok out
    /\ body l rest st = Ok (0, st')
    /\ currentSection st' = Some sectionType
    /\ sectionItems st' = []
    /\ html st' = html st ++ out ++ tail.
Proof.
  intros Hin Htpl Hreach Htrig.
  unfold reaches_section_logic, section_logic in Hreach. cbv zeta in Hreach.
  apply andb_prop in Hreach as [Hreach Hnoend].
  apply andb_prop in Hreach as [Hreach Hlogic].
  apply andb_prop in Hreach as [Hreach Hnotend].
  apply andb_prop in Hreach as [Htruthy Hnotable].
  apply negb_true_iff in Hnoend, Hnotend, Hnotable.
  destruct (flush_section_spec st Hin Htpl) as [out [Hout Hflush]].
  unfold body. cbv zeta.
  rewrite Htruthy. simpl negb. cbv iota.
  rewrite Hnotable, Hnotend, Hlogic, Hnoend, Hflush.
  simpl bind.
  unfold trigger_of in Htrig. cbv zeta in Htrig.
  set (st1 := set_items (set_html st (html st ++ out)) []).
  assert (Hst2 : exists tail2, html (close_open_list st1)
                               = html st ++ out ++ tail2
                               /\ sectionItems (close_open_list st1) = []
                               /\ currentSection (close_open_list st1)
                                  = currentSection st).
  { unfold close_open_list. destruct (inList st1); simpl.
    - eexists. rewrite <- app_assoc. repeat split; reflexivity.
    - exists []. rewrite app_nil_r. repeat split; reflexivity. }
  destruct Hst2 as [tail2 [Hh2 [Hi2 Hs2]]].
  destruct (SectionDetector.isStartTag (trim (toUpperCase (trim l))))
    eqn:Hstart.
  - rewrite Htrig.
    exists out, tail2. eexists. split; [exact Hout|].
    split; [reflexivity|]. simpl. auto.
  - destruct (isHeading (trim l)); [|discriminate].
    unfold heading_line. cbv zeta. rewrite Htrig, Hstart. simpl negb.
    cbv iota.
    destruct (negb (str_eqb sectionType (js "toc"))
              && negb (str_eqb sectionType (js "faq"))).
    + exists out. eexists. eexists. split; [exact Hout|].
      split; [reflexivity|]. simpl.
      split; [reflexivity|]. split; [exact Hi2|].
      rewrite Hh2. rewrite <- !app_assoc. reflexivity.
    + exists out, tail2. eexists. split; [exact Hout|].
      split; [reflexivity|]. simpl. auto.
Qed.

(** A line that holds [<TABLE>] is taken by the look-ahead before the
    section logic: the loop jumps over its block, and the section and its
    buffer stay as they are. *)
Lemma body_table_block (l : jsstring) (rest : list jsstring) (st : state) :
  truthy (trim l) = true ->
  includes (trim l) (js "<TABLE>") = true ->
  exists st' table,
    body l rest st = Ok (length (table_block rest) + 1, st')
    /\ currentSection st' = currentSection st
    /\ sectionItems st' = sectionItems st
    /\ html st' = html st ++ table.
Proof.
  intros Htruthy Htable. unfold body. cbv zeta.
  rewrite Htruthy, Htable. simpl negb. cbv iota.
  destruct (0 <? length (tableContent_of (table_block rest))).
  - destruct (close_open_list_section st) as [Hs Hi].
    destruct (extends_close st) as [closing Hc].
    eexists.
    exists (closing
            ++ SectionDetector.processTableItems
                 (tableContent_of (table_block rest)) ++ nl).
    split; [reflexivity|].
    split; [exact Hs|]. split; [exact Hi|].
    simpl. rewrite Hc, <- app_assoc. reflexivity.
  - exists st, []. rewrite app_nil_r. repeat split; reflexivity.
Qed.

(** A line with [TABLE END] outside a block changes nothing. *)
Lemma body_table_end (l : jsstring) (rest : list jsstring) (st : state) :
  truthy (trim l) = true ->
  includes (trim l) (js "<TABLE>") = false ->
  includes (trim l) (js "<TABLE END>") || includes (trim l) (js "TABLE END")
  = true ->
  body l rest st = Ok (0, st).
Proof.
  intros Htruthy Htable Hend. unfold body. cbv zeta.
  rewrite Htruthy, Htable, Hend. reflexivity.
Qed.

(** An end tag closes the open section and opens none. *)
Lemma body_end_tag (l : jsstring) (rest : list jsstring) (st : state) :
  buffer_owned st ->
  templated st = true ->
  closes_section l = true ->
  exists st',
    body l rest st = Ok (0, st')
    /\ currentSection st' = None
    /\ sectionItems st' = [].
Proof.
  intros Hown Htpl Hcl. unfold closes_section, section_logic in Hcl.
  cbv zeta in Hcl.
  apply andb_prop in Hcl as [Hcl Hend].
  apply andb_prop in Hcl as [Hcl Hlogic].
  apply andb_prop in Hcl as [Hcl Hnotend].
  apply andb_prop in Hcl as [Htruthy Hnotable].
  apply negb_true_iff in Hnotend, Hnotable.
  destruct (end_tag_closes st Hown Htpl) as [st' [Het [Hs Hi]]].
  exists st'. split; [|split; assumption].
  unfold body. cbv zeta. rewrite Htruthy. simpl negb. cbv iota.
  rewrite Hnotable, Hnotend, Hlogic, Hend, Het. reflexivity.
Qed.


End Scan.

(** ** Ignore sections *)

Section Ignore.
Context {CM : CaseMap}.
Import DocumentParser Claims.

Lemma state_eta (st : state) : set_items st (sectionItems st) = st.
Proof. destruct st; reflexivity. Qed.

Lemma ignore_section (st : state) :
  is_section st "ignore" = true ->
  in_section st = true
  /\ is_section st "toc" = false
  /\ is_section st "faq" = false.
Proof.
  unfold is_section, in_section. destruct (currentSection st) as [t|];
    [|discriminate].
  intros H. apply str_eqb_eq in H. subst t. repeat split.
Qed.

Lemma flush_section_ignore (st : state) :
  is_section st "ignore" = true ->
  flush_section st = Ok (set_items st []).
Proof.
  intros Hig. destruct (ignore_section st Hig) as [Hin [Htoc _]].
  unfold flush_section. rewrite Hin, Htoc, Hig. simpl.
  destruct (sectionItems st) eqn:Hitems; simpl; [|reflexivity].
  rewrite <- Hitems. rewrite state_eta. reflexivity.
Qed.

Lemma end_tag_ignore (st : state) :
  is_section st "ignore" = true ->
  end_tag st = Ok (set_section (set_items st []) None).
Proof.
  intros Hig. destruct (ignore_section st Hig) as [Hin _].
  unfold end_tag. rewrite Hin, Hig. simpl.
  destruct (sectionItems st) eqn:Hitems; simpl; [|reflexivity].
  rewrite <- Hitems. rewrite state_eta. reflexivity.
Qed.

Lemma close_open_list_closed (st : state) :
  inList st = false -> close_open_list st = st.
Proof. intros H. unfold close_open_list. rewrite H. reflexivity. Qed.

(** In an ignore section a heading that opens no section is dropped. *)
Lemma heading_line_ignore (line normalizedLine : jsstring) (st : state) :
  is_section st "ignore" = true ->
  SectionDetector.detectSectionType (cleanHeadingText line) = None
  \/ SectionDetector.isStartTag normalizedLine = true ->
  heading_line line normalizedLine st = st.
Proof.
  intros Hig Hno. destruct (ignore_section st Hig) as [Hin [Htoc Hfaq]].
  unfold heading_line. cbv zeta.
  destruct (SectionDetector.detectSectionType (cleanHeadingText line)).
  - destruct Hno as [Hno|Hno]; [discriminate|]. rewrite Hno. simpl.
    rewrite Hin, Hig, Htoc, Hfaq. reflexivity.
  - rewrite Hin, Hig, Htoc, Hfaq. reflexivity.
Qed.

(** While an ignore section is open, an inert line changes the buffer
    only. *)
Lemma body_inert (l : jsstring) (rest : list jsstring) (st : state) :
  is_section st "ignore" = true ->
  inList st = false ->
  inert l = true ->
  exists items, body l rest st = Ok (0, set_items st items).
Proof.
  intros Hig Hlist Hinert. destruct (ignore_section st Hig) as [Hin _].
  unfold inert in Hinert. cbv zeta in Hinert.
  unfold body. cbv zeta.
  destruct (truthy (trim l)) eqn:Htruthy; simpl negb; cbv iota.
  2:{ exists (sectionItems st).
      rewrite (close_open_list_closed st Hlist), state_eta. reflexivity. }
  simpl in Hinert. apply andb_prop in Hinert as [Hnotable Hcases].
  apply negb_true_iff in Hnotable. rewrite Hnotable.
  destruct (includes (trim l) (js "<TABLE END>")
            || includes (trim l) (js "TABLE END")).
  { exists (sectionItems st). rewrite state_eta. reflexivity. }
  simpl in Hcases. unfold section_logic in Hcases.
  destruct (isHeading (trim l)
            || SectionDetector.isStartTag (toUpperCase (trim l))
            || SectionDetector.isEndTag (toUpperCase (trim l))).
  - simpl in Hcases. apply andb_prop in Hcases as [Hnoend Htrig].
    apply negb_true_iff in Hnoend. rewrite Hnoend.
    rewrite (flush_section_ignore st Hig). simpl bind.
    rewrite close_open_list_closed by exact Hlist.
    unfold trigger_of in Htrig. cbv zeta in Htrig.
    destruct (SectionDetector.isStartTag (trim (toUpperCase (trim l))))
      eqn:Hstart.
    + destruct (SectionDetector.getSectionTypeFromTag
                  (trim (toUpperCase (trim l)))); [discriminate|].
      exists []. destruct (isHeading (trim l)); [|reflexivity].
      rewrite heading_line_ignore; [reflexivity|exact Hig|right; exact Hstart].
    + exists []. destruct (isHeading (trim l)); [|reflexivity].
      rewrite heading_line_ignore; [reflexivity|exact Hig|].
      left. destruct (SectionDetector.detectSectionType
                        (cleanHeadingText (trim l)));
        [discriminate|reflexivity].
  - rewrite Hin.
    destruct (isTableRow (trim l)); [eexists; reflexivity|].
    destruct (isListItem (trim l)); eexists; reflexivity.
Qed.

Lemma loop_inert (region rest : list jsstring) (st : state) :
  is_section st "ignore" = true ->
  inList st = false ->
  forallb inert region = true ->
  exists items,
    loop (region ++ rest) 0 st = loop rest 0 (set_items st items).
Proof.
  revert st. induction region as [|l region IH]; intros st Hig Hlist Hall.
  - exists (sectionItems st). rewrite state_eta. reflexivity.
  - simpl in Hall. apply andb_prop in Hall as [Hl Hall].
    destruct (body_inert l (region ++ rest) st Hig Hlist Hl) as [items Hb].
    simpl loop. rewrite Hb. simpl.
    destruct (IH (set_items st items) Hig Hlist Hall) as [items' ->].
    exists items'. reflexivity.
Qed.

Lemma body_closes (l : jsstring) (rest : list jsstring) (st : state) :
  is_section st "ignore" = true ->
  closes_section l = true ->
  body l rest st = Ok (0, set_section (set_items st []) None).
Proof.
  intros Hig Hcl. unfold closes_section, section_logic in Hcl.
  cbv zeta in Hcl.
  apply andb_prop in Hcl as [Hcl Hend].
  apply andb_prop in Hcl as [Hcl Hlogic].
  apply andb_prop in Hcl as [Hcl Hnotend].
  apply andb_prop in Hcl as [Htruthy Hnotable].
  apply negb_true_iff in Hnotend, Hnotable.
  unfold body. cbv zeta. rewrite Htruthy. simpl negb. cbv iota.
  rewrite Hnotable, Hnotend, Hlogic, Hend.
  rewrite (end_tag_ignore st Hig). reflexivity.
Qed.

(** The step on the line that opens the ignore section does not look at
    the lines after it, and leaves no list open; it throws where closing
    the section before it throws. *)
Lemma body_opens_ignore (l : jsstring) (st : state) :
  opens_ignore l = true ->
  (exists st1,
      (forall rest, body l rest st = Ok (0, st1))
      /\ is_section st1 "ignore" = true
      /\ inList st1 = false)
  \/ (forall rest, body l rest st = TypeError).
Proof.
  intros Hop. unfold opens_ignore in Hop.
  apply andb_prop in Hop as [Hreach Htrig].
  destruct (trigger_of (trim l)) as [sectionType|] eqn:Htr; [|discriminate].
  apply str_eqb_eq in Htrig. subst sectionType.
  unfold reaches_section_logic, section_logic in Hreach. cbv zeta in Hreach.
  apply andb_prop in Hreach as [Hreach Hnoend].
  apply andb_prop in Hreach as [Hreach Hlogic].
  apply andb_prop in Hreach as [Hreach Hnotend].
  apply andb_prop in Hreach as [Htruthy Hnotable].
  apply negb_true_iff in Hnoend, Hnotend, Hnotable.
  destruct (flush_section st) as [st0|] eqn:Hflush.
  2:{ right. intros rest. unfold body. cbv zeta.
      rewrite Htruthy. simpl negb. cbv iota.
      rewrite Hnotable, Hnotend, Hlogic, Hnoend, Hflush. reflexivity. }
  left.
  assert (Hclosed : inList (close_open_list st0) = false).
  { unfold close_open_list. destruct (inList st0) eqn:Hl; [reflexivity|].
    exact Hl. }
  unfold body. cbv zeta. rewrite Htruthy. simpl negb. cbv iota.
  rewrite Hnotable, Hnotend, Hlogic, Hnoend, Hflush. simpl bind.
  unfold trigger_of in Htr. cbv zeta in Htr.
  destruct (SectionDetector.isStartTag (trim (toUpperCase (trim l))))
    eqn:Hstart.
  - rewrite Htr. eexists. split; [intros rest; reflexivity|].
    split; [reflexivity|exact Hclosed].
  - destruct (isHeading (trim l)); [|discriminate].
    unfold heading_line. cbv zeta. rewrite Htr, Hstart. simpl.
    eexists. split; [intros rest; reflexivity|].
    split; [reflexivity|exact Hclosed].
Qed.

Lemma finish_ignore (st : state) (items : list jsstring) :
  is_section st "ignore" = true ->
  finish (set_items st items) = finish (set_items st []).
Proof.
  intros Hig. destruct (ignore_section st Hig) as [Hin [Htoc _]].
  unfold finish.
  change (in_section (set_items st items)) with (in_section st).
  change (in_section (set_items st [])) with (in_section st).
  change (is_section (set_items st items) "toc") with (is_section st "toc").
  change (is_section (set_items st items) "ignore")
    with (is_section st "ignore").
  rewrite Hin, Htoc, Hig. simpl.
  destruct (0 <? length items); reflexivity.
Qed.

(** C8, amended: the ignore template returns the empty string; and from
    every state of the loop, a region of inert lines between the line that
    opens an ignore section and the end tag (or the end of the input) leaves
    the run as it is with the region empty. *)
Theorem ignore_region_is_dropped :
  (forall content items,
      SectionDetector.processSectionContent (js "ignore") content items
      = Ok (SectionDetector.VString []))
  /\ (forall l_start region l_end rest st,
         opens_ignore l_start = true ->
         forallb inert region = true ->
         closes_section l_end = true ->
         loop (l_start :: region ++ l_end :: rest) 0 st
         = loop (l_start :: l_end :: rest) 0 st)
  /\ (forall l_start region st,
         opens_ignore l_start = true ->
         forallb inert region = true ->
         (st' <- loop (l_start :: region) 0 st ;; finish st')
         = (st' <- loop [l_start] 0 st ;; finish st')).
Proof.
  split; [reflexivity|]. split.
  - intros l_start region l_end rest st Hop Hall Hcl.
    destruct (body_opens_ignore l_start st Hop)
      as [[st1 [Hb [Hig Hlist]]]|Hthrows].
    2:{ simpl loop. rewrite !Hthrows. reflexivity. }
    simpl loop. rewrite !Hb. simpl.
    destruct (loop_inert region (l_end :: rest) st1 Hig Hlist Hall)
      as [items ->].
    simpl loop.
    rewrite (body_closes l_end rest (set_items st1 items) Hig Hcl).
    rewrite (body_closes l_end rest st1 Hig Hcl). reflexivity.
  - intros l_start region st Hop Hall.
    destruct (body_opens_ignore l_start st Hop)
      as [[st1 [Hb [Hig Hlist]]]|Hthrows].
    2:{ simpl loop. rewrite !Hthrows. reflexivity. }
    simpl loop. rewrite !Hb. simpl.
    destruct (loop_inert region [] st1 Hig Hlist Hall) as [items Hl].
    rewrite app_nil_r in Hl. rewrite Hl. simpl.
    rewrite (finish_ignore st1 items Hig).
    rewrite <- (finish_ignore st1 (sectionItems st1) Hig).
    rewrite state_eta. reflexivity.
Qed.

End Ignore.

(** ** Facts about the matcher *)

Section Matcher.
Import RegexFacts.

Lemma rmatch_cannot_start (A : Type) (r : regex) :
  forall (prev : option N) (s : jsstring) (c : caps) (k : cont A),
    can_start r (hd_error s) = false -> rmatch r prev s c k = None.
Proof.
  induction r as [ | p | r1 IH1 r2 IH2 | r1 IH1 r2 IH2 | g r1 IH1 | n r1 IH1
                 | | | | p | p ]; intros prev s c k Hcs; simpl in Hcs;
    try discriminate.
  - destruct s as [|x s']; simpl in *; [reflexivity|]. rewrite Hcs.
    reflexivity.
  - simpl. apply IH1. exact Hcs.
  - apply orb_false_iff in Hcs as [H1 H2]. simpl.
    rewrite IH1 by exact H1. apply IH2. exact H2.
  - simpl. apply IH1. exact Hcs.
Qed.

Lemma emit_cons (f : found -> jsstring) (pre : jsstring) (m : found)
  (ms : list (jsstring * found)) (tl : jsstring) :
  emit f ((pre, m) :: ms, tl) = pre ++ f m ++ emit f (ms, tl).
Proof. unfold emit. simpl. rewrite <- !app_assoc. reflexivity. Qed.

Lemma replace_all_emit (r : regex) (f : found -> jsstring) (s : jsstring) :
  replace_all r f s = emit f (scan r None s 0 []).
Proof.
  unfold replace_all, matches, emit. destruct (scan r None s 0 []).
  reflexivity.
Qed.

(** The equations of [scan]. *)
Lemma scan_nil (r : regex) (prev : option N) (acc : jsstring) :
  scan r prev [] 0 acc
  = match match_here r prev [] with
    | Some (rest, c) => ([(rev acc, ([], c))], [])
    | None => ([], rev acc)
    end.
Proof.
  simpl. destruct (match_here r prev []) as [[rest c]|]; reflexivity.
Qed.

Lemma scan_cons (r : regex) (prev : option N) (x : N) (s acc : jsstring) :
  scan r prev (x :: s) 0 acc
  = match match_here r prev (x :: s) with
    | Some (rest, c) =>
        let len := length (x :: s) - length rest in
        let res := match len with
                   | O => scan r (Some x) s 0 [x]
                   | S n => scan r (Some x) s n []
                   end in
        ((rev acc, (firstn len (x :: s), c)) :: fst res, snd res)
    | None => scan r (Some x) s 0 (x :: acc)
    end.
Proof.
  cbn [scan]. destruct (match_here r prev (x :: s)) as [[rest c]|];
    [|reflexivity].
  cbv zeta. destruct (length (x :: s) - length rest);
    match goal with
    | |- context [scan r (Some x) s ?n ?a] =>
        destruct (scan r (Some x) s n a)
    end; reflexivity.
Qed.

Lemma scan_jump (r : regex) (prev : option N) (x : N) (s acc : jsstring)
  (n : nat) :
  scan r prev (x :: s) (S n) acc = scan r (Some x) s n acc.
Proof. reflexivity. Qed.

(** The scan where no match starts: nothing is found. *)
Lemma scan_no_match (r : regex) (P : jsstring -> Prop) :
  (forall x s, P (x :: s) -> P s) ->
  (forall prev s, P s -> match_here r prev s = None) ->
  forall s prev acc, P s -> scan r prev s 0 acc = ([], rev acc ++ s).
Proof.
  intros Htl Hnone. induction s as [|x s IH]; intros prev acc HP.
  - rewrite scan_nil, (Hnone prev [] HP), app_nil_r. reflexivity.
  - rewrite scan_cons, (Hnone prev (x :: s) HP).
    rewrite IH by (apply (Htl x); exact HP).
    simpl. rewrite <- app_assoc. reflexivity.
Qed.

(** The pending text is the start of the first piece. *)
Lemma scan_acc (r : regex) (f : found -> jsstring) :
  forall s prev skip acc,
    emit f (scan r prev s skip acc) = rev acc ++ emit f (scan r prev s skip []).
Proof.
  induction s as [|x s IH]; intros prev skip acc.
  - destruct skip.
    + rewrite !scan_nil.
      destruct (match_here r prev []) as [[rest c]|]; unfold emit; simpl;
        rewrite ?app_nil_r; reflexivity.
    + unfold emit. simpl. rewrite app_nil_r. reflexivity.
  - destruct skip as [|n].
    + rewrite !scan_cons.
      destruct (match_here r prev (x :: s)) as [[rest c]|].
      * cbv zeta. unfold emit. simpl fst. simpl snd. simpl map. simpl concat.
        rewrite <- !app_assoc. reflexivity.
      * rewrite IH. rewrite (IH (Some x) 0 [x]). simpl.
        rewrite <- app_assoc. reflexivity.
    + rewrite !scan_jump. apply IH.
Qed.

(** Jumping over [n] code units. *)
Lemma scan_skip (r : regex) :
  forall n s prev acc,
    n <= length s ->
    exists prev', scan r prev s n acc = scan r prev' (skipn n s) 0 acc.
Proof.
  induction n as [|n IH]; intros s prev acc Hn.
  - exists prev. reflexivity.
  - destruct s as [|x s]; simpl in Hn; [lia|].
    simpl. apply IH. lia.
Qed.

Lemma forallb_rev (p : N -> bool) (s : jsstring) :
  forallb p (rev s) = forallb p s.
Proof.
  induction s as [|x s IH]; simpl; [reflexivity|].
  rewrite forallb_app. simpl. rewrite IH, andb_true_r. apply andb_comm.
Qed.

(** A global replacement keeps a property of the code units that the
    replacement texts have. *)
Lemma scan_forallb (r : regex) (f : found -> jsstring) (p : N -> bool) :
  (forall m, forallb p (f m) = true) ->
  forall s prev skip acc,
    forallb p acc = true -> forallb p s = true ->
    forallb p (emit f (scan r prev s skip acc)) = true.
Proof.
  intros Hf. induction s as [|x s IH]; intros prev skip acc Hacc Hs.
  - destruct skip.
    + rewrite scan_nil.
      destruct (match_here r prev []) as [[rest c]|]; unfold emit; simpl;
        rewrite ?app_nil_r, ?forallb_app, ?forallb_rev, ?Hacc, ?Hf;
        reflexivity.
    + unfold emit. simpl. rewrite ?app_nil_r, forallb_rev. exact Hacc.
  - simpl in Hs. apply andb_prop in Hs as [Hx Hs].
    destruct skip as [|n].
    + rewrite scan_cons.
      destruct (match_here r prev (x :: s)) as [[rest c]|].
      * cbv zeta.
        assert (Hrec : forallb p
                         (emit f
                            match length (x :: s) - length rest with
                            | O => scan r (Some x) s 0 [x]
                            | S n => scan r (Some x) s n []
                            end) = true).
        { destruct (length (x :: s) - length rest); apply IH; simpl;
            rewrite ?Hx; auto. }
        revert Hrec. unfold emit. simpl fst. simpl snd. simpl map.
        simpl concat. intros Hrec.
        rewrite <- !app_assoc, !forallb_app, forallb_rev, Hacc, Hf.
        simpl. rewrite forallb_app in Hrec. exact Hrec.
      * apply IH; [simpl; rewrite Hx; exact Hacc | exact Hs].
    + rewrite scan_jump. apply IH; assumption.
Qed.

Lemma replace_all_forallb (r : regex) (f : found -> jsstring)
  (p : N -> bool) (s : jsstring) :
  (forall m, forallb p (f m) = true) ->
  forallb p s = true -> forallb p (replace_all r f s) = true.
Proof.
  intros Hf Hs. rewrite replace_all_emit. apply scan_forallb; auto.
Qed.

End Matcher.

(** ** cleanupHTML on text without markup *)

Section Cleanup.
Context {CM : CaseMap}.
Import RegexFacts DocumentParser Claims.

Lemma plain_tail (x : N) (s : jsstring) :
  plain (x :: s) = true -> plain s = true.
Proof. unfold plain. simpl. intros H. apply andb_prop in H. apply H. Qed.

Lemma plain_not_lt (x : N) :
  plain_char x = true -> N.eqb (ch "<") x = false.
Proof.
  unfold plain_char. intros H. apply andb_prop in H as [H _].
  apply negb_true_iff in H. rewrite N.eqb_sym. exact H.
Qed.

Lemma plain_not_lt_ci (x : N) :
  plain_char x = true -> N.eqb (upper1 (ch "<")) (upper1 x) = false.
Proof.
  intros H. apply plain_not_lt in H. apply N.eqb_neq in H.
  apply N.eqb_neq. change (upper1 (ch "<")) with 60%N.
  change (ch "<") with 60%N in H.
  unfold upper1, is_lower. destruct ((97 <=? x)%N && (x <=? 122)%N) eqn:Hl.
  - apply andb_prop in Hl as [H1 H2]. apply N.leb_le in H1, H2. lia.
  - congruence.
Qed.

Lemma plain_not_amp_ci (x : N) :
  plain_char x = true -> N.eqb (upper1 (ch "&")) (upper1 x) = false.
Proof.
  unfold plain_char. intros H. apply andb_prop in H as [_ H].
  apply negb_true_iff in H. apply N.eqb_neq in H.
  apply N.eqb_neq. change (upper1 (ch "&")) with 38%N.
  change (ch "&") with 38%N in H.
  unfold upper1, is_lower. destruct ((97 <=? x)%N && (x <=? 122)%N) eqn:Hl.
  - apply andb_prop in Hl as [H1 H2]. apply N.leb_le in H1, H2. lia.
  - congruence.
Qed.

Ltac markup :=
  split;
  [ intros x Hx;
    first [ exact (plain_not_lt x Hx)
          | exact (plain_not_lt_ci x Hx)
          | exact (plain_not_amp_ci x Hx) ]
  | reflexivity ].

Lemma starts_markup_toc_block : starts_markup re_toc_block.
Proof. markup. Qed.
Lemma starts_markup_h1_6 : starts_markup re_h1_6.
Proof. markup. Qed.
Lemma starts_markup_faq_block : starts_markup re_faq_block.
Proof. markup. Qed.
Lemma starts_markup_empty_p : starts_markup re_empty_p.
Proof. markup. Qed.
Lemma starts_markup_blank_p : starts_markup re_blank_p.
Proof. markup. Qed.
Lemma starts_markup_empty_list (tag : string) :
  starts_markup (re_empty_list tag).
Proof. markup. Qed.
Lemma starts_markup_empty_list_nl (tag : string) :
  starts_markup (re_empty_list_nl tag).
Proof. markup. Qed.
Lemma starts_markup_empty_li : starts_markup re_empty_li.
Proof. markup. Qed.
Lemma starts_markup_br2 : starts_markup re_br2.
Proof. markup. Qed.
Lemma starts_markup_nbsp2 : starts_markup re_nbsp2.
Proof. markup. Qed.

Lemma plain_scan (r : regex) (s : jsstring) :
  starts_markup r -> plain s = true -> matches r s = ([], s).
Proof.
  intros [Hsome Hnone] Hs. unfold matches.
  rewrite (scan_no_match r (fun s => plain s = true)).
  - reflexivity.
  - exact plain_tail.
  - intros prev s' Hs'. unfold match_here. apply rmatch_cannot_start.
    destruct s' as [|x s'']; simpl.
    + exact Hnone.
    + apply Hsome. unfold plain in Hs'. simpl in Hs'.
      apply andb_prop in Hs'. apply Hs'.
  - exact Hs.
Qed.

Lemma plain_replace_all (r : regex) (f : found -> jsstring) (s : jsstring) :
  starts_markup r -> plain s = true -> replace_all r f s = s.
Proof.
  intros Hr Hs. unfold replace_all. rewrite (plain_scan r s Hr Hs).
  reflexivity.
Qed.

Lemma plain_keep_first_block (r : regex) (s : jsstring) :
  starts_markup r -> plain s = true -> keep_first_block r s = s.
Proof.
  intros Hr Hs. unfold keep_first_block, match_all.
  rewrite (plain_scan r s Hr Hs). reflexivity.
Qed.

Lemma plain_remove_duplicate_headings (s : jsstring) :
  plain s = true -> remove_duplicate_headings s = s.
Proof.
  intros Hs. unfold remove_duplicate_headings.
  rewrite (plain_scan re_h1_6 s starts_markup_h1_6 Hs). reflexivity.
Qed.

Lemma plain_blank_lines (s : jsstring) :
  plain s = true -> plain (blank_lines s) = true.
Proof.
  intros Hs. unfold blank_lines, plain.
  apply replace_all_forallb; [reflexivity|].
  apply replace_all_forallb; [reflexivity|exact Hs].
Qed.

Lemma plain_collapse (s : jsstring) :
  plain s = true -> plain (collapse s) = true.
Proof.
  intros Hs. unfold collapse, plain.
  apply replace_all_forallb; [reflexivity|exact Hs].
Qed.

(** On text without markup only the white space steps act. *)
Lemma cleanupHTML_plain (h : jsstring) :
  plain h = true ->
  cleanupHTML h = trim (collapse (blank_lines h)).
Proof.
  intros Hh. unfold cleanupHTML, remove.
  rewrite (plain_keep_first_block _ h starts_markup_toc_block Hh).
  rewrite (plain_remove_duplicate_headings h Hh).
  rewrite (plain_keep_first_block _ h starts_markup_faq_block Hh).
  rewrite (plain_replace_all _ _ h starts_markup_empty_p Hh).
  rewrite (plain_replace_all _ _ h starts_markup_blank_p Hh).
  fold (blank_lines h).
  pose proof (plain_blank_lines h Hh) as Hb.
  rewrite (plain_replace_all _ _ _ (starts_markup_empty_list "ul") Hb).
  rewrite (plain_replace_all _ _ _ (starts_markup_empty_list "ol") Hb).
  rewrite (plain_replace_all _ _ _ (starts_markup_empty_list_nl "ul") Hb).
  rewrite (plain_replace_all _ _ _ (starts_markup_empty_list_nl "ol") Hb).
  rewrite (plain_replace_all _ _ _ starts_markup_empty_li Hb).
  fold (collapse (blank_lines h)).
  pose proof (plain_collapse _ Hb) as Hc.
  rewrite (plain_replace_all _ _ _ starts_markup_br2 Hc).
  rewrite (plain_replace_all _ _ _ starts_markup_nbsp2 Hc).
  reflexivity.
Qed.

(** *** White space at the ends *)

Lemma trimStart_suffix (s : jsstring) : exists p, s = p ++ trimStart s.
Proof.
  induction s as [|x s [p IH]]; simpl.
  - exists []. reflexivity.
  - destruct (is_space x).
    + exists (x :: p). simpl. rewrite <- IH. reflexivity.
    + exists []. reflexivity.
Qed.

Lemma trimStart_head (s : jsstring) (y : N) (t : jsstring) :
  trimStart s = y :: t -> is_space y = false.
Proof.
  induction s as [|x s IH]; simpl; [discriminate|].
  destruct (is_space x) eqn:Hx; [exact IH|].
  intros [= <- _]. exact Hx.
Qed.

Lemma trimStart_fix (s : jsstring) :
  (forall y t, s = y :: t -> is_space y = false) -> trimStart s = s.
Proof.
  destruct s as [|x s]; intros H; simpl; [reflexivity|].
  rewrite (H x s eq_refl). reflexivity.
Qed.

Lemma trimStart_idem (s : jsstring) : trimStart (trimStart s) = trimStart s.
Proof.
  apply trimStart_fix. intros y t. apply trimStart_head.
Qed.

Lemma trimStart_length (s : jsstring) : length (trimStart s) <= length s.
Proof.
  destruct (trimStart_suffix s) as [p Hp]. rewrite Hp at 2.
  rewrite length_app. lia.
Qed.

Lemma trimStart_skipn (s : jsstring) :
  skipn (length s - length (trimStart s)) s = trimStart s.
Proof.
  destruct (trimStart_suffix s) as [p Hp].
  assert (Hlen : length s - length (trimStart s) = length p).
  { rewrite Hp at 1. rewrite length_app. lia. }
  rewrite Hlen. rewrite Hp at 1. rewrite skipn_app, skipn_all, Nat.sub_diag.
  reflexivity.
Qed.

Lemma trim_trimmed (s : jsstring) : trimmed (trim s).
Proof.
  unfold trimmed, trim, trimEnd.
  set (a := trimStart s). set (b := trimStart (rev a)).
  assert (Hhead : forall y t, rev b = y :: t -> is_space y = false).
  { intros y t Hrev.
    assert (Hb : b = rev t ++ [y]).
    { rewrite <- (rev_involutive b), Hrev. reflexivity. }
    destruct (trimStart_suffix (rev a)) as [p Hp]. fold b in Hp.
    rewrite Hb, app_assoc in Hp.
    assert (Ha : a = y :: rev (p ++ rev t)).
    { rewrite <- (rev_involutive a), Hp, rev_app_distr. reflexivity. }
    exact (trimStart_head s y _ Ha). }
  rewrite (trimStart_fix (rev b) Hhead).
  rewrite rev_involutive. unfold b. rewrite trimStart_idem. reflexivity.
Qed.

(** *** Text without adjacent white space *)

Lemma tidy_tail (x : N) (s : jsstring) : tidy (x :: s) -> tidy s.
Proof.
  intros H a u v b Hs. apply (H (x :: a) u v b). rewrite Hs. reflexivity.
Qed.

Lemma tidy_suffix (p s : jsstring) : tidy (p ++ s) -> tidy s.
Proof.
  induction p as [|x p IH]; simpl; [auto|].
  intros H. apply IH. exact (tidy_tail x _ H).
Qed.

Lemma tidy_head (x y : N) (s : jsstring) :
  tidy (x :: y :: s) -> is_space x = true -> is_space y = false.
Proof.
  intros H Hx. destruct (is_space y) eqn:Hy; [|reflexivity].
  exfalso. exact (H [] x y s eq_refl Hx Hy).
Qed.

Lemma tidy_cons (x : N) (s : jsstring) :
  tidy s ->
  (is_space x = true -> forall y t, s = y :: t -> is_space y = false) ->
  tidy (x :: s).
Proof.
  intros Hs Hx a u v b Heq Hu Hv.
  destruct a as [|a0 a]; simpl in Heq.
  - injection Heq as -> Hs'. rewrite (Hx Hu v b Hs') in Hv. discriminate.
  - injection Heq as _ Hs'. exact (Hs a u v b Hs' Hu Hv).
Qed.

Lemma tidy_rev (s : jsstring) : tidy s -> tidy (rev s).
Proof.
  intros H a x y b Heq Hx Hy.
  apply (H (rev b) y x (rev a)); [|exact Hy|exact Hx].
  rewrite <- (rev_involutive s), Heq.
  rewrite rev_app_distr. simpl. rewrite <- !app_assoc. reflexivity.
Qed.

Lemma tidy_trimStart (s : jsstring) : tidy s -> tidy (trimStart s).
Proof.
  intros H. destruct (trimStart_suffix s) as [p Hp]. rewrite Hp in H.
  exact (tidy_suffix p _ H).
Qed.

Lemma tidy_trim (s : jsstring) : tidy s -> tidy (trim s).
Proof.
  intros H. unfold trim, trimEnd.
  apply tidy_rev, tidy_trimStart, tidy_rev, tidy_trimStart. exact H.
Qed.

Lemma plain_trimStart (s : jsstring) :
  plain s = true -> plain (trimStart s) = true.
Proof.
  intros H. destruct (trimStart_suffix s) as [p Hp]. rewrite Hp in H.
  unfold plain in *. rewrite forallb_app in H. apply andb_prop in H. apply H.
Qed.

Lemma plain_trim (s : jsstring) : plain s = true -> plain (trim s) = true.
Proof.
  intros H. unfold trim, trimEnd, plain.
  rewrite forallb_rev. apply plain_trimStart.
  unfold plain. rewrite forallb_rev. apply plain_trimStart. exact H.
Qed.

(** *** The patterns of the white space steps *)

(** A greedy run of white space before the end of the pattern takes all
    the white space there is. *)
Lemma star_space_accept :
  forall (fuel : nat) (s : jsstring) (prev : option N) (c : caps),
    length s <= fuel ->
    star_loop (rmatch space) true accept fuel prev s c
    = Some (trimStart s, c).
Proof.
  induction fuel as [|fuel IH]; intros s prev c Hlen.
  - destruct s; [reflexivity | simpl in Hlen; lia].
  - destruct s as [|x s]; [reflexivity|].
    simpl in Hlen. cbn [star_loop]. cbn [rmatch space].
    destruct (is_space x) eqn:Hx.
    + replace (length s <? length (x :: s)) with true
        by (symmetry; apply Nat.ltb_lt; simpl; lia).
      rewrite IH by lia. simpl. rewrite Hx. reflexivity.
    + simpl. rewrite Hx. reflexivity.
Qed.

(** A run of white space that meets none runs the rest of the pattern. *)
Lemma star_space_none (A : Type) (k : cont A) (fuel : nat) (s : jsstring)
  (prev : option N) (c : caps) :
  (forall y t, s = y :: t -> is_space y = false) ->
  star_loop (rmatch space) true k fuel prev s c = k prev s c.
Proof.
  intros Hs. destruct fuel as [|fuel]; [reflexivity|].
  cbn [star_loop]. destruct s as [|y t]; [reflexivity|].
  cbn [rmatch space]. rewrite (Hs y t eq_refl). reflexivity.
Qed.

Lemma match_here_spaces2 (prev : option N) (s : jsstring) :
  match_here re_spaces2 prev s
  = match s with
    | x :: y :: rest =>
        if is_space x && is_space y then Some (trimStart rest, [])
        else None
    | _ => None
    end.
Proof.
  unfold match_here, re_spaces2, at_least.
  destruct s as [|x [|y rest]]; cbn [rmatch space].
  - reflexivity.
  - destruct (is_space x); reflexivity.
  - destruct (is_space x); [|reflexivity].
    destruct (is_space y); [|reflexivity].
    apply (star_space_accept (length rest) rest (Some y) []). lia.
Qed.

Lemma tidy_no_spaces2 (prev : option N) (s : jsstring) :
  tidy s -> match_here re_spaces2 prev s = None.
Proof.
  intros Ht. rewrite match_here_spaces2.
  destruct s as [|x [|y rest]]; try reflexivity.
  destruct (is_space x) eqn:Hx; [|reflexivity].
  rewrite (tidy_head x y rest Ht Hx). reflexivity.
Qed.

Lemma newline_is_space (x : N) : N.eqb 10 x = true -> is_space x = true.
Proof. intros H. apply N.eqb_eq in H. subst x. reflexivity. Qed.

Lemma tidy_no_newlines3 (prev : option N) (s : jsstring) :
  tidy s -> match_here re_newlines3 prev s = None.
Proof.
  intros Ht. unfold match_here, re_newlines3, at_least.
  destruct s as [|x [|y rest]]; cbn [rmatch].
  - reflexivity.
  - destruct (N.eqb 10 x); reflexivity.
  - destruct (N.eqb 10 x) eqn:Hx; [|reflexivity].
    destruct (N.eqb 10 y) eqn:Hy; [|reflexivity].
    apply newline_is_space in Hx, Hy.
    rewrite (tidy_head x y rest Ht Hx) in Hy. discriminate.
Qed.

Lemma tidy_no_blank_lines (prev : option N) (s : jsstring) :
  tidy s -> match_here re_blank_lines prev s = None.
Proof.
  intros Ht. unfold match_here, re_blank_lines, seqs, star.
  destruct s as [|x s]; cbn [rmatch]; [reflexivity|].
  destruct (N.eqb 10 x) eqn:Hx; [|reflexivity].
  apply newline_is_space in Hx.
  rewrite star_space_none.
  - destruct s as [|y t]; cbn [rmatch]; [reflexivity|].
    destruct (N.eqb 10 y) eqn:Hy; [|reflexivity].
    apply newline_is_space in Hy.
    rewrite (tidy_head x y t Ht Hx) in Hy. discriminate.
  - intros y t ->. exact (tidy_head x y t Ht Hx).
Qed.

Lemma tidy_replace_all (r : regex) (f : found -> jsstring) (s : jsstring) :
  (forall prev s', tidy s' -> match_here r prev s' = None) ->
  tidy s -> replace_all r f s = s.
Proof.
  intros Hnone Hs. unfold replace_all, matches.
  rewrite (scan_no_match r tidy tidy_tail Hnone s None [] Hs). reflexivity.
Qed.

(** *** Collapsing runs of white space *)

Lemma scan_spaces2_prev (s : jsstring) (prev prev' : option N) (skip : nat)
  (acc : jsstring) :
  scan re_spaces2 prev s skip acc = scan re_spaces2 prev' s skip acc.
Proof.
  destruct s as [|x s]; destruct skip as [|n]; reflexivity.
Qed.

Lemma collapse_scan (s : jsstring) (prev : option N) :
  emit (fun _ => js " ") (scan re_spaces2 prev s 0 []) = collapse s.
Proof.
  unfold collapse. rewrite replace_all_emit.
  rewrite (scan_spaces2_prev s prev None). reflexivity.
Qed.

Lemma collapse_nil : collapse [] = [].
Proof. reflexivity. Qed.

(** A code unit that starts no run of two is kept. *)
Lemma collapse_keep (x : N) (s : jsstring) :
  match_here re_spaces2 None (x :: s) = None ->
  collapse (x :: s) = x :: collapse s.
Proof.
  intros Hnone. unfold collapse at 1. rewrite replace_all_emit, scan_cons.
  rewrite Hnone. rewrite scan_acc. rewrite collapse_scan. reflexivity.
Qed.

(** A run of two or more becomes one space, and the scan goes on after the
    whole run. *)
Lemma collapse_run (x y : N) (rest : jsstring) :
  is_space x = true -> is_space y = true ->
  collapse (x :: y :: rest) = js " " ++ collapse (trimStart rest).
Proof.
  intros Hx Hy. unfold collapse at 1. rewrite replace_all_emit, scan_cons.
  rewrite match_here_spaces2, Hx, Hy. cbn [andb]. cbv zeta.
  pose proof (trimStart_length rest) as Hlen.
  replace (length (x :: y :: rest) - length (trimStart rest))
    with (S (S (length rest - length (trimStart rest))))
    by (cbn [length]; lia).
  rewrite scan_jump.
  destruct (scan_skip re_spaces2 (length rest - length (trimStart rest)) rest
              (Some y) []) as [prev' Hskip]; [lia|].
  rewrite Hskip, trimStart_skipn.
  rewrite emit_cons, <- surjective_pairing, collapse_scan. reflexivity.
Qed.

(** The collapsed text has no two white space code units side by side, and
    starts as the text does when that starts with no white space. *)
Lemma collapse_tidy_head :
  forall (n : nat) (s : jsstring),
    length s <= n ->
    tidy (collapse s)
    /\ (forall y t, s = y :: t -> is_space y = false ->
                    exists t', collapse s = y :: t').
Proof.
  induction n as [|n IH]; intros s Hlen.
  - destruct s; [|simpl in Hlen; lia]. rewrite collapse_nil. split.
    + intros a x y b Heq. destruct a; discriminate.
    + intros y t Heq. discriminate.
  - destruct s as [|x s].
    { rewrite collapse_nil. split.
      - intros a x y b Heq. destruct a; discriminate.
      - intros y t Heq. discriminate. }
    simpl in Hlen.
    destruct (match_here re_spaces2 None (x :: s)) as [[rest c]|] eqn:Hm.
    + rewrite match_here_spaces2 in Hm.
      destruct s as [|y rest']; [discriminate|].
      destruct (is_space x) eqn:Hx; [|discriminate].
      destruct (is_space y) eqn:Hy; [|discriminate].
      rewrite (collapse_run x y rest' Hx Hy).
      assert (Hlen' : length (trimStart rest') <= n).
      { pose proof (trimStart_length rest'). simpl in Hlen. lia. }
      destruct (IH (trimStart rest') Hlen') as [Htidy Hhead].
      split.
      * change (js " " ++ collapse (trimStart rest'))
          with (32%N :: collapse (trimStart rest')).
        apply tidy_cons; [exact Htidy|].
        intros _ z t Hz.
        destruct (trimStart rest') as [|z0 t0] eqn:Hts.
        -- rewrite collapse_nil in Hz. discriminate.
        -- pose proof (trimStart_head rest' z0 t0 Hts) as Hz0.
           destruct (Hhead z0 t0 eq_refl Hz0) as [t' Ht'].
           rewrite Ht' in Hz. injection Hz as <- _. exact Hz0.
      * intros z t Heq Hz. injection Heq as <- _. congruence.
    + rewrite (collapse_keep x s Hm).
      destruct (IH s ltac:(lia)) as [Htidy Hhead].
      split.
      * apply tidy_cons; [exact Htidy|].
        intros Hx z t Hz.
        rewrite match_here_spaces2 in Hm.
        destruct s as [|y rest'].
        -- rewrite collapse_nil in Hz. discriminate.
        -- rewrite Hx in Hm. cbn [andb] in Hm.
           destruct (is_space y) eqn:Hy; [discriminate|].
           destruct (Hhead y rest' eq_refl Hy) as [t' Ht'].
           rewrite Ht' in Hz. injection Hz as <- _. exact Hy.
      * intros z t Heq Hz. injection Heq as <- _. eauto.
Qed.

Lemma collapse_tidy (s : jsstring) : tidy (collapse s).
Proof. exact (proj1 (collapse_tidy_head (length s) s (le_n _))). Qed.

(** *** The white space of cleaned HTML *)

Lemma tidy_nil : tidy [].
Proof. intros a x y b Heq. destruct a; discriminate. Qed.

Lemma tidy_prefix (a b : jsstring) : tidy (a ++ b) -> tidy a.
Proof.
  intros H p x y q Heq. apply (H p x y (q ++ b)).
  rewrite Heq, <- app_assoc. reflexivity.
Qed.

(** Two tidy texts around a text without white space. *)
Lemma tidy_sep (a w b : jsstring) :
  tidy a -> tidy b -> w <> [] ->
  forallb (fun c => negb (is_space c)) w = true ->
  tidy (a ++ w ++ b).
Proof.
  intros Ha Hb Hne Hw.
  assert (Hwb : tidy (w ++ b)
                /\ forall y t, w ++ b = y :: t -> is_space y = false).
  { clear Ha a. induction w as [|c w IH]; [congruence|].
    simpl in Hw. apply andb_prop in Hw as [Hc Hw].
    apply negb_true_iff in Hc. split.
    - simpl. apply tidy_cons.
      + destruct w as [|c' w']; [exact Hb|].
        apply (IH ltac:(discriminate) Hw).
      + intros Hc'. congruence.
    - intros y t [= <- _]. exact Hc. }
  destruct Hwb as [Hwb Hhead].
  induction a as [|x a IH]; [exact Hwb|].
  simpl. apply tidy_cons.
  - apply IH. exact (tidy_tail x a Ha).
  - intros Hx y t Heq. destruct a as [|x' a'].
    + exact (Hhead y t Heq).
    + injection Heq as <- _. exact (tidy_head x x' a' Ha Hx).
Qed.

(** A global replacement by a text without white space keeps a text
    tidy. *)
Lemma scan_tidy (r : regex) (w : jsstring) :
  w <> [] ->
  forallb (fun c => negb (is_space c)) w = true ->
  forall s prev skip acc,
    (skip <> 0 -> acc = []) ->
    tidy (rev acc ++ s) ->
    tidy (emit (fun _ => w) (scan r prev s skip acc)).
Proof.
  intros Hne Hw. induction s as [|x s IH]; intros prev skip acc Hskip Ht.
  - rewrite app_nil_r in Ht. destruct skip.
    + rewrite scan_nil.
      destruct (match_here r prev []) as [[rest c]|]; unfold emit;
        cbn [fst snd map concat]; rewrite ?app_nil_r.
      * pose proof (tidy_sep (rev acc) w [] Ht tidy_nil Hne Hw) as Hsep.
        rewrite app_nil_r in Hsep. exact Hsep.
      * exact Ht.
    + unfold emit. simpl. exact Ht.
  - destruct skip as [|n].
    + rewrite scan_cons.
      destruct (match_here r prev (x :: s)) as [[rest c]|].
      * cbv zeta.
        assert (Hrec : tidy (emit (fun _ => w)
                               match length (x :: s) - length rest with
                               | O => scan r (Some x) s 0 [x]
                               | S n => scan r (Some x) s n []
                               end)).
        { destruct (length (x :: s) - length rest).
          - apply IH; [intros H; exfalso; apply H; reflexivity|].
            exact (tidy_suffix (rev acc) _ Ht).
          - apply IH; [reflexivity|].
            exact (tidy_tail x s (tidy_suffix (rev acc) _ Ht)). }
        revert Hrec. unfold emit. cbn [fst snd map concat]. intros Hrec.
        rewrite <- !app_assoc. apply tidy_sep; auto.
        exact (tidy_prefix _ _ Ht).
      * apply IH; [intros H; exfalso; apply H; reflexivity|].
        simpl. rewrite <- app_assoc. exact Ht.
    + rewrite scan_jump. rewrite (Hskip ltac:(discriminate)) in *.
      apply IH; [reflexivity|]. exact (tidy_tail x s Ht).
Qed.

Lemma replace_all_tidy (r : regex) (w s : jsstring) :
  w <> [] ->
  forallb (fun c => negb (is_space c)) w = true ->
  tidy s -> tidy (replace_all r (fun _ => w) s).
Proof.
  intros Hne Hw Hs. rewrite replace_all_emit.
  apply scan_tidy; auto.
Qed.

(** Cleaned HTML has no two white space code units side by side. *)
Lemma cleanupHTML_tidy (h : jsstring) : tidy (cleanupHTML h).
Proof.
  unfold cleanupHTML. cbv zeta.
  apply tidy_trim.
  apply replace_all_tidy; [discriminate|reflexivity|].
  apply replace_all_tidy; [discriminate|reflexivity|].
  apply collapse_tidy.
Qed.

(** *** Idempotence on text without markup *)

(** Cleaned text without markup is a fixed point of the cleanup. *)
Lemma cleanupHTML_fixed (c : jsstring) :
  plain c = true -> tidy c -> trimmed c -> cleanupHTML c = c.
Proof.
  intros Hp Ht Htr. rewrite (cleanupHTML_plain c Hp).
  unfold blank_lines.
  rewrite (tidy_replace_all re_blank_lines _ c
             (fun prev s' => tidy_no_blank_lines prev s') Ht).
  rewrite (tidy_replace_all re_newlines3 _ c
             (fun prev s' => tidy_no_newlines3 prev s') Ht).
  unfold collapse.
  rewrite (tidy_replace_all re_spaces2 _ c
             (fun prev s' => tidy_no_spaces2 prev s') Ht).
  exact Htr.
Qed.

Lemma cleanupHTML_plain_idempotent (h : jsstring) :
  plain h = true ->
  cleanupHTML (cleanupHTML h) = cleanupHTML h.
Proof.
  intros Hh. rewrite (cleanupHTML_plain h Hh).
  apply cleanupHTML_fixed.
  - apply plain_trim, plain_collapse, plain_blank_lines. exact Hh.
  - apply tidy_trim, collapse_tidy.
  - apply trim_trimmed.
Qed.

(** *** Idempotence where nothing is left to remove *)

(** The matches of a scan and the text between them make up the text. *)
Lemma scan_rebuild (r : regex) :
  forall s prev skip acc,
    (skip <> 0 -> acc = []) ->
    emit (fun m => fst m) (scan r prev s skip acc) = rev acc ++ skipn skip s.
Proof.
  induction s as [|x s IH]; intros prev skip acc Hskip.
  - destruct skip.
    + rewrite scan_nil.
      destruct (match_here r prev []) as [[rest c]|]; unfold emit;
        cbn [fst snd map concat skipn]; rewrite ?app_nil_r; reflexivity.
    + unfold emit. simpl. rewrite app_nil_r. reflexivity.
  - destruct skip as [|n].
    + rewrite scan_cons.
      destruct (match_here r prev (x :: s)) as [[rest c]|].
      * cbv zeta. destruct (length (x :: s) - length rest) as [|n].
        -- pose proof (IH (Some x) 0 [x] ltac:(congruence)) as Hrec.
           revert Hrec. unfold emit. cbn [fst snd map concat skipn firstn].
           intros Hrec. rewrite <- !app_assoc, Hrec. reflexivity.
        -- pose proof (IH (Some x) n [] ltac:(reflexivity)) as Hrec.
           revert Hrec. unfold emit. cbn [fst snd map concat skipn firstn].
           intros Hrec. rewrite <- !app_assoc, Hrec. cbn [rev app].
           rewrite firstn_skipn. reflexivity.
      * rewrite (IH (Some x) 0 (x :: acc) ltac:(congruence)).
        cbn [rev skipn]. rewrite <- app_assoc. reflexivity.
    + rewrite scan_jump. rewrite (Hskip ltac:(discriminate)).
      apply (IH (Some x) n [] ltac:(reflexivity)).
Qed.

Lemma matches_rebuild (r : regex) (s : jsstring) :
  concat (map (fun pm => fst pm ++ fst (snd pm)) (fst (matches r s)))
  ++ snd (matches r s) = s.
Proof.
  exact (scan_rebuild r s None 0 [] ltac:(congruence)).
Qed.

(** Where the pattern is found nowhere, the scan finds nothing. *)
Lemma search_none_scan (r : regex) :
  forall s prev acc acc',
    search r prev s acc = None ->
    scan r prev s 0 acc' = ([], rev acc' ++ s).
Proof.
  induction s as [|x s IH]; intros prev acc acc' Hs.
  - cbn [search] in Hs. rewrite scan_nil.
    destruct (match_here r prev []) as [[rest c]|]; [discriminate|].
    rewrite app_nil_r. reflexivity.
  - cbn [search] in Hs. rewrite scan_cons.
    destruct (match_here r prev (x :: s)) as [[rest c]|]; [discriminate|].
    rewrite (IH (Some x) (x :: acc) (x :: acc') Hs).
    cbn [rev]. rewrite <- app_assoc. reflexivity.
Qed.

Lemma test_false_matches (r : regex) (s : jsstring) :
  test r s = false -> matches r s = ([], s).
Proof.
  unfold test, matches. intros Ht.
  destruct (search r None s []) eqn:Hs; [discriminate|].
  exact (search_none_scan r s None [] [] Hs).
Qed.

Lemma test_false_replace_all (r : regex) (f : found -> jsstring)
  (s : jsstring) :
  test r s = false -> replace_all r f s = s.
Proof.
  intros Ht. unfold replace_all. rewrite (test_false_matches r s Ht).
  reflexivity.
Qed.

Lemma keep_first_block_single (r : regex) (s : jsstring) :
  (length (match_all r s) <=? 1) = true -> keep_first_block r s = s.
Proof.
  intros Hlen. unfold keep_first_block. cbv zeta.
  apply Nat.leb_le in Hlen.
  replace (1 <? length (match_all r s)) with false; [reflexivity|].
  symmetry. apply Nat.ltb_ge. exact Hlen.
Qed.

(** Headings with different keys are all kept. *)
Lemma dedupe_headings_distinct (ms : list (jsstring * found)) :
  forall seenHeadings,
    distinct (map (fun pm => heading_key (snd pm)) ms) = true ->
    (forall k, In k seenHeadings ->
               existsb (str_eqb k) (map (fun pm => heading_key (snd pm)) ms)
               = false) ->
    dedupe_headings ms seenHeadings
    = concat (map (fun pm => fst pm ++ fst (snd pm)) ms).
Proof.
  induction ms as [|[pre m] ms IH]; intros seen Hd Hseen; [reflexivity|].
  cbn [map distinct snd fst] in Hd. apply andb_prop in Hd as [Hm Hd].
  apply negb_true_iff in Hm.
  cbn [dedupe_headings map concat fst snd].
  assert (Hnew : existsb (str_eqb (heading_key m)) seen = false).
  { destruct (existsb (str_eqb (heading_key m)) seen) eqn:He; [|reflexivity].
    apply existsb_exists in He as [k [Hin Hk]]. apply str_eqb_eq in Hk.
    subst k. specialize (Hseen _ Hin). cbn [map existsb snd] in Hseen.
    rewrite str_eqb_refl in Hseen. discriminate. }
  rewrite Hnew. rewrite IH.
  - rewrite <- app_assoc. reflexivity.
  - exact Hd.
  - intros k [<-|Hin]; [exact Hm|].
    specialize (Hseen _ Hin). cbn [map existsb snd] in Hseen.
    apply orb_false_iff in Hseen. apply Hseen.
Qed.

Lemma remove_duplicate_headings_distinct (s : jsstring) :
  distinct (heading_keys s) = true -> remove_duplicate_headings s = s.
Proof.
  unfold heading_keys, remove_duplicate_headings. intros Hd.
  pose proof (matches_rebuild re_h1_6 s) as Hre.
  destruct (matches re_h1_6 s) as [ms tl]. cbn [fst snd] in *.
  rewrite (dedupe_headings_distinct ms [] Hd); [exact Hre|].
  intros k [].
Qed.

(** A tidy text without white space at its ends in which nothing is left
    to remove is a fixed point of the cleanup. *)
Lemma cleanupHTML_settled (c : jsstring) :
  tidy c -> trimmed c -> settled c = true -> cleanupHTML c = c.
Proof.
  intros Ht Htr Hs. unfold settled in Hs.
  repeat match type of Hs with
         | _ && _ = true => let H := fresh "Hs" in
                            apply andb_prop in Hs as [Hs H]
         end.
  repeat match goal with
         | H : negb _ = true |- _ => apply negb_true_iff in H
         end.
  unfold cleanupHTML. cbv zeta. unfold remove.
  rewrite (keep_first_block_single re_toc_block c) by assumption.
  rewrite (remove_duplicate_headings_distinct c) by assumption.
  rewrite (keep_first_block_single re_faq_block c) by assumption.
  rewrite (test_false_replace_all re_empty_p _ c) by assumption.
  rewrite (test_false_replace_all re_blank_p _ c) by assumption.
  rewrite (tidy_replace_all re_blank_lines _ c
             (fun prev s' => tidy_no_blank_lines prev s') Ht).
  rewrite (tidy_replace_all re_newlines3 _ c
             (fun prev s' => tidy_no_newlines3 prev s') Ht).
  rewrite (test_false_replace_all (re_empty_list "ul") _ c) by assumption.
  rewrite (test_false_replace_all (re_empty_list "ol") _ c) by assumption.
  rewrite (test_false_replace_all (re_empty_list_nl "ul") _ c)
    by assumption.
  rewrite (test_false_replace_all (re_empty_list_nl "ol") _ c)
    by assumption.
  rewrite (test_false_replace_all re_empty_li _ c) by assumption.
  rewrite (tidy_replace_all re_spaces2 _ c
             (fun prev s' => tidy_no_spaces2 prev s') Ht).
  rewrite (test_false_replace_all re_br2 _ c) by assumption.
  rewrite (test_false_replace_all re_nbsp2 _ c) by assumption.
  exact Htr.
Qed.

Lemma cleanupHTML_settled_idempotent (h : jsstring) :
  settled (cleanupHTML h) = true ->
  cleanupHTML (cleanupHTML h) = cleanupHTML h.
Proof.
  intros Hs. apply cleanupHTML_settled.
  - apply cleanupHTML_tidy.
  - unfold cleanupHTML. cbv zeta. apply trim_trimmed.
  - exact Hs.
Qed.


(** *** A cleanup never makes the text longer *)

Lemma star_loop_consumes (A : Type)
  (step : option N -> jsstring -> caps -> cont A -> option A)
  (greedy : bool) (k : cont A) :
  (forall prev s c k' res,
      step prev s c k' = Some res ->
      exists p' s' c', k' p' s' c' = Some res /\ length s' <= length s) ->
  forall fuel prev s c res,
    star_loop step greedy k fuel prev s c = Some res ->
    exists p' s' c', k p' s' c' = Some res /\ length s' <= length s.
Proof.
  intros Hstep. induction fuel as [|fuel IH]; intros prev s c res H.
  - cbn [star_loop] in H. exists prev, s, c. split; [exact H|lia].
  - cbn [star_loop] in H. cbv zeta in H.
    assert (Hiter : forall res',
               step prev s c
                 (fun p' s' c' =>
                    if length s' <? length s
                    then star_loop step greedy k fuel p' s' c'
                    else None) = Some res' ->
               exists p' s' c', k p' s' c' = Some res'
                                /\ length s' <= length s).
    { intros res' Hi. apply Hstep in Hi as [p1 [s1 [c1 [Hk Hlen]]]].
      destruct (length s1 <? length s); [|discriminate].
      apply IH in Hk as [p2 [s2 [c2 [Hk2 Hlen2]]]].
      exists p2, s2, c2. split; [exact Hk2|lia]. }
    destruct greedy.
    + destruct (step prev s c _) as [a|] eqn:Hi.
      * injection H as <-. apply Hiter. reflexivity.
      * exists prev, s, c. split; [exact H|lia].
    + destruct (k prev s c) as [a|] eqn:Hk.
      * injection H as <-. exists prev, s, c. split; [exact Hk|lia].
      * apply Hiter. exact H.
Qed.

(** A match of [r] takes at least [min_len r] code units. *)
Lemma rmatch_consumes (A : Type) (r : regex) :
  forall prev s c (k : cont A) res,
    rmatch r prev s c k = Some res ->
    exists p' s' c',
      k p' s' c' = Some res /\ length s' + min_len r <= length s.
Proof.
  induction r as [ | p | r1 IH1 r2 IH2 | r1 IH1 r2 IH2 | g r1 IH1 | n r1 IH1
                 | | | | p | p ]; intros prev s c k res H; cbn [rmatch] in H;
    cbn [min_len].
  - exists prev, s, c. split; [exact H|lia].
  - destruct s as [|x s']; [discriminate|].
    destruct (p x); [|discriminate].
    exists (Some x), s', c. split; [exact H|simpl; lia].
  - apply IH1 in H as [p1 [s1 [c1 [H Hl1]]]].
    apply IH2 in H as [p2 [s2 [c2 [H Hl2]]]].
    exists p2, s2, c2. split; [exact H|lia].
  - destruct (rmatch r1 prev s c k) as [a|] eqn:H1.
    + injection H as <-. apply IH1 in H1 as [p1 [s1 [c1 [H Hl1]]]].
      exists p1, s1, c1. split; [exact H|lia].
    + apply IH2 in H as [p2 [s2 [c2 [H Hl2]]]].
      exists p2, s2, c2. split; [exact H|lia].
  - apply (star_loop_consumes A (rmatch r1) g k) in H.
    + destruct H as [p1 [s1 [c1 [H Hl]]]]. exists p1, s1, c1.
      split; [exact H|lia].
    + intros prev0 s0 c0 k' res' H0.
      apply IH1 in H0 as [p1 [s1 [c1 [H0 Hl]]]].
      exists p1, s1, c1. split; [exact H0|lia].
  - apply IH1 in H as [p1 [s1 [c1 [H Hl]]]].
    eexists p1, s1, _. split; [exact H|exact Hl].
  - destruct prev; [discriminate|]. exists None, s, c. split; [exact H|lia].
  - destruct s; [|discriminate]. exists prev, [], c. split; [exact H|lia].
  - destruct (xorb (at_word prev) (at_word (hd_error s))); [|discriminate].
    exists prev, s, c. split; [exact H|lia].
  - exists prev, s, c. split; [|lia].
    destruct prev as [x|]; [|exact H]. destruct (p x); [discriminate|exact H].
  - exists prev, s, c. split; [|lia].
    destruct s as [|x s']; [exact H|]. destruct (p x); [discriminate|exact H].
Qed.

Lemma match_here_consumes (r : regex) (prev : option N) (s rest : jsstring)
  (c : caps) :
  match_here r prev s = Some (rest, c) ->
  length rest + min_len r <= length s.
Proof.
  unfold match_here. intros H.
  apply rmatch_consumes in H as [p' [s' [c' [H Hl]]]].
  injection H as <- _. exact Hl.
Qed.

Lemma scan_matches_long (r : regex) :
  forall s prev skip acc,
    Forall (fun pm => min_len r <= length (fst (snd pm)))
      (fst (scan r prev s skip acc)).
Proof.
  induction s as [|x s IH]; intros prev skip acc.
  - destruct skip; [|constructor].
    rewrite scan_nil.
    destruct (match_here r prev []) as [[rest c]|] eqn:Hm; [|constructor].
    apply match_here_consumes in Hm. simpl in Hm.
    constructor; [|constructor]. cbn [fst snd length]. lia.
  - destruct skip as [|n]; [|rewrite scan_jump; apply IH].
    rewrite scan_cons.
    destruct (match_here r prev (x :: s)) as [[rest c]|] eqn:Hm; [|apply IH].
    apply match_here_consumes in Hm. cbv zeta. cbn [fst].
    constructor.
    + cbn [fst snd]. rewrite length_firstn. lia.
    + destruct (length (x :: s) - length rest); apply IH.
Qed.

Lemma concat_shrinks (T : Type) (f g : T -> jsstring) (ms : list T) :
  Forall (fun x => length (f x) < length (g x)) ms ->
  length (concat (map f ms)) + length ms <= length (concat (map g ms)).
Proof.
  induction 1 as [|x ms Hx Hall IH]; [simpl; lia|].
  cbn [map concat length]. rewrite !length_app. lia.
Qed.

Lemma emit_shrinks (w : jsstring) (k : nat) (ms : list (jsstring * found))
  (tl : jsstring) :
  length w < k ->
  Forall (fun pm => k <= length (fst (snd pm))) ms ->
  length (emit (fun _ => w) (ms, tl)) + length ms
  <= length (emit (fun m => fst m) (ms, tl)).
Proof.
  intros Hw Hall. unfold emit. cbn [fst snd]. rewrite !length_app.
  pose proof (concat_shrinks _ (fun pm : jsstring * found => fst pm ++ w)
                (fun pm => fst pm ++ fst (snd pm)) ms) as H.
  cbv beta in H. rewrite <- Nat.add_assoc, (Nat.add_comm (length tl)),
    Nat.add_assoc.
  apply Nat.add_le_mono_r. apply H.
  refine (Forall_impl _ _ Hall).
  intros pm Hpm. cbv beta in *. rewrite !length_app.
  unfold found, jsstring in *. lia.
Qed.

Lemma scan_none_search (r : regex) :
  forall s prev acc acc',
    fst (scan r prev s 0 acc) = [] -> search r prev s acc' = None.
Proof.
  induction s as [|x s IH]; intros prev acc acc' Hs.
  - rewrite scan_nil in Hs. cbn [search].
    destruct (match_here r prev []) as [[rest c]|]; [discriminate|].
    reflexivity.
  - rewrite scan_cons in Hs. cbn [search].
    destruct (match_here r prev (x :: s)) as [[rest c]|]; [discriminate|].
    exact (IH (Some x) (x :: acc) (x :: acc') Hs).
Qed.

(** A replacement by a text shorter than every match makes the text
    shorter, unless the pattern is found nowhere. *)
Lemma replace_all_shrinks (r : regex) (w s : jsstring) :
  length w < min_len r ->
  length (replace_all r (fun _ => w) s) <= length s
  /\ (length (replace_all r (fun _ => w) s) = length s ->
      test r s = false /\ replace_all r (fun _ => w) s = s).
Proof.
  intros Hw.
  pose proof (emit_shrinks w (min_len r) (fst (matches r s))
                (snd (matches r s)) Hw
                (scan_matches_long r s None 0 [])) as Hlen.
  pose proof (matches_rebuild r s) as Hre.
  rewrite replace_all_emit. unfold matches in *.
  destruct (scan r None s 0 []) as [ms tl] eqn:Hscan. cbn [fst snd] in *.
  unfold emit in *. cbn [fst snd] in *.
  pose proof (f_equal (@length N) Hre) as Hre'.
  cbv beta in *. unfold found, jsstring in *.
  split; [lia|]. intros Heq.
  assert (Hms : ms = []).
  { destruct ms; [reflexivity|]. cbn [length] in Hlen. lia. }
  subst ms.
  assert (Ht : test r s = false).
  { unfold test. rewrite (scan_none_search r s None [] []); [reflexivity|].
    rewrite Hscan. reflexivity. }
  split; [exact Ht|]. cbn [map concat app]. exact Hre.
Qed.

(** Dropping repeated headings makes the text shorter, unless no heading
    is repeated. *)
Lemma dedupe_headings_shrinks (ms : list (jsstring * found)) :
  Forall (fun pm => 1 <= length (fst (snd pm))) ms ->
  forall seenHeadings,
    length (dedupe_headings ms seenHeadings)
    <= length (concat (map (fun pm => fst pm ++ fst (snd pm)) ms))
    /\ (length (dedupe_headings ms seenHeadings)
        = length (concat (map (fun pm => fst pm ++ fst (snd pm)) ms)) ->
        distinct (map (fun pm => heading_key (snd pm)) ms) = true
        /\ forall k, In k seenHeadings ->
                     existsb (str_eqb k)
                       (map (fun pm => heading_key (snd pm)) ms) = false).
Proof.
  induction 1 as [|[pre m] ms Hm Hall IH]; intros seen.
  - split; [reflexivity|]. intros _. split; reflexivity.
  - cbn [fst snd] in Hm.
    cbn [dedupe_headings map concat distinct existsb fst snd].
    destruct (existsb (str_eqb (heading_key m)) seen) eqn:Hseen.
    + destruct (IH seen) as [Hle _]. rewrite !length_app in *.
      unfold found, jsstring in *. split; [lia|]. intros Heq. lia.
    + destruct (IH (heading_key m :: seen)) as [Hle Heq].
      rewrite !length_app in *. unfold found, jsstring in *.
      split; [lia|]. intros Hsame.
      destruct (Heq ltac:(lia)) as [Hd Hdisj]. split.
      * rewrite Hd, (Hdisj (heading_key m) (or_introl eq_refl)).
        reflexivity.
      * intros k Hin. rewrite (Hdisj k (or_intror Hin)).
        destruct (str_eqb k (heading_key m)) eqn:Hk; [|reflexivity].
        apply str_eqb_eq in Hk. subst k. exfalso.
        assert (Hc : existsb (str_eqb (heading_key m)) seen = true).
        { apply existsb_exists. exists (heading_key m).
          split; [exact Hin|apply str_eqb_refl]. }
        unfold found, jsstring in *. rewrite Hc in Hseen. discriminate.
Qed.

Lemma remove_duplicate_headings_shrinks (s : jsstring) :
  length (remove_duplicate_headings s) <= length s
  /\ (length (remove_duplicate_headings s) = length s ->
      distinct (heading_keys s) = true /\ remove_duplicate_headings s = s).
Proof.
  assert (Hall : Forall (fun pm => 1 <= length (fst (snd pm)))
                   (fst (matches re_h1_6 s))).
  { assert (Hmin : 1 <= min_len re_h1_6) by (vm_compute; lia).
    refine (Forall_impl _ _ (scan_matches_long re_h1_6 s None 0 [])).
    intros pm Hpm. cbv beta in *. lia. }
  pose proof (f_equal (@length N) (matches_rebuild re_h1_6 s)) as Hre.
  pose proof (remove_duplicate_headings_distinct s) as Hfix.
  unfold remove_duplicate_headings, heading_keys in *.
  destruct (matches re_h1_6 s) as [ms tl]. cbn [fst snd] in *.
  destruct (dedupe_headings_shrinks ms Hall []) as [Hle Heq].
  rewrite !length_app in *. unfold found, jsstring in *.
  split; [lia|]. intros Hsame.
  destruct (Heq ltac:(lia)) as [Hd _]. split; [exact Hd|].
  exact (Hfix Hd).
Qed.

(** Cutting a text out of a text. *)
Lemma startsWith_length (s p : jsstring) :
  startsWith s p = true -> length p <= length s.
Proof.
  revert s. induction p as [|a p IH]; intros s H; [simpl; lia|].
  destruct s as [|b s]; [discriminate|]. cbn [startsWith] in H.
  apply andb_prop in H as [_ H]. apply IH in H. simpl. lia.
Qed.

Lemma replace_str_go_cut (pat : jsstring) :
  forall s acc,
    length (replace_str_go pat [] s acc) <= length acc + length s
    /\ (includes s pat = true ->
        length (replace_str_go pat [] s acc) + length pat
        = length acc + length s).
Proof.
  induction s as [|x s IH]; intros acc.
  - cbn [replace_str_go includes]. destruct (startsWith [] pat) eqn:Hst.
    + apply startsWith_length in Hst. cbn [getSubstitution app].
      rewrite length_app, length_rev, length_skipn. simpl in *.
      split; [lia|]. intros _. lia.
    + rewrite length_rev. simpl. split; [lia|]. discriminate.
  - cbn [replace_str_go includes]. destruct (startsWith (x :: s) pat) eqn:Hst.
    + apply startsWith_length in Hst. cbn [getSubstitution app].
      rewrite length_app, length_rev, length_skipn.
      split; [lia|]. intros _. lia.
    + destruct (IH (x :: acc)) as [Hle Heq]. cbn [length] in *.
      cbn [orb]. split; [lia|]. intros Hin. specialize (Heq Hin). lia.
Qed.

Lemma fold_replace_str_length (secs : list jsstring) :
  forall h,
    length (fold_left (fun h sec => replace_str sec [] h) secs h)
    <= length h.
Proof.
  induction secs as [|sec secs IH]; intros h; [reflexivity|].
  cbn [fold_left]. etransitivity; [apply IH|].
  unfold replace_str. destruct (replace_str_go_cut sec h []) as [Hle _].
  exact Hle.
Qed.

Lemma includes_app_r (a s p : jsstring) :
  includes s p = true -> includes (a ++ s) p = true.
Proof.
  intros H. induction a as [|x a IH]; [exact H|].
  cbn [app includes]. rewrite IH. apply orb_true_r.
Qed.

Lemma startsWith_app (p b : jsstring) : startsWith (p ++ b) p = true.
Proof.
  induction p as [|x p IH]; [destruct b; reflexivity|].
  cbn [app startsWith]. rewrite N.eqb_refl, IH. reflexivity.
Qed.

Lemma includes_middle (a m b : jsstring) : includes (a ++ m ++ b) m = true.
Proof.
  apply includes_app_r.
  pose proof (startsWith_app m b) as H.
  destruct (m ++ b); cbn [includes]; rewrite H; reflexivity.
Qed.

(** Keeping the first block only makes the text shorter, unless there is
    at most one block. *)
Lemma keep_first_block_shrinks (r : regex) (s : jsstring) :
  1 <= min_len r ->
  length (keep_first_block r s) <= length s
  /\ (length (keep_first_block r s) = length s ->
      (length (match_all r s) <=? 1) = true /\ keep_first_block r s = s).
Proof.
  intros Hr.
  pose proof (keep_first_block_single r s) as Hfix.
  pose proof (matches_rebuild r s) as Hre.
  pose proof (scan_matches_long r s None 0 []) as Hlong.
  unfold keep_first_block, match_all in *. cbv zeta in *.
  fold (matches r s) in Hlong.
  destruct (fst (matches r s)) as [|pm1 [|pm2 ms]] eqn:Hms;
    cbn [map length tl Nat.ltb Nat.leb] in *.
  - split; [lia|]. intros _. split; reflexivity.
  - split; [lia|]. intros _. split; reflexivity.
  - cbn [fold_left].
    pose proof (fold_replace_str_length
                  (map (fun pm => fst (snd pm)) ms)
                  (replace_str (fst (snd pm2)) [] s)) as Hfold.
    assert (Hin : includes s (fst (snd pm2)) = true).
    { rewrite <- Hre. cbn [map concat]. rewrite <- !app_assoc.
      rewrite (app_assoc (fst pm1)), (app_assoc (fst pm1 ++ fst (snd pm1))).
      apply includes_middle. }
    destruct (replace_str_go_cut (fst (snd pm2)) s []) as [_ Hcut].
    specialize (Hcut Hin). fold (replace_str (fst (snd pm2)) [] s) in Hcut.
    inversion Hlong as [|? ? _ Hlong']; subst.
    inversion Hlong' as [|? ? H2 _]; subst.
    cbn [length] in Hcut. unfold found, jsstring in *.
    split; [lia|]. intros Hsame. lia.
Qed.

Lemma trim_length (s : jsstring) : length (trim s) <= length s.
Proof.
  unfold trim, trimEnd. rewrite length_rev.
  etransitivity; [apply trimStart_length|]. rewrite length_rev.
  apply trimStart_length.
Qed.

Lemma shrinks_compose (f g : jsstring -> jsstring)
  (cf cg : jsstring -> Prop) :
  shrinks f cf -> shrinks g cg ->
  shrinks (fun s => g (f s)) (fun s => cf s /\ cg s).
Proof.
  intros Hf Hg s. destruct (Hf s) as [Lf Ef]. destruct (Hg (f s)) as [Lg Eg].
  split; [lia|]. intros Heq.
  destruct (Ef ltac:(lia)) as [Cf Ff]. rewrite Ff in *.
  destruct (Eg Heq) as [Cg Fg]. repeat split; assumption.
Qed.

Lemma shrinks_replace_all (r : regex) (w : jsstring) :
  length w < min_len r ->
  shrinks (replace_all r (fun _ => w)) (fun s => test r s = false).
Proof. intros Hw s. apply replace_all_shrinks. exact Hw. Qed.

Lemma shrinks_headings :
  shrinks remove_duplicate_headings
    (fun s => distinct (heading_keys s) = true).
Proof. intros s. apply remove_duplicate_headings_shrinks. Qed.

Lemma shrinks_keep_first (r : regex) :
  1 <= min_len r ->
  shrinks (keep_first_block r)
    (fun s => (length (match_all r s) <=? 1) = true).
Proof. intros Hr s. apply keep_first_block_shrinks. exact Hr. Qed.

Lemma trimStart_same_length (s : jsstring) :
  length (trimStart s) = length s -> trimStart s = s.
Proof.
  intros H. destruct (trimStart_suffix s) as [p Hp].
  rewrite Hp in H at 2. rewrite length_app in H.
  destruct p; [exact (eq_sym Hp)|simpl in H; lia].
Qed.

Lemma shrinks_trim : shrinks trim (fun _ => True).
Proof.
  intros s. split; [apply trim_length|]. intros H. split; [exact I|].
  pose proof (trimStart_length s) as H1.
  pose proof (trimStart_length (rev (trimStart s))) as H2.
  unfold trim, trimEnd in *. rewrite !length_rev in *.
  assert (E1 : trimStart s = s) by (apply trimStart_same_length; lia).
  rewrite E1 in *.
  rewrite (trimStart_same_length (rev s))
    by (rewrite length_rev in *; lia).
  apply rev_involutive.
Qed.

(** The cleanup never makes a text longer, and a text it keeps has nothing
    left to remove. *)
Lemma cleanupHTML_fixed_settled (c : jsstring) :
  cleanupHTML c = c -> settled c = true.
Proof.
  intros Hfix.
  pose proof (shrinks_keep_first re_toc_block ltac:(vm_compute; lia)) as S.
  pose proof (shrinks_compose _ _ _ _ S shrinks_headings) as S2. clear S.
  pose proof (shrinks_compose _ _ _ _ S2
                (shrinks_keep_first re_faq_block ltac:(vm_compute; lia)))
    as S3. clear S2.
  pose proof (shrinks_compose _ _ _ _ S3
                (shrinks_replace_all re_empty_p [] ltac:(vm_compute; lia)))
    as S4. clear S3.
  pose proof (shrinks_compose _ _ _ _ S4
                (shrinks_replace_all re_blank_p [] ltac:(vm_compute; lia)))
    as S5. clear S4.
  pose proof (shrinks_compose _ _ _ _ S5
                (shrinks_replace_all re_blank_lines (nl ++ nl)
                   ltac:(vm_compute; lia)))
    as S6. clear S5.
  pose proof (shrinks_compose _ _ _ _ S6
                (shrinks_replace_all re_newlines3 (nl ++ nl)
                   ltac:(vm_compute; lia)))
    as S7. clear S6.
  pose proof (shrinks_compose _ _ _ _ S7
                (shrinks_replace_all (re_empty_list "ul") []
                   ltac:(vm_compute; lia)))
    as S8. clear S7.
  pose proof (shrinks_compose _ _ _ _ S8
                (shrinks_replace_all (re_empty_list "ol") []
                   ltac:(vm_compute; lia)))
    as S9. clear S8.
  pose proof (shrinks_compose _ _ _ _ S9
                (shrinks_replace_all (re_empty_list_nl "ul") []
                   ltac:(vm_compute; lia)))
    as S10. clear S9.
  pose proof (shrinks_compose _ _ _ _ S10
                (shrinks_replace_all (re_empty_list_nl "ol") []
                   ltac:(vm_compute; lia)))
    as S11. clear S10.
  pose proof (shrinks_compose _ _ _ _ S11
                (shrinks_replace_all re_empty_li [] ltac:(vm_compute; lia)))
    as S12. clear S11.
  pose proof (shrinks_compose _ _ _ _ S12
                (shrinks_replace_all re_spaces2 (js " ")
                   ltac:(vm_compute; lia)))
    as S13. clear S12.
  pose proof (shrinks_compose _ _ _ _ S13
                (shrinks_replace_all re_br2 (js "<br>")
                   ltac:(vm_compute; lia)))
    as S14. clear S13.
  pose proof (shrinks_compose _ _ _ _ S14
                (shrinks_replace_all re_nbsp2 (js "&nbsp;")
                   ltac:(vm_compute; lia)))
    as S15. clear S14.
  pose proof (shrinks_compose _ _ _ _ S15 shrinks_trim) as S16. clear S15.
  destruct (S16 c) as [_ E]. cbv beta in E.
  destruct (E (f_equal (@length N) Hfix)) as [C _].
  unfold settled.
  repeat match type of C with
         | _ /\ _ => let H := fresh "C" in destruct C as [C H]
         end.
  repeat match goal with
         | H : test _ _ = false |- _ => rewrite H; clear H
         | H : distinct _ = true |- _ => rewrite H; clear H
         | H : (_ <=? _) = true |- _ => rewrite H; clear H
         end.
  reflexivity.
Qed.


(** C2, amended: cleaning cleaned HTML again changes nothing exactly
    where nothing is left to remove in it (at most one TOC block and one
    FAQ block, no heading twice, no empty paragraph, list or list item, no
    run of [<br>] or [&nbsp;]); the white space steps are stable under
    repetition on every string; and on text without markup ([<] and [&])
    the cleanup is idempotent. *)
Theorem cleanupHTML_stability :
  (forall h,
      collapse (cleanupHTML h) = cleanupHTML h
      /\ trim (cleanupHTML h) = cleanupHTML h)
  /\ (forall h,
         cleanupHTML (cleanupHTML h) = cleanupHTML h
         <-> settled (cleanupHTML h) = true)
  /\ (forall h,
         plain h = true ->
         cleanupHTML (cleanupHTML h) = cleanupHTML h).
Proof.
  split; [|split].
  - intros h. split.
    + unfold collapse.
      apply (tidy_replace_all re_spaces2 _ (cleanupHTML h)
               (fun prev s' => tidy_no_spaces2 prev s')).
      apply cleanupHTML_tidy.
    + unfold cleanupHTML. cbv zeta. apply trim_trimmed.
  - intros h. split.
    + apply cleanupHTML_fixed_settled.
    + apply cleanupHTML_settled_idempotent.
  - exact cleanupHTML_plain_idempotent.
Qed.

End Cleanup.

(** ** The characters and the length of an id *)

Section Slug.
Context {CM : CaseMap}.
Import RegexFacts.

Lemma strip_kept (s : jsstring) (prev : option N) (skip : nat)
  (acc : jsstring) :
  forallb kept_char acc = true ->
  forallb kept_char
    (emit (fun _ => []) (scan (Chr (fun c => negb (kept_char c))) prev s skip acc))
  = true.
Proof.
  revert prev skip acc. induction s as [|x s IH]; intros prev skip acc Hacc.
  - destruct skip.
    + rewrite scan_nil. unfold match_here. cbn [rmatch]. unfold emit. simpl.
      rewrite ?app_nil_r, forallb_rev. exact Hacc.
    + unfold emit. simpl. rewrite forallb_rev. exact Hacc.
  - destruct skip as [|n]; [|rewrite scan_jump; apply IH; exact Hacc].
    rewrite scan_cons. unfold match_here. cbn [rmatch].
    destruct (kept_char x) eqn:Hx; cbn [negb].
    + apply IH. simpl. rewrite Hx. exact Hacc.
    + cbv zeta.
      assert (Hrec : forallb kept_char
                       (emit (fun _ => [])
                          match length (x :: s) - length s with
                          | O => scan (Chr (fun c => negb (kept_char c)))
                                   (Some x) s 0 [x]
                          | S n => scan (Chr (fun c => negb (kept_char c)))
                                     (Some x) s n []
                          end) = true).
      { replace (length (x :: s) - length s) with 1 by (cbn [length]; lia).
        apply IH. reflexivity. }
      revert Hrec. unfold emit. cbn [fst snd map concat]. intros Hrec.
      rewrite <- !app_assoc, !forallb_app, forallb_rev, Hacc. simpl.
      rewrite forallb_app in Hrec. exact Hrec.
Qed.

Lemma match_here_plus_space (prev : option N) (x : N) (s : jsstring) :
  match_here (plus space) prev (x :: s)
  = if is_space x then Some (trimStart s, []) else None.
Proof.
  unfold match_here, plus. cbn [rmatch space].
  destruct (is_space x); [|reflexivity].
  apply (star_space_accept (length s) s (Some x) []). lia.
Qed.

Lemma slug_of_kept (x : N) :
  kept_char x = true -> is_space x = false -> slug_char x = true.
Proof.
  unfold kept_char, slug_char. intros Hk Hs. rewrite Hs in Hk.
  rewrite orb_false_r in Hk. exact Hk.
Qed.

Lemma hyphenate_slug (s : jsstring) (prev : option N) (skip : nat)
  (acc : jsstring) :
  forallb slug_char acc = true ->
  forallb kept_char s = true ->
  forallb slug_char
    (emit (fun _ => js "-") (scan (plus space) prev s skip acc)) = true.
Proof.
  revert prev skip acc.
  induction s as [|x s IH]; intros prev skip acc Hacc Hs.
  - destruct skip.
    + rewrite scan_nil. unfold match_here, plus. cbn [rmatch space].
      unfold emit. simpl. rewrite ?app_nil_r, forallb_rev. exact Hacc.
    + unfold emit. simpl. rewrite forallb_rev. exact Hacc.
  - simpl in Hs. apply andb_prop in Hs as [Hx Hs].
    destruct skip as [|n]; [|rewrite scan_jump; apply IH; assumption].
    rewrite scan_cons.
    destruct (match_here (plus space) prev (x :: s)) as [[rest c]|] eqn:Hm.
    + cbv zeta.
      assert (Hrec : forallb slug_char
                       (emit (fun _ => js "-")
                          match length (x :: s) - length rest with
                          | O => scan (plus space) (Some x) s 0 [x]
                          | S n => scan (plus space) (Some x) s n []
                          end) = true).
      { destruct (length (x :: s) - length rest) eqn:Hlen.
        - exfalso. rewrite match_here_plus_space in Hm.
          destruct (is_space x); [|discriminate].
          injection Hm as <- _. pose proof (trimStart_length s).
          cbn [length] in Hlen. lia.
        - apply IH; [reflexivity|exact Hs]. }
      revert Hrec. unfold emit. cbn [fst snd map concat]. intros Hrec.
      rewrite <- !app_assoc, !forallb_app, forallb_rev, Hacc. simpl.
      rewrite forallb_app in Hrec. exact Hrec.
    + apply IH; [|exact Hs]. simpl. rewrite Hacc, andb_true_r.
      apply slug_of_kept; [exact Hx|].
      rewrite match_here_plus_space in Hm.
      destruct (is_space x); [discriminate|reflexivity].
Qed.

Lemma forallb_firstn (p : N -> bool) (n : nat) (s : jsstring) :
  forallb p s = true -> forallb p (firstn n s) = true.
Proof.
  revert n. induction s as [|x s IH]; intros n H; destruct n; simpl; auto.
  simpl in H. apply andb_prop in H as [Hx Hs]. rewrite Hx. simpl.
  apply IH. exact Hs.
Qed.

(** X2: an id made by [generateId] consists of [a-z0-9-] only and has at
    most fifty code units, whatever the text and the case mapping of the
    host. *)
Lemma generateId_slug (text : jsstring) :
  forallb slug_char (DocumentParser.generateId text) = true
  /\ length (DocumentParser.generateId text) <= 50.
Proof.
  unfold DocumentParser.generateId, substring0. split.
  - apply forallb_firstn. rewrite replace_all_emit.
    apply hyphenate_slug; [reflexivity|].
    rewrite replace_all_emit.
    exact (strip_kept (toLowerCase text) None 0 [] eq_refl).
  - apply firstn_le_length.
Qed.

End Slug.

(** ** Trigger phrases and their templates *)

Section Triggers.
Context {CM : CaseMap}.
Import SectionDetector.

(** X3: whatever section type [detectSectionType] returns is a key of the
    template table, so [processSectionContent] renders a detected section
    with its template and never with the default paragraph. *)
Theorem detected_type_has_template (headingText sectionType : jsstring) :
  detectSectionType headingText = Some sectionType ->
  exists template, lookup sectionType sectionTemplates = Some template.
Proof.
  unfold detectSectionType, getSectionTypeFromTag. cbv zeta. intros H.
  apply lookup_key.
  destruct (isStartTag (trim (toUpperCase headingText))).
  - apply lookup_in in H. exact (mapped_types_have_templates _ _ H).
  - destruct (lookup (trim (toUpperCase headingText)) sectionMappings)
      as [t|] eqn:Hl.
    + injection H as ->. apply lookup_in in Hl.
      exact (mapped_types_have_templates _ _ Hl).
    + apply first_near_match_in in H as [k Hk].
      exact (mapped_types_have_templates _ _ Hk).
Qed.

(** No trigger phrase is listed twice: a phrase is mapped to the type its
    entry gives. *)
Lemma mappings_lookup (k t : jsstring) :
  In (k, t) sectionMappings -> lookup k sectionMappings = Some t.
Proof.
  assert (H : forallb (fun e => match lookup (fst e) sectionMappings with
                                | Some t' => str_eqb t' (snd e)
                                | None => false
                                end) sectionMappings = true)
    by (vm_compute; reflexivity).
  rewrite forallb_forall in H. intros Hin. specialize (H _ Hin).
  cbn [fst snd] in H.
  destruct (lookup k sectionMappings) as [t'|]; [|discriminate].
  apply str_eqb_eq in H. congruence.
Qed.

(** X4: a heading text that is a trigger phrase once it is put in upper case
    and trimmed is detected with the type of that phrase, be the phrase a
    bracket tag or not. *)
Theorem trigger_phrase_is_detected
  (headingText keyword sectionType : jsstring) :
  In (keyword, sectionType) sectionMappings ->
  trim (toUpperCase headingText) = keyword ->
  detectSectionType headingText = Some sectionType.
Proof.
  intros Hin Hnorm. apply mappings_lookup in Hin.
  unfold detectSectionType, getSectionTypeFromTag. cbv zeta.
  rewrite Hnorm, Hin. destruct (isStartTag keyword); reflexivity.
Qed.

End Triggers.

(** ** The FAQ renderer at its edges *)

Section FaqEdges.
Context {CM : CaseMap}.
Import SectionDetector Claims.

Lemma faq_fold_questions (items : list jsstring) (st : faq_state) :
  Forall question items ->
  faqHtml st = [] -> answerParagraphs st = [] ->
  faqHtml (fold_left faq_step items st) = []
  /\ answerParagraphs (fold_left faq_step items st) = [].
Proof.
  revert st. induction items as [|q items IH]; intros st Hall Hh Ha.
  - simpl. auto.
  - inversion Hall as [|? ? Hq Hrest]; subst. simpl.
    apply IH; [exact Hrest| |].
    + rewrite (faq_step_question st q Hq). simpl. rewrite Ha. simpl.
      rewrite andb_false_r. exact Hh.
    + rewrite (faq_step_question st q Hq). reflexivity.
Qed.

(** X5: a buffer that holds question lines only is rendered as the empty
    string: a question is written when an answer line follows it, and not
    otherwise. *)
Theorem faq_questions_only (items : list jsstring) :
  Forall question items -> processFAQItems items = [].
Proof.
  intros Hall. unfold processFAQItems.
  destruct (faq_fold_questions items
              {| faqHtml := []; currentQuestion := []; answerParagraphs := [] |}
              Hall eq_refl eq_refl) as [Hh Ha].
  unfold faq_finish. rewrite Ha, Hh. simpl. rewrite !andb_false_r.
  reflexivity.
Qed.

Lemma faq_step_loose (st : faq_state) (a : jsstring) :
  answer a -> currentQuestion st = [] ->
  faq_step st a
  = {| faqHtml := faqHtml st; currentQuestion := [];
       answerParagraphs :=
         answerParagraphs st ++ filter (fun p => 20 <? length p) [a] |}.
Proof.
  intros [Hb Hq] Hcur. unfold faq_step. cbv zeta.
  destruct Hb as [Htrim Hne]. rewrite Htrim.
  rewrite (truthy_buffered a (conj Htrim Hne)). simpl negb. cbv iota.
  unfold isQuestion in Hq. rewrite Hq, Hcur. simpl truthy. cbv iota.
  simpl filter. destruct (20 <? length a).
  - reflexivity.
  - rewrite app_nil_r. destruct st; simpl in *. subst. reflexivity.
Qed.

Lemma faq_fold_loose (items : list jsstring) (st : faq_state) :
  Forall answer items -> currentQuestion st = [] ->
  fold_left faq_step items st
  = {| faqHtml := faqHtml st; currentQuestion := [];
       answerParagraphs :=
         answerParagraphs st ++ filter (fun p => 20 <? length p) items |}.
Proof.
  revert st. induction items as [|a items IH]; intros st Hall Hcur.
  - simpl. rewrite app_nil_r. destruct st; simpl in *. subst. reflexivity.
  - inversion Hall as [|? ? Ha Hrest]; subst.
    cbn [fold_left]. rewrite (faq_step_loose st a Ha Hcur).
    rewrite IH; [|exact Hrest|reflexivity]. cbn [faqHtml answerParagraphs].
    rewrite <- app_assoc.
    change (a :: items) with ([a] ++ items). rewrite filter_app.
    reflexivity.
Qed.

(** X6: a buffer without a question line is rendered as the paragraphs of
    its lines that are longer than twenty code units, in order; the shorter
    lines are left out. *)
Theorem faq_without_question (items : list jsstring) :
  Forall answer items ->
  processFAQItems items
  = concat (map (fun paragraph => js "    <p>" ++ paragraph ++ js "</p>" ++ nl)
              (filter (fun paragraph => 20 <? length paragraph) items)).
Proof.
  intros Hall. unfold processFAQItems.
  rewrite (faq_fold_loose items
             {| faqHtml := []; currentQuestion := []; answerParagraphs := [] |}
             Hall eq_refl).
  unfold faq_finish.
  cbn [faqHtml currentQuestion answerParagraphs app truthy andb negb].
  destruct (filter (fun p => 20 <? length p) items); reflexivity.
Qed.

End FaqEdges.

(** ** Anchored patterns *)

Section Anchored.

(** A pattern that starts with [^] matches at the start of the text or
    nowhere. *)
Lemma search_bol_later (r : regex) :
  forall (s : jsstring) (x : N) (acc : jsstring),
    search (Seq Bol r) (Some x) s acc = None.
Proof.
  induction s as [|y s IH]; intros x acc.
  - reflexivity.
  - cbn [search]. unfold match_here. cbn [rmatch]. apply IH.
Qed.

Lemma search_bol (r : regex) (s : jsstring) :
  search (Seq Bol r) None s []
  = match match_here (Seq Bol r) None s with
    | Some (rest, c) =>
        Some ([], (firstn (length s - length rest) s, c), rest)
    | None => None
    end.
Proof.
  destruct s as [|x s]; cbn [search].
  - destruct (match_here (Seq Bol r) None []) as [[rest c]|]; reflexivity.
  - destruct (match_here (Seq Bol r) None (x :: s)) as [[rest c]|];
      [reflexivity|]. apply search_bol_later.
Qed.

Lemma test_bol (r : regex) (s : jsstring) :
  test (Seq Bol r) s
  = match match_here (Seq Bol r) None s with Some _ => true | None => false end.
Proof.
  unfold test. rewrite search_bol.
  destruct (match_here (Seq Bol r) None s) as [[rest c]|]; reflexivity.
Qed.

Lemma replace_first_bol_none (r : regex) (f : found -> jsstring)
  (s : jsstring) :
  match_here (Seq Bol r) None s = None -> replace_first (Seq Bol r) f s = s.
Proof.
  intros H. unfold replace_first. rewrite search_bol, H. reflexivity.
Qed.

Lemma digit_not_space (c : N) : is_digit c = true -> is_space c = false.
Proof.
  unfold is_digit, is_space. intros H. apply andb_prop in H as [H1 H2].
  apply N.leb_le in H1, H2.
  repeat match goal with
         | |- _ || _ = false => apply orb_false_iff; split
         | |- _ && _ = false => apply andb_false_iff
         end;
    try (apply N.eqb_neq; lia);
    try (right; apply N.leb_gt; lia);
    try (left; apply N.leb_gt; lia).
Qed.

End Anchored.

(** ** List items *)

Section ListItems.
Import RegexFacts DocumentParser Behaviour.

Lemma ordered_head (line : jsstring) :
  test re_ordered line = true ->
  exists x y rest,
    line = x :: y :: rest /\ is_digit x = true /\ is_space y = false.
Proof.
  unfold re_ordered, seqs. rewrite test_bol. unfold match_here, plus, digit, c1.
  cbn [rmatch].
  destruct line as [|x [|y rest]]; [discriminate| |].
  - destruct (is_digit x); [|discriminate]. cbn. discriminate.
  - destruct (is_digit x) eqn:Hx; [|discriminate].
    intros H. exists x, y, rest. split; [reflexivity|]. split; [exact Hx|].
    destruct (is_space y) eqn:Hs; [|reflexivity]. exfalso.
    cbn [length star_loop rmatch] in H.
    destruct (is_digit y) eqn:Hy.
    + rewrite (digit_not_space y Hy) in Hs. discriminate.
    + cbn -[N.eqb ch] in H. destruct (N.eqb (ch ".") y) eqn:Hd; [|discriminate].
      apply N.eqb_eq in Hd. subst y. discriminate.
Qed.

Lemma cleanListItem_numbered (line : jsstring) :
  test re_ordered line = true -> cleanListItem line = trim line.
Proof.
  intros H. destruct (ordered_head line H) as [x [y [rest [-> [Hx Hy]]]]].
  unfold cleanListItem, re_list_marker, seqs.
  rewrite replace_first_bol_none; [reflexivity|].
  unfold match_here, plus, space. cbn [rmatch].
  rewrite Hy. destruct (_ || _); reflexivity.
Qed.

Lemma trim_trimStart (s : jsstring) : trim (trimStart s) = trim s.
Proof. unfold trim. rewrite trimStart_idem. reflexivity. Qed.

Lemma cleanListItem_bullet (b w : N) (t : jsstring) :
  is_bullet b = true -> is_space w = true ->
  cleanListItem (b :: w :: t) = trim t.
Proof.
  intros Hb Hw.
  assert (Hm : match_here re_list_marker None (b :: w :: t)
               = Some (trimStart t, [])).
  { unfold re_list_marker, seqs, match_here. cbn [rmatch].
    unfold is_bullet in Hb. rewrite Hb. cbn [orb].
    pose proof (match_here_plus_space (Some b) w t) as H.
    rewrite Hw in H. exact H. }
  unfold cleanListItem, replace_first.
  unfold re_list_marker, seqs in *. rewrite search_bol, Hm.
  cbn [app]. apply trim_trimStart.
Qed.

(** X7: [cleanListItem] removes the marker of a bullet item with the white
    space after it, and leaves a numbered item as it is but for the white
    space at its ends: the class of the marker pattern stands for one code
    unit, and a digit or a dot follows the first digit of a number. *)
Theorem cleanListItem_marker :
  (forall b w t,
      is_bullet b = true -> is_space w = true ->
      cleanListItem (b :: w :: t) = trim t)
  /\ (forall line,
         test re_ordered line = true -> cleanListItem line = trim line).
Proof. split; [exact cleanListItem_bullet | exact cleanListItem_numbered]. Qed.

End ListItems.

(** ** Table rows *)

Section Tables.
Import RegexFacts DocumentParser.

Lemma split_go_length (sep : jsstring) :
  forall s skip acc, 1 <= length (split_go sep s skip acc).
Proof.
  induction s as [|x s IH]; intros skip acc; cbn [split_go];
    [cbn [length]; lia|].
  destruct skip; [|apply IH].
  destruct (startsWith (x :: s) sep); [cbn [length]; lia|apply IH].
Qed.

Lemma split_go_found (sep : jsstring) :
  sep <> [] ->
  forall s acc, includes s sep = true -> 2 <= length (split_go sep s 0 acc).
Proof.
  intros Hne. induction s as [|x s IH]; intros acc H.
  - destruct sep; [congruence|discriminate].
  - cbn [includes] in H. cbn [split_go].
    destruct (startsWith (x :: s) sep).
    + cbn [length]. pose proof (split_go_length sep s (length sep - 1) []). lia.
    + apply IH. exact H.
Qed.

Lemma split_re_go_length (r : regex) :
  forall s prev skip acc fresh,
    1 <= length (split_re_go r prev s skip acc fresh).
Proof.
  induction s as [|x s IH]; intros prev skip acc fresh; cbn [split_re_go];
    [cbn [length]; lia|].
  destruct skip; [|apply IH].
  destruct (match_here r prev (x :: s)) as [[rest c]|]; [|apply IH].
  destruct (length (x :: s) - length rest).
  - destruct fresh; [apply IH|cbn [length]; lia].
  - cbn [length]. lia.
Qed.

Lemma split_re_go_found (r : regex) :
  consuming r ->
  forall s prev acc acc' fresh,
    search r prev s acc' <> None ->
    2 <= length (split_re_go r prev s 0 acc fresh).
Proof.
  intros Hc. induction s as [|x s IH]; intros prev acc acc' fresh H.
  - exfalso. apply H. cbn [search].
    destruct (match_here r prev []) as [[rest c]|] eqn:Hm; [|reflexivity].
    apply Hc in Hm. simpl in Hm. lia.
  - cbn [search] in H. cbn [split_re_go].
    destruct (match_here r prev (x :: s)) as [[rest c]|] eqn:Hm.
    + apply Hc in Hm.
      destruct (length (x :: s) - length rest) eqn:Hl; [lia|].
      cbn [length].
      pose proof (split_re_go_length r s (Some x) n [] true). lia.
    + apply (IH (Some x) (x :: acc) (x :: acc') false). exact H.
Qed.

Lemma match_here_spaces3 (prev : option N) (s : jsstring) :
  match_here re_spaces3 prev s
  = match s with
    | x :: y :: z :: rest =>
        if is_space x && is_space y && is_space z
        then Some (trimStart rest, [])
        else None
    | _ => None
    end.
Proof.
  unfold match_here, re_spaces3, at_least.
  destruct s as [|x [|y [|z rest]]]; cbn [rmatch space];
    repeat match goal with
           | |- context [if is_space ?a then _ else _] => destruct (is_space a)
           end; try reflexivity.
  apply (star_space_accept (length rest) rest (Some z) []). lia.
Qed.

Lemma consuming_spaces3 : consuming re_spaces3.
Proof.
  intros prev s rest c. rewrite match_here_spaces3.
  destruct s as [|x [|y [|z t]]]; try discriminate.
  destruct (is_space x && is_space y && is_space z); [|discriminate].
  intros [= <- _]. pose proof (trimStart_length t). cbn [length]. lia.
Qed.

(** X8: a line is a table row exactly when it holds a pipe, a tab or a run
    of three white space code units; the tests on the number of pieces the
    line splits into never decide. *)
Theorem isTableRow_separator (line : jsstring) :
  isTableRow line
  = includes line (js "|") || includes line SectionDetector.tab
    || test re_spaces3 line.
Proof.
  unfold isTableRow.
  destruct (includes line (js "|")) eqn:Hp.
  { pose proof (split_go_found (js "|") ltac:(discriminate) line [] Hp) as H.
    apply Nat.leb_le in H. unfold split. rewrite H. reflexivity. }
  destruct (includes line SectionDetector.tab) eqn:Ht.
  { pose proof (split_go_found SectionDetector.tab ltac:(discriminate)
                  line [] Ht) as H.
    apply Nat.leb_le in H. unfold split. rewrite H. reflexivity. }
  cbn [andb orb].
  destruct (test re_spaces3 line) eqn:Hs; [|reflexivity].
  replace (2 <=? length (split_re re_spaces3 line)) with true; [reflexivity|].
  symmetry. apply Nat.leb_le. unfold test in Hs. unfold split_re.
  destruct line as [|x s]; [discriminate|].
  apply (split_re_go_found re_spaces3 consuming_spaces3 (x :: s) None [] []).
  destruct (search re_spaces3 None (x :: s) []); [discriminate|discriminate].
Qed.

Lemma collectTableRows_from_rows (lines rows : list jsstring) :
  Forall (fun r => isTableRow r = true /\ trim r = r /\ r <> []) rows ->
  Forall (fun r => isTableRow r = true /\ trim r = r /\ r <> [])
    (collectTableRows_from lines rows).
Proof.
  revert rows. induction lines as [|l lines IH]; intros rows H; simpl;
    [exact H|].
  destruct (truthy (trim l)) eqn:Ht; simpl.
  - destruct (isTableRow (trim l)) eqn:Hr; [|exact H].
    apply IH. apply Forall_app. split; [exact H|].
    constructor; [|constructor]. split; [exact Hr|]. split.
    + apply trim_trimmed.
    + destruct (trim l); [discriminate|discriminate].
  - destruct (0 <? length rows); [|apply IH; exact H].
    destruct (next_is_table_row lines); [apply IH; exact H|exact H].
Qed.

Lemma collectTableRows_from_length (lines rows : list jsstring) :
  length (collectTableRows_from lines rows) <= length rows + length lines.
Proof.
  revert rows. induction lines as [|l lines IH]; intros rows; simpl; [lia|].
  destruct (truthy (trim l)); simpl.
  - destruct (isTableRow (trim l)); [|lia].
    specialize (IH (rows ++ [trim l])). rewrite length_app in IH. simpl in IH.
    lia.
  - destruct (0 <? length rows).
    + destruct (next_is_table_row lines); [specialize (IH rows); lia|lia].
    + specialize (IH rows). lia.
Qed.

(** X9: every row [collectTableRows] collects is a trimmed, non-empty line
    that [isTableRow] accepts, and there are at most as many rows as
    lines. *)
Theorem collectTableRows_rows (lines : list jsstring) :
  Forall (fun r => isTableRow r = true /\ trim r = r /\ r <> [])
    (collectTableRows lines)
  /\ length (collectTableRows lines) <= length lines.
Proof.
  split.
  - apply collectTableRows_from_rows. constructor.
  - exact (collectTableRows_from_length lines []).
Qed.

End Tables.

(** ** Inline markup *)

Section RichText.
Import RegexFacts DocumentParser Behaviour.

Lemma replace_all_none (r : regex) (f : found -> jsstring)
  (P : jsstring -> Prop) :
  (forall x s, P (x :: s) -> P s) ->
  (forall prev s, P s -> match_here r prev s = None) ->
  forall s, P s -> replace_all r f s = s.
Proof.
  intros Htl Hnone s Hs. unfold replace_all, matches.
  rewrite (scan_no_match r P Htl Hnone s None [] Hs). reflexivity.
Qed.

Lemma unmarked_tail (x : N) (s : jsstring) :
  unmarked (x :: s) = true -> unmarked s = true.
Proof.
  unfold unmarked. cbn [forallb]. intros H. apply andb_prop in H. apply H.
Qed.

Lemma unmarked_head (x : N) (s : jsstring) :
  unmarked (x :: s) = true ->
  N.eqb (ch "*") x = false /\ N.eqb (ch "_") x = false
  /\ N.eqb (ch "[") x = false.
Proof.
  unfold unmarked, unmarked_char. cbn [forallb]. intros H.
  apply andb_prop in H as [H _].
  apply andb_prop in H as [H H3]. apply andb_prop in H as [H1 H2].
  apply negb_true_iff in H1, H2, H3.
  rewrite (N.eqb_sym (ch "*")), (N.eqb_sym (ch "_")), (N.eqb_sym (ch "[")).
  auto.
Qed.

Ltac unmarked_none :=
  intros prev s Hs; unfold match_here;
  destruct s as [|x s];
  [ destruct prev; cbn [rmatch seqs];
    repeat match goal with
           | |- (if ?b then None else None) = None => destruct b
           end; reflexivity
  | destruct (unmarked_head x s Hs) as [H1 [H2 H3]];
    destruct prev; cbn [rmatch seqs]; rewrite ?H1, ?H2, ?H3;
    repeat match goal with
           | |- (if ?b then None else None) = None => destruct b
           end; reflexivity ].

Lemma unmarked_bold (prev : option N) (s : jsstring) :
  unmarked s = true -> match_here re_bold prev s = None.
Proof. revert prev s. unfold re_bold, seqs, lit, c1. simpl map. unmarked_none. Qed.

Lemma unmarked_bold_underscore (prev : option N) (s : jsstring) :
  unmarked s = true -> match_here re_bold_underscore prev s = None.
Proof.
  revert prev s. unfold re_bold_underscore, seqs, lit, c1. simpl map.
  unmarked_none.
Qed.

Lemma unmarked_italic_star (prev : option N) (s : jsstring) :
  unmarked s = true -> match_here re_italic_star prev s = None.
Proof. revert prev s. unfold re_italic_star, seqs, c1. unmarked_none. Qed.

Lemma unmarked_italic_underscore (prev : option N) (s : jsstring) :
  unmarked s = true -> match_here re_italic_underscore prev s = None.
Proof. revert prev s. unfold re_italic_underscore, seqs, c1. unmarked_none. Qed.

Lemma unmarked_link (prev : option N) (s : jsstring) :
  unmarked s = true -> match_here re_link prev s = None.
Proof. revert prev s. unfold re_link, seqs, c1. unmarked_none. Qed.

(** X10: [formatRichText] returns a text without [*], [_] and [[] as it
    is. *)
Theorem formatRichText_unmarked (text : jsstring) :
  unmarked text = true -> formatRichText text = text.
Proof.
  intros H. unfold formatRichText. cbv zeta.
  rewrite (replace_all_none re_bold _ _ unmarked_tail unmarked_bold text H).
  rewrite (replace_all_none re_bold_underscore _ _ unmarked_tail
             unmarked_bold_underscore text H).
  rewrite (replace_all_none re_italic_star _ _ unmarked_tail
             unmarked_italic_star text H).
  rewrite (replace_all_none re_italic_underscore _ _ unmarked_tail
             unmarked_italic_underscore text H).
  exact (replace_all_none re_link _ _ unmarked_tail unmarked_link text H).
Qed.

End RichText.

(** ** Splitting at a separator *)

Section Split.

Lemma startsWith_one (c x : N) (s : jsstring) :
  startsWith (x :: s) [c] = N.eqb c x.
Proof. cbn [startsWith]. destruct s; apply andb_true_r. Qed.

Lemma includes_one_cons (c x : N) (s : jsstring) :
  includes (x :: s) [c] = N.eqb c x || includes s [c].
Proof. cbn [includes]. rewrite startsWith_one. reflexivity. Qed.

Lemma split_go_one_absent (c : N) :
  forall s acc,
    includes s [c] = false -> split_go [c] s 0 acc = [rev acc ++ s].
Proof.
  induction s as [|x s IH]; intros acc H.
  - simpl. rewrite app_nil_r. reflexivity.
  - rewrite includes_one_cons in H. apply orb_false_iff in H as [Hx Hs].
    cbn [split_go]. rewrite startsWith_one, Hx. rewrite (IH _ Hs).
    simpl. rewrite <- app_assoc. reflexivity.
Qed.

Lemma split_go_one_first (c : N) (d : jsstring) :
  forall t acc,
    includes t [c] = false ->
    split_go [c] (t ++ c :: d) 0 acc = (rev acc ++ t) :: split_go [c] d 0 [].
Proof.
  induction t as [|x t IH]; intros acc H.
  - cbn [app split_go]. rewrite startsWith_one, N.eqb_refl, app_nil_r.
    reflexivity.
  - rewrite includes_one_cons in H. apply orb_false_iff in H as [Hx Ht].
    cbn [app split_go]. rewrite startsWith_one, Hx. rewrite (IH _ Ht).
    simpl. rewrite <- app_assoc. reflexivity.
Qed.

Lemma split_go_nonempty (sep : jsstring) (s : jsstring) (skip : nat)
  (acc : jsstring) : split_go sep s skip acc <> [].
Proof.
  revert skip acc. induction s as [|x s IH]; intros skip acc; cbn [split_go].
  - discriminate.
  - destruct skip; [|apply IH].
    destruct (startsWith (x :: s) sep); [discriminate|apply IH].
Qed.

Lemma join_cons (sep l : jsstring) (rest : list jsstring) :
  rest <> [] -> join sep (l :: rest) = l ++ sep ++ join sep rest.
Proof. destruct rest; [congruence|reflexivity]. Qed.

(** Joining the pieces of a text with the separator gives the text back. *)
Lemma join_split_go_one (c : N) :
  forall s acc, join [c] (split_go [c] s 0 acc) = rev acc ++ s.
Proof.
  induction s as [|x s IH]; intros acc.
  - simpl. rewrite app_nil_r. reflexivity.
  - cbn [split_go]. rewrite startsWith_one.
    destruct (N.eqb c x) eqn:Hx.
    + apply N.eqb_eq in Hx. subst x. cbn [length Nat.sub].
      rewrite join_cons by apply split_go_nonempty.
      rewrite IH. reflexivity.
    + rewrite IH. simpl. rewrite <- app_assoc. reflexivity.
Qed.

Lemma join_split_one (c : N) (s : jsstring) : join [c] (split [c] s) = s.
Proof. exact (join_split_go_one c s []). Qed.

End Split.

(** ** The steps template *)

Section Steps.
Context {CM : CaseMap}.
Import SectionDetector Behaviour.

Lemma truthy_nonempty (s : jsstring) : s <> [] -> truthy s = true.
Proof. destruct s; [congruence|reflexivity]. Qed.

(** X11: the [steps] template writes a line without a colon as its own title
    and description; a line with a colon is cut at the first one, the title
    is the text before it (the numbered title [Step N] when that text is
    empty) and the description is the trimmed text after it (the whole line
    when that is empty). *)
Theorem steps_item_parts :
  (forall item index,
      includes item (js ":") = false -> item <> [] ->
      steps_item item index = step_html item item)
  /\ (forall title d index,
         includes title (js ":") = false ->
         steps_item (title ++ js ":" ++ d) index
         = step_html
             (if truthy title then title else js "Step " ++ of_nat (index + 1))
             (if truthy (trim d) then trim d else title ++ js ":" ++ d)).
Proof.
  split.
  - intros item index Hno Hne. unfold steps_item, split. cbv zeta.
    change (js ":") with [ch ":"] in *.
    rewrite (split_go_one_absent (ch ":") item [] Hno).
    cbn [rev app hd tl join trim trimStart trimEnd truthy].
    rewrite (truthy_nonempty item Hne). reflexivity.
  - intros title d index Hno. unfold steps_item, split. cbv zeta.
    change (js ":") with [ch ":"] in *.
    change ([ch ":"] ++ d) with (ch ":" :: d).
    rewrite (split_go_one_first (ch ":") d title [] Hno).
    cbn [rev app hd tl]. rewrite (join_split_go_one (ch ":") d []).
    reflexivity.
Qed.

End Steps.

(** ** The question test of the FAQ renderer *)

Section QuestionTest.
Context {CM : CaseMap}.
Import SectionDetector Claims.

Lemma endsWith_one (s : jsstring) (c : N) :
  endsWith s [c] = true <-> exists text, s = text ++ [c].
Proof.
  unfold endsWith. cbn [rev app]. split.
  - destruct (rev s) as [|x t] eqn:Hrev; [discriminate|].
    rewrite startsWith_one. intros Hx. apply N.eqb_eq in Hx. subst x.
    exists (rev t). rewrite <- (rev_involutive s), Hrev. reflexivity.
  - intros [text ->]. rewrite rev_app_distr. cbn [rev app].
    rewrite startsWith_one. apply N.eqb_refl.
Qed.

(** A text has no [c], or a first one. *)
Lemma first_occurrence (c : N) (s : jsstring) :
  includes s [c] = false
  \/ exists t d, s = t ++ c :: d /\ includes t [c] = false.
Proof.
  induction s as [|x s IH]; [left; reflexivity|].
  rewrite includes_one_cons. destruct (N.eqb_spec c x) as [<-|Hne].
  - right. exists [], s. split; reflexivity.
  - destruct IH as [Habs|[t [d [-> Ht]]]].
    + left. exact Habs.
    + right. exists (x :: t), d. split; [reflexivity|].
      rewrite includes_one_cons, Ht.
      destruct (N.eqb_spec c x); [congruence|reflexivity].
Qed.

(** The first piece of a text split at [c] is the word [w] exactly when the
    text is [w], or [w] with [c] and more text after it. *)
Lemma first_piece_is (c : N) (w s : jsstring) :
  includes w [c] = false ->
  hd [] (split [c] s) = w <-> (s = w \/ exists rest, s = w ++ c :: rest).
Proof.
  intros Hw. unfold split. split.
  - intros Hhd. destruct (first_occurrence c s) as [Habs|[t [d [-> Ht]]]].
    + rewrite (split_go_one_absent c s [] Habs) in Hhd. left. exact Hhd.
    + rewrite (split_go_one_first c d t [] Ht) in Hhd. cbn [hd rev app] in Hhd.
      subst t. right. exists d. reflexivity.
  - intros [->|[rest ->]].
    + rewrite (split_go_one_absent c w [] Hw). reflexivity.
    + rewrite (split_go_one_first c rest w [] Hw). reflexivity.
Qed.

(** The word list of the renderer is the closed set of the claim, and no
    word of it holds a space. *)
Lemma questionWords_are_interrogative (w : jsstring) :
  existsb (str_eqb w) questionWords = true <-> In w interrogative_words.
Proof.
  rewrite existsb_exists. split.
  - intros [v [Hin Heq]]. apply str_eqb_eq in Heq. subst v.
    unfold questionWords in Hin. unfold interrogative_words. exact Hin.
  - intros Hin. exists w. split; [exact Hin|apply str_eqb_refl].
Qed.

Lemma interrogative_words_spaceless (w : jsstring) :
  In w interrogative_words -> includes w (js " ") = false.
Proof.
  assert (H : forallb (fun v => negb (includes v (js " ")))
                interrogative_words = true) by reflexivity.
  rewrite forallb_forall in H. intros Hin.
  apply negb_true_iff. exact (H w Hin).
Qed.

Lemma isLikelyQuestion_asks (item : jsstring) :
  isLikelyQuestion item = true
  <-> (exists w, In w interrogative_words /\ starts_with_word w item)
      /\ 10 < length item.
Proof.
  unfold isLikelyQuestion. cbv zeta. rewrite andb_true_iff, Nat.ltb_lt.
  apply and_iff_compat_r.
  rewrite questionWords_are_interrogative. split.
  - intros Hin. exists (hd [] (split (js " ") (toLowerCase item))).
    split; [exact Hin|].
    apply (first_piece_is 32 _ _ (interrogative_words_spaceless _ Hin)).
    reflexivity.
  - intros [w [Hin Hstart]].
    apply (first_piece_is 32 _ _ (interrogative_words_spaceless _ Hin))
      in Hstart.
    change (js " ") with [32%N]. rewrite Hstart. exact Hin.
Qed.

(** The test of the renderer is the question test of the claim. *)
Lemma isQuestion_asks (item : jsstring) :
  endsWith item (js "?") || isLikelyQuestion item = true <-> asks item.
Proof.
  unfold asks. rewrite orb_true_iff, isLikelyQuestion_asks.
  apply or_iff_compat_r. exact (endsWith_one item 63).
Qed.

Lemma asked_question (item : jsstring) : asked item <-> question item.
Proof.
  unfold asked, question, isQuestion.
  apply and_iff_compat_l. symmetry. apply isQuestion_asks.
Qed.

Lemma told_answer (item : jsstring) : told item <-> answer item.
Proof.
  unfold told, answer, isQuestion.
  apply and_iff_compat_l. rewrite <- isQuestion_asks.
  destruct (endsWith item (js "?") || isLikelyQuestion item); split;
    congruence.
Qed.

Lemma paired_well_formed (g : faq_group) : paired g -> well_formed g.
Proof.
  intros [Hq Ha]. split.
  - apply asked_question. exact Hq.
  - apply (Forall_impl answer (fun a => proj1 (told_answer a)) Ha).
Qed.

(** Groups of a question line and its answer lines are rendered group by
    group. *)
Lemma faq_paired_in_order (orphans : list jsstring)
  (groups : list faq_group) :
  Forall told orphans ->
  Forall paired groups ->
  groups <> [] ->
  processFAQItems (orphans ++ flatten_groups groups) = render_groups groups.
Proof.
  intros Horph Hall Hne. apply faq_groups_in_order.
  - apply (Forall_impl answer (fun a => proj1 (told_answer a)) Horph).
  - apply (Forall_impl well_formed paired_well_formed Hall).
  - exact Hne.
Qed.

End QuestionTest.

(** ** The whole conversion *)

Section Whole.
Context {CM : CaseMap}.
Import RegexFacts DocumentParser Claims.

Lemma toc_template_returns (items : list SectionDetector.item) :
  exists r,
    SectionDetector.processSectionContent (js "toc") [] items
    = Ok (SectionDetector.VString r).
Proof.
  change (SectionDetector.processSectionContent (js "toc") [] items)
    with (r <- SectionDetector.template_toc [] items ;;
          Ok (SectionDetector.VString r)).
  unfold SectionDetector.template_toc.
  destruct (length items =? 0); eexists; reflexivity.
Qed.

Lemma finish_cleaned (st : state) :
  templated st = true ->
  exists h, finish st = Ok (cleanupHTML h).
Proof.
  intros Htpl. unfold finish.
  assert (H1 : exists h1,
             (if in_section st && (0 <? length (sectionItems st)) then
                if is_section st "toc" then Ok (html st ++ TOC_PLACEHOLDER)
                else if negb (is_section st "ignore") then
                  r <- render_section st ;; Ok (html st ++ r)
                else Ok (html st)
              else Ok (html st)) = Ok h1).
  { destruct (in_section st && (0 <? length (sectionItems st)));
      [|eexists; reflexivity].
    destruct (is_section st "toc"); [eexists; reflexivity|].
    destruct (negb (is_section st "ignore")); [|eexists; reflexivity].
    destruct (render_section_returns st Htpl) as [r ->].
    eexists. reflexivity. }
  destruct H1 as [h1 ->]. cbn [bind].
  match goal with
  | |- context [if ?b then (tocHtml <- _ ;; _) else _] => destruct b
  end.
  - destruct (toc_template_returns (tocItems st)) as [r ->]. cbn [bind].
    eexists. reflexivity.
  - cbn [bind]. eexists. reflexivity.
Qed.

(** X12: [convertTextToHTML] returns a string on every input (no template it
    calls throws), and the string has no white space at its ends and no two
    white space code units side by side. *)
Theorem convertTextToHTML_clean (content : jsstring) :
  exists h,
    convertTextToHTML content = Ok h /\ tidy h /\ trim h = h.
Proof.
  unfold convertTextToHTML.
  destruct (loop_owned (split nl content) 0 initial) as [st [-> [_ Htpl]]].
  { unfold buffer_owned. reflexivity. }
  { reflexivity. }
  cbn [bind]. destruct (finish_cleaned st Htpl) as [h ->].
  exists (cleanupHTML h). split; [reflexivity|]. split.
  - apply cleanupHTML_tidy.
  - unfold cleanupHTML. cbv zeta. apply trim_trimmed.
Qed.

Lemma trimStart_spaces (s : jsstring) :
  forallb is_space s = true -> trimStart s = [].
Proof.
  induction s as [|x s IH]; simpl; [reflexivity|].
  intros H. apply andb_prop in H as [Hx Hs]. rewrite Hx. apply IH. exact Hs.
Qed.

Lemma trim_spaces (s : jsstring) : forallb is_space s = true -> trim s = [].
Proof.
  intros H. unfold trim. rewrite (trimStart_spaces s H). reflexivity.
Qed.

Lemma split_go_forallb (p : N -> bool) (sep : jsstring) :
  forall s skip acc,
    forallb p s = true -> forallb p acc = true ->
    Forall (fun l => forallb p l = true) (split_go sep s skip acc).
Proof.
  induction s as [|x s IH]; intros skip acc Hs Hacc; cbn [split_go].
  - constructor; [|constructor]. rewrite forallb_rev. exact Hacc.
  - cbn [forallb] in Hs. apply andb_prop in Hs as [Hx Hs].
    destruct skip; [|apply IH; assumption].
    destruct (startsWith (x :: s) sep).
    + constructor; [rewrite forallb_rev; exact Hacc|].
      apply IH; [exact Hs|reflexivity].
    + apply IH; [exact Hs|]. cbn [forallb]. rewrite Hx. exact Hacc.
Qed.

Lemma body_blank (l : jsstring) (rest : list jsstring) (st : state) :
  trim l = [] -> body l rest st = Ok (0, close_open_list st).
Proof. intros H. unfold body. rewrite H. reflexivity. Qed.

Lemma loop_blank (lines : list jsstring) (st : state) :
  Forall (fun l => forallb is_space l = true) lines ->
  inList st = false ->
  loop lines 0 st = Ok st.
Proof.
  induction lines as [|l lines IH]; intros Hall Hlist; [reflexivity|].
  inversion Hall as [|? ? Hl Hrest]; subst.
  cbn [loop]. rewrite (body_blank l lines st (trim_spaces l Hl)).
  cbn [bind fst snd]. rewrite (close_open_list_closed st Hlist).
  apply IH; assumption.
Qed.

(** X13: a document of white space only (the empty document too) is
    converted to the empty string. *)
Theorem convertTextToHTML_blank (content : jsstring) :
  forallb is_space content = true -> convertTextToHTML content = Ok [].
Proof.
  intros H. unfold convertTextToHTML, split.
  rewrite (loop_blank _ initial
             (split_go_forallb is_space nl content 0 [] H eq_refl) eq_refl).
  reflexivity.
Qed.

End Whole.

(** ** Lines inside sections and tables *)

Section Buffered.
Context {CM : CaseMap}.
Import RegexFacts DocumentParser Claims Behaviour.

Lemma faq_or_toc (st : state) :
  is_section st "faq" || is_section st "toc" = true ->
  in_section st = true /\ is_section st "ignore" = false.
Proof.
  unfold is_section, in_section. destruct (currentSection st) as [t|];
    [|discriminate].
  intros H. split; [reflexivity|].
  apply orb_prop in H as [H|H]; apply str_eqb_eq in H; subst t; reflexivity.
Qed.

Lemma heading_line_buffers (line normalizedLine : jsstring) (st : state) :
  is_section st "faq" || is_section st "toc" = true ->
  SectionDetector.detectSectionType (cleanHeadingText line) = None
  \/ SectionDetector.isStartTag normalizedLine = true ->
  heading_line line normalizedLine st = push_item st (cleanHeadingText line).
Proof.
  intros Hsec Hno. destruct (faq_or_toc st Hsec) as [Hin Hig].
  unfold heading_line. cbv zeta.
  assert (Hgoal :
    (if negb (in_section st)
     then emit_heading st (getHeadingLevel line) (cleanHeadingText line)
            (generateId (cleanHeadingText line))
     else if negb (is_section st "ignore") && negb (is_section st "faq")
             && negb (is_section st "toc")
          then emit_heading st (getHeadingLevel line) (cleanHeadingText line)
                 (generateId (cleanHeadingText line))
          else if is_section st "faq" then push_item st (cleanHeadingText line)
               else if is_section st "toc"
                    then push_item st (cleanHeadingText line)
                    else st)
    = push_item st (cleanHeadingText line)).
  { rewrite Hin, Hig. cbn [negb andb].
    destruct (is_section st "faq"); [reflexivity|].
    cbn [orb] in Hsec. rewrite Hsec. reflexivity. }
  destruct (SectionDetector.detectSectionType (cleanHeadingText line)).
  - destruct Hno as [Hno|Hno]; [discriminate|]. rewrite Hno. cbn [negb].
    exact Hgoal.
  - exact Hgoal.
Qed.

(** X14: while an FAQ or TOC section is open, a heading line that is no
    trigger and no end tag appends what closing the buffered lines yields
    (for an FAQ section with a non-empty buffer a whole FAQ block), and the
    buffer restarts with the text of the heading; the section stays open and
    the heading is written nowhere else. *)
Theorem heading_in_section_flushes (l : jsstring) (rest : list jsstring)
  (st : state) :
  is_section st "faq" || is_section st "toc" = true ->
  inList st = false ->
  reaches_section_logic l = true ->
  isHeading (trim l) = true ->
  trigger_of (trim l) = None ->
  exists out,
    closing_output st = Ok out
    /\ body l rest st
       = Ok (0, set_items (set_html st (html st ++ out))
                  [cleanHeadingText (trim l)])
    /\ (is_section st "faq" = true -> sectionItems st <> [] ->
        out = faq_block (sectionItems st)).
Proof.
  intros Hsec Hlist Hreach Hhead Htrig.
  destruct (faq_or_toc st Hsec) as [Hin Hig].
  unfold reaches_section_logic, section_logic in Hreach. cbv zeta in Hreach.
  apply andb_prop in Hreach as [Hreach Hnoend].
  apply andb_prop in Hreach as [Hreach Hlogic].
  apply andb_prop in Hreach as [Hreach Hnotend].
  apply andb_prop in Hreach as [Htruthy Hnotable].
  apply negb_true_iff in Hnoend, Hnotend, Hnotable.
  assert (Htpl : templated st = true).
  { unfold templated. unfold is_section in Hsec.
    destruct (currentSection st) as [t|]; [|discriminate].
    apply orb_prop in Hsec as [H|H]; apply str_eqb_eq in H; subst t;
      reflexivity. }
  destruct (flush_section_spec st Hin Htpl) as [out [Hout Hflush]].
  exists out. split; [exact Hout|]. split.
  - unfold body. cbv zeta. rewrite Htruthy. simpl negb. cbv iota.
    rewrite Hnotable, Hnotend, Hlogic, Hnoend, Hflush. simpl bind.
    set (st1 := set_items (set_html st (html st ++ out)) []).
    assert (Hl1 : inList st1 = false) by exact Hlist.
    rewrite (close_open_list_closed st1 Hl1).
    unfold trigger_of in Htrig. cbv zeta in Htrig.
    assert (Hsec1 : is_section st1 "faq" || is_section st1 "toc" = true)
      by exact Hsec.
    destruct (SectionDetector.isStartTag (trim (toUpperCase (trim l))))
      eqn:Hstart.
    + rewrite Htrig, Hhead.
      rewrite (heading_line_buffers _ _ st1 Hsec1 (or_intror Hstart)).
      reflexivity.
    + rewrite Hhead in *.
      rewrite (heading_line_buffers _ _ st1 Hsec1 (or_introl Htrig)).
      reflexivity.
  - intros Hfaq Hne. unfold closing_output in Hout.
    destruct (sectionItems st) as [|it items] eqn:Hitems; [congruence|].
    cbn [length Nat.ltb Nat.leb] in Hout.
    assert (Htoc : is_section st "toc" = false).
    { unfold is_section in *. destruct (currentSection st) as [t|];
        [|discriminate].
      apply str_eqb_eq in Hfaq. subst t. reflexivity. }
    rewrite Htoc, Hig in Hout. unfold render_section in Hout.
    unfold is_section in Hfaq.
    destruct (currentSection st) as [t|]; [|discriminate].
    apply str_eqb_eq in Hfaq. subst t. rewrite Hitems in Hout.
    change (SectionDetector.processSectionContent (js "faq") []
              (map SectionDetector.IStr (it :: items)))
      with (r <- SectionDetector.template_faq []
                   (map SectionDetector.IStr (it :: items)) ;;
            Ok (SectionDetector.VString r)) in Hout.
    unfold SectionDetector.template_faq in Hout.
    rewrite strings_of_IStr in Hout. cbn [bind] in Hout.
    injection Hout as <-. reflexivity.
Qed.

Lemma body_table_line (r : jsstring) (rest : list jsstring) (st : state) :
  table_line r = true -> in_section st = false ->
  body r rest st
  = let st' := close_open_list st in
    let tableRows := collectTableRows (r :: rest) in
    if 1 <? length tableRows then
      Ok (length tableRows - 1,
          set_html st' (html st' ++ SectionDetector.processTableItems tableRows))
    else Ok (0, set_html st' (html st' ++ js "<p>" ++ r ++ js "</p>" ++ nl)).
Proof.
  intros Hr Hin. unfold table_line in Hr.
  apply andb_prop in Hr as [Hr Hrow].
  apply andb_prop in Hr as [Hr Hlogic].
  apply andb_prop in Hr as [Hr Hend].
  apply andb_prop in Hr as [Hr Htable].
  apply andb_prop in Hr as [Htruthy Htrim].
  apply str_eqb_eq in Htrim.
  apply negb_true_iff in Hlogic, Hend, Htable.
  unfold section_logic in Hlogic.
  unfold body. cbv zeta. rewrite Htrim.
  change (SectionDetector.truthy r) with (truthy r). rewrite Htruthy.
  cbn [negb]. rewrite Htable, Hend, Hlogic, Hrow, Hin. reflexivity.
Qed.

Lemma table_line_row (r : jsstring) :
  table_line r = true ->
  trim r = r /\ truthy r = true /\ isTableRow r = true.
Proof.
  unfold table_line. intros Hr.
  apply andb_prop in Hr as [Hr Hrow].
  apply andb_prop in Hr as [Hr _]. apply andb_prop in Hr as [Hr _].
  apply andb_prop in Hr as [Hr _]. apply andb_prop in Hr as [Htruthy Htrim].
  apply str_eqb_eq in Htrim. auto.
Qed.

(** X15: outside every section two table lines that follow each other are
    written as one table; with an empty line between them the table is the
    same, and the second line is written once more after it, as a
    paragraph. *)
Theorem table_row_after_empty_line (r1 b r2 : jsstring) (st : state) :
  table_line r1 = true -> table_line r2 = true -> trim b = [] ->
  in_section st = false ->
  loop [r1; r2] 0 st
  = Ok (set_html (close_open_list st)
          (html (close_open_list st)
           ++ SectionDetector.processTableItems [r1; r2]))
  /\ loop [r1; b; r2] 0 st
     = Ok (set_html (close_open_list st)
             (html (close_open_list st)
              ++ SectionDetector.processTableItems [r1; r2]
              ++ js "<p>" ++ r2 ++ js "</p>" ++ nl)).
Proof.
  intros H1 H2 Hb Hin.
  destruct (table_line_row r1 H1) as [Ht1 [Hy1 Hr1]].
  destruct (table_line_row r2 H2) as [Ht2 [Hy2 Hr2]].
  assert (Hc2 : collectTableRows [r1; r2] = [r1; r2]).
  { unfold collectTableRows. cbn [collectTableRows_from].
    rewrite Ht1, Ht2. change (SectionDetector.truthy ?x) with (truthy x).
    rewrite Hy1, Hy2, Hr1, Hr2. reflexivity. }
  assert (Hc3 : collectTableRows [r1; b; r2] = [r1; r2]).
  { unfold collectTableRows. cbn [collectTableRows_from next_is_table_row].
    rewrite Ht1, Ht2, Hb. change (SectionDetector.truthy ?x) with (truthy x).
    rewrite Hy1, Hy2, Hr1, Hr2. reflexivity. }
  assert (Hc1 : collectTableRows [r2] = [r2]).
  { unfold collectTableRows. cbn [collectTableRows_from].
    rewrite Ht2. change (SectionDetector.truthy ?x) with (truthy x).
    rewrite Hy2, Hr2. reflexivity. }
  split.
  - cbn [loop]. rewrite (body_table_line r1 [r2] st H1 Hin). cbv zeta.
    rewrite Hc2. reflexivity.
  - cbn [loop]. rewrite (body_table_line r1 [b; r2] st H1 Hin). cbv zeta.
    rewrite Hc3. cbn [length Nat.ltb Nat.leb Nat.sub bind fst snd].
    set (st1 := set_html (close_open_list st) _).
    assert (Hin1 : in_section st1 = false).
    { unfold st1, in_section. cbn [currentSection set_html].
      destruct (close_open_list_section st) as [-> _]. exact Hin. }
    rewrite (body_table_line r2 [] st1 H2 Hin1). cbv zeta.
    rewrite Hc1. cbn [length Nat.ltb Nat.leb bind fst snd loop].
    assert (Hl1 : inList st1 = false).
    { unfold st1, close_open_list. destruct (inList st) eqn:Hl; [reflexivity|].
      exact Hl. }
    rewrite (close_open_list_closed st1 Hl1). unfold st1.
    unfold set_html. cbn [html inList currentListType currentSection
                            sectionItems tocItems].
    rewrite <- !app_assoc. reflexivity.
Qed.

End Buffered.

(** ** Runs of a class of code units *)

Section Runs.
Import RegexFacts.
Variable p : N -> bool.

Lemma star_chr_accept :
  forall (fuel : nat) (s : jsstring) (prev : option N) (c : caps),
    length s <= fuel ->
    star_loop (rmatch (Chr p)) true accept fuel prev s c
    = Some (skip_while p s, c).
Proof.
  induction fuel as [|fuel IH]; intros s prev c Hlen.
  - destruct s; [reflexivity | simpl in Hlen; lia].
  - destruct s as [|x s]; [reflexivity|].
    simpl in Hlen. cbn [star_loop]. cbn [rmatch].
    destruct (p x) eqn:Hx.
    + replace (length s <? length (x :: s)) with true
        by (symmetry; apply Nat.ltb_lt; simpl; lia).
      rewrite IH by lia. simpl. rewrite Hx. reflexivity.
    + simpl. rewrite Hx. reflexivity.
Qed.

Lemma match_here_plus_chr (prev : option N) (s : jsstring) :
  match_here (plus (Chr p)) prev s
  = match s with
    | x :: t => if p x then Some (skip_while p t, []) else None
    | [] => None
    end.
Proof.
  unfold match_here, plus. destruct s as [|x t]; cbn [rmatch]; [reflexivity|].
  destruct (p x); [|reflexivity].
  apply (star_chr_accept (length t) t (Some x) []). lia.
Qed.

Lemma skip_while_length (s : jsstring) : length (skip_while p s) <= length s.
Proof.
  induction s as [|x s IH]; simpl; [lia|].
  destruct (p x); simpl; lia.
Qed.

Lemma scan_squeeze (w : jsstring) :
  forall (s : jsstring) (prev : option N),
    emit (fun _ => w) (scan (plus (Chr p)) prev s 0 []) = squeeze p w false s
    /\ emit (fun _ => w)
         (scan (plus (Chr p)) prev s
            (length s - length (skip_while p s)) [])
       = squeeze p w true s.
Proof.
  induction s as [|x t IH]; intros prev.
  - split; reflexivity.
  - assert (H1 : emit (fun _ => w) (scan (plus (Chr p)) prev (x :: t) 0 [])
                 = squeeze p w false (x :: t)).
    { rewrite scan_cons, match_here_plus_chr. cbn [squeeze].
      destruct (p x) eqn:Hx.
      - cbv zeta. pose proof (skip_while_length t) as Hlen.
        replace (length (x :: t) - length (skip_while p t))
          with (S (length t - length (skip_while p t)))
          by (cbn [length]; lia).
        rewrite emit_cons, <- surjective_pairing.
        rewrite (proj2 (IH (Some x))). reflexivity.
      - rewrite scan_acc. rewrite (proj1 (IH (Some x))). reflexivity. }
    split; [exact H1|].
    cbn [skip_while squeeze]. destruct (p x) eqn:Hx.
    + pose proof (skip_while_length t) as Hlen.
      replace (length (x :: t) - length (skip_while p t))
        with (S (length t - length (skip_while p t)))
        by (cbn [length]; lia).
      rewrite scan_jump. exact (proj2 (IH (Some x))).
    + rewrite Nat.sub_diag. rewrite H1. cbn [squeeze]. rewrite Hx.
      reflexivity.
Qed.

Lemma replace_all_squeeze (w s : jsstring) :
  replace_all (plus (Chr p)) (fun _ => w) s = squeeze p w false s.
Proof. rewrite replace_all_emit. exact (proj1 (scan_squeeze w s None)). Qed.

Lemma squeeze_forallb (q : N -> bool) (w : jsstring) :
  forallb q w = true ->
  forall s b,
    forallb (fun c => p c || q c) s = true ->
    forallb q (squeeze p w b s) = true.
Proof.
  intros Hw. induction s as [|x t IH]; intros b Hs; [reflexivity|].
  cbn [forallb] in Hs. apply andb_prop in Hs as [Hx Ht].
  cbn [squeeze]. destruct (p x) eqn:Hpx.
  - destruct b; [apply IH; exact Ht|].
    rewrite forallb_app, Hw. apply IH. exact Ht.
  - cbn [orb] in Hx. cbn [forallb]. rewrite Hx. apply IH. exact Ht.
Qed.

Lemma squeeze_head (w : jsstring) (s : jsstring) :
  head_ok p (squeeze p w true s) = true.
Proof.
  induction s as [|x t IH]; [reflexivity|].
  cbn [squeeze]. destruct (p x) eqn:Hx; [exact IH|].
  cbn [head_ok]. rewrite Hx. reflexivity.
Qed.

Lemma sparse_cons (x : N) (s : jsstring) :
  sparse p s = true -> (p x = true -> head_ok p s = true) ->
  sparse p (x :: s) = true.
Proof.
  intros Hs Hx. cbn [sparse]. rewrite Hs, andb_true_r.
  destruct s as [|y t]; [reflexivity|].
  destruct (p x); [|reflexivity]. cbn [head_ok] in Hx.
  specialize (Hx eq_refl). apply negb_true_iff in Hx. rewrite Hx. reflexivity.
Qed.

Lemma squeeze_sparse (h : N) :
  p h = true ->
  forall s b, sparse p (squeeze p [h] b s) = true.
Proof.
  intros Hh. induction s as [|x t IH]; intros b; [reflexivity|].
  cbn [squeeze]. destruct (p x) eqn:Hx.
  - destruct b; [apply IH|]. cbn [app]. apply sparse_cons; [apply IH|].
    intros _. apply squeeze_head.
  - apply sparse_cons; [apply IH|]. congruence.
Qed.

Lemma sparse_tail (x : N) (s : jsstring) :
  sparse p (x :: s) = true -> sparse p s = true.
Proof. cbn [sparse]. intros H. apply andb_prop in H. apply H. Qed.

Lemma sparse_head (x : N) (s : jsstring) :
  sparse p (x :: s) = true -> p x = true -> head_ok p s = true.
Proof.
  cbn [sparse]. intros H Hx. apply andb_prop in H as [H _].
  destruct s as [|y t]; [reflexivity|]. rewrite Hx in H. cbn [andb] in H.
  exact H.
Qed.

Lemma skip_while_head_ok (s : jsstring) :
  head_ok p s = true -> skip_while p s = s.
Proof.
  destruct s as [|x t]; [reflexivity|]. cbn [head_ok skip_while].
  intros H. apply negb_true_iff in H. rewrite H. reflexivity.
Qed.

Lemma chop_cons (x : N) (t : jsstring) :
  t <> [] \/ p x = false -> chop p (x :: t) = x :: chop p t.
Proof.
  intros H. destruct t as [|y t']; [|reflexivity].
  destruct H as [H|H]; [congruence|]. cbn [chop]. rewrite H. reflexivity.
Qed.

Lemma chop_last_ok (s : jsstring) :
  sparse p s = true -> last_ok p (chop p s) = true.
Proof.
  induction s as [|x t IH]; intros Hs; [reflexivity|].
  destruct t as [|y t'].
  - cbn [chop]. destruct (p x) eqn:Hx; [reflexivity|].
    cbn [last_ok]. rewrite Hx. reflexivity.
  - change (chop p (x :: y :: t')) with (x :: chop p (y :: t')).
    pose proof (IH (sparse_tail x _ Hs)) as IH'.
    destruct (chop p (y :: t')) as [|z r] eqn:Hc; [|exact IH'].
    cbn [last_ok]. destruct (p x) eqn:Hx; [|reflexivity]. exfalso.
    pose proof (sparse_head x _ Hs Hx) as Hy. cbn [head_ok] in Hy.
    apply negb_true_iff in Hy.
    destruct t' as [|z t'']; [|discriminate].
    cbn [chop] in Hc. rewrite Hy in Hc. discriminate.
Qed.

Lemma chop_head_ok (s : jsstring) :
  head_ok p s = true -> head_ok p (chop p s) = true.
Proof.
  destruct s as [|x [|y t]]; [reflexivity| |].
  - cbn [chop]. intros _. destruct (p x) eqn:Hx; [reflexivity|].
    cbn [head_ok]. rewrite Hx. reflexivity.
  - intros H. exact H.
Qed.

Lemma chop_sparse (s : jsstring) :
  sparse p s = true -> sparse p (chop p s) = true.
Proof.
  induction s as [|x t IH]; intros Hs; [reflexivity|].
  destruct t as [|y t'].
  - cbn [chop]. destruct (p x); reflexivity.
  - change (chop p (x :: y :: t')) with (x :: chop p (y :: t')).
    apply sparse_cons; [apply IH; exact (sparse_tail x _ Hs)|].
    intros Hx. apply chop_head_ok. exact (sparse_head x _ Hs Hx).
Qed.

Lemma chop_forallb (q : N -> bool) (s : jsstring) :
  forallb q s = true -> forallb q (chop p s) = true.
Proof.
  induction s as [|x t IH]; intros Hs; [reflexivity|].
  cbn [forallb] in Hs. apply andb_prop in Hs as [Hx Ht].
  destruct t as [|y t'].
  - cbn [chop]. destruct (p x); [reflexivity|]. cbn [forallb]. rewrite Hx.
    reflexivity.
  - change (chop p (x :: y :: t')) with (x :: chop p (y :: t')).
    cbn [forallb]. rewrite Hx. apply IH. exact Ht.
Qed.

Lemma chop_length (s : jsstring) : length (chop p s) <= length s.
Proof.
  induction s as [|x t IH]; [simpl; lia|].
  destruct t as [|y t'].
  - cbn [chop]. destruct (p x); simpl; lia.
  - change (chop p (x :: y :: t')) with (x :: chop p (y :: t')).
    cbn [length] in *. lia.
Qed.

Lemma sparse_firstn (n : nat) (s : jsstring) :
  sparse p s = true -> sparse p (firstn n s) = true.
Proof.
  revert n. induction s as [|x t IH]; intros n Hs; destruct n; try reflexivity.
  cbn [firstn]. apply sparse_cons; [apply IH; exact (sparse_tail x _ Hs)|].
  intros Hx. pose proof (sparse_head x _ Hs Hx) as Hh.
  destruct t as [|y t']; destruct n; try reflexivity. exact Hh.
Qed.

Lemma head_ok_firstn (n : nat) (s : jsstring) :
  head_ok p s = true -> head_ok p (firstn n s) = true.
Proof. destruct s, n; auto. Qed.

End Runs.

(** ** The ids of the Express server *)

Section ServerId.
Context {CM : CaseMap}.
Import RegexFacts.

Lemma strip_keeps (keep : N -> bool) :
  forall (s : jsstring) (prev : option N) (skip : nat) (acc : jsstring),
    forallb keep acc = true ->
    forallb keep
      (emit (fun _ => []) (scan (Chr (fun c => negb (keep c))) prev s skip acc))
    = true.
Proof.
  induction s as [|x s IH]; intros prev skip acc Hacc.
  - destruct skip.
    + rewrite scan_nil. unfold match_here. cbn [rmatch]. unfold emit. simpl.
      rewrite ?app_nil_r, forallb_rev. exact Hacc.
    + unfold emit. simpl. rewrite forallb_rev. exact Hacc.
  - destruct skip as [|n]; [|rewrite scan_jump; apply IH; exact Hacc].
    rewrite scan_cons. unfold match_here. cbn [rmatch].
    destruct (keep x) eqn:Hx; cbn [negb].
    + apply IH. simpl. rewrite Hx. exact Hacc.
    + cbv zeta.
      replace (length (x :: s) - length s) with 1 by (cbn [length]; lia).
      rewrite emit_cons, <- surjective_pairing.
      rewrite forallb_app, forallb_rev, Hacc. cbn [app andb].
      apply IH. reflexivity.
Qed.

(** The pattern [^-+|-+$] at the start of a text without two hyphens side
    by side. *)
Lemma match_here_ends_start (s : jsstring) :
  sparse is_hyphen s = true ->
  match_here hyphen_ends None s
  = match s with
    | x :: t => if is_hyphen x then Some (t, []) else None
    | [] => None
    end.
Proof.
  intros Hs. unfold match_here, hyphen_ends. cbn [rmatch].
  change (rmatch (plus hyphen) None s []
            (fun (_ : option N) (s' : jsstring) (c' : caps) => Some (s', c')))
    with (match_here (plus hyphen) None s).
  unfold hyphen at 1. rewrite match_here_plus_chr.
  destruct s as [|x t]; [reflexivity|].
  destruct (is_hyphen x) eqn:Hx.
  - rewrite (skip_while_head_ok _ t (sparse_head is_hyphen x t Hs Hx)).
    reflexivity.
  - unfold plus, hyphen. cbn [rmatch]. rewrite Hx. reflexivity.
Qed.

(** The same pattern after the start: a hyphen that hyphen_ends the text. *)
Lemma match_here_ends_later (c : N) (s : jsstring) :
  sparse is_hyphen s = true ->
  match_here hyphen_ends (Some c) s
  = match s with
    | [x] => if is_hyphen x then Some ([], []) else None
    | _ => None
    end.
Proof.
  intros Hs. unfold match_here, hyphen_ends, plus, hyphen. cbn [rmatch].
  destruct s as [|x [|y t]]; [reflexivity| |].
  - destruct (is_hyphen x); reflexivity.
  - destruct (is_hyphen x) eqn:Hx; [|reflexivity].
    pose proof (sparse_head is_hyphen x _ Hs Hx) as Hy. cbn [head_ok] in Hy.
    apply negb_true_iff in Hy. cbn [length star_loop rmatch].
    rewrite Hy. reflexivity.
Qed.

Lemma scan_ends_later :
  forall (s : jsstring) (c : N) (acc : jsstring),
    sparse is_hyphen s = true ->
    emit (fun _ => []) (scan hyphen_ends (Some c) s 0 acc)
    = rev acc ++ chop is_hyphen s.
Proof.
  induction s as [|x t IH]; intros c acc Hs.
  - rewrite scan_nil, (match_here_ends_later c [] Hs). unfold emit. simpl.
    rewrite app_nil_r. reflexivity.
  - rewrite scan_cons, (match_here_ends_later c (x :: t) Hs).
    destruct t as [|y t'].
    + cbn [chop]. destruct (is_hyphen x).
      * cbv zeta. cbn [length Nat.sub].
        rewrite emit_cons, <- surjective_pairing.
        rewrite (IH x [] eq_refl). reflexivity.
      * rewrite (IH x (x :: acc) eq_refl). simpl.
        rewrite <- app_assoc. reflexivity.
    + rewrite (IH x (x :: acc) (sparse_tail is_hyphen x _ Hs)).
      change (chop is_hyphen (x :: y :: t'))
        with (x :: chop is_hyphen (y :: t')).
      simpl. rewrite <- app_assoc. reflexivity.
Qed.

Lemma replace_all_ends (s : jsstring) :
  sparse is_hyphen s = true ->
  replace_all hyphen_ends (fun _ => []) s
  = match s with
    | x :: t => if is_hyphen x then chop is_hyphen t else chop is_hyphen s
    | [] => []
    end.
Proof.
  intros Hs. rewrite replace_all_emit.
  destruct s as [|x t]; [reflexivity|].
  rewrite scan_cons, (match_here_ends_start (x :: t) Hs).
  destruct (is_hyphen x) eqn:Hx.
  - cbv zeta.
    replace (length (x :: t) - length t) with 1 by (cbn [length]; lia).
    rewrite emit_cons, <- surjective_pairing.
    rewrite (scan_ends_later t x [] (sparse_tail is_hyphen x t Hs)).
    reflexivity.
  - rewrite (scan_ends_later t x [x] (sparse_tail is_hyphen x t Hs)).
    rewrite (chop_cons is_hyphen x t (or_intror Hx)). reflexivity.
Qed.

(** The pattern [-$] without the [g] flag removes a hyphen that hyphen_ends the
    text. *)
Lemma search_final_hyphen :
  forall (s : jsstring) (prev : option N) (acc : jsstring),
    match search (Seq hyphen Eol) prev s acc with
    | Some (pre, m, post) => pre ++ post
    | None => rev acc ++ s
    end = rev acc ++ chop is_hyphen s.
Proof.
  induction s as [|x t IH]; intros prev acc.
  - reflexivity.
  - cbn [search]. unfold match_here, hyphen. cbn [rmatch].
    destruct t as [|y t'].
    + cbn [chop]. destruct (is_hyphen x).
      * rewrite app_nil_r. reflexivity.
      * reflexivity.
    + change (chop is_hyphen (x :: y :: t'))
        with (x :: chop is_hyphen (y :: t')).
      assert (Hnone : (if is_hyphen x then @None (jsstring * caps) else None)
                      = None) by (destruct (is_hyphen x); reflexivity).
      rewrite Hnone. specialize (IH (Some x) (x :: acc)).
      fold hyphen.
      destruct (search (Seq hyphen Eol) (Some x) (y :: t') (x :: acc))
        as [[[pre m] post]|]; cbn [rev] in IH;
        rewrite <- !app_assoc in IH; exact IH.
Qed.

Lemma replace_first_final_hyphen (s : jsstring) :
  replace_first (Seq hyphen Eol) (fun _ => []) s = chop is_hyphen s.
Proof.
  unfold replace_first. pose proof (search_final_hyphen s None []) as H.
  destruct (search (Seq hyphen Eol) None s []) as [[[pre m] post]|]; exact H.
Qed.

Lemma head_ok_startsWith (s : jsstring) :
  head_ok is_hyphen s = true -> startsWith s (js "-") = false.
Proof.
  destruct s as [|x t]; [reflexivity|]. cbn [head_ok].
  intros H. apply negb_true_iff in H. change (js "-") with [ch "-"].
  cbn [startsWith]. unfold is_hyphen in H. rewrite H. reflexivity.
Qed.

Lemma last_ok_rev (s : jsstring) :
  last_ok is_hyphen s = true -> head_ok is_hyphen (rev s) = true.
Proof.
  induction s as [|x t IH]; [reflexivity|].
  destruct t as [|y t'].
  - intros H. exact H.
  - intros H. change (last_ok is_hyphen (x :: y :: t'))
      with (last_ok is_hyphen (y :: t')) in H.
    specialize (IH H). cbn [rev] in *.
    destruct (rev t' ++ [y]) as [|z r] eqn:Hr.
    + destruct (rev t'); discriminate.
    + exact IH.
Qed.

Lemma last_ok_endsWith (s : jsstring) :
  last_ok is_hyphen s = true -> endsWith s (js "-") = false.
Proof.
  intros H. unfold endsWith. apply (head_ok_startsWith (rev s)).
  apply last_ok_rev. exact H.
Qed.

Lemma sparse_includes (s : jsstring) :
  sparse is_hyphen s = true -> includes s (js "--") = false.
Proof.
  change (js "--") with [ch "-"; ch "-"].
  induction s as [|x t IH]; intros Hs; [reflexivity|].
  cbn [includes]. rewrite (IH (sparse_tail is_hyphen x t Hs)).
  rewrite orb_false_r. cbn [startsWith].
  destruct t as [|y t']; [apply andb_false_r|].
  cbn [sparse] in Hs. apply andb_prop in Hs as [Hxy _].
  apply negb_true_iff in Hxy. unfold is_hyphen in Hxy.
  rewrite startsWith_one.
  destruct (N.eqb (ch "-") x); [|reflexivity].
  cbn [andb] in *. exact Hxy.
Qed.

(** X16: an id made by the generator of the Express server consists of
    [\w] and hyphens only, has at most fifty code units, neither starts nor
    ends with a hyphen and holds no two hyphens side by side. *)
Theorem server_generateId_clean (text : jsstring) :
  forallb id_char (Server.generateId text) = true
  /\ length (Server.generateId text) <= 50
  /\ startsWith (Server.generateId text) (js "-") = false
  /\ endsWith (Server.generateId text) (js "-") = false
  /\ includes (Server.generateId text) (js "--") = false.
Proof.
  unfold Server.generateId. cbv zeta.
  set (s1 := replace_all _ _ (trim (toLowerCase text))).
  assert (H1 : forallb (fun c => is_word c || is_space c || N.eqb c (ch "-"))
                 s1 = true).
  { unfold s1. rewrite replace_all_emit.
    exact (strip_keeps (fun c => is_word c || is_space c || N.eqb c (ch "-"))
             _ None 0 [] eq_refl). }
  change (replace_all (plus space) (fun _ => js "-") s1)
    with (replace_all (plus (Chr is_space)) (fun _ => js "-") s1).
  rewrite (replace_all_squeeze is_space).
  set (s2 := squeeze is_space (js "-") false s1).
  assert (H2 : forallb id_char s2 = true).
  { unfold s2. apply squeeze_forallb; [reflexivity|].
    rewrite forallb_forall in *. intros c Hc. specialize (H1 c Hc).
    unfold id_char. destruct (is_space c); [reflexivity|].
    rewrite orb_false_r in H1. exact H1. }
  change (replace_all (plus (c1 "-")) (fun _ => js "-") s2)
    with (replace_all (plus (Chr is_hyphen)) (fun _ => js "-") s2).
  rewrite (replace_all_squeeze is_hyphen).
  set (s3 := squeeze is_hyphen (js "-") false s2).
  assert (H3 : forallb id_char s3 = true /\ sparse is_hyphen s3 = true).
  { split.
    - unfold s3. apply squeeze_forallb; [reflexivity|].
      rewrite forallb_forall in *. intros c Hc. rewrite (H2 c Hc).
      apply orb_true_r.
    - exact (squeeze_sparse is_hyphen (ch "-") eq_refl s2 false). }
  destruct H3 as [H3 Hsp3].
  change (Alt (Seq Bol (plus (c1 "-"))) (Seq (plus (c1 "-")) Eol)) with hyphen_ends.
  rewrite (replace_all_ends s3 Hsp3).
  set (s4 := match s3 with
             | x :: t => if is_hyphen x then chop is_hyphen t
                         else chop is_hyphen s3
             | [] => []
             end).
  assert (H4 : forallb id_char s4 = true /\ sparse is_hyphen s4 = true
               /\ head_ok is_hyphen s4 = true).
  { unfold s4. destruct s3 as [|x t]; [repeat split|].
    destruct (is_hyphen x) eqn:Hx.
    - cbn [forallb] in H3. apply andb_prop in H3 as [_ H3].
      split; [exact (chop_forallb is_hyphen id_char t H3)|].
      split; [exact (chop_sparse is_hyphen t (sparse_tail _ x t Hsp3))|].
      apply chop_head_ok. exact (sparse_head is_hyphen x t Hsp3 Hx).
    - split; [exact (chop_forallb is_hyphen id_char _ H3)|].
      split; [exact (chop_sparse is_hyphen _ Hsp3)|].
      apply chop_head_ok. cbn [head_ok]. rewrite Hx. reflexivity. }
  destruct H4 as [H4 [Hsp4 Hh4]].
  change (Seq (c1 "-") Eol) with (Seq hyphen Eol).
  rewrite replace_first_final_hyphen. unfold substring0.
  pose proof (sparse_firstn is_hyphen 50 s4 Hsp4) as Hsp5.
  pose proof (head_ok_firstn is_hyphen 50 s4 Hh4) as Hh5.
  pose proof (forallb_firstn id_char 50 s4 H4) as H5.
  split; [exact (chop_forallb is_hyphen id_char _ H5)|].
  split.
  { pose proof (chop_length is_hyphen (firstn 50 s4)).
    pose proof (firstn_le_length 50 s4).
    change (length (chop is_hyphen (firstn 50 s4)) <= 50). lia. }
  split; [apply head_ok_startsWith, chop_head_ok; exact Hh5|].
  split; [apply last_ok_endsWith, chop_last_ok; exact Hsp5|].
  apply sparse_includes, chop_sparse. exact Hsp5.
Qed.

End ServerId.

(** ** Replacing a literal text *)

Section Literal.
Import RegexFacts.
Variables (r : regex) (pat repl : jsstring) (a : N) (pt : jsstring).
Hypothesis Hlit : literal r pat.
Hypothesis Hpat : pat = a :: pt.

Lemma scan_subst_lit :
  forall (s : jsstring) (prev : option N) (k : nat) (acc : jsstring),
    emit (fun _ => repl) (scan r prev s k acc)
    = rev acc ++ subst_lit pat repl s k.
Proof.
  induction s as [|x t IH]; intros prev k acc.
  - destruct k.
    + rewrite scan_nil, Hlit, Hpat. unfold emit. simpl.
      rewrite !app_nil_r. reflexivity.
    + unfold emit. simpl. rewrite !app_nil_r. reflexivity.
  - destruct k as [|n]; [|rewrite scan_jump; apply IH].
    rewrite scan_cons, Hlit. cbn [subst_lit].
    destruct (startsWith (x :: t) pat) eqn:Hs.
    + cbv zeta. pose proof (startsWith_length _ _ Hs) as Hlen.
      rewrite length_skipn.
      replace (length (x :: t) - (length (x :: t) - length pat))
        with (S (length pat - 1)) by (rewrite Hpat in *; cbn [length] in *; lia).
      rewrite emit_cons, <- surjective_pairing, IH. reflexivity.
    + rewrite IH. simpl. rewrite <- app_assoc. reflexivity.
Qed.

Lemma replace_all_subst_lit (s : jsstring) :
  replace_all r (fun _ => repl) s = subst_lit pat repl s 0.
Proof. rewrite replace_all_emit. exact (scan_subst_lit s None 0 []). Qed.

Lemma subst_lit_fixed (s : jsstring) :
  includes s pat = false -> subst_lit pat repl s 0 = s.
Proof.
  induction s as [|x t IH]; intros H; [reflexivity|].
  cbn [includes] in H. apply orb_false_iff in H as [Hs Ht].
  cbn [subst_lit]. rewrite Hs, (IH Ht). reflexivity.
Qed.

(** The replacement starts as the pattern does, with a code unit that the
    text [p] does not hold: where the result starts with [p], so did the
    text. *)
Hypothesis Hrepl : exists rt, repl = a :: rt.

Lemma subst_lit_prefix (p : jsstring) :
  forallb (fun c => negb (N.eqb c a)) p = true ->
  forall t,
    startsWith (subst_lit pat repl t 0) p = true -> startsWith t p = true.
Proof.
  induction p as [|c p IH]; intros Hp t H; [destruct t; reflexivity|].
  cbn [forallb] in Hp. apply andb_prop in Hp as [Hc Hp].
  apply negb_true_iff in Hc.
  destruct t as [|y t]; [discriminate|].
  cbn [subst_lit] in H. destruct (startsWith (y :: t) pat).
  - destruct Hrepl as [rt ->]. cbn [app startsWith] in H.
    rewrite Hc in H. discriminate.
  - cbn [startsWith] in *. apply andb_prop in H as [Hy H].
    rewrite Hy. exact (IH Hp t H).
Qed.

(** A text [q] that occurs nowhere in the input occurs nowhere in the
    result, when the replacement brings no occurrence. *)
Lemma subst_lit_absent (b : N) (qt : jsstring) :
  forallb (fun c => negb (N.eqb c a)) qt = true ->
  (forall w, includes (repl ++ w) (b :: qt) = includes w (b :: qt)) ->
  forall s k,
    includes s (b :: qt) = false ->
    includes (subst_lit pat repl s k) (b :: qt) = false.
Proof.
  intros Hqt Hw. induction s as [|x t IH]; intros k H; [reflexivity|].
  cbn [includes] in H. apply orb_false_iff in H as [Hs Ht].
  destruct k as [|n]; [|exact (IH n Ht)].
  cbn [subst_lit]. destruct (startsWith (x :: t) pat).
  - rewrite Hw. exact (IH _ Ht).
  - cbn [includes]. rewrite (IH 0 Ht), orb_false_r.
    cbn [startsWith] in *. destruct (N.eqb b x); [|reflexivity].
    cbn [andb] in *.
    destruct (startsWith (subst_lit pat repl t 0) qt) eqn:Hp; [|reflexivity].
    rewrite (subst_lit_prefix qt Hqt t Hp) in Hs. discriminate.
Qed.

(** The pattern occurs nowhere in the result. *)
Lemma subst_lit_gone :
  forallb (fun c => negb (N.eqb c a)) pt = true ->
  (forall w, includes (repl ++ w) pat = includes w pat) ->
  forall s k, includes (subst_lit pat repl s k) pat = false.
Proof.
  clear Hlit. intros Hpt Hw. induction s as [|x t IH]; intros k.
  - rewrite Hpat. reflexivity.
  - destruct k as [|n]; [|exact (IH n)].
    cbn [subst_lit]. destruct (startsWith (x :: t) pat) eqn:Hs.
    + rewrite Hw. exact (IH _).
    + cbn [includes]. rewrite (IH 0), orb_false_r.
      pose proof (subst_lit_prefix pt Hpt t) as Hpre.
      rewrite Hpat in *. cbn [startsWith] in *.
      destruct (N.eqb a x); [|reflexivity]. cbn [andb] in *.
      destruct (startsWith (subst_lit (a :: pt) repl t 0) pt) eqn:Hp;
        [|reflexivity].
      rewrite (Hpre eq_refl) in Hs. discriminate.
Qed.

End Literal.

(** ** optimizeHTMLForSpaceO *)

Section Optimize.
Import RegexFacts.

Lemma literal_ul : literal (lit "<ul>") (js "<ul>").
Proof.
  intros prev s. unfold match_here, lit, seqs. simpl map. cbn [seqs].
  destruct s as [|a [|b [|c [|d t]]]]; cbn [rmatch c1];
    change (js "<ul>") with [ch "<"; ch "u"; ch "l"; ch ">"];
    cbn [startsWith length skipn];
    repeat match goal with
           | |- context [N.eqb ?u ?v] => destruct (N.eqb u v)
           end; try reflexivity; destruct t; reflexivity.
Qed.

Lemma literal_ol : literal (lit "<ol>") (js "<ol>").
Proof.
  intros prev s. unfold match_here, lit, seqs. simpl map. cbn [seqs].
  destruct s as [|a [|b [|c [|d t]]]]; cbn [rmatch c1];
    change (js "<ol>") with [ch "<"; ch "o"; ch "l"; ch ">"];
    cbn [startsWith length skipn];
    repeat match goal with
           | |- context [N.eqb ?u ?v] => destruct (N.eqb u v)
           end; try reflexivity; destruct t; reflexivity.
Qed.

(** X17: [optimizeHTMLForSpaceO] is idempotent: the tags it writes hold no
    [<ul>] and no [<ol>], so a second pass finds nothing to replace. *)
Theorem optimizeHTMLForSpaceO_idempotent (html : jsstring) :
  DocumentParser.optimizeHTMLForSpaceO (DocumentParser.optimizeHTMLForSpaceO html)
  = DocumentParser.optimizeHTMLForSpaceO html.
Proof.
  unfold DocumentParser.optimizeHTMLForSpaceO.
  set (ul' := js "<ul class=~bullet-new-box~>").
  set (ol' := js "<ol class=~listing-bx~>").
  rewrite !(replace_all_subst_lit (lit "<ul>") (js "<ul>") ul' (ch "<")
              (js "ul>") literal_ul eq_refl).
  rewrite !(replace_all_subst_lit (lit "<ol>") (js "<ol>") ol' (ch "<")
              (js "ol>") literal_ol eq_refl).
  set (u := subst_lit (js "<ul>") ul' html 0).
  set (o := subst_lit (js "<ol>") ol' u 0).
  assert (Hu : includes u (js "<ul>") = false).
  { apply (subst_lit_gone (js "<ul>") ul' (ch "<") (js "ul>") eq_refl).
    - eexists. reflexivity.
    - reflexivity.
    - intros w. reflexivity. }
  assert (Hou : includes o (js "<ul>") = false).
  { apply (subst_lit_absent (js "<ol>") ol' (ch "<")
             ltac:(eexists; reflexivity) (ch "<") (js "ul>")).
    - reflexivity.
    - intros w. reflexivity.
    - exact Hu. }
  assert (Hoo : includes o (js "<ol>") = false).
  { apply (subst_lit_gone (js "<ol>") ol' (ch "<") (js "ol>") eq_refl).
    - eexists. reflexivity.
    - reflexivity.
    - intros w. reflexivity. }
  rewrite (subst_lit_fixed (js "<ul>") ul' o Hou).
  exact (subst_lit_fixed (js "<ol>") ol' o Hoo).
Qed.

End Optimize.

(** ** The structure of a text *)

Section TextStructure.
Context {CM : CaseMap}.
Import DocumentParser Behaviour.

Lemma getHeadingLevel_bounds (line : jsstring) :
  2 <= getHeadingLevel line <= 4.
Proof.
  assert (Hw : forall words, 2 <= level_by_words words <= 4).
  { intros words. unfold level_by_words.
    destruct (length words <=? 3); [lia|].
    destruct (length words <=? 6); lia. }
  unfold getHeadingLevel. cbv zeta.
  repeat match goal with
         | |- _ <= (if ?b then _ else _) <= _ => destruct b
         end;
    try apply Hw; lia.
Qed.

Lemma item_count_app (a b : list list_block) :
  item_count (a ++ b) = item_count a + item_count b.
Proof. unfold item_count. rewrite map_app, list_sum_app. reflexivity. Qed.

Lemma extend_found_count (i : nat) (t : list_type) (item : jsstring) :
  forall ls found,
    find (near_list i t) ls = Some found ->
    item_count (extend_found i t item ls) = S (item_count ls).
Proof.
  induction ls as [|l ls IH]; intros found H; [discriminate|].
  cbn [find] in H. cbn [extend_found].
  destruct (near_list i t l).
  - unfold item_count. cbn [map list_sum fold_right lists_items].
    rewrite length_app. cbn [length]. lia.
  - unfold item_count in *. cbn [map list_sum fold_right].
    change (fold_right Nat.add 0) with list_sum.
    rewrite (IH found H). lia.
Qed.

Lemma add_list_item_count (i : nat) (line : jsstring) (ls : list list_block) :
  item_count (add_list_item i line ls) = S (item_count ls).
Proof.
  unfold add_list_item.
  destruct (find _ ls) eqn:Hf.
  - eapply extend_found_count. exact Hf.
  - rewrite item_count_app. unfold item_count at 2.
    cbn. lia.
Qed.

Lemma analyze_line_accounted (i : nat) (raw : jsstring)
  (acc : structure * option jsstring) :
  accounted (fst (analyze_line i raw acc))
  = (if truthy (trim raw) then 1 else 0) + accounted (fst acc).
Proof.
  destruct acc as [s c]. unfold analyze_line.
  destruct (truthy (trim raw)); cbn [negb]; [|reflexivity].
  destruct (isHeading (trim raw)).
  - unfold accounted. cbn [fst headings lists paragraphs].
    rewrite length_app. cbn [length]. lia.
  - destruct (isListItem (trim raw)).
    + unfold accounted. cbn [fst headings lists paragraphs].
      rewrite add_list_item_count. lia.
    + unfold accounted. cbn [fst headings lists paragraphs].
      rewrite length_app. cbn [length]. lia.
Qed.

Lemma analyze_lines_accounted :
  forall lines i acc,
    accounted (fst (analyze_lines lines i acc))
    = length (filter (fun line => truthy (trim line)) lines)
      + accounted (fst acc).
Proof.
  induction lines as [|raw lines IH]; intros i acc; [reflexivity|].
  cbn [analyze_lines filter]. rewrite IH, analyze_line_accounted.
  destruct (truthy (trim raw)); cbn [length]; lia.
Qed.

Lemma analyze_line_tables (i : nat) (raw : jsstring)
  (acc : structure * option jsstring) :
  tables (fst (analyze_line i raw acc)) = tables (fst acc)
  /\ sections (fst (analyze_line i raw acc)) = sections (fst acc).
Proof.
  destruct acc as [s c]. unfold analyze_line.
  destruct (truthy (trim raw)); cbn [negb]; [|auto].
  destruct (isHeading (trim raw)); [auto|].
  destruct (isListItem (trim raw)); auto.
Qed.

Lemma analyze_lines_tables :
  forall lines i acc,
    tables (fst (analyze_lines lines i acc)) = tables (fst acc)
    /\ sections (fst (analyze_lines lines i acc)) = sections (fst acc).
Proof.
  induction lines as [|raw lines IH]; intros i acc; [auto|].
  cbn [analyze_lines].
  destruct (IH (S i) (analyze_line i raw acc)) as [-> ->].
  apply analyze_line_tables.
Qed.

Lemma filter_idem (A : Type) (p : A -> bool) (l : list A) :
  filter p (filter p l) = filter p l.
Proof.
  induction l as [|x l IH]; [reflexivity|].
  cbn [filter]. destruct (p x) eqn:Hx; [|exact IH].
  cbn [filter]. rewrite Hx, IH. reflexivity.
Qed.

(** X18: [analyzeTextStructure] accounts for every non-blank line exactly
    once: the headings, the items of all lists and the paragraphs of the
    structure together are as many as the lines of the content that are not
    blank.  It reports no table and no section. *)
Theorem analyzeTextStructure_accounts (content : jsstring) :
  let s := analyzeTextStructure content in
  length (headings s) + item_count (lists s) + length (paragraphs s)
  = length (filter (fun line => truthy (trim line)) (split nl content))
  /\ tables s = [] /\ sections s = [].
Proof.
  cbv zeta. unfold analyzeTextStructure. split.
  - pose proof (analyze_lines_accounted
                  (filter (fun line => truthy (trim line)) (split nl content))
                  0 ({| headings := []; paragraphs := []; lists := [];
                        tables := []; sections := [] |}, None)) as H.
    unfold accounted in H at 1. rewrite H, filter_idem.
    unfold accounted, item_count. cbn. lia.
  - apply (analyze_lines_tables _ 0
             ({| headings := []; paragraphs := []; lists := [];
                 tables := []; sections := [] |}, None)).
Qed.

(** *** The lists *)

Lemma list_within_next (i : nat) (l : list_block) :
  list_within i l -> list_within (S i) l.
Proof. unfold list_within. intros H. repeat split; lia. Qed.

Lemma extend_found_within (i : nat) (t : list_type) (item : jsstring) :
  forall ls,
    Forall (list_within i) ls ->
    Forall (list_within (S i)) (extend_found i t item ls).
Proof.
  induction ls as [|l ls IH]; intros H; [constructor|].
  inversion H as [|? ? Hl Hls]; subst. cbn [extend_found].
  destruct (near_list i t l) eqn:Hn.
  - constructor.
    + unfold near_list in Hn. apply andb_true_iff in Hn as [Hn _].
      apply Nat.ltb_lt in Hn. unfold abs_diff in Hn.
      unfold list_within in *.
      cbn [lists_items lists_startLine lists_endLine].
      rewrite length_app. cbn [length].
      destruct (lists_startLine l <=? i) eqn:Hle;
        [apply Nat.leb_le in Hle|apply Nat.leb_gt in Hle];
        repeat split; lia.
    + eapply Forall_impl; [|exact Hls]. apply list_within_next.
  - constructor; [apply list_within_next; exact Hl|apply IH; exact Hls].
Qed.

Lemma add_list_item_within (i : nat) (line : jsstring) (ls : list list_block) :
  Forall (list_within i) ls ->
  Forall (list_within (S i)) (add_list_item i line ls).
Proof.
  intros H. unfold add_list_item.
  destruct (find _ ls).
  - apply extend_found_within. exact H.
  - apply Forall_app. split.
    + eapply Forall_impl; [|exact H]. apply list_within_next.
    + constructor; [|constructor].
      unfold list_within. cbn. repeat split; lia.
Qed.

Lemma analyze_line_within (i : nat) (raw : jsstring)
  (acc : structure * option jsstring) :
  Forall (list_within i) (lists (fst acc)) ->
  Forall (list_within (S i)) (lists (fst (analyze_line i raw acc))).
Proof.
  intros H. destruct acc as [s c]. unfold analyze_line.
  assert (Hn : Forall (list_within (S i)) (lists s)).
  { eapply Forall_impl; [|exact H]. apply list_within_next. }
  destruct (truthy (trim raw)); cbn [negb]; [|exact Hn].
  destruct (isHeading (trim raw)); [exact Hn|].
  destruct (isListItem (trim raw)); [|exact Hn].
  cbn [fst lists]. apply add_list_item_within. exact H.
Qed.

Lemma analyze_lines_within :
  forall lines i acc,
    Forall (list_within i) (lists (fst acc)) ->
    Forall (list_within (i + length lines))
      (lists (fst (analyze_lines lines i acc))).
Proof.
  induction lines as [|raw lines IH]; intros i acc H.
  - cbn [analyze_lines length]. rewrite Nat.add_0_r. exact H.
  - cbn [analyze_lines length].
    replace (i + S (length lines)) with (S i + length lines) by lia.
    apply IH. apply analyze_line_within. exact H.
Qed.

(** X19: every list of the structure of [analyzeTextStructure] holds
    between one and five items and spans fewer than five lines: a line
    joins the first list of its type that started fewer than five lines
    before it, so the sixth line of a run of list items starts a new list. *)
Theorem analyzeTextStructure_lists (content : jsstring) :
  Forall (fun list =>
            1 <= length (lists_items list) <= 5
            /\ lists_startLine list <= lists_endLine list
            /\ lists_endLine list < lists_startLine list + 5)
    (lists (analyzeTextStructure content)).
Proof.
  unfold analyzeTextStructure.
  eapply Forall_impl;
    [|apply analyze_lines_within; constructor].
  intros l (H1 & H2 & H3 & H4 & H5). cbv beta. lia.
Qed.

(** *** The score *)

Lemma analyze_line_levels (i : nat) (raw : jsstring)
  (acc : structure * option jsstring) :
  Forall (fun h => 2 <= headings_level h <= 4) (headings (fst acc)) ->
  Forall (fun h => 2 <= headings_level h <= 4)
    (headings (fst (analyze_line i raw acc))).
Proof.
  intros H. destruct acc as [s c]. unfold analyze_line.
  destruct (truthy (trim raw)); cbn [negb]; [|exact H].
  destruct (isHeading (trim raw)).
  - cbn [fst headings]. apply Forall_app. split; [exact H|].
    constructor; [|constructor]. apply getHeadingLevel_bounds.
  - destruct (isListItem (trim raw)); exact H.
Qed.

Lemma analyze_lines_levels :
  forall lines i acc,
    Forall (fun h => 2 <= headings_level h <= 4) (headings (fst acc)) ->
    Forall (fun h => 2 <= headings_level h <= 4)
      (headings (fst (analyze_lines lines i acc))).
Proof.
  induction lines as [|raw lines IH]; intros i acc H; [exact H|].
  cbn [analyze_lines]. apply IH. apply analyze_line_levels. exact H.
Qed.

Lemma no_level_one (hs : list heading) :
  Forall (fun h => 2 <= headings_level h <= 4) hs ->
  existsb (fun h => headings_level h =? 1) hs = false.
Proof.
  induction 1 as [|h hs Hh _ IH]; [reflexivity|].
  cbn [existsb]. rewrite IH.
  destruct (headings_level h =? 1) eqn:E; [|reflexivity].
  apply Nat.eqb_eq in E. lia.
Qed.

Lemma seo_of_structure (s : structure) :
  Forall (fun h => 2 <= headings_level h <= 4) (headings s) ->
  AIDocumentParser.calculateSEOScore headings_level (scored s)
  = (if 0 <? length (headings s) then 20 else 0)
    + (if 0 <? length (lists s) then 10 else 0)
    + (if 5 <? length (paragraphs s) then 15 else 0).
Proof.
  intros H. unfold AIDocumentParser.calculateSEOScore, scored.
  cbn [AIDocumentParser.headings AIDocumentParser.lists
       AIDocumentParser.paragraphs AIDocumentParser.hasTableOfContents
       AIDocumentParser.hasKeyTakeaways AIDocumentParser.opt_length
       AIDocumentParser.opt_gt AIDocumentParser.or_zero option_map].
  rewrite (no_level_one _ H).
  destruct (0 <? length (headings s)), (0 <? length (lists s)),
           (5 <? length (paragraphs s)); reflexivity.
Qed.

Lemma lists_items_count (n : nat) (ls : list list_block) :
  Forall (list_within n) ls -> length ls <= item_count ls.
Proof.
  unfold item_count. induction 1 as [|l ls Hl _ IH]; [apply Nat.le_refl|].
  cbn [length map list_sum fold_right].
  change (fold_right Nat.add 0) with list_sum.
  destruct Hl as (H1 & _). lia.
Qed.

(** X20: on the structure of [analyzeTextStructure] the score of
    [calculateSEOScore] is 20 for a heading, 10 for a list and 15 for more
    than five paragraphs, hence at most 45 of 100: no heading has level 1
    and the structure carries neither of the two flags. *)
Theorem calculateSEOScore_of_text (content : jsstring) :
  let s := analyzeTextStructure content in
  AIDocumentParser.calculateSEOScore headings_level (scored s)
  = (if 0 <? length (headings s) then 20 else 0)
    + (if 0 <? length (lists s) then 10 else 0)
    + (if 5 <? length (paragraphs s) then 15 else 0)
  /\ AIDocumentParser.calculateSEOScore headings_level (scored s) <= 45.
Proof.
  cbv zeta.
  assert (Hlev : Forall (fun h => 2 <= headings_level h <= 4)
                   (headings (analyzeTextStructure content))).
  { unfold analyzeTextStructure. apply analyze_lines_levels. constructor. }
  rewrite (seo_of_structure _ Hlev). split; [reflexivity|].
  destruct (0 <? length (headings _)), (0 <? length (lists _)),
           (5 <? length (paragraphs _)); cbn; lia.
Qed.

End TextStructure.

(** ** Counting words *)

Section Words.
Import RegexFacts AIDocumentParser Behaviour.

Lemma space_runs_trimStart (s : jsstring) :
  space_runs true s = space_runs false (trimStart s).
Proof.
  induction s as [|c s IH]; [reflexivity|].
  cbn [space_runs trimStart]. destruct (is_space c) eqn:Hc; [exact IH|].
  cbn [space_runs]. rewrite Hc. reflexivity.
Qed.

Lemma split_spaces_length :
  forall s prev n acc fresh,
    length (split_re_go (plus space) prev s n acc fresh)
    = 1 + space_runs false (skipn n s).
Proof.
  induction s as [|x s IH]; intros prev n acc fresh.
  - destruct n; reflexivity.
  - cbn [split_re_go]. destruct n as [|n]; [|rewrite IH; reflexivity].
    rewrite match_here_plus_space. cbn [skipn space_runs].
    destruct (is_space x).
    + pose proof (trimStart_length s) as Hl.
      replace (length (x :: s) - length (trimStart s))
        with (S (length s - length (trimStart s)))
        by (cbn [length]; lia).
      cbn [length]. rewrite IH, trimStart_skipn, space_runs_trimStart.
      reflexivity.
    + rewrite IH. reflexivity.
Qed.

Lemma words_runs :
  forall s b,
    words_from b s + (if b then 1 else 0)
    = space_runs (negb b) s + (if ends_in_word b s then 1 else 0).
Proof.
  induction s as [|c s IH]; intros b; [reflexivity|].
  cbn [words_from space_runs ends_in_word].
  destruct (is_space c).
  - pose proof (IH false) as H. cbn [negb] in *.
    destruct b; cbn [negb]; lia.
  - pose proof (IH true) as H. cbn [negb] in *.
    destruct b; cbn [negb]; lia.
Qed.

Lemma words_from_leading (s : jsstring) :
  words_from false s = words_from false (trimStart s).
Proof.
  induction s as [|c s IH]; [reflexivity|].
  cbn [words_from trimStart]. destruct (is_space c) eqn:Hc; [exact IH|].
  cbn [words_from]. rewrite Hc. reflexivity.
Qed.

Lemma words_from_trailing (p : jsstring) :
  forallb is_space p = true ->
  forall s b, words_from b (s ++ p) = words_from b s.
Proof.
  intros Hp. induction s as [|c s IH]; intros b.
  - cbn [app words_from]. clear - Hp. revert b.
    induction p as [|c p IH]; intros b; [reflexivity|].
    cbn [forallb] in Hp. apply andb_prop in Hp as [Hc Hp].
    cbn [words_from]. rewrite Hc. apply IH. exact Hp.
  - cbn [app words_from]. rewrite !IH. reflexivity.
Qed.

Lemma trimStart_split (s : jsstring) :
  exists p, s = p ++ trimStart s /\ forallb is_space p = true.
Proof.
  induction s as [|x s (p & IH & Hp)]; cbn [trimStart].
  - exists []. split; reflexivity.
  - destruct (is_space x) eqn:Hx.
    + exists (x :: p). split; [cbn [app]; rewrite <- IH; reflexivity|].
      cbn [forallb]. rewrite Hx, Hp. reflexivity.
    + exists []. split; reflexivity.
Qed.

Lemma trim_split (s : jsstring) :
  exists p, trimStart s = trim s ++ p /\ forallb is_space p = true.
Proof.
  unfold trim, trimEnd.
  destruct (trimStart_split (rev (trimStart s))) as (p & E & Hp).
  exists (rev p). split.
  - rewrite <- rev_app_distr, <- E, rev_involutive. reflexivity.
  - rewrite forallb_rev. exact Hp.
Qed.

Lemma words_trim (s : jsstring) : words (trim s) = words s.
Proof.
  unfold words. destruct (trim_split s) as (p & E & Hp).
  rewrite (words_from_leading s), E.
  symmetry. apply words_from_trailing. exact Hp.
Qed.

Lemma ends_in_word_last (s : jsstring) (z : N) (b : bool) :
  ends_in_word b (s ++ [z]) = negb (is_space z).
Proof.
  revert b. induction s as [|c s IH]; intros b; [reflexivity|].
  cbn [app ends_in_word]. apply IH.
Qed.

Lemma trim_ends (s : jsstring) :
  trim s = [] \/ exists t z, trim s = t ++ [z] /\ is_space z = false.
Proof.
  unfold trim, trimEnd.
  destruct (trimStart (rev (trimStart s))) as [|z b] eqn:E; [left; reflexivity|].
  right. exists (rev b), z. split; [reflexivity|].
  eapply trimStart_head. exact E.
Qed.

Lemma trim_starts (s : jsstring) (y : N) (t : jsstring) :
  trim s = y :: t -> is_space y = false.
Proof.
  intros E. destruct (trim_split s) as (p & Ep & _).
  rewrite E in Ep. cbn [app] in Ep. eapply trimStart_head. exact Ep.
Qed.

(** X21: [countWords] returns the number of words of the content (its
    maximal runs of code units that are no white space), but 1 for a
    content without any word: the split of the empty text has one piece.
    Hence [estimateReadingTime] is at least one minute on every content. *)
Theorem countWords_words (content : jsstring) :
  countWords content = Nat.max 1 (words content)
  /\ 1 <= estimateReadingTime content.
Proof.
  assert (H : countWords content = Nat.max 1 (words content)).
  { unfold countWords. rewrite <- (words_trim content).
    destruct (trim content) as [|y t] eqn:E; [reflexivity|].
    unfold split_re. rewrite split_spaces_length. cbn [skipn].
    unfold words.
    pose proof (words_runs (y :: t) false) as Hw. cbn [negb] in Hw.
    assert (He : ends_in_word false (y :: t) = true).
    { destruct (trim_ends content) as [E0|(u & z & Eu & Hz)];
        [congruence|].
      rewrite <- E, Eu, ends_in_word_last, Hz. reflexivity. }
    rewrite He in Hw.
    assert (Hy : is_space y = false) by (eapply trim_starts; exact E).
    cbn [space_runs] in Hw |- *. rewrite Hy in Hw |- *. lia. }
  split; [exact H|].
  unfold estimateReadingTime. cbv zeta. rewrite H.
  apply (Nat.div_le_lower_bound _ 200 1); lia.
Qed.

End Words.

(** ** File extensions *)

Section Extension.
Import DocumentParser Behaviour.

Lemma lastIndexOf_go_dot :
  forall s i last,
    (dot_free s = true /\ lastIndexOf_go (js ".") s i last = last)
    \/ exists p r, s = p ++ ch "." :: r /\ dot_free r = true
                   /\ lastIndexOf_go (js ".") s i last = Some (i + length p).
Proof.
  change (js ".") with [ch "."].
  induction s as [|x s IH]; intros i last.
  - left. split; reflexivity.
  - cbn [lastIndexOf_go startsWith].
    assert (Es : startsWith s [] = true) by (destruct s; reflexivity).
    rewrite Es, andb_true_r.
    destruct (N.eqb (ch ".") x) eqn:Hx.
    + right. apply N.eqb_eq in Hx. subst x.
      destruct (IH (S i) (Some i)) as [[Hf E]|(p & r & Ep & Hr & E)].
      * exists [], s. repeat split; [exact Hf|].
        rewrite E. cbn [length]. f_equal. lia.
      * exists (ch "." :: p), r.
        repeat split; [rewrite Ep; reflexivity|exact Hr|].
        rewrite E. cbn [length]. f_equal. lia.
    + destruct (IH (S i) last) as [[Hf E]|(p & r & Ep & Hr & E)].
      * left. split; [|exact E].
        unfold dot_free in *. cbn [forallb]. rewrite Hf.
        unfold is_dot. rewrite Hx. reflexivity.
      * right. exists (x :: p), r.
        repeat split; [rewrite Ep; reflexivity|exact Hr|].
        rewrite E. cbn [length]. f_equal. lia.
Qed.

Lemma lower1_dot (c : N) : lower1 c = ch "." -> c = ch ".".
Proof.
  unfold lower1, is_upper. change (ch ".") with 46%N.
  destruct ((65 <=? c)%N && (c <=? 90)%N) eqn:H; [|auto].
  apply andb_prop in H as [H1 H2]. apply N.leb_le in H1. lia.
Qed.

Lemma dot_free_lower (s : jsstring) :
  dot_free s = true -> dot_free (map lower1 s) = true.
Proof.
  unfold dot_free. induction s as [|c s IH]; [reflexivity|].
  cbn [map forallb]. intros H. apply andb_prop in H as [Hc Hs].
  rewrite (IH Hs), andb_true_r.
  unfold is_dot in *. destruct (N.eqb (ch ".") (lower1 c)) eqn:E; [|reflexivity].
  apply N.eqb_eq in E. symmetry in E. apply lower1_dot in E. subst c.
  rewrite N.eqb_refl in Hc. discriminate.
Qed.

(** A text that starts with the reverse of an extension. *)
Lemma startsWith_to_dot :
  forall a b x,
    dot_free a = true -> dot_free b = true ->
    (startsWith (a ++ ch "." :: x) (b ++ [ch "."]) = true <-> a = b).
Proof.
  unfold dot_free, is_dot.
  induction a as [|c a IH]; intros b x Ha Hb.
  - destruct b as [|d b].
    + cbn [app startsWith]. rewrite N.eqb_refl.
      destruct x; split; reflexivity.
    + cbn [app startsWith forallb] in *. apply andb_prop in Hb as [Hd _].
      apply negb_true_iff, N.eqb_neq in Hd.
      match goal with
      | |- context [N.eqb ?u ?v] => destruct (N.eqb_spec u v)
      end; [congruence|].
      split; discriminate.
  - cbn [forallb] in Ha. apply andb_prop in Ha as [Hc Ha].
    apply negb_true_iff, N.eqb_neq in Hc.
    destruct b as [|d b].
    + cbn [app startsWith].
      match goal with
      | |- context [N.eqb ?u ?v] => destruct (N.eqb_spec u v)
      end; [congruence|].
      split; discriminate.
    + cbn [forallb] in Hb. apply andb_prop in Hb as [_ Hb].
      cbn [app startsWith]. rewrite andb_true_iff, (IH b x Ha Hb), N.eqb_eq.
      split; [intros [-> ->]; reflexivity|intros [= -> ->]; auto].
Qed.

Lemma dot_free_rev (s : jsstring) : dot_free (rev s) = dot_free s.
Proof. unfold dot_free. apply forallb_rev. Qed.

Lemma endsWith_extension (p r e : jsstring) :
  dot_free r = true -> dot_free e = true ->
  endsWith (p ++ ch "." :: r) (ch "." :: e) = str_eqb (ch "." :: r) (ch "." :: e).
Proof.
  intros Hr He. apply eq_iff_eq_true. rewrite str_eqb_eq.
  unfold endsWith. rewrite rev_app_distr. cbn [rev]. rewrite <- app_assoc.
  cbn [app]. rewrite startsWith_to_dot by (rewrite dot_free_rev; assumption).
  split.
  - intros H. apply (f_equal (@rev N)) in H. rewrite !rev_involutive in H.
    rewrite H. reflexivity.
  - intros [= ->]. reflexivity.
Qed.

Lemma endsWith_no_dot (s e : jsstring) :
  dot_free s = true -> endsWith s (ch "." :: e) = false.
Proof.
  intros Hs. unfold endsWith. cbn [rev].
  rewrite <- dot_free_rev in Hs.
  destruct (startsWith (rev s) (rev e ++ [ch "."])) eqn:E; [|reflexivity].
  exfalso. revert E Hs. generalize (rev s) (rev e). clear.
  intros s e. revert s. induction e as [|d e IH]; intros s E Hs.
  - destruct s as [|c s]; [discriminate|]. cbn [app startsWith] in E.
    apply andb_prop in E as [E _]. apply N.eqb_eq in E. subst c.
    unfold dot_free, is_dot in Hs.
    cbn [forallb] in Hs. rewrite N.eqb_refl in Hs. discriminate.
  - destruct s as [|c s]; [discriminate|]. cbn [app startsWith] in E.
    apply andb_prop in E as [_ E]. apply (IH s E).
    unfold dot_free in *. cbn [forallb] in Hs.
    apply andb_prop in Hs as [_ Hs]. exact Hs.
Qed.

Lemma str_eqb_no_dot (s e : jsstring) :
  dot_free s = true -> str_eqb s (ch "." :: e) = false.
Proof.
  intros Hs. apply str_eqb_neq. intros ->.
  unfold dot_free, is_dot in Hs. cbn [forallb] in Hs.
  rewrite N.eqb_refl in Hs. discriminate.
Qed.

Context {CM : CaseMap}.

(** X22: for a file name whose lower-casing is that of its ASCII letters,
    [isValidFormat] accepts exactly the names that end, in lower case, with
    one of the four supported extensions: the text from the last full stop
    on is compared, whatever the case of its letters. *)
Theorem isValidFormat_extension (name : jsstring) :
  toLowerCase name = map lower1 name ->
  isValidFormat name
  = existsb (endsWith (map lower1 name)) supportedFormats.
Proof.
  intros Hlow. unfold isValidFormat, getFileExtension, lastIndexOf.
  cbv zeta. rewrite Hlow.
  destruct (lastIndexOf_go_dot name 0 None) as [[Hf ->]|(p & r & -> & Hr & ->)].
  - cbn [substring_from]. apply dot_free_lower in Hf.
    unfold supportedFormats. cbn [existsb].
    change (js ".docx") with (ch "." :: js "docx").
    change (js ".txt") with (ch "." :: js "txt").
    change (js ".md") with (ch "." :: js "md").
    change (js ".html") with (ch "." :: js "html").
    rewrite !str_eqb_no_dot by exact Hf.
    rewrite !endsWith_no_dot by exact Hf. reflexivity.
  - cbn [substring_from]. rewrite map_app. cbn [map].
    change (lower1 (ch ".")) with (ch ".").
    rewrite Nat.add_0_l, <- (length_map lower1 p), skipn_app, skipn_all,
      Nat.sub_diag.
    cbn [app skipn]. apply dot_free_lower in Hr.
    unfold supportedFormats. cbn [existsb].
    change (js ".docx") with (ch "." :: js "docx").
    change (js ".txt") with (ch "." :: js "txt").
    change (js ".md") with (ch "." :: js "md").
    change (js ".html") with (ch "." :: js "html").
    rewrite !endsWith_extension by (exact Hr || reflexivity). reflexivity.
Qed.

End Extension.

(** ** Short lines *)

Section ShortLines.
Import RegexFacts DocumentParser.

(** The pieces of a split are parts of the text that do not overlap. *)
Lemma split_re_go_total (r : regex) :
  forall s prev skip acc fresh,
    list_sum (map (@length N) (split_re_go r prev s skip acc fresh))
    <= length s + length acc.
Proof.
  induction s as [|x s IH]; intros prev skip acc fresh.
  - cbn [split_re_go map list_sum fold_right]. rewrite length_rev.
    cbn [length]. lia.
  - cbn [split_re_go]. destruct skip as [|n].
    + destruct (match_here r prev (x :: s)) as [[rest c]|].
      * destruct (length (x :: s) - length rest) as [|n]; cbn [length].
        -- destruct fresh.
           ++ specialize (IH (Some x) 0 (x :: acc) false).
              cbn [length] in IH. lia.
           ++ specialize (IH (Some x) 0 [x] false).
              cbn [map list_sum fold_right].
              change (fold_right Nat.add 0) with list_sum.
              rewrite length_rev. cbn [length] in IH. lia.
        -- specialize (IH (Some x) n [] true).
           cbn [map list_sum fold_right].
           change (fold_right Nat.add 0) with list_sum.
           rewrite length_rev. cbn [length] in IH. lia.
      * specialize (IH (Some x) 0 (x :: acc) false).
        cbn [length] in *. lia.
    + specialize (IH (Some x) n acc fresh). cbn [length]. lia.
Qed.

Lemma split_re_total (r : regex) (s : jsstring) :
  list_sum (map (@length N) (split_re r s)) <= length s.
Proof.
  unfold split_re. destruct s as [|x s].
  - destruct (match_here r None []); cbn; lia.
  - pose proof (split_re_go_total r (x :: s) None 0 [] true) as H.
    cbn [length] in *. lia.
Qed.

Lemma titleCaseWords_total (words : list jsstring) :
  3 * length (titleCaseWords words) <= list_sum (map (@length N) words).
Proof.
  unfold titleCaseWords.
  induction words as [|w words IH]; [cbn; lia|].
  cbn [filter map list_sum fold_right].
  change (fold_right Nat.add 0) with list_sum.
  destruct (2 <? length w) eqn:Hw.
  - apply Nat.ltb_lt in Hw.
    destruct ((0 <? length w) && test re_initial_cap w && true);
      cbn [length]; lia.
  - rewrite andb_false_r. lia.
Qed.

Lemma title_case_needs_six (text : jsstring) :
  (2 <=? length (split_re (plus space) text))
  && (length (split_re (plus space) text) <=? 10)
  && mostly_title_case (split_re (plus space) text) = true ->
  6 <= length text.
Proof.
  intros H. apply andb_prop in H as [H Hm]. apply andb_prop in H as [H2 _].
  apply Nat.leb_le in H2. unfold mostly_title_case in Hm.
  apply Nat.leb_le in Hm.
  pose proof (titleCaseWords_total (split_re (plus space) text)) as Ht.
  pose proof (split_re_total (plus space) text) as Hs.
  lia.
Qed.

Context {CM : CaseMap}.

Lemma isHeading_short_cases (line : jsstring) :
  length (trim line) <= 5 ->
  isHeading line
  = test re_numbered_title (trim line)
    || (includes (trim line) (js "_") && test re_initial_cap (trim line)).
Proof.
  intros Hlen. unfold isHeading. cbv zeta.
  set (text := trim line) in *.
  assert (H150 : (150 <? length text) = false) by (apply Nat.ltb_ge; lia).
  assert (H5 : (5 <? length text) = false) by (apply Nat.ltb_ge; lia).
  assert (H10 : (10 <? length text) = false) by (apply Nat.ltb_ge; lia).
  rewrite H150, H5, H10.
  rewrite !andb_false_r. cbn [andb].
  destruct (test re_numbered_title text); [reflexivity|].
  destruct ((2 <=? length (split_re (plus space) text))
            && (length (split_re (plus space) text) <=? 10)
            && mostly_title_case (split_re (plus space) text)) eqn:Ht.
  - apply title_case_needs_six in Ht. lia.
  - cbn [orb]. destruct (includes text (js "_") && test re_initial_cap text);
      reflexivity.
Qed.

(** X23: a line of at most five code units (after trimming) is a heading
    only as a numbered title or with an underscore and an initial capital:
    the tests for bold text, capitals, questions and a final colon ask for
    more than five code units, and the Title Case test for two words of
    three. *)
Theorem isHeading_short_line (line : jsstring) :
  length (trim line) <= 5 ->
  isHeading line
  = test re_numbered_title (trim line)
    || (includes (trim line) (js "_") && test re_initial_cap (trim line)).
Proof. exact (isHeading_short_cases line). Qed.

End ShortLines.

Section ShortWords.
Import RegexFacts DocumentParser Behaviour.

Lemma startsWith_forallb (p : N -> bool) :
  forall pat s,
    startsWith s pat = true -> forallb p s = true -> forallb p pat = true.
Proof.
  induction pat as [|c pat IH]; intros s H Hs; [reflexivity|].
  destruct s as [|x s]; [discriminate|]. cbn [startsWith] in H.
  apply andb_prop in H as [Hc H]. apply N.eqb_eq in Hc. subst x.
  cbn [forallb] in *. apply andb_prop in Hs as [Hx Hs].
  rewrite Hx. apply (IH s H Hs).
Qed.

Lemma includes_forallb (p : N -> bool) (pat : jsstring) :
  forallb p pat = false ->
  forall s, forallb p s = true -> includes s pat = false.
Proof.
  intros Hpat. induction s as [|x s IH]; intros Hs.
  - cbn [includes].
    destruct (startsWith [] pat) eqn:E; [|reflexivity].
    rewrite (startsWith_forallb p pat [] E Hs) in Hpat. discriminate.
  - cbn [includes].
    destruct (startsWith (x :: s) pat) eqn:E.
    + rewrite (startsWith_forallb p pat (x :: s) E Hs) in Hpat. discriminate.
    + cbn [forallb] in Hs. apply andb_prop in Hs as [_ Hs]. apply IH. exact Hs.
Qed.

Lemma search_no_match (r : regex) (P : jsstring -> Prop) :
  (forall x s, P (x :: s) -> P s) ->
  (forall prev s, P s -> match_here r prev s = None) ->
  forall s prev acc, P s -> search r prev s acc = None.
Proof.
  intros Htl Hnone. induction s as [|x s IH]; intros prev acc HP.
  - cbn [search]. rewrite (Hnone prev [] HP). reflexivity.
  - cbn [search]. rewrite (Hnone prev (x :: s) HP).
    apply IH. apply (Htl x). exact HP.
Qed.

Lemma letters_tail (x : N) (s : jsstring) :
  letters (x :: s) = true -> letters s = true.
Proof.
  unfold letters. cbn [forallb]. intros H. apply andb_prop in H. apply H.
Qed.

Lemma letter_range (c : N) : is_letter c = true -> (65 <= c <= 122)%N.
Proof.
  unfold is_letter, is_upper, is_lower. intros H.
  apply orb_prop in H as [H|H]; apply andb_prop in H as [H1 H2];
    apply N.leb_le in H1, H2; lia.
Qed.

Lemma letter_not_space (c : N) : is_letter c = true -> is_space c = false.
Proof.
  intros H. apply letter_range in H. unfold is_space.
  repeat match goal with
         | |- _ || _ = false => apply orb_false_iff; split
         end;
    try (apply N.eqb_neq; lia);
    apply andb_false_iff;
    (left; apply N.leb_gt; lia) || (right; apply N.leb_gt; lia).
Qed.

Lemma letter_not_digit (c : N) : is_letter c = true -> is_digit c = false.
Proof.
  intros H. apply letter_range in H. unfold is_digit.
  apply andb_false_iff. right. apply N.leb_gt. lia.
Qed.

Lemma letter_other (c : N) (a : ascii) :
  is_letter (ch a) = false -> is_letter c = true -> N.eqb (ch a) c = false.
Proof.
  intros Ha Hc. apply N.eqb_neq. intros E. rewrite E in Ha. congruence.
Qed.

Lemma letters_unmarked (s : jsstring) : letters s = true -> unmarked s = true.
Proof.
  unfold letters, unmarked. induction s as [|c s IH]; [reflexivity|].
  cbn [forallb]. intros H. apply andb_prop in H as [Hc Hs].
  rewrite (IH Hs), andb_true_r. unfold unmarked_char.
  rewrite !(N.eqb_sym c).
  rewrite (letter_other c "*" eq_refl Hc), (letter_other c "_" eq_refl Hc),
    (letter_other c "[" eq_refl Hc).
  reflexivity.
Qed.

Lemma letters_no (a : ascii) (s : jsstring) :
  is_letter (ch a) = false -> letters s = true -> includes s [ch a] = false.
Proof.
  intros Ha Hs. apply (includes_forallb is_letter); [|exact Hs].
  cbn [forallb]. rewrite Ha. reflexivity.
Qed.

Lemma letters_spaces3 (prev : option N) (s : jsstring) :
  letters s = true -> match_here re_spaces3 prev s = None.
Proof.
  intros Hs. rewrite match_here_spaces3.
  destruct s as [|x [|y [|z rest]]]; try reflexivity.
  unfold letters in Hs. cbn [forallb] in Hs. apply andb_prop in Hs as [Hx _].
  rewrite (letter_not_space x Hx). reflexivity.
Qed.

Lemma letters_not_table_row (s : jsstring) :
  letters s = true -> isTableRow s = false.
Proof.
  intros Hs. unfold isTableRow.
  change (js "|") with [ch "|"]. change SectionDetector.tab with [9%N].
  rewrite (letters_no "|" s eq_refl Hs). cbn [andb].
  rewrite (includes_forallb is_letter [9%N] eq_refl s Hs). cbn [andb].
  unfold test.
  rewrite (search_no_match re_spaces3 (fun s => letters s = true)
             letters_tail letters_spaces3 s None [] Hs).
  reflexivity.
Qed.

Lemma letters_not_list_item (s : jsstring) :
  letters s = true -> isListItem s = false.
Proof.
  intros Hs. unfold isListItem, re_bullet, re_num1, seqs.
  rewrite !test_bol. unfold match_here, plus, digit, c1. cbn [rmatch].
  destruct s as [|x s]; [reflexivity|].
  unfold letters in Hs. cbn [forallb] in Hs. apply andb_prop in Hs as [Hx _].
  rewrite (letter_not_digit x Hx).
  rewrite !(N.eqb_sym x).
  rewrite (letter_other x "-" eq_refl Hx), (letter_other x "*" eq_refl Hx).
  assert (Hb : N.eqb 8226 x = false).
  { apply N.eqb_neq. apply letter_range in Hx. lia. }
  rewrite Hb. reflexivity.
Qed.

Lemma letters_not_numbered (s : jsstring) :
  letters s = true -> test re_numbered_title s = false.
Proof.
  intros Hs. unfold re_numbered_title, seqs.
  rewrite test_bol. unfold match_here, plus, digit. cbn [rmatch].
  destruct s as [|x s]; [reflexivity|].
  unfold letters in Hs. cbn [forallb] in Hs. apply andb_prop in Hs as [Hx _].
  rewrite (letter_not_digit x Hx). reflexivity.
Qed.

Lemma letters_plain_text (s : jsstring) :
  letters s = true -> formatRichText s = s.
Proof.
  intros Hs. apply letters_unmarked in Hs. unfold formatRichText. cbv zeta.
  rewrite (replace_all_none re_bold _ _ unmarked_tail unmarked_bold s Hs).
  rewrite (replace_all_none re_bold_underscore _ _ unmarked_tail
             unmarked_bold_underscore s Hs).
  rewrite (replace_all_none re_italic_star _ _ unmarked_tail
             unmarked_italic_star s Hs).
  rewrite (replace_all_none re_italic_underscore _ _ unmarked_tail
             unmarked_italic_underscore s Hs).
  exact (replace_all_none re_link _ _ unmarked_tail unmarked_link s Hs).
Qed.

Lemma upper1_letter (c : N) : is_letter c = true -> is_letter (upper1 c) = true.
Proof.
  unfold is_letter, upper1, is_upper, is_lower. intros H.
  destruct ((97 <=? c)%N && (c <=? 122)%N) eqn:Hl.
  - apply andb_prop in Hl as [H1 H2]. apply N.leb_le in H1, H2.
    apply orb_true_iff. left. apply andb_true_iff.
    split; apply N.leb_le; lia.
  - rewrite ?Hl, orb_false_r in H. rewrite H. reflexivity.
Qed.

Lemma letters_upper (s : jsstring) :
  letters s = true -> letters (map upper1 s) = true.
Proof.
  unfold letters. induction s as [|c s IH]; [reflexivity|].
  cbn [map forallb]. intros H. apply andb_prop in H as [Hc Hs].
  rewrite (upper1_letter c Hc), (IH Hs). reflexivity.
Qed.

Lemma letters_no_tag (s : jsstring) :
  letters s = true ->
  SectionDetector.isStartTag s = false /\ SectionDetector.isEndTag s = false.
Proof.
  intros Hs. unfold SectionDetector.isStartTag, SectionDetector.isEndTag.
  assert (H1 : startsWith s (js "<") = false).
  { destruct (startsWith s (js "<")) eqn:E; [|reflexivity].
    pose proof (startsWith_forallb is_letter (js "<") s E Hs) as H.
    discriminate. }
  rewrite H1. cbn [andb orb].
  rewrite (includes_forallb is_letter (js "[TABLE END]") eq_refl s Hs).
  rewrite (includes_forallb is_letter (js "</TABLE>") eq_refl s Hs).
  split; reflexivity.
Qed.

Context {CM : CaseMap}.

(** X24: a line of one to five ASCII letters, such as FAQ, TOC, CTA, INDEX
    or STEPS, is text for the loop of [convertTextToHTML]: it is no heading
    and no tag, so it opens no section; it is buffered when a section is
    open and written as a paragraph otherwise. *)
Theorem short_word_is_text (l : jsstring) (rest : list jsstring) (st : state) :
  trim l <> [] -> length (trim l) <= 5 -> letters (trim l) = true ->
  toUpperCase (trim l) = map upper1 (trim l) ->
  body l rest st
  = Ok (0, if in_section st then push_item st (trim l)
           else set_html (close_open_list st)
                  (html (close_open_list st)
                   ++ js "<p>" ++ trim l ++ js "</p>" ++ nl)).
Proof.
  intros Hne Hlen Hs Hup. unfold body. cbv zeta.
  set (line := trim l) in *.
  assert (Ht : truthy line = true) by (destruct line; [congruence|reflexivity]).
  rewrite Ht. cbn [negb].
  rewrite (includes_forallb is_letter (js "<TABLE>") eq_refl line Hs).
  rewrite (includes_forallb is_letter (js "<TABLE END>") eq_refl line Hs).
  rewrite (includes_forallb is_letter (js "TABLE END") eq_refl line Hs).
  cbn [orb].
  assert (Hh : isHeading line = false).
  { assert (Htt : trim line = line) by exact (trim_trimmed l).
    rewrite isHeading_short_cases by (rewrite Htt; exact Hlen).
    rewrite Htt, (letters_not_numbered line Hs).
    change (js "_") with [ch "_"].
    rewrite (letters_no "_" line eq_refl Hs). reflexivity. }
  rewrite Hh, Hup.
  destruct (letters_no_tag (map upper1 line) (letters_upper line Hs))
    as [-> ->].
  cbn [orb].
  rewrite (letters_not_table_row line Hs), (letters_not_list_item line Hs).
  rewrite (letters_plain_text line Hs).
  destruct (in_section st); reflexivity.
Qed.

End ShortWords.

(** ** The text of a DOCX buffer *)

Section Docx.
Import RegexFacts DocumentParser Claims Behaviour.

Lemma replace_keeps (keep : N -> bool) (w : jsstring) :
  forallb keep w = true ->
  forall (s : jsstring) (prev : option N) (skip : nat) (acc : jsstring),
    forallb keep acc = true ->
    forallb keep
      (emit (fun _ => w) (scan (Chr (fun c => negb (keep c))) prev s skip acc))
    = true.
Proof.
  intros Hw. induction s as [|x s IH]; intros prev skip acc Hacc.
  - destruct skip.
    + rewrite scan_nil. unfold match_here. cbn [rmatch]. unfold emit. simpl.
      rewrite ?app_nil_r, forallb_rev. exact Hacc.
    + unfold emit. simpl. rewrite forallb_rev. exact Hacc.
  - destruct skip as [|n]; [|rewrite scan_jump; apply IH; exact Hacc].
    rewrite scan_cons. unfold match_here. cbn [rmatch].
    destruct (keep x) eqn:Hx; cbn [negb].
    + apply IH. simpl. rewrite Hx. exact Hacc.
    + cbv zeta.
      replace (length (x :: s) - length s) with 1 by (cbn [length]; lia).
      rewrite emit_cons, <- surjective_pairing.
      rewrite !forallb_app, forallb_rev, Hacc, Hw. cbn [andb].
      apply IH. reflexivity.
Qed.

Lemma sparse_tidy (s : jsstring) : sparse is_space s = true -> tidy s.
Proof.
  intros Hs a. revert s Hs. induction a as [|c a IH]; intros s Hs x y b E Hx Hy.
  - subst s. cbn [app sparse] in Hs. rewrite Hx, Hy in Hs. discriminate.
  - subst s. cbn [app] in Hs.
    assert (Hs' : sparse is_space (a ++ x :: y :: b) = true).
    { cbn [sparse] in Hs. apply andb_prop in Hs as [_ Hs]. exact Hs. }
    exact (IH (a ++ x :: y :: b) Hs' x y b eq_refl Hx Hy).
Qed.

Lemma forallb_trimStart (p : N -> bool) (s : jsstring) :
  forallb p s = true -> forallb p (trimStart s) = true.
Proof.
  intros H. destruct (trimStart_suffix s) as [q Hq]. rewrite Hq in H.
  rewrite forallb_app in H. apply andb_prop in H. apply H.
Qed.

Lemma forallb_trim (p : N -> bool) (s : jsstring) :
  forallb p s = true -> forallb p (trim s) = true.
Proof.
  intros H. unfold trim, trimEnd.
  rewrite forallb_rev. apply forallb_trimStart.
  rewrite forallb_rev. apply forallb_trimStart. exact H.
Qed.

Lemma docx_text_facts (text : jsstring) :
  let t := extractTextFromDocx text in
  forallb printable t = true /\ tidy t /\ trim t = t /\ split nl t = [t].
Proof.
  cbv zeta. unfold extractTextFromDocx.
  set (s1 := replace_all (Chr unreadable) _ text).
  assert (H1 : forallb (fun c => is_space c || printable c) s1 = true).
  { assert (H : forallb (fun c => printable c || N.eqb c 10 || N.eqb c 13) s1
                = true).
    { unfold s1. rewrite replace_all_emit.
      apply (replace_keeps
               (fun c => printable c || N.eqb c 10 || N.eqb c 13) (js " "));
        reflexivity. }
    rewrite forallb_forall in H. apply forallb_forall. intros c Hc.
    specialize (H c Hc). destruct (printable c); [apply orb_true_r|].
    cbn [orb] in H. apply orb_prop in H as [H|H]; apply N.eqb_eq in H;
      subst c; reflexivity. }
  unfold space. rewrite (replace_all_squeeze is_space (js " ") s1).
  set (s2 := squeeze is_space (js " ") false s1).
  assert (Hp : forallb printable s2 = true).
  { apply squeeze_forallb; [reflexivity|exact H1]. }
  assert (Ht : tidy s2).
  { apply sparse_tidy. apply (squeeze_sparse is_space 32%N eq_refl). }
  assert (Hp3 : forallb printable (trim s2) = true)
    by (apply forallb_trim; exact Hp).
  split; [exact Hp3|]. split; [apply tidy_trim; exact Ht|].
  split; [apply trim_trimmed|].
  unfold split, nl.
  rewrite split_go_one_absent; [reflexivity|].
  apply (includes_forallb printable); [reflexivity|exact Hp3].
Qed.

(** X25: the text [extractTextFromDocx] makes of a decoded buffer holds
    printable ASCII only, no two white space code units side by side and
    none at its ends; it has no line break, so that the analysis and the
    conversion that follow see one single line. *)
Theorem extractTextFromDocx_one_line (text : jsstring) :
  let t := extractTextFromDocx text in
  forallb printable t = true /\ tidy t /\ trim t = t /\ split nl t = [t].
Proof. exact (docx_text_facts text). Qed.

End Docx.

(** ** The structure of a markdown text *)

Section Markdown.
Import RegexFacts DocumentParser Behaviour.

Lemma hashes_length_count (line : jsstring) :
  hashes_length line = leading_hashes line.
Proof.
  unfold hashes_length, leading_hashes, re_hashes. rewrite search_bol.
  unfold match_here at 1. cbn [rmatch].
  change (rmatch (plus (c1 "#")) None line [] (fun _ rest c => Some (rest, c)))
    with (match_here (plus (Chr is_hash)) None line).
  rewrite match_here_plus_chr.
  destruct line as [|x t]; [reflexivity|].
  cbn [skip_while]. destruct (is_hash x); [|cbn [length]; lia].
  cbn [fst]. rewrite length_firstn.
  pose proof (skip_while_length is_hash t).
  cbn [length]. lia.
Qed.

Lemma md_level_ge_two (line : jsstring) :
  startsWith line (js "#") = true ->
  2 <= (if hashes_length line =? 1 then 2 else hashes_length line).
Proof.
  intros H. rewrite hashes_length_count. unfold leading_hashes.
  destruct line as [|x t]; [discriminate|].
  change (js "#") with [ch "#"] in H. rewrite startsWith_one in H.
  change (is_hash x = true) in H.
  cbn [skip_while]. rewrite H.
  pose proof (skip_while_length is_hash t).
  destruct (length (x :: t) - length (skip_while is_hash t) =? 1) eqn:E;
    [lia|]. apply Nat.eqb_neq in E. cbn [length] in *. lia.
Qed.

Lemma md_line_accounted (i : nat) (raw : jsstring) (s : md_structure) :
  md_accounted (md_line i raw s)
  = (if truthy (trim raw) then 1 else 0) + md_accounted s.
Proof.
  unfold md_line. cbv zeta.
  destruct (truthy (trim raw)); cbn [negb]; [|reflexivity].
  destruct (startsWith (trim raw) (js "#")).
  { unfold md_accounted.
    cbn [md_headings md_lists md_tables md_paragraphs].
    rewrite length_app. cbn [length]. lia. }
  destruct (test re_md_bullet (trim raw) || test re_num1 (trim raw)).
  { unfold md_accounted.
    cbn [md_headings md_lists md_tables md_paragraphs].
    rewrite length_app. cbn [length]. lia. }
  destruct (includes (trim raw) (js "|")).
  { unfold md_accounted.
    cbn [md_headings md_lists md_tables md_paragraphs].
    rewrite length_app. cbn [length]. lia. }
  unfold md_accounted.
  cbn [md_headings md_lists md_tables md_paragraphs].
  rewrite length_app. cbn [length]. lia.
Qed.

Lemma md_lines_accounted :
  forall lines i s,
    md_accounted (md_lines lines i s)
    = length (filter (fun line => truthy (trim line)) lines) + md_accounted s.
Proof.
  induction lines as [|raw lines IH]; intros i s; [reflexivity|].
  cbn [md_lines filter]. rewrite IH, md_line_accounted.
  destruct (truthy (trim raw)); cbn [length]; lia.
Qed.

Lemma md_line_kept (i : nat) (raw : jsstring) (s : md_structure) :
  md_kept s -> md_kept (md_line i raw s).
Proof.
  intros (Hh & Hc & Hl & Hi). unfold md_line. cbv zeta.
  destruct (truthy (trim raw)); cbn [negb]; [|repeat split; assumption].
  destruct (startsWith (trim raw) (js "#")) eqn:Hs.
  { unfold md_kept. cbn [md_headings md_codeBlocks md_links md_images].
    repeat split; try assumption.
    apply Forall_app. split; [exact Hh|]. constructor; [|constructor].
    cbn [headings_level]. apply md_level_ge_two. exact Hs. }
  destruct (test re_md_bullet (trim raw) || test re_num1 (trim raw));
    [repeat split; assumption|].
  destruct (includes (trim raw) (js "|")); repeat split; assumption.
Qed.

Lemma md_lines_kept :
  forall lines i s, md_kept s -> md_kept (md_lines lines i s).
Proof.
  induction lines as [|raw lines IH]; intros i s H; [exact H|].
  cbn [md_lines]. apply IH. apply md_line_kept. exact H.
Qed.

Context {CM : CaseMap}.

(** X26: [analyzeMarkdownStructure] accounts for every non-blank line
    exactly once, as a heading, a list item, a table line or a paragraph.
    The level of a heading is at least 2, and nothing is ever pushed to
    [codeBlocks], [links] and [images]. *)
Theorem analyzeMarkdownStructure_accounts (content : jsstring) :
  let s := analyzeMarkdownStructure content in
  length (md_headings s) + length (md_lists s) + length (md_tables s)
  + length (md_paragraphs s)
  = length (filter (fun line => truthy (trim line)) (split nl content))
  /\ Forall (fun h => 2 <= headings_level h) (md_headings s)
  /\ md_codeBlocks s = [] /\ md_links s = [] /\ md_images s = [].
Proof.
  cbv zeta. unfold analyzeMarkdownStructure. split.
  - pose proof (md_lines_accounted (split nl content) 0
                  {| md_headings := []; md_paragraphs := []; md_lists := [];
                     md_tables := []; md_codeBlocks := []; md_links := [];
                     md_images := [] |}) as H.
    unfold md_accounted in H at 1. rewrite H. unfold md_accounted. cbn. lia.
  - apply md_lines_kept. repeat split; constructor.
Qed.

End Markdown.

(** ** Bold markup in a short text *)

Section ShortBold.
Import RegexFacts DocumentParser Behaviour.

Lemma rmatch_chr (A : Type) (p : N -> bool) (prev : option N) (s : jsstring)
  (c : caps) (k : cont A) :
  rmatch (Chr p) prev s c k
  = match s with
    | x :: s' => if p x then k (Some x) s' c else None
    | [] => None
    end.
Proof. reflexivity. Qed.

(** A greedy repetition of a class takes the whole run when what follows
    the pattern matches after it. *)
Lemma star_chr_then (A : Type) (p : N -> bool) (k : cont A) (rest : jsstring)
  (a : A) :
  head_ok p rest = true ->
  forall w fuel prev c,
    forallb p w = true ->
    length (w ++ rest) <= fuel ->
    (forall prev', k prev' rest c = Some a) ->
    star_loop (rmatch (Chr p)) true k fuel prev (w ++ rest) c = Some a.
Proof.
  intros Hrest. induction w as [|x w IH]; intros fuel prev c Hw Hlen Hk.
  - cbn [app]. destruct fuel as [|fuel]; cbn [star_loop]; [apply Hk|].
    rewrite rmatch_chr. destruct rest as [|y rest']; [apply Hk|].
    cbn [head_ok] in Hrest. apply negb_true_iff in Hrest. rewrite Hrest.
    apply Hk.
  - cbn [forallb] in Hw. apply andb_prop in Hw as [Hx Hw].
    cbn [app length] in *. destruct fuel as [|fuel]; [lia|].
    cbn [star_loop]. rewrite rmatch_chr, Hx.
    replace (length (w ++ rest) <? length (x :: w ++ rest)) with true
      by (symmetry; apply Nat.ltb_lt; cbn [length]; lia).
    rewrite (IH fuel (Some x) c Hw ltac:(lia) Hk). reflexivity.
Qed.

Lemma star_is_star : N.eqb (ch "*") (ch "*") = true.
Proof. reflexivity. Qed.

Lemma firstn_run (w r : jsstring) :
  firstn (length (w ++ r) - length r) (w ++ r) = w.
Proof.
  rewrite length_app, Nat.add_sub, firstn_app, Nat.sub_diag, firstn_all.
  cbn [firstn]. apply app_nil_r.
Qed.

Lemma star_pair_here (prev : option N) (w : jsstring) :
  w <> [] -> starless w = true ->
  match_here Serverless.re_star_pair prev
    (ch "*" :: w ++ [ch "*"; ch "*"])
  = Some ([ch "*"], [(1, w)]).
Proof.
  intros Hne Hw. destruct w as [|y w]; [congruence|].
  unfold starless in Hw. cbn [forallb] in Hw.
  apply andb_prop in Hw as [Hy Hw].
  unfold Serverless.re_star_pair, seqs, match_here, plus, c1, not1.
  cbn [rmatch]. rewrite star_is_star. cbn [app]. rewrite Hy.
  apply (@star_chr_then _ (fun c => negb (N.eqb (ch "*") c)));
    [reflexivity|exact Hw|lia|].
  intros prev'. rewrite star_is_star.
  change (y :: w ++ [ch "*"; ch "*"]) with ((y :: w) ++ [ch "*"; ch "*"]).
  rewrite firstn_run. reflexivity.
Qed.

Lemma star_pair_none (prev : option N) (s : jsstring) :
  head_ok (fun c => negb (N.eqb (ch "*") c)) s = true ->
  match_here Serverless.re_star_pair prev (ch "*" :: s) = None.
Proof.
  intros H. unfold Serverless.re_star_pair, seqs, match_here, plus, c1, not1.
  cbn [rmatch]. rewrite star_is_star.
  destruct s as [|x s]; [reflexivity|].
  cbn [head_ok] in H. apply negb_true_iff in H. rewrite H. reflexivity.
Qed.

Lemma star_pair_bold (w : jsstring) :
  w <> [] -> starless w = true ->
  replace_all Serverless.re_star_pair em_of (js "**" ++ w ++ js "**")
  = js "*<em>" ++ w ++ js "</em>*".
Proof.
  intros Hne Hw. rewrite replace_all_emit.
  change (js "**" ++ w ++ js "**")
    with (ch "*" :: ch "*" :: w ++ [ch "*"; ch "*"]).
  rewrite scan_cons, star_pair_none
    by reflexivity.
  rewrite scan_cons, star_pair_here by assumption. cbv zeta.
  replace (length (ch "*" :: w ++ [ch "*"; ch "*"]) - length [ch "*"])
    with (S (length w + 1))
    by (cbn [length]; rewrite length_app; cbn [length]; lia).
  destruct (scan_skip Serverless.re_star_pair (length w + 1)
              (w ++ [ch "*"; ch "*"]) (Some (ch "*")) [])
    as [prev' ->]; [rewrite length_app; cbn [length]; lia|].
  replace (skipn (length w + 1) (w ++ [ch "*"; ch "*"])) with [ch "*"].
  2:{ rewrite skipn_app. replace (length w + 1 - length w) with 1 by lia.
      rewrite skipn_all2 by lia. reflexivity. }
  rewrite scan_cons, star_pair_none by reflexivity.
  rewrite scan_nil.
  assert (Hn : forall pv, match_here Serverless.re_star_pair pv [] = None)
    by reflexivity.
  rewrite Hn. cbn [fst snd]. rewrite emit_cons.
  unfold emit. cbn [fst snd map concat rev app].
  replace (firstn (S (length w + 1)) (ch "*" :: w ++ [ch "*"; ch "*"]))
    with (ch "*" :: w ++ [ch "*"]).
  2:{ cbn [firstn]. f_equal.
      change [ch "*"; ch "*"] with ([ch "*"] ++ [ch "*"]).
      rewrite app_assoc.
      replace (length w + 1) with (length (w ++ [ch "*"]))
        by (rewrite length_app; reflexivity).
      rewrite firstn_app, Nat.sub_diag, firstn_all. cbn [firstn].
      rewrite app_nil_r. reflexivity. }
  unfold em_of. cbn [snd cap Nat.eqb].
  change (js "*<em>") with (ch "*" :: js "<em>").
  change (js "</em>*") with (js "</em>" ++ [ch "*"]).
  cbn [app]. rewrite <- !app_assoc. reflexivity.
Qed.

Lemma linkless_tail (x : N) (s : jsstring) :
  linkless (x :: s) = true -> linkless s = true.
Proof.
  unfold linkless. cbn [forallb]. intros H. apply andb_prop in H. apply H.
Qed.

Lemma linkless_underscore_pair (prev : option N) (s : jsstring) :
  linkless s = true -> match_here Serverless.re_underscore_pair prev s = None.
Proof.
  intros H. unfold Serverless.re_underscore_pair, seqs, match_here, c1.
  cbn [rmatch]. destruct (xorb _ _); [|reflexivity].
  destruct s as [|x s]; [reflexivity|].
  unfold linkless in H. cbn [forallb] in H. apply andb_prop in H as [H _].
  apply andb_prop in H as [H _]. apply negb_true_iff in H. rewrite H.
  reflexivity.
Qed.

Lemma linkless_link (prev : option N) (s : jsstring) :
  linkless s = true -> match_here re_link prev s = None.
Proof.
  intros H. unfold re_link, seqs, match_here, c1. cbn [rmatch].
  destruct s as [|x s]; [reflexivity|].
  unfold linkless in H. cbn [forallb] in H. apply andb_prop in H as [H _].
  apply andb_prop in H as [_ H]. apply negb_true_iff in H. rewrite H.
  reflexivity.
Qed.

Lemma unmarked_starless (w : jsstring) :
  unmarked w = true -> starless w = true /\ linkless w = true.
Proof.
  unfold unmarked, starless, linkless.
  induction w as [|c w IH]; [split; reflexivity|].
  cbn [forallb]. intros H. apply andb_prop in H as [Hc Hw].
  destruct (IH Hw) as [-> ->]. unfold unmarked_char in Hc.
  apply andb_prop in Hc as [Hc H3]. apply andb_prop in Hc as [H1 H2].
  rewrite !(N.eqb_sym _ c), H1, H2, H3. split; reflexivity.
Qed.

Context {CM : CaseMap}.

(** X27: the rich text of the serverless function leaves the bold markup
    of a short text alone, and the italic rule then takes it: [**w**] of at
    most twenty code units comes out as [w] in [<em>] with an asterisk on
    either side, not in [<strong>]. *)
Theorem serverless_short_bold (w : jsstring) :
  w <> [] -> unmarked w = true -> length w <= 16 ->
  Serverless.formatRichText (js "**" ++ w ++ js "**")
  = js "*<em>" ++ w ++ js "</em>*".
Proof.
  intros Hne Hw Hlen. destruct (unmarked_starless w Hw) as [Hs Hl].
  unfold Serverless.formatRichText. cbv zeta.
  replace (20 <? length (js "**" ++ w ++ js "**")) with false.
  2:{ symmetry. apply Nat.ltb_ge. rewrite !length_app.
      change (length (js "**")) with 2. lia. }
  cbn [andb]. rewrite star_pair_bold by assumption.
  assert (Hr : linkless (js "*<em>" ++ w ++ js "</em>*") = true).
  { unfold linkless in *. rewrite !forallb_app, Hl. reflexivity. }
  rewrite (replace_all_none Serverless.re_underscore_pair em_of
             (fun s => linkless s = true) linkless_tail
             linkless_underscore_pair _ Hr).
  exact (replace_all_none re_link link_of (fun s => linkless s = true)
           linkless_tail linkless_link _ Hr).
Qed.

End ShortBold.

(** ** The serverless parser on blank content *)

Section ServerlessBlank.
Import RegexFacts Serverless.

Lemma trimStart_nil (s : jsstring) :
  trimStart s = [] -> forallb is_space s = true.
Proof.
  induction s as [|x s IH]; [reflexivity|]. cbn [trimStart forallb].
  destruct (is_space x); [exact IH|discriminate].
Qed.

Lemma trim_nil (s : jsstring) : trim s = [] -> forallb is_space s = true.
Proof.
  unfold trim, trimEnd. intros H.
  apply (f_equal (@rev N)) in H. rewrite rev_involutive in H. cbn [rev] in H.
  apply trimStart_nil in H. rewrite forallb_rev in H.
  destruct (trimStart s) as [|y t] eqn:E; [apply trimStart_nil; exact E|].
  pose proof (trimStart_head s y t E) as Hy.
  cbn [forallb] in H. rewrite Hy in H. discriminate.
Qed.

Lemma split_lines_blank :
  forall s acc,
    Forall (fun l => trim l = []) (split_go nl s 0 acc) ->
    forallb is_space acc = true /\ forallb is_space s = true.
Proof.
  induction s as [|x s IH]; intros acc H; cbn [split_go] in H.
  - inversion H as [|? ? Hl _]; subst. apply trim_nil in Hl.
    rewrite forallb_rev in Hl. split; [exact Hl|reflexivity].
  - unfold nl in H. rewrite startsWith_one in H.
    destruct (N.eqb 10 x) eqn:Hx.
    + apply N.eqb_eq in Hx. subst x.
      inversion H as [|? ? Hl Hrest]; subst. apply trim_nil in Hl.
      rewrite forallb_rev in Hl. cbn [length Nat.sub] in Hrest.
      destruct (IH [] Hrest) as [_ Hs]. split; [exact Hl|].
      cbn [forallb]. rewrite Hs. reflexivity.
    + destruct (IH (x :: acc) H) as [Hacc Hs]. cbn [forallb] in Hacc.
      apply andb_prop in Hacc as [Hx' Hacc]. split; [exact Hacc|].
      cbn [forallb]. rewrite Hx', Hs. reflexivity.
Qed.

Lemma filter_nil_forall (A : Type) (p : A -> bool) (l : list A) :
  filter p l = [] -> Forall (fun x => p x = false) l.
Proof.
  induction l as [|x l IH]; [constructor|]. cbn [filter].
  destruct (p x) eqn:Hx; [discriminate|]. intros H.
  constructor; [exact Hx|apply IH; exact H].
Qed.

Lemma filter_blank (lines : list jsstring) :
  Forall (fun l => forallb is_space l = true) lines ->
  filter (fun line => DocumentParser.truthy (trim line)) lines = [].
Proof.
  induction 1 as [|l lines Hl _ IH]; [reflexivity|].
  cbn [filter]. rewrite (trim_spaces l Hl). exact IH.
Qed.

Context {CM : CaseMap}.

Lemma close_if_open_length (st : state) :
  length (html st) <= length (close_if_open st).
Proof.
  unfold close_if_open. destruct (inList st); [|lia].
  rewrite length_app. lia.
Qed.

Lemma step_grows (st : state) (l : jsstring) :
  DocumentParser.truthy (trim l) = true ->
  length (html st) < length (html (step st l)).
Proof.
  intros Ht. unfold step. cbv zeta. rewrite Ht. cbn [negb].
  pose proof (close_if_open_length st) as Hc.
  destruct (isHeading (trim l)).
  { cbn [html]. rewrite !length_app. change (length (js "<h")) with 2. lia. }
  destruct (DocumentParser.isListItem (trim l)).
  { destruct (negb (inList st) || _).
    - cbn [html]. rewrite !length_app.
      change (length (js "  <li>")) with 6. lia.
    - cbn [html]. rewrite !length_app.
      change (length (js "  <li>")) with 6. lia. }
  cbn [html]. rewrite !length_app. change (length (js "<p>")) with 3. lia.
Qed.

Lemma fold_step_grows :
  forall lines st,
    Forall (fun l => DocumentParser.truthy (trim l) = true) lines ->
    length (html st) + length lines
    <= length (html (fold_left step lines st)).
Proof.
  induction lines as [|l lines IH]; intros st H; cbn [fold_left length].
  - lia.
  - inversion H as [|? ? Hl Hrest]; subst.
    pose proof (step_grows st l Hl). pose proof (IH (step st l) Hrest). lia.
Qed.

(** X28: the rule-based parser of the serverless function returns the
    empty string exactly for a content of white space only: every line that
    is not blank adds to the html, and without such a line nothing is
    written, no table of contents either. *)
Theorem parseContentWithRules_empty (content : jsstring) :
  parseContentWithRules content = [] <-> forallb is_space content = true.
Proof.
  unfold parseContentWithRules. cbv zeta.
  set (lines := filter _ (split nl content)).
  split.
  - intros H.
    assert (Hl : lines = []).
    { destruct lines as [|l lines'] eqn:E; [reflexivity|]. exfalso.
      assert (Hall : Forall (fun l => DocumentParser.truthy (trim l) = true)
                       (l :: lines')).
      { rewrite <- E. apply Forall_forall. intros x Hx.
        apply filter_In in Hx. apply Hx. }
      pose proof (fold_step_grows (l :: lines')
                    {| html := []; inList := false; currentListType := None;
                       headings := [] |} Hall) as Hg.
      pose proof (close_if_open_length
                    (fold_left step (l :: lines')
                       {| html := []; inList := false;
                          currentListType := None; headings := [] |})) as Hc.
      cbn [length html] in Hg.
      destruct (0 <? length (headings _)) in H;
        apply (f_equal (@length N)) in H; rewrite ?length_app in H;
        cbn [length] in H; lia. }
    apply filter_nil_forall in Hl.
    apply (split_lines_blank content []).
    eapply Forall_impl; [|exact Hl]. cbv beta. intros l Hf.
    destruct (trim l); [reflexivity|discriminate].
  - intros H. unfold lines, split.
    rewrite (filter_blank _
               (split_go_forallb is_space nl content 0 [] H eq_refl)).
    reflexivity.
Qed.

End ServerlessBlank.

(** ** The structure of a DOCX file *)

Section DocxStructure.
Import RegexFacts DocumentParser Claims Behaviour.
Context {CM : CaseMap}.

(** X29: the structure of a DOCX file has at most one element, a heading,
    a list item or a paragraph, because the extracted text is one line; the
    score of such a document is at most 20. *)
Theorem docx_structure_single (text : jsstring) :
  let s := analyzeTextStructure (extractTextFromDocx text) in
  length (headings s) + item_count (lists s) + length (paragraphs s) <= 1
  /\ AIDocumentParser.calculateSEOScore headings_level (scored s) <= 20.
Proof.
  cbv zeta.
  destruct (docx_text_facts text) as (_ & _ & _ & Hline). cbv zeta in Hline.
  set (t := extractTextFromDocx text) in *.
  set (init := ({| headings := []; paragraphs := []; lists := [];
                   tables := []; sections := [] |}, @None jsstring)).
  set (lines := filter (fun line => truthy (trim line)) (split nl t)).
  assert (Hn : length lines <= 1).
  { unfold lines. rewrite Hline. cbn [filter].
    destruct (truthy (trim t)); cbn [length]; lia. }
  assert (Hacc : accounted (analyzeTextStructure t) <= 1).
  { unfold analyzeTextStructure.
    rewrite analyze_lines_accounted, filter_idem.
    fold lines. unfold accounted, item_count. cbn. lia. }
  split; [exact Hacc|].
  assert (Hlev : Forall (fun h => 2 <= headings_level h <= 4)
                   (headings (analyzeTextStructure t))).
  { unfold analyzeTextStructure. apply analyze_lines_levels. constructor. }
  assert (Hls : length (lists (analyzeTextStructure t))
                <= item_count (lists (analyzeTextStructure t))).
  { unfold analyzeTextStructure. fold lines. fold init.
    apply (lists_items_count (0 + length lines)).
    apply analyze_lines_within. constructor. }
  rewrite (seo_of_structure _ Hlev). unfold accounted in Hacc.
  destruct (0 <? length (headings (analyzeTextStructure t))) eqn:E1;
    destruct (0 <? length (lists (analyzeTextStructure t))) eqn:E2;
    destruct (5 <? length (paragraphs (analyzeTextStructure t))) eqn:E3;
    try apply Nat.ltb_lt in E1; try apply Nat.ltb_lt in E2;
    try apply Nat.ltb_lt in E3; lia.
Qed.

End DocxStructure.

(** ** Evaluations on ASCII text *)

#[local] Existing Instance ascii_case.

Import Examples.

Lemma processSectionContent_unknown_tag_witness :
  (SectionDetector.lookup (js "sidebar") SectionDetector.sectionTemplates
   = None
   /\ SectionDetector.lookup (js "sidebar") SectionDetector.object_prototype
      = None
   /\ SectionDetector.processSectionContent (js "sidebar") (js "Some text")
        [SectionDetector.IStr (js "a line")]
      = Ok (SectionDetector.VString (js "<p>Some text</p>")))
  /\ (SectionDetector.lookup (js "valueOf") SectionDetector.object_prototype
      = Some SectionDetector.ValueOf
      /\ SectionDetector.processSectionContent (js "valueOf")
           (js "Some text") [SectionDetector.IStr (js "a line")]
         <> Ok (SectionDetector.VString (js "<p>Some text</p>"))).
Proof.
  split.
  - split; [reflexivity|]. split; [reflexivity|].
    exact (proj1 (proj2 (proj2 processSectionContent_unknown_tag))
             (js "sidebar") (js "Some text")
             [SectionDetector.IStr (js "a line")] eq_refl eq_refl).
  - split; [reflexivity|].
    exact (proj2 (proj2 (proj2 (proj2 processSectionContent_unknown_tag))
                    (js "valueOf") SectionDetector.ValueOf (js "Some text")
                    [SectionDetector.IStr (js "a line")] eq_refl)).
Defined.

Lemma longest_trigger (keyword sectionType : jsstring) :
  In (keyword, sectionType) SectionDetector.sectionMappings ->
  length keyword <= 28.
Proof.
  assert (H : Forall (fun e => length (fst e) <= 28)
                SectionDetector.sectionMappings).
  { unfold SectionDetector.sectionMappings.
    repeat (constructor; [vm_compute; repeat constructor|]). constructor. }
  intros Hin. rewrite Forall_forall in H. exact (H _ Hin).
Qed.

Lemma detectSectionType_long_line_witness :
  includes (toUpperCase faq_prose) (js "FAQ") = true
  /\ SectionDetector.detectSectionType faq_prose = None.
Proof.
  split.
  - reflexivity.
  - apply (detectSectionType_long_line faq_prose).
    + reflexivity.
    + intros keyword sectionType Hin.
      apply longest_trigger in Hin.
      change (length (trim (toUpperCase faq_prose))) with 59.
      lia.
Defined.

(** *** The model on the examples of the specification *)

Example generateId_whats_new :
  DocumentParser.generateId (js "What's New?") = js "whats-new".
Proof. reflexivity. Qed.

(** A short data row is padded to the width of the header. *)
Example table_row_padded :
  SectionDetector.processTableItems [js "A|B|C"; js "1|2"]
  = unlines
      [ js "";
        js "<div class=~table-responsive travel_table v-middle~>";
        js "    <table class=~table table-bordered~ dir=~ltr~ border=~1~ cellspacing=~0~ cellpadding=~0~>";
        js "        <tbody>";
        js "            <tr>";
        js "                <th style=~width: 33%;~>A</th>";
        js "                <th style=~width: 33%;~>B</th>";
        js "                <th style=~width: 33%;~>C</th>";
        js "            </tr>";
        js "            <tr>";
        js "                <td>1</td>";
        js "                <td>2</td>";
        js "                <td></td>";
        js "            </tr>";
        js "        </tbody>";
        js "    </table>";
        js "</div>" ].
Proof. reflexivity. Qed.

(** A heading, a list and a paragraph outside every section. *)
Example convert_plain_document :
  DocumentParser.convertTextToHTML
    (unlines [ js "Getting Started Guide"; js "- first"; js "- second";
               js ""; js "Some **bold** prose." ])
  = Ok (unlines
          [ js "<h2 id=~getting-started-guide~>Getting Started Guide</h2>";
            js "<ul class=~bullet-new-box~> <li>first</li> <li>second</li>";
            js "</ul>";
            js "<p>Some <strong>bold</strong> prose.</p>" ]).
Proof. reflexivity. Qed.

(** *** The id generators on a question heading *)

Lemma cpp_question_is_heading :
  DocumentParser.isHeading cpp_question = true
  /\ DocumentParser.cleanHeadingText cpp_question = cpp_question.
Proof. split; reflexivity. Qed.

(** C4: on the heading text [What is C++ ?] the client-side generator returns
    a slug that ends in a hyphen, where the claim allows none. *)
Theorem generateId_trailing_hyphen :
  DocumentParser.generateId cpp_question = js "what-is-c-"
  /\ last (DocumentParser.generateId cpp_question) 0%N = ch "-".
Proof. split; reflexivity. Qed.

(** The generator of the Express server removes the hyphen on the same
    text. *)
Lemma server_generateId_strips_hyphen :
  Server.generateId cpp_question = js "what-is-c".
Proof. reflexivity. Qed.

(** *** Heading levels of the fallbacks *)

(** C1: on the all-capitals line [INTRODUCTION] the fallback of the
    serverless parse function assigns level 1 and writes an [h1] element. *)
Theorem serverless_heading_level_one :
  Serverless.isHeading (js "INTRODUCTION") = true
  /\ Serverless.getHeadingLevel (js "INTRODUCTION") = 1
  /\ Serverless.parseContentWithRules (js "INTRODUCTION")
     = unlines
         [ js "<div class=~blog_index_cover~>";
           js "    <p class=~blog_index_toggle_btn fonts-16 w-700~>Table Of Contents</p>";
           js "    <ol class=~blog_index~>        <li><a href=~#introduction~>INTRODUCTION</a></li>";
           js "    </ol>";
           js "</div>";
           js "<h1 id=~introduction~>INTRODUCTION</h1>";
           js "" ].
Proof. repeat split; reflexivity. Qed.

(** The fallback of the Express server assigns level 1 to a long line in
    capitals. *)
Lemma server_heading_level_one :
  Server.getHeadingLevel (js "INTRODUCTION TO THE TOPIC") = 1.
Proof. reflexivity. Qed.

(** DocumentParser renders the same line as a level 2 heading. *)
Lemma documentParser_heading_level_two :
  DocumentParser.convertTextToHTML (js "INTRODUCTION")
  = Ok (js "<h2 id=~introduction~>INTRODUCTION</h2>").
Proof. reflexivity. Qed.

(** *** The steps template *)

(** C5: a buffered line without a colon is rendered with the whole line as
    its title (and as its description); the numbered title [Step 1] is not
    used. *)
Theorem steps_title_without_colon :
  SectionDetector.processSectionContent (js "steps") []
    [SectionDetector.IStr (js "Launch the app")]
  = Ok (SectionDetector.VString
          (unlines
             [ js "";
               js "<ol class=~listing-bx~>";
               js "    <li>";
               js "        <h3>Launch the app</h3>";
               js "        <p>Launch the app</p>";
               js "    </li>";
               js "</ol>" ])).
Proof. reflexivity. Qed.

(** The numbered title is used when the text before the first colon is
    empty; a line with a colon is split at the first one. *)
Lemma steps_title_numbered :
  SectionDetector.steps_item (js ": open the settings") 2
  = unlines
      [ js "    <li>";
        js "        <h3>Step 3</h3>";
        js "        <p>open the settings</p>";
        js "    </li>" ]
  /\ SectionDetector.steps_item (js "Install: run a:b") 0
     = unlines
         [ js "    <li>";
           js "        <h3>Install</h3>";
           js "        <p>run a:b</p>";
           js "    </li>" ].
Proof. split; reflexivity. Qed.

(** *** cleanupHTML *)

Lemma cleanupHTML_nested_empty_p :
  DocumentParser.cleanupHTML nested_empty_p = js "<p></p>"
  /\ DocumentParser.cleanupHTML (js "<p></p>") = [].
Proof. split; reflexivity. Qed.

(** C2, counterexample: cleaning the cleaned form of [<p><p></p></p>]
    changes it again. *)
Lemma cleanupHTML_not_idempotent :
  DocumentParser.cleanupHTML (DocumentParser.cleanupHTML nested_empty_p)
  <> DocumentParser.cleanupHTML nested_empty_p.
Proof. vm_compute. discriminate. Qed.

(** The cleaned form of the counterexample still holds an empty
    paragraph. *)
Lemma nested_empty_p_not_settled :
  Claims.settled (DocumentParser.cleanupHTML nested_empty_p) = false.
Proof. vm_compute. reflexivity. Qed.

Lemma cleanupHTML_stability_witness :
  (Claims.settled (DocumentParser.cleanupHTML marked_up) = true
   /\ DocumentParser.cleanupHTML (DocumentParser.cleanupHTML marked_up)
      = DocumentParser.cleanupHTML marked_up)
  /\ (DocumentParser.cleanupHTML (DocumentParser.cleanupHTML (js "<p>hello</p>"))
      = DocumentParser.cleanupHTML (js "<p>hello</p>")
      /\ Claims.settled (DocumentParser.cleanupHTML (js "<p>hello</p>")) = true)
  /\ (RegexFacts.plain spaced_text = true
      /\ DocumentParser.cleanupHTML (DocumentParser.cleanupHTML spaced_text)
         = DocumentParser.cleanupHTML spaced_text).
Proof.
  assert (Hs : Claims.settled (DocumentParser.cleanupHTML marked_up) = true)
    by (vm_compute; reflexivity).
  assert (Hi : DocumentParser.cleanupHTML
                 (DocumentParser.cleanupHTML (js "<p>hello</p>"))
               = DocumentParser.cleanupHTML (js "<p>hello</p>"))
    by (vm_compute; reflexivity).
  split; [|split]; split.
  - exact Hs.
  - exact (proj2 (proj1 (proj2 cleanupHTML_stability) marked_up) Hs).
  - exact Hi.
  - exact (proj1 (proj1 (proj2 cleanupHTML_stability) (js "<p>hello</p>"))
             Hi).
  - reflexivity.
  - exact (proj2 (proj2 cleanupHTML_stability) spaced_text eq_refl).
Defined.

(** *** Sections *)



(** C8, counterexample: a trigger heading inside an ignore region ends the
    ignore section, and what follows it in the region is rendered; the same
    input with an empty region yields the empty string. *)
Lemma ignore_region_with_trigger_is_rendered :
  DocumentParser.convertTextToHTML ignore_with_trigger
  = Ok (js "<h2 id=~key-takeaways~>KEY TAKEAWAYS</h2> <ul class=~kta-list~> <p>Key Takeaways</p> <li>foo</li>"
        ++ nl ++ js "</ul>")
  /\ DocumentParser.convertTextToHTML ignore_empty = Ok []
  /\ DocumentParser.convertTextToHTML ignore_with_trigger
     <> DocumentParser.convertTextToHTML ignore_empty.
Proof. repeat split; try reflexivity. vm_compute. discriminate. Qed.

(** An ignore region between two list items splits their list in two. *)
Lemma ignore_region_splits_list :
  DocumentParser.convertTextToHTML
    (unlines [ js "- a"; js "<IGNORE>"; js "x"; js "<IGNORE END>"; js "- b" ])
  <> DocumentParser.convertTextToHTML (unlines [ js "- a"; js "- b" ]).
Proof. vm_compute. discriminate. Qed.

Lemma ignore_region_is_dropped_witness :
  Claims.opens_ignore (js "<IGNORE>") = true
  /\ forallb Claims.inert inert_region = true
  /\ Claims.closes_section (js "<IGNORE END>") = true
  /\ DocumentParser.loop
       (js "<IGNORE>" :: inert_region ++ js "<IGNORE END>" :: [js "after text."])
       0 DocumentParser.initial
     = DocumentParser.loop
         (js "<IGNORE>" :: js "<IGNORE END>" :: [js "after text."])
         0 DocumentParser.initial.
Proof.
  split; [reflexivity|]. split; [reflexivity|]. split; [reflexivity|].
  apply (proj1 (proj2 ignore_region_is_dropped)); reflexivity.
Defined.

(** *** The FAQ renderer *)



(** *** Triggers *)

Lemma detected_type_has_template_witness :
  SectionDetector.detectSectionType (js "Key Points:") = Some (js "key-takeaways")
  /\ exists template,
       SectionDetector.lookup (js "key-takeaways")
         SectionDetector.sectionTemplates = Some template.
Proof.
  split; [reflexivity|].
  apply (detected_type_has_template (js "Key Points:")). reflexivity.
Defined.

Lemma trigger_phrase_is_detected_witness :
  In (js "FAQ", js "faq") SectionDetector.sectionMappings
  /\ SectionDetector.detectSectionType (js "  faq ") = Some (js "faq").
Proof.
  assert (Hin : In (js "FAQ", js "faq") SectionDetector.sectionMappings).
  { unfold SectionDetector.sectionMappings. do 26 right. left. reflexivity. }
  split; [exact Hin|].
  apply (trigger_phrase_is_detected (js "  faq ") (js "FAQ") (js "faq") Hin).
  reflexivity.
Defined.

(** *** The FAQ renderer at its edges *)

Lemma faq_questions_only_witness :
  Forall Claims.question [js "What is X?"; js "Why use X?"]
  /\ SectionDetector.processFAQItems [js "What is X?"; js "Why use X?"] = [].
Proof.
  assert (Hq : Forall Claims.question [js "What is X?"; js "Why use X?"]).
  { repeat constructor; try discriminate. }
  split; [exact Hq|]. exact (faq_questions_only _ Hq).
Defined.

Lemma faq_without_question_witness :
  Forall Claims.answer
    [js "Our team answers within a day."; js "Thanks."]
  /\ SectionDetector.processFAQItems
       [js "Our team answers within a day."; js "Thanks."]
     = js "    <p>Our team answers within a day.</p>" ++ nl.
Proof.
  assert (Ha : Forall Claims.answer
                 [js "Our team answers within a day."; js "Thanks."]).
  { repeat constructor; try discriminate. }
  split; [exact Ha|]. exact (faq_without_question _ Ha).
Defined.

(** *** List items and table rows *)

Lemma cleanListItem_marker_witness :
  Behaviour.is_bullet (ch "-") = true
  /\ DocumentParser.cleanListItem (js "- first item") = js "first item"
  /\ test DocumentParser.re_ordered (js "1. first item") = true
  /\ DocumentParser.cleanListItem (js "1. first item") = js "1. first item".
Proof.
  split; [reflexivity|]. split.
  - exact (proj1 cleanListItem_marker (ch "-") (ch " ") (js "first item")
             eq_refl eq_refl).
  - split; [reflexivity|].
    exact (proj2 cleanListItem_marker (js "1. first item") eq_refl).
Defined.

(** *** Inline markup and steps *)

Lemma formatRichText_unmarked_witness :
  Behaviour.unmarked (js "Plain prose, no markup.") = true
  /\ DocumentParser.formatRichText (js "Plain prose, no markup.")
     = js "Plain prose, no markup.".
Proof.
  split; [reflexivity|].
  exact (formatRichText_unmarked (js "Plain prose, no markup.") eq_refl).
Defined.

Lemma steps_item_parts_witness :
  includes (js "Launch the app") (js ":") = false
  /\ SectionDetector.steps_item (js "Launch the app") 0
     = Behaviour.step_html (js "Launch the app") (js "Launch the app")
  /\ SectionDetector.steps_item (js "Install: run the setup") 1
     = Behaviour.step_html (js "Install") (js "run the setup").
Proof.
  split; [reflexivity|]. split.
  - apply (proj1 steps_item_parts (js "Launch the app") 0);
      [reflexivity|discriminate].
  - exact (proj2 steps_item_parts (js "Install") (js " run the setup") 1
             eq_refl).
Defined.

(** *** The whole conversion *)

Lemma convertTextToHTML_blank_witness :
  forallb is_space (js "  " ++ nl ++ nl ++ js " ") = true
  /\ DocumentParser.convertTextToHTML (js "  " ++ nl ++ nl ++ js " ") = Ok [].
Proof.
  split; [reflexivity|].
  exact (convertTextToHTML_blank (js "  " ++ nl ++ nl ++ js " ") eq_refl).
Defined.

Lemma heading_in_section_flushes_witness :
  DocumentParser.isHeading (js "How does it work?") = true
  /\ Claims.trigger_of (js "How does it work?") = None
  /\ exists out,
       Claims.closing_output in_faq = Ok out
       /\ DocumentParser.body (js "How does it work?") [] in_faq
          = Ok (0, DocumentParser.set_items
                     (DocumentParser.set_html in_faq
                        (DocumentParser.html in_faq ++ out))
                     [js "How does it work?"])
       /\ (DocumentParser.is_section in_faq "faq" = true ->
           DocumentParser.sectionItems in_faq <> [] ->
           out = Behaviour.faq_block (DocumentParser.sectionItems in_faq)).
Proof.
  split; [reflexivity|]. split; [reflexivity|].
  apply (heading_in_section_flushes (js "How does it work?") [] in_faq);
    reflexivity.
Defined.

Lemma table_row_after_empty_line_witness :
  Behaviour.table_line (js "a | b") = true
  /\ Behaviour.table_line (js "1 | 2") = true
  /\ DocumentParser.loop [js "a | b"; js ""; js "1 | 2"] 0
       DocumentParser.initial
     = Ok (DocumentParser.set_html DocumentParser.initial
             (SectionDetector.processTableItems [js "a | b"; js "1 | 2"]
              ++ js "<p>1 | 2</p>" ++ nl)).
Proof.
  split; [reflexivity|]. split; [reflexivity|].
  exact (proj2 (table_row_after_empty_line (js "a | b") (js "") (js "1 | 2")
                  DocumentParser.initial eq_refl eq_refl eq_refl eq_refl)).
Defined.

Lemma isValidFormat_extension_witness :
  toLowerCase (js "Notes.v2.TXT") = map lower1 (js "Notes.v2.TXT")
  /\ DocumentParser.isValidFormat (js "Notes.v2.TXT")
     = existsb (endsWith (map lower1 (js "Notes.v2.TXT"))) DocumentParser.supportedFormats.
Proof.
  split; [reflexivity|].
  apply (isValidFormat_extension (js "Notes.v2.TXT")). reflexivity.
Defined.

Lemma isHeading_short_line_witness :
  length (trim (js "FAQ")) <= 5 /\ DocumentParser.isHeading (js "FAQ") = false.
Proof.
  split; [vm_compute; lia|].
  rewrite (isHeading_short_line (js "FAQ")); [reflexivity|vm_compute; lia].
Defined.

Lemma short_word_is_text_witness :
  trim (js "FAQ") <> []
  /\ DocumentParser.body (js "FAQ") [js "What is it?"] DocumentParser.initial
     = Ok (0, DocumentParser.set_html DocumentParser.initial (js "<p>FAQ</p>" ++ nl)).
Proof.
  split; [discriminate|].
  apply (short_word_is_text (js "FAQ") [js "What is it?"] DocumentParser.initial);
    [discriminate|vm_compute; lia|reflexivity|reflexivity].
Defined.

Lemma serverless_short_bold_witness :
  js "bold" <> []
  /\ Serverless.formatRichText (js "**bold**") = js "*<em>bold</em>*".
Proof.
  split; [discriminate|].
  apply (@serverless_short_bold _ (js "bold"));
    [discriminate|reflexivity|vm_compute; lia].
Defined.
